(* ===== verification/_CoqProject ===== *)
-Q . S2P
Prelude.v
GoText.v
GoSha256.v
GoJson.v
GoNet.v
GoScan.v
LedgerModel.v
LedgerModelFacts.v
LedgerStore.v
LedgerInv.v
LedgerOps.v
LedgerHistory.v
LedgerRefs.v
LedgerAdmission.v
LedgerProps.v
LedgerOutcomes.v
Envelope.v
DispatchPolicy.v
Config.v
Gateway.v
DispatchStore.v
Terminal.v
ExternalWait.v
CIRepair.v
DispatchLoop.v
Broker.v
Release.v
WorkRouter.v
DispatchFacts.v
ConfigFacts.v
GatewayFacts.v
DispatchInv.v
DispatchSteps.v
LoopFacts.v
BrokerFacts.v
DispatchProps.v
DispatchQueue.v
TerminalFacts.v
WorkRouterFacts.v
GoTime.v
GoCodec.v
PushStore.v
PushScan.v
RawJsonFacts.v
PushWire.v
EventBus.v
CompactFacts.v
Recovery.v
PushStoreFacts.v
EventBusFacts.v
WireFacts.v
PushInv.v
PushRegistry.v
PushOutbox.v
PushScanFacts.v
PushEncodings.v
PushProps.v
RouteResolver.v
Shadow.v
RouteResolverFacts.v
ShadowFacts.v
Observer.v
ObserverFacts.v
GatewayMetrics.v
Startup.v
Commands.v
RecoveryFacts.v
RecoveryProps.v
StartupFacts.v
ServeFacts.v
TickFacts.v
