(* ===== verification/Prelude.v ===== *)
(** * Signal Plane: a verification development

    Signal Plane receives webhooks, publishes them as signals on a JetStream stream, and turns signals
    into work that external brokers perform: repository tasks on GitHub issues, uploads of published
    releases, launches of work items, and alarms about pushed credentials.  Every part that keeps state
    keeps it in SQLite, and correctness is what the database says after any sequence of operations,
    replies, crashes and restarts.

    ** The parts and the files that model them

    Libraries of the language, as far as the program uses them: [Prelude] (results with errors and panics, record updates, tables
    as lists with SQL-like selection and update, tactics and hints), [GoText] (strings, UTF-8, numbers),
    [GoSha256], [GoJson] (encoding/json), [GoNet], [GoScan], [GoTime], [GoCodec] (base64, percent escapes, the regular
    expressions of the push scanner), [Envelope] (struct decoding that keeps raw members).

    - Work ledger, internal/workledger.  [LedgerModel]: routes, events, digests, release operations, agent bindings, executor registry, GitHub
      adapter.  [LedgerStore]: every method of store.go on the record [Ledger] of its tables.  [LedgerInv],
      [LedgerOps], [LedgerHistory], [LedgerRefs]: the execution invariant, operations as the relation [ledger_step], how items evolve, references and
      keys.  [LedgerModelFacts], [LedgerAdmission], [LedgerProps], [LedgerOutcomes]: the theorems.
    - Configuration, internal/config.  [Config], [ConfigFacts].
    - Gateway, internal/gateway and internal/source/githubwebhook.  [Gateway], [GatewayFacts], [GatewayMetrics].
    - Event bus, internal/eventbus and internal/envelope.  [EventBus] over the class [JetStream]; [CompactFacts]: the compaction of a payload keeps its JSON value;
      [EventBusFacts] under the laws [JetStreamLaws], which a map of consumers satisfies; [WireFacts]: gateway, wire and ledger adapter composed.
    - Dispatcher, internal/dispatcher.  [DispatchPolicy]: pure decisions.  [DispatchStore], [Terminal], [ExternalWait], [CIRepair]: the methods on the
      record [DB] of its tables.  [DispatchLoop]: RunOne, Process and ProcessRecovery as programs on a world (the database, and every
      broker call with the database it was made on).  [Broker]: the HTTP client.  [DispatchInv] and [DispatchSteps]: the order [db_le] that every operation respects and the
      relation [store_step].  [DispatchFacts], [LoopFacts], [BrokerFacts], [DispatchProps], [DispatchQueue], [TerminalFacts]: the theorems.
    - Release pipeline and launcher, internal/resumeupload and internal/workitemlaunch.  [Release]: GitHub reader and YouKnowMe client.
      [WorkRouter]: ingress, executors and the worker, every outside effect kept with the ledger it happened on.  [WorkRouterFacts]: the worker against the interface [SafeExecutor], which the executors implement.
    - Route resolver and shadow admission, internal/routeresolver, shadowadmit, shadowingress, shadowingresscmd, routeactivatecmd.  [RouteResolver],
      [Shadow], [RouteResolverFacts], [ShadowFacts]; the ingress is verified against the interface [StableResolver].
    - Push scanner, internal/pushscan and the loop of cmd/push-security-scanner.  [PushStore], [PushScan], [PushWire]; [RawJsonFacts], [PushStoreFacts], [PushInv],
      [PushRegistry], [PushOutbox], [PushScanFacts], [PushEncodings], [PushProps].
    - Recovery, internal/recovery.  [Recovery], [RecoveryFacts], [RecoveryProps].
    - Processes, cmd/github-task-dispatcher/main.go and resumeupload/service.go.  [Startup]: Build of the release pipeline with its two loops, the start of
      the dispatcher, its standby, its fetch loop, its worker and its health metrics.  [Commands]: recover, recovery-metadata, reconcile-failed-launch,
      reconcile-report.  [StartupFacts], [ServeFacts], [TickFacts].
    - Observer, internal/observer and cmd/signal-observer.  [Observer], [ObserverFacts].

    ** How definitions correspond to the code

    A table is the list of its rows in insertion order; a method is a function from the tables and its arguments to the tables
    and a [res], with the transaction boundaries of the source ([transact] rolls back on an error) and the constraints of the schema
    where a statement can violate them.  Integers are [Z] with the width written out where it matters (stored uint64 sequences refuse the
    high bit, int64 columns, wrap-around of sequence + 1); times are instants in nanoseconds, truncated to milliseconds where a column
    stores them.  Errors keep their text, except that Config, RouteResolver, Shadow, EventBus, Startup and Commands omit the values a message interpolates or
    wraps.  Definitions keep the names of the source; parts of a long function carry names of their own.

    ** What the theorems show

    - Ledger: at most one active item and one lease per serialization key in every reachable database; every operation refines the state machine of work
      items; terminal work never changes; admission of a delivery is idempotent and refuses a conflicting replay; a claim always commits, takes the
      first due item and reports no work only when there is none; routes survive their encoding.
    - Dispatcher: identities, launched runs, results and reports are final; a delivery is acknowledged only after its row, its job and the checkpoint are persisted; a step launches
      at most the oldest unfinished job, with its attempt already counted, inside the window; waits progress; delays are bounded; the HTTP client meets the contract the loop relies on
      and classifies every exchange.
    - Recovery and start: a recovery only reads from the broker; one that failed leaves the gate as it was or keeps every dispatcher from starting; the first one that succeeds
      for a durable and start sequence reports every restored job and opens the gate for its configuration; one that failed after its replay can never be completed; a start has passed
      every check.
    - Gateway and bus: exactly the signed, admitted requests are published; only they become events of the ledger, with the JSON wire in between; a signal is decoded
      with its metadata and the JSON value of its payload, whatever JSON that is up to the nesting the decoder allows.
    - Release pipeline: effects happen under a durable claim; a delivery is acknowledged only when recorded; from its build on, under any interleaving of the calls of its loops,
      the pipeline leaves nothing claimed between calls, and each tick of its executor loop ends.
    - Shadow admission: the ingress only admits, under routes of the deployment; activation fails closed; a resolver is its table.
    - Push scanner: scans end; a token inside a text under layers of the encodings up to the depth is found, a quiet verdict means a search or a push outside the catalog; a verdict is durable before its message is
      acknowledged and final afterwards; the registry changes only fingerprints.
    - Observer: labels, backoff and readiness keep to their types whatever is delivered.

    ** Fuel and bounds

    [parse_value] runs with [json_fuel], twice the length of the text and two, proved enough for every text the encoder writes and, with [CompactFacts], for
    the compacted text of whatever was parsed; each step of
    [raw_members_go] and [raw_elements_go] consumes text and their fuel is its length; [sha_blocks] takes one step per block; [dec_go] one per digit; [token_chunks]
    consumes its text; [scan_loop] runs with [scan_fuel], one more than the largest number of candidates, and [push_scan_terminates] shows that it ends and that
    more fuel changes nothing.  [drain] and [executor_tick] are the inner loops of a worker, which the source does not bound; they tell whether
    they ended, and their safety theorems hold for every fuel; [executor_tick_terminates] bounds [executor_tick] by one call more than the attempts left.

    ** Parameters

    What the program calls and does not define is a parameter, as a class or an argument: URL and duration parsing ([NetURL],
    [GoDuration]), the environment ([Environ]), files ([FileSystem]), lower-casing beyond ASCII ([GoUnicode]), the text of floats ([GoFloat]), the YAML decoder ([YamlConfig] and the
    decoded configuration), HTTP transports ([HttpClient], [GitHubTransport], [YKMTransport], [PushTransport]), JetStream ([JetStream], [ReplayStream]), parsing
    of the GitHub App key, random ids, clocks, peer credentials, and the replies of brokers and sinks.  Theorems hold for all of them unless a named law is
    assumed, and each assumed law has an instance that satisfies it.

    ** Not modelled

    Connections, PRAGMAs and the text of the schema migrations (the data migration of OpenStore is modelled); HTTP listeners and request multiplexing; TLS, JWT
    signing and redirects, which belong to the transports; NATS dialling and the wire of Fetch; logging, the Prometheus registries and histograms
    (counters with labels are modelled for the gateway and the observer, lifecycle gauges for the dispatcher); flag parsing, signals and shutdown; the scheduling
    of goroutines inside one call: loops are interleaved call by call, and each ledger or store transaction is atomic, as the single connection makes
    it; the wiring of cmd/signal-gateway and cmd/push-security-scanner, and the retired standby command cmd/resume-release-router. *)

From stdpp Require Export base list strings numbers.
From Stdlib Require Export ZArith Lia.

(** ** Scope and basic notation *)

Declare Scope go_scope.
Delimit Scope go_scope with go.
Open Scope go_scope.
Open Scope Z_scope.

(** Go's [==] and [!=] on comparable values, as booleans. *)
Notation "a == b" := (bool_decide (a = b)) (at level 70, no associativity) : go_scope.
Notation "a != b" := (negb (bool_decide (a = b))) (at level 70, no associativity) : go_scope.

(** Concatenation computes on constructors. *)
#[global] Arguments String.append !_ _ / : simpl nomatch.

(** ** Results

    A Go function that returns [(A, error)] is a [res A]; the message of
    the error is kept.  A run-time panic is a third outcome. *)

Inductive res (A : Type) : Type :=
  | Ok (a : A)
  | Err (e : string)
  | Panic.
Arguments Ok {A} a.
Arguments Err {A} e.
Arguments Panic {A}.

#[export] Instance res_ret : MRet res := fun A a => Ok a.
#[export] Instance res_bind : MBind res := fun A B f m =>
  match m with Ok a => f a | Err e => Err e | Panic => Panic end.

Definition is_ok {A} (r : res A) : bool :=
  match r with Ok _ => true | _ => false end.
Definition is_err {A} (r : res A) : bool :=
  match r with Err _ => true | _ => false end.

(** [guard_err c e]: the early return [if c { return errors.New(e) }]. *)
Definition guard_err (c : bool) (e : string) : res unit :=
  if c then Err e else Ok tt.

Definition of_option {A} (e : string) (o : option A) : res A :=
  match o with Some a => Ok a | None => Err e end.

Definition opt_ok {A} (r : res A) : option A :=
  match r with Ok a => Some a | _ => None end.

(** [db.QueryRow] on no row, before the source wraps it. *)
Definition ErrNoRows : string := "sql: no rows in result set".
Definition ErrConstraint : string := "constraint failed".

(** ** Results of guards *)

Lemma guard_err_ok c e : guard_err c e = Ok tt <-> c = false.
Proof. unfold guard_err. destruct c; naive_solver. Qed.

Lemma bind_ok {A B} (m : res A) (f : A -> res B) b :
  (m ≫= f) = Ok b <-> exists a, m = Ok a /\ f a = Ok b.
Proof. destruct m; unfold mbind, res_bind; naive_solver. Qed.

Lemma bind_unit_ok {B} (m : res unit) (f : unit -> res B) b :
  (m ≫= f) = Ok b <-> m = Ok tt /\ f tt = Ok b.
Proof. rewrite bind_ok. split; [intros ([] & ? & ?); auto|naive_solver]. Qed.

Lemma bind_no_panic {A B} (m : res A) (f : A -> res B) :
  m <> Panic -> (forall a, f a <> Panic) -> (m ≫= f) <> Panic.
Proof. destruct m; unfold mbind, res_bind; auto. Qed.

Lemma guard_no_panic c e : guard_err c e <> Panic.
Proof. by destruct c. Qed.

Lemma of_option_no_panic {A} e (o : option A) : of_option e o <> Panic.
Proof. by destruct o. Qed.

Create HintDb panic discriminated.
#[export] Hint Resolve bind_no_panic guard_no_panic of_option_no_panic : panic.

(** Turn [guard; guard; ...; k = Ok x] into the negated conditions. *)
Ltac open_guards H :=
  repeat match type of H with
  | (guard_err _ _ ≫= _) = Ok _ =>
      let G := fresh "G" in
      apply bind_unit_ok in H as [G H]; apply guard_err_ok in G
  | (_ ≫= (fun _ : unit => _)) = Ok _ =>
      let G := fresh "G" in apply bind_unit_ok in H as [G H]
  | guard_err _ _ = Ok _ => apply guard_err_ok in H
  | (let _ := _ in _) = Ok _ => progress cbv zeta in H
  end.

(** ** Transactions

    [transact body db] is [BeginTx]; [defer tx.Rollback()]; [body]; with
    the commit at the end of [body].  A body that returns an error leaves
    the database as it was. *)

Definition transact {DB A} (body : DB -> res (A * DB)) (db : DB) : DB * res A :=
  match body db with
  | Ok (a, db') => (db', Ok a)
  | Err e => (db, Err e)
  | Panic => (db, Panic)
  end.

Lemma transact_err {DB A} (body : DB -> res (A * DB)) db db' e :
  transact body db = (db', Err e) -> db' = db.
Proof. unfold transact. destruct (body db) as [[a d]| |]; naive_solver. Qed.

(** A call that does not succeed, by error or by panic, changes nothing. *)
Lemma transact_fail {DB A} (body : DB -> res (A * DB)) db :
  is_ok (transact body db).2 = false -> (transact body db).1 = db.
Proof. unfold transact. by destruct (body db) as [[a d]| |]. Qed.

Lemma transact_ok {DB A} (body : DB -> res (A * DB)) db db' a :
  transact body db = (db', Ok a) <-> body db = Ok (a, db').
Proof. unfold transact. destruct (body db) as [[x d]| |]; naive_solver. Qed.

(** Either nothing changed or the body committed. *)
Lemma transact_cases {DB A} (body : DB -> res (A * DB)) db :
  (transact body db).1 = db \/
  exists a, body db = Ok (a, (transact body db).1) /\ (transact body db).2 = Ok a.
Proof. unfold transact. destruct (body db) as [[x d]| |]; naive_solver. Qed.

(** A transaction preserves what its committed body preserves. *)
Lemma transact_preserves {DB A} (P : DB -> Prop) (body : DB -> res (A * DB)) db :
  P db -> (forall a db', body db = Ok (a, db') -> P db') -> P (transact body db).1.
Proof. intros H Hb. destruct (transact_cases body db) as [->|(a & E & _)]; eauto. Qed.

(** ** Record update

    [r <| f := v |>] replaces one field.  [Eta R] gives the eta expansion of
    the record; the setter abstracts the projection out of it. *)

Class Eta (R : Type) := eta_of : R -> R.
Class Setter {R T : Type} (proj : R -> T) := with_field : (T -> T) -> R -> R.

Ltac build_setter proj :=
  match type of proj with
  | ?R -> ?T =>
      let inst := constr:(_ : Eta R) in
      let body := eval hnf in inst in
      let abstracted := eval pattern proj in body in
      lazymatch abstracted with
      | ?F _ =>
          let r := eval cbv beta in (fun (upd : T -> T) => F (fun x : R => upd (proj x))) in
          exact r
      end
  end.

#[export] Hint Extern 0 (Setter ?proj) => build_setter proj : typeclass_instances.

Notation "r <| f := v |>" := (with_field (proj := f) (fun _ => v) r)
  (at level 1, f at next level, v at level 200, left associativity) : go_scope.
Notation "r <| f ::= h |>" := (with_field (proj := f) h r)
  (at level 1, f at next level, h at level 200, left associativity) : go_scope.
Arguments with_field {R T} proj {Setter} _ _ /.

(** ** Machine integers *)

(** An [int64]: results wrap around. *)
Definition wrap64 (z : Z) : Z := (z + 2 ^ 63) mod 2 ^ 64 - 2 ^ 63.

Lemma wrap64_small z : - 2 ^ 63 <= z < 2 ^ 63 -> wrap64 z = z.
Proof. intros Hz. unfold wrap64. rewrite Z.mod_small; lia. Qed.

(** ** Time

    A [time.Time] is its number of nanoseconds since the Unix epoch, a
    [time.Duration] a number of nanoseconds.  Columns hold milliseconds. *)

Definition ns_per_ms : Z := 1000000.
Definition Second : Z := 1000000000.
Definition Minute : Z := 60 * Second.
Definition Hour : Z := 60 * Minute.

(** [t.UnixMilli()]: Go floors towards minus infinity. *)
Definition UnixMilli (t : Z) : Z := t / ns_per_ms.
(** [time.UnixMilli(ms)]. *)
Definition OfUnixMilli (ms : Z) : Z := ms * ns_per_ms.
(** The zero [time.Time], 1 January of year 1. *)
Definition ZeroTime : Z := -62135596800 * Second.

Lemma UnixMilli_OfUnixMilli ms : UnixMilli (OfUnixMilli ms) = ms.
Proof. unfold UnixMilli, OfUnixMilli, ns_per_ms. apply Z.div_mul. lia. Qed.

Lemma UnixMilli_mono a b : a <= b -> UnixMilli a <= UnixMilli b.
Proof. unfold UnixMilli, ns_per_ms. intros. apply Z.div_le_mono; lia. Qed.

(** Reading a time back from its column loses the part below a millisecond. *)
Lemma OfUnixMilli_UnixMilli t :
  OfUnixMilli (UnixMilli t) = t <-> t mod ns_per_ms = 0.
Proof.
  unfold OfUnixMilli, UnixMilli. pose proof (Z.div_mod t ns_per_ms).
  unfold ns_per_ms in *. lia.
Qed.

(** ** Tables

    A table is the list of its rows in rowid order.  [WHERE] clauses are
    boolean predicates on rows. *)

Section Tables.
Context {R : Type}.
Implicit Types (p : R -> bool) (f : R -> R) (t : list R) (r : R).

(** [SELECT ... WHERE p] read with [QueryRow]: the first row. *)
Fixpoint first_where p t : option R :=
  match t with
  | [] => None
  | r :: t' => if p r then Some r else first_where p t'
  end.

Definition rows_where p t : list R := List.filter p t.
Definition count_where p t : Z := Z.of_nat (length (rows_where p t)).
Definition exists_where p t : bool := existsb p t.

(** [UPDATE ... SET f WHERE p]; [RowsAffected] is [count_where p]. *)
Definition update_where p f t : list R := map (fun r => if p r then f r else r) t.

(** [DELETE ... WHERE p]. *)
Definition delete_where p t : list R := List.filter (fun r => negb (p r)) t.

Lemma first_where_Some p t r :
  first_where p t = Some r -> r ∈ t /\ p r = true.
Proof.
  induction t as [|x t IH]; simpl; [done|].
  destruct (p x) eqn:E; intros H; simplify_eq; [split; [left|done]|].
  destruct (IH H). split; [by right|done].
Qed.

Lemma first_where_None p t :
  first_where p t = None <-> forall r, r ∈ t -> p r = false.
Proof.
  induction t as [|x t IH]; simpl; [split; [intros _ r H; by apply elem_of_nil in H|done]|].
  destruct (p x) eqn:E; split.
  - done.
  - intros H. rewrite (H x) in E; [done|left].
  - rewrite IH. intros H r [->|Hr]%elem_of_cons; auto.
  - intros H. apply IH. intros r Hr. apply H. by right.
Qed.

Lemma rows_where_spec p t r : r ∈ rows_where p t <-> r ∈ t /\ p r = true.
Proof. unfold rows_where. rewrite !list_elem_of_In. apply filter_In. Qed.

Lemma delete_where_spec p t r : r ∈ delete_where p t <-> r ∈ t /\ p r = false.
Proof.
  unfold delete_where. rewrite !list_elem_of_In, filter_In.
  destruct (p r); naive_solver.
Qed.

Lemma update_where_spec p f t r :
  r ∈ update_where p f t <->
  exists x, x ∈ t /\ r = if p x then f x else x.
Proof. unfold update_where. rewrite list_elem_of_fmap. naive_solver. Qed.

Lemma exists_where_spec p t :
  exists_where p t = true <-> exists r, r ∈ t /\ p r = true.
Proof.
  unfold exists_where. rewrite existsb_exists.
  split; intros (r & ? & ?); exists r; rewrite list_elem_of_In in *; auto.
Qed.

Lemma exists_where_false p t :
  exists_where p t = false <-> forall r, r ∈ t -> p r = false.
Proof.
  rewrite <- not_true_iff_false, exists_where_spec. split.
  - intros H r Hr. apply not_true_iff_false. eauto.
  - intros H (r & Hr & Hp). by rewrite H in Hp.
Qed.

(** A key that no row has. *)
Lemma exists_where_fresh {K} `{EqDecision K} (key : R -> K) k t :
  exists_where (fun r => key r == k) t = false -> forall r, r ∈ t -> key r <> k.
Proof. intros H r Hr. eapply bool_decide_eq_false_1, (proj1 (exists_where_false _ _) H r Hr). Qed.

Lemma first_where_is_Some p t :
  is_Some (first_where p t) <-> exists_where p t = true.
Proof.
  rewrite <- not_eq_None_Some, first_where_None, exists_where_spec. split.
  - intros H. destruct (exists_where p t) eqn:E; [by apply exists_where_spec|].
    exfalso. apply H. by apply exists_where_false.
  - intros (r & Hr & Hp) H. by rewrite H in Hp.
Qed.

Lemma count_where_zero p t :
  count_where p t = 0 <-> forall r, r ∈ t -> p r = false.
Proof.
  unfold count_where. split.
  - intros H r Hr. apply not_true_iff_false. intros Hp.
    assert (Hin : r ∈ rows_where p t) by by apply rows_where_spec.
    destruct (rows_where p t); [by apply elem_of_nil in Hin|simpl in H; lia].
  - intros H. destruct (rows_where p t) as [|r l] eqn:E; [done|].
    assert (Hin : r ∈ rows_where p t) by (rewrite E; left).
    apply rows_where_spec in Hin as [? ?]. by rewrite H in *.
Qed.

Lemma update_where_id p f t :
  (forall r, r ∈ t -> p r = false) -> update_where p f t = t.
Proof.
  intros H. unfold update_where. rewrite <- (map_id t) at 2.
  apply map_ext_in. intros r Hr. rewrite H; [done|]. by apply list_elem_of_In.
Qed.

Lemma delete_where_id p t :
  (forall r, r ∈ t -> p r = false) -> delete_where p t = t.
Proof.
  induction t as [|x t IH]; intros H; [done|]. unfold delete_where in *. simpl.
  rewrite (H x) by left. simpl. f_equal. apply IH. intros r Hr. apply H. by right.
Qed.

Lemma update_where_ext p q f t :
  (forall r, r ∈ t -> p r = q r) -> update_where p f t = update_where q f t.
Proof.
  intros H. unfold update_where. apply map_ext_in. intros r Hr.
  rewrite H; [done|]. by apply list_elem_of_In.
Qed.

Lemma delete_where_ext p q t :
  (forall r, r ∈ t -> p r = q r) -> delete_where p t = delete_where q t.
Proof.
  intros H. unfold delete_where. apply filter_ext_in. intros r Hr.
  rewrite H; [done|]. by apply list_elem_of_In.
Qed.

Lemma length_update_where p f t : length (update_where p f t) = length t.
Proof. apply length_map. Qed.

Lemma update_where_app p f t1 t2 :
  update_where p f (t1 ++ t2) = update_where p f t1 ++ update_where p f t2.
Proof. apply map_app. Qed.

(** A column that an update does not write keeps its values, in order. *)
Lemma update_where_column {K} (key : R -> K) p f t :
  (forall r, key (f r) = key r) -> map key (update_where p f t) = map key t.
Proof.
  intros H. unfold update_where. rewrite map_map. apply map_ext.
  intros r. destruct (p r); auto.
Qed.

Lemma NoDup_update_where {K} (key : R -> K) p f t :
  (forall r, key (f r) = key r) ->
  NoDup (map key t) -> NoDup (map key (update_where p f t)).
Proof. intros H. by rewrite update_where_column. Qed.

Lemma NoDup_delete_where {K} (key : R -> K) p t :
  NoDup (map key t) -> NoDup (map key (delete_where p t)).
Proof.
  induction t as [|x t IH]; [done|]. unfold delete_where in *. simpl.
  rewrite list.NoDup_cons. intros [Hx Hn]. destruct (negb (p x)); [|auto].
  simpl. apply list.NoDup_cons. split; [|auto].
  rewrite list_elem_of_In, in_map_iff. intros (y & Hy & [Hin _]%filter_In).
  apply Hx. rewrite list_elem_of_In, in_map_iff. eauto.
Qed.

Lemma NoDup_snoc_key {K} (key : R -> K) t r :
  NoDup (map key t) -> (forall x, x ∈ t -> key x <> key r) ->
  NoDup (map key (t ++ [r])).
Proof.
  intros Hn Hf. rewrite map_app. apply list.NoDup_app. split; [done|]. split.
  - intros k Hk. simpl. rewrite list_elem_of_singleton. intros ->.
    apply list_elem_of_fmap in Hk as (x & Hx & Hin). by apply (Hf x).
  - apply NoDup_singleton.
Qed.

Lemma count_where_update q p f t :
  (forall r, q (f r) = q r) -> count_where q (update_where p f t) = count_where q t.
Proof.
  intros H. unfold count_where, rows_where. f_equal. induction t as [|x t IH]; [done|].
  unfold update_where in *. simpl. replace (q (if p x then f x else x)) with (q x).
  - destruct (q x); simpl; by rewrite IH.
  - destruct (p x); [by rewrite H|done].
Qed.

Lemma count_where_snoc q t r :
  count_where q (t ++ [r]) = count_where q t + (if q r then 1 else 0).
Proof.
  unfold count_where, rows_where. rewrite filter_app, length_app. simpl.
  destruct (q r); simpl; lia.
Qed.

Lemma count_where_pos q t r : r ∈ t -> q r = true -> 0 < count_where q t.
Proof.
  intros Hr Hq. destruct (Z.eq_dec (count_where q t) 0) as [E|E].
  - rewrite count_where_zero in E. by rewrite E in Hq.
  - unfold count_where in *. lia.
Qed.

Lemma count_where_ext q q' t :
  (forall r, q r = q' r) -> count_where q t = count_where q' t.
Proof. intros H. unfold count_where, rows_where. by rewrite (filter_ext q q'). Qed.

(** A key column without duplicates identifies the row. *)
Lemma key_unique {K} (key : R -> K) t r1 r2 :
  NoDup (map key t) -> r1 ∈ t -> r2 ∈ t -> key r1 = key r2 -> r1 = r2.
Proof.
  induction t as [|x t IH]; simpl; intros Hn H1 H2 Hk; [by apply elem_of_nil in H1|].
  apply list.NoDup_cons in Hn as [Hx Hn].
  assert (Hnot : forall y, y ∈ t -> key y <> key x).
  { intros y Hy E. apply Hx. rewrite <- E. apply list_elem_of_fmap. eauto. }
  apply elem_of_cons in H1 as [->|H1]; apply elem_of_cons in H2 as [->|H2];
    naive_solver.
Qed.

(** Rows that share a key are one row. *)
Lemma count_where_key_in {K} (key : R -> K) p k t r :
  NoDup (map key t) -> r ∈ t -> p r = true -> (forall x, x ∈ t -> p x = true -> key x = k) -> count_where p t = 1.
Proof.
  intros Hn Hr Hp Hk. unfold count_where, rows_where. induction t as [|x t IH]; [by apply elem_of_nil in Hr|].
  cbn [map List.filter] in *. apply list.NoDup_cons in Hn as [Hx Hn]. destruct (p x) eqn:E.
  - enough (List.filter p t = []) as -> by done. destruct (List.filter p t) as [|y l] eqn:F; [done|].
    assert (Hy : In y (List.filter p t)) by (rewrite F; by left). apply filter_In in Hy as [Hy Ey].
    destruct Hx. rewrite (Hk x), <- (Hk y); [|by apply elem_of_cons; right; apply list_elem_of_In|done|apply elem_of_cons; by left|done].
    apply list_elem_of_In. by apply in_map.
  - apply IH; [done| |intros y Hy; apply Hk, elem_of_cons; by right]. apply elem_of_cons in Hr as [->|Hr]; [congruence|done].
Qed.

Lemma count_where_key {K} (key : R -> K) p k t r :
  NoDup (map key t) -> r ∈ t -> p r = true -> (forall x, p x = true -> key x = k) -> count_where p t = 1.
Proof. intros Hn Hr Hp Hk. eapply (count_where_key_in key p k); eauto. Qed.

Lemma first_where_key {K} `{EqDecision K} (key : R -> K) t r :
  NoDup (map key t) -> r ∈ t ->
  first_where (fun x => key x == key r) t = Some r.
Proof.
  intros Hn Hr. destruct (first_where _ t) as [x|] eqn:E.
  - apply first_where_Some in E as [Hx Hk%bool_decide_eq_true]. f_equal.
    eapply key_unique; eauto.
  - rewrite first_where_None in E. apply E in Hr. by rewrite bool_decide_eq_false in Hr.
Qed.
End Tables.

Arguments update_where : simpl never.
Arguments delete_where : simpl never.
Arguments rows_where : simpl never.
Arguments exists_where : simpl never.
Arguments count_where : simpl never.

(** ** Ordered selection

    [ORDER BY k1, k2, ... LIMIT 1]: the sort key of a row is the list of its
    key columns (negated for [DESC]), compared lexicographically; the first
    row in rowid order that no other row precedes is selected. *)

Fixpoint lex_ltb (a b : list Z) : bool :=
  match a, b with
  | x :: a', y :: b' => (x <? y) || ((x =? y) && lex_ltb a' b')
  | [], _ :: _ => true
  | _, [] => false
  end.

Lemma lex_ltb_irrefl a : lex_ltb a a = false.
Proof. induction a as [|x a IH]; simpl; [done|]. rewrite Z.ltb_irrefl, Z.eqb_refl. done. Qed.

Lemma lex_ltb_asym a b : lex_ltb a b = true -> lex_ltb b a = false.
Proof.
  revert b. induction a as [|x a IH]; intros [|y b]; simpl; try done.
  intros H. destruct (Z.ltb_spec x y), (Z.ltb_spec y x), (Z.eqb_spec x y), (Z.eqb_spec y x);
    simpl in *; try done; try lia. auto.
Qed.

Lemma lex_ltb_negtrans a b c :
  lex_ltb a b = false -> lex_ltb b c = false -> lex_ltb a c = false.
Proof.
  revert b c. induction a as [|x a IH]; intros [|y b] [|z c]; simpl; try done.
  intros H1 H2. destruct (Z.ltb_spec x y), (Z.ltb_spec y z), (Z.ltb_spec x z),
    (Z.eqb_spec x y), (Z.eqb_spec y z), (Z.eqb_spec x z);
    simpl in *; try done; try lia. eauto.
Qed.

Section Best.
Context {R : Type} (key : R -> list Z).

Fixpoint best (t : list R) : option R :=
  match t with
  | [] => None
  | r :: t' =>
      match best t' with
      | None => Some r
      | Some b => if lex_ltb (key b) (key r) then Some b else Some r
      end
  end.

Definition best_where (p : R -> bool) (t : list R) : option R := best (rows_where p t).

Lemma best_None (t : list R) : best t = None <-> t = [].
Proof. destruct t as [|r t]; simpl; [done|]. destruct (best t); [case_match|]; done. Qed.

(** The selected row belongs to the result and no row of it comes first. *)
Lemma best_Some (t : list R) r :
  best t = Some r -> r ∈ t /\ forall x, x ∈ t -> lex_ltb (key x) (key r) = false.
Proof.
  revert r. induction t as [|y t IH]; simpl; intros r H; [done|].
  destruct (best t) as [b|] eqn:E.
  - destruct (IH b eq_refl) as [Hb Hmin].
    destruct (lex_ltb (key b) (key y)) eqn:Eb; simplify_eq; (split; [by first [left | right]|]);
      intros x [->|Hx]%elem_of_cons;
      eauto using lex_ltb_irrefl, lex_ltb_asym, lex_ltb_negtrans.
  - apply best_None in E as ->. simplify_eq. split; [left|].
    intros x [->|Hx]%elem_of_cons; [apply lex_ltb_irrefl|by apply elem_of_nil in Hx].
Qed.

Lemma best_where_Some p (t : list R) r :
  best_where p t = Some r ->
  r ∈ t /\ p r = true /\ forall x, x ∈ t -> p x = true -> lex_ltb (key x) (key r) = false.
Proof.
  unfold best_where. intros [Hr Hmin]%best_Some. apply rows_where_spec in Hr as [? ?].
  split_and!; auto. intros x Hx Hp. apply Hmin. by apply rows_where_spec.
Qed.

Lemma best_where_None p (t : list R) :
  best_where p t = None <-> forall r, r ∈ t -> p r = false.
Proof.
  unfold best_where. rewrite best_None. rewrite <- count_where_zero. unfold count_where.
  destruct (rows_where p t); simpl; split; intros; try done; lia.
Qed.
End Best.

Arguments best_where : simpl never.

(** ** Automation *)

Create HintDb ledger discriminated.

(** Split the conditions of an executable guard into propositions. *)
Ltac split_bools :=
  repeat match goal with
  | H : negb _ = true |- _ => apply negb_true_iff in H
  | H : negb _ = false |- _ => apply negb_false_iff in H
  | H : (_ && _) = true |- _ => apply andb_true_iff in H as [? ?]
  | H : (_ || _) = false |- _ => apply orb_false_iff in H as [? ?]
  | H : bool_decide _ = true |- _ => apply bool_decide_eq_true in H
  | H : bool_decide _ = false |- _ => apply bool_decide_eq_false in H
  | H : Is_true _ |- _ => apply Is_true_true in H
  | H : (_ <? _) = true |- _ => apply Z.ltb_lt in H
  | H : (_ <? _) = false |- _ => apply Z.ltb_ge in H
  | H : (_ <=? _) = true |- _ => apply Z.leb_le in H
  | H : (_ <=? _) = false |- _ => apply Z.leb_gt in H
  | H : (_ =? _) = true |- _ => apply Z.eqb_eq in H
  | H : (_ =? _) = false |- _ => apply Z.eqb_neq in H
  end.

(** Destruct the next scrutinee of a hypothesis that an operation returned. *)
Ltac step_in H :=
  match type of H with
  | context [match ?x with _ => _ end] =>
      lazymatch x with
      | context [match _ with _ => _ end] => fail
      | _ => let E := fresh "E" in destruct x eqn:E; simpl in H; try discriminate H
      end
  end.

(** Run through all branches of [op ... = Ok ...]. *)
Ltac run_ok H := repeat (step_in H; simplify_eq); simplify_eq.

Ltac run_goal :=
  repeat match goal with
  | |- context [match ?x with _ => _ end] =>
      lazymatch x with
      | context [match _ with _ => _ end] => fail
      | _ => destruct x eqn:?; simpl; try done
      end
  end.
