(* ===== verification/GoText.v ===== *)
(** * Text primitives of the Go standard library

    Strings are byte strings.  This file models what the sources use of
    [strings], [unicode/utf8], [strconv], [fmt] (the verb %d), [encoding/hex],
    [time.Parse] with the RFC 3339 layout, and the character classes of the
    regular expressions. *)

From S2P Require Import Prelude.
From Stdlib Require Import Ascii.
Open Scope string_scope.
Open Scope Z_scope.

(** ** Bytes *)

Definition code (c : ascii) : Z := Z.of_N (N_of_ascii c).
Definition byte_of (z : Z) : ascii := ascii_of_N (Z.to_N z).
Definition between (lo hi : Z) (c : ascii) : bool := (lo <=? code c) && (code c <=? hi).

Definition is_digit : ascii -> bool := between 48 57.
Definition is_lower : ascii -> bool := between 97 122.
Definition is_upper : ascii -> bool := between 65 90.
Definition is_alnum (c : ascii) : bool := is_digit c || is_lower c || is_upper c.
Definition is_hex_lower (c : ascii) : bool := is_digit c || between 97 102 c.
Definition is_cont : ascii -> bool := between 128 191.

(** Go's [len(s)]. *)
Definition len (s : string) : Z := Z.of_nat (String.length s).

Fixpoint all_chars (p : ascii -> bool) (s : string) : bool :=
  match s with
  | EmptyString => true
  | String c s' => p c && all_chars p s'
  end.

(** A regular expression that is a sequence of single-character classes. *)
Fixpoint match_classes (cs : list (ascii -> bool)) (s : string) : bool :=
  match cs, s with
  | [], EmptyString => true
  | p :: cs', String c s' => p c && match_classes cs' s'
  | _, _ => false
  end.

Definition is_char (x : ascii) (c : ascii) : bool := code c =? code x.

(** [strings.HasPrefix] and [strings.TrimPrefix]. *)
Fixpoint strip_prefix (p s : string) : option string :=
  match p, s with
  | EmptyString, _ => Some s
  | String a p', String b s' => if Ascii.eqb a b then strip_prefix p' s' else None
  | _, EmptyString => None
  end.
Definition TrimPrefix (s p : string) : string := default s (strip_prefix p s).

(** [strings.TrimSuffix]. *)
Fixpoint TrimSuffix (s p : string) : string :=
  if String.eqb s p then ""
  else match s with EmptyString => "" | String c s' => String c (TrimSuffix s' p) end.
Example TrimSuffix_ex : map (fun s => TrimSuffix s "/") ["/a/"; "/a"; "/"; ""] = ["/a"; "/a"; ""; ""].
Proof. reflexivity. Qed.
Definition HasPrefix (s p : string) : bool := negb (bool_decide (strip_prefix p s = None)).

(** [strings.Count] of a one-byte separator. *)
Fixpoint count_char (x : ascii) (s : string) : Z :=
  match s with
  | EmptyString => 0
  | String c s' => (if Ascii.eqb c x then 1 else 0) + count_char x s'
  end.

(** The part of [s] before, and after, the first occurrence of [x]. *)
Fixpoint cut_at (x : ascii) (s : string) : option (string * string) :=
  match s with
  | EmptyString => None
  | String c s' =>
      if Ascii.eqb c x then Some ("", s')
      else match cut_at x s' with
           | Some (a, b) => Some (String c a, b)
           | None => None
           end
  end.

Definition take_str (n : nat) (s : string) : string := String.substring 0 n s.
Definition drop_str (n : nat) (s : string) : string := String.substring n (String.length s) s.

(** [strings.Join]. *)
Fixpoint Join (parts : list string) (sep : string) : string :=
  match parts with
  | [] => ""
  | [p] => p
  | p :: ps => p ++ sep ++ Join ps sep
  end.

(** [strings.ReplaceAll(s, x, "")] for a one-byte [x]. *)
Fixpoint remove_char (x : ascii) (s : string) : string :=
  match s with
  | EmptyString => ""
  | String c s' => if Ascii.eqb c x then remove_char x s' else String c (remove_char x s')
  end.

(** [strings.Split] for a one-byte separator. *)
Fixpoint Split (x : ascii) (s : string) : list string :=
  match s with
  | EmptyString => [""]
  | String c s' =>
      if Ascii.eqb c x then "" :: Split x s'
      else match Split x s' with
           | p :: ps => String c p :: ps
           | [] => [String c ""]
           end
  end.

(** ** UTF-8 *)

Definition utf8_2 (a b : ascii) : bool := between 194 223 a && is_cont b.
Definition utf8_3 (a b c : ascii) : bool :=
  ((between 224 224 a && between 160 191 b)
   || ((between 225 236 a || between 238 239 a) && is_cont b)
   || (between 237 237 a && between 128 159 b)) && is_cont c.
Definition utf8_4 (a b c d : ascii) : bool :=
  ((between 240 240 a && between 144 191 b)
   || (between 241 243 a && is_cont b)
   || (between 244 244 a && between 128 143 b)) && is_cont c && is_cont d.
Definition is_ascii : ascii -> bool := between 0 127.

(** [utf8.ValidString]. *)
Fixpoint ValidString (s : string) : bool :=
  match s with
  | EmptyString => true
  | String a s1 =>
      if is_ascii a then ValidString s1
      else match s1 with
           | EmptyString => false
           | String b s2 =>
               if utf8_2 a b then ValidString s2
               else match s2 with
                    | EmptyString => false
                    | String c s3 =>
                        if utf8_3 a b c then ValidString s3
                        else match s3 with
                             | EmptyString => false
                             | String d s4 => if utf8_4 a b c d then ValidString s4 else false
                             end
                    end
           end
  end.

(** The valid encodings, rune by rune. *)
Inductive Utf8 : string -> Prop :=
  | Utf8_nil : Utf8 ""
  | Utf8_1 a s : is_ascii a = true -> Utf8 s -> Utf8 (String a s)
  | Utf8_2 a b s : is_ascii a = false -> utf8_2 a b = true -> Utf8 s -> Utf8 (String a (String b s))
  | Utf8_3 a b c s :
      is_ascii a = false -> utf8_2 a b = false -> utf8_3 a b c = true ->
      Utf8 s -> Utf8 (String a (String b (String c s)))
  | Utf8_4 a b c d s :
      is_ascii a = false -> utf8_2 a b = false -> utf8_3 a b c = false ->
      utf8_4 a b c d = true ->
      Utf8 s -> Utf8 (String a (String b (String c (String d s)))).

Lemma ValidString_Utf8 s : ValidString s = true -> Utf8 s.
Proof.
  remember (String.length s) as n eqn:Hn. assert (Hle : (String.length s <= n)%nat) by lia.
  clear Hn. revert s Hle. induction n as [|n IH]; intros [|a s] Hle H;
    try apply Utf8_nil; simpl in *; try lia.
  destruct (is_ascii a) eqn:Ea; [constructor; auto; apply IH; auto; lia|].
  destruct s as [|b s]; [done|]. simpl in *.
  destruct (utf8_2 a b) eqn:E2; [apply Utf8_2; auto; apply IH; auto; lia|].
  destruct s as [|c s]; [done|]. simpl in *.
  destruct (utf8_3 a b c) eqn:E3; [apply Utf8_3; auto; apply IH; auto; lia|].
  destruct s as [|d s]; [done|]. simpl in *.
  destruct (utf8_4 a b c d) eqn:E4; [|done]. apply Utf8_4; auto. apply IH; auto. lia.
Qed.

(** [strings.Contains(s, part)]. *)
Fixpoint Contains (s part : string) : bool :=
  HasPrefix s part || match s with EmptyString => false | String _ s' => Contains s' part end.

(** [strings.ToLower]; beyond ASCII it uses the Unicode tables, which are the
    parameter. *)
Definition lower_ascii (c : ascii) : ascii := if is_upper c then byte_of (code c + 32) else c.
Fixpoint map_chars (f : ascii -> ascii) (s : string) : string :=
  match s with EmptyString => "" | String c s' => String (f c) (map_chars f s') end.
Class GoUnicode := unicode_lower : string -> string.
Definition ToLower (unicode_lower : string -> string) (s : string) : string :=
  if all_chars is_ascii s then map_chars lower_ascii s else unicode_lower s.

(** The encoding of U+FFFD and of a rune. *)
Definition replacement : string :=
  String (byte_of 239) (String (byte_of 191) (String (byte_of 189) "")).

Definition encode_rune (r : Z) : string :=
  if r <? 128 then String (byte_of r) ""
  else if r <? 2048 then String (byte_of (192 + r / 64)) (String (byte_of (128 + r mod 64)) "")
  else if r <? 65536 then
    String (byte_of (224 + r / 4096))
      (String (byte_of (128 + r / 64 mod 64)) (String (byte_of (128 + r mod 64)) ""))
  else
    String (byte_of (240 + r / 262144)) (String (byte_of (128 + r / 4096 mod 64))
      (String (byte_of (128 + r / 64 mod 64)) (String (byte_of (128 + r mod 64)) ""))).

(** ** White space: [strings.TrimSpace] *)

Definition is_space1 (c : ascii) : bool :=
  between 9 13 c || between 32 32 c.
(** U+0085 and U+00A0. *)
Definition is_space2 (a b : ascii) : bool :=
  between 194 194 a && (between 133 133 b || between 160 160 b).
(** U+1680, U+2000..U+200A, U+2028, U+2029, U+202F, U+205F, U+3000. *)
Definition is_space3 (a b c : ascii) : bool :=
  (between 225 225 a && between 154 154 b && between 128 128 c)
  || (between 226 226 a && between 128 128 b
      && (between 128 138 c || between 168 169 c || between 175 175 c))
  || (between 226 226 a && between 129 129 b && between 159 159 c)
  || (between 227 227 a && between 128 128 b && between 128 128 c).

Fixpoint trim_left (s : string) : string :=
  match s with
  | String a s1 =>
      if is_space1 a then trim_left s1
      else match s1 with
           | String b s2 =>
               if is_space2 a b then trim_left s2
               else match s2 with
                    | String c s3 => if is_space3 a b c then trim_left s3 else s
                    | EmptyString => s
                    end
           | EmptyString => s
           end
  | EmptyString => s
  end.

Definition is_blank (s : string) : bool := trim_left s == "".

Fixpoint trim_right (s : string) : string :=
  if is_blank s then ""
  else match s with
       | String c s' => String c (trim_right s')
       | EmptyString => ""
       end.

Definition TrimSpace (s : string) : string := trim_right (trim_left s).

(** ** Numbers in decimal *)

Definition digit (d : Z) : ascii := byte_of (48 + d).

Fixpoint dec_go (fuel : nat) (n : Z) (acc : string) : string :=
  match fuel with
  | O => acc
  | S k =>
      let acc' := String (digit (n mod 10)) acc in
      if n <? 10 then acc' else dec_go k (n / 10) acc'
  end.

Definition dec_nonneg (n : Z) : string := dec_go (S (Z.to_nat (Z.log2 n))) n "".

(** [fmt.Sprintf("%d", z)]. *)
Definition fmt_d (z : Z) : string :=
  if z <? 0 then String "-" (dec_nonneg (- z)) else dec_nonneg z.

(** The value of a digit string, after a prefix of value [v]. *)
Fixpoint digits_value (v : Z) (s : string) : option Z :=
  match s with
  | EmptyString => Some v
  | String c s' => if is_digit c then digits_value (10 * v + (code c - 48)) s' else None
  end.

(** [strconv.ParseInt(s, 10, 64)] without a leading plus sign. *)
Definition ParseInt (s : string) : option Z :=
  let range (o : option Z) :=
    match o with
    | Some z => if (- 2 ^ 63 <=? z) && (z <? 2 ^ 63) then Some z else None
    | None => None
    end in
  match s with
  | EmptyString => None
  | String c s' =>
      if Ascii.eqb c "-" then
        match s' with
        | EmptyString => None
        | _ => range (option_map Z.opp (digits_value 0 s'))
        end
      else range (digits_value 0 s)
  end.

(** [strconv.ParseUint(s, 10, 64)]. *)
Definition ParseUint (s : string) : option Z :=
  match s with
  | EmptyString => None
  | _ => match digits_value 0 s with Some z => if z <? 2 ^ 64 then Some z else None | None => None end
  end.

(** ** Hexadecimal *)

Definition hex_digit (d : Z) : ascii := if d <? 10 then byte_of (48 + d) else byte_of (87 + d).
Definition hex_byte (b : Z) : string := String (hex_digit (b / 16)) (String (hex_digit (b mod 16)) "").
Definition hex (bs : list Z) : string := fold_right (fun b acc => hex_byte b ++ acc) "" bs.

Definition hex_value (c : ascii) : option Z :=
  if is_digit c then Some (code c - 48)
  else if between 97 102 c then Some (code c - 87)
  else if between 65 70 c then Some (code c - 55)
  else None.

(** [hex.DecodeString]: both letter cases are accepted, an odd length is not. *)
Fixpoint hex_DecodeString (s : string) : option (list Z) :=
  match s with
  | EmptyString => Some []
  | String a (String b r) =>
      match hex_value a, hex_value b, hex_DecodeString r with
      | Some x, Some y, Some l => Some (16 * x + y :: l)
      | _, _, _ => None
      end
  | String _ EmptyString => None
  end.

Fixpoint bytes_of (s : string) : list Z :=
  match s with EmptyString => [] | String c s' => code c :: bytes_of s' end.

(** ** Regular expressions used in several files *)

(** [^sha256:[0-9a-f]{64}$] *)
Definition sha256_format (s : string) : bool :=
  match strip_prefix "sha256:" s with
  | Some h => all_chars is_hex_lower h && (len h =? 64)
  | None => false
  end.

(** [^[0-9a-f]{40}$] *)
Definition githubSHA (s : string) : bool := all_chars is_hex_lower s && (len s =? 40).

(** ** Facts on decimal numbers *)

Lemma code_byte_of z : 0 <= z < 256 -> code (byte_of z) = z.
Proof.
  intros H. unfold code, byte_of. rewrite N_ascii_embedding; [lia|]. lia.
Qed.

Lemma code_digit d : 0 <= d < 10 -> code (digit d) = 48 + d.
Proof. intros. unfold digit. apply code_byte_of. lia. Qed.

Lemma is_digit_digit d : 0 <= d < 10 -> is_digit (digit d) = true.
Proof.
  intros H. unfold is_digit, between. rewrite code_digit by done.
  apply andb_true_intro. split; apply Z.leb_le; lia.
Qed.

Lemma dec_go_value fuel n acc :
  0 <= n < 2 ^ Z.of_nat fuel -> (0 < fuel)%nat ->
  exists k, 0 <= k /\ forall v, digits_value v (dec_go fuel n acc) = digits_value (v * 10 ^ k + n) acc.
Proof.
  revert n acc. induction fuel as [|fuel IH]; intros n acc Hn Hf; [lia|]. simpl dec_go.
  pose proof (Z.mod_pos_bound n 10 ltac:(lia)) as Hm. pose proof (Z.div_mod n 10 ltac:(lia)) as Hd.
  assert (Hstep : forall v, digits_value v (String (digit (n mod 10)) acc) =
                            digits_value (10 * v + n mod 10) acc).
  { intros v. simpl. rewrite is_digit_digit, code_digit by lia. f_equal. lia. }
  destruct (Z.ltb_spec n 10).
  - exists 1. split; [lia|]. intros v. rewrite Hstep. f_equal. rewrite Z.mod_small; lia.
  - destruct fuel as [|fuel]; [simpl in Hn; lia|].
    destruct (IH (n / 10) (String (digit (n mod 10)) acc)) as (k & Hk & HIH); [|lia|].
    { split; [apply Z.div_pos; lia|]. apply Z.div_lt_upper_bound; [lia|].
      replace (Z.of_nat (S (S fuel))) with (1 + Z.of_nat (S fuel)) in Hn by lia.
      rewrite Z.pow_add_r in Hn by lia. lia. }
    exists (k + 1). split; [lia|]. intros v. rewrite HIH, Hstep. f_equal.
    rewrite Z.pow_add_r by lia. lia.
Qed.

Lemma log2_fuel n : 0 <= n -> 0 <= n < 2 ^ Z.of_nat (S (Z.to_nat (Z.log2 n))).
Proof.
  intros H. split; [done|]. rewrite Nat2Z.inj_succ, Z2Nat.id by apply Z.log2_nonneg.
  destruct (Z.eq_dec n 0) as [->|]; [done|]. apply Z.log2_spec. lia.
Qed.

Lemma dec_nonneg_value n : 0 <= n -> digits_value 0 (dec_nonneg n) = Some n.
Proof.
  intros H. unfold dec_nonneg.
  destruct (dec_go_value _ n "" (log2_fuel n H) ltac:(lia)) as (k & _ & ->). done.
Qed.

Lemma dec_go_digits fuel n acc :
  0 <= n -> all_chars is_digit acc = true -> all_chars is_digit (dec_go fuel n acc) = true.
Proof.
  revert n acc. induction fuel as [|fuel IH]; intros n acc Hn Ha; [done|]. simpl.
  assert (all_chars is_digit (String (digit (n mod 10)) acc) = true).
  { simpl. rewrite is_digit_digit, Ha; [done|]. apply Z.mod_pos_bound. lia. }
  destruct (n <? 10); [done|]. apply IH; [apply Z.div_pos; lia|done].
Qed.

(** The first digit of a positive number is not zero. *)
Lemma dec_go_head fuel n acc :
  0 < n < 2 ^ Z.of_nat fuel ->
  exists c s, dec_go fuel n acc = String c s /\ between 49 57 c = true.
Proof.
  revert n acc. induction fuel as [|fuel IH]; intros n acc Hn; [simpl in Hn; lia|].
  simpl dec_go. destruct (Z.ltb_spec n 10) as [Hs|Hs].
  - eexists _, _. split; [done|]. unfold between. rewrite Z.mod_small, code_digit by lia.
    apply andb_true_intro. split; apply Z.leb_le; lia.
  - apply IH. split; [apply Z.div_str_pos; lia|]. apply Z.div_lt_upper_bound; [lia|].
    rewrite Nat2Z.inj_succ, Z.pow_succ_r in Hn by lia. lia.
Qed.

Lemma dec_nonneg_shape n :
  0 <= n -> all_chars is_digit (dec_nonneg n) = true /\
  (dec_nonneg n = "0" \/ exists c s, dec_nonneg n = String c s /\ between 49 57 c = true).
Proof.
  intros H. split; [by apply dec_go_digits|].
  destruct (Z.eq_dec n 0) as [->|]; [by left|right].
  apply dec_go_head. pose proof (log2_fuel n H). lia.
Qed.

Lemma dec_nonneg_cons n : 0 <= n -> exists c s, dec_nonneg n = String c s /\ is_digit c = true.
Proof.
  intros H. destruct (dec_nonneg_shape n H) as [Ha [E|(c & s & E & _)]]; rewrite E in *; eauto.
  simpl in Ha. apply andb_true_iff in Ha as [? _]. eauto.
Qed.

(** [strconv.ParseInt] inverts %d on the range of int64. *)
Lemma ParseInt_fmt_d z : - 2 ^ 63 <= z < 2 ^ 63 -> ParseInt (fmt_d z) = Some z.
Proof.
  intros Hz. unfold fmt_d. destruct (Z.ltb_spec z 0).
  - cbn [ParseInt Ascii.eqb Bool.eqb].
    destruct (dec_nonneg (- z)) eqn:E.
    { destruct (dec_nonneg_cons (- z) ltac:(lia)) as (? & ? & ? & _); congruence. }
    rewrite <- E, dec_nonneg_value by lia. simpl option_map. rewrite Z.opp_involutive.
    rewrite (proj2 (Z.leb_le _ _)), (proj2 (Z.ltb_lt _ _)) by lia. done.
  - destruct (dec_nonneg_cons z ltac:(lia)) as (c & s & E & Hc).
    unfold ParseInt. rewrite E.
    destruct (Ascii.eqb c "-") eqn:Em.
    { by apply Ascii.eqb_eq in Em as ->. }
    rewrite <- E, dec_nonneg_value by lia.
    rewrite (proj2 (Z.leb_le _ _)), (proj2 (Z.ltb_lt _ _)) by lia. done.
Qed.

Lemma fmt_d_inj a b : fmt_d a = fmt_d b -> a = b.
Proof.
  unfold fmt_d. intros H.
  destruct (Z.ltb_spec a 0), (Z.ltb_spec b 0).
  - injection H as H. apply (f_equal (digits_value 0)) in H.
    rewrite !dec_nonneg_value in H by lia. simplify_eq. lia.
  - destruct (dec_nonneg_cons b ltac:(lia)) as (c & s & E & Hc).
    by rewrite E in H; simplify_eq.
  - destruct (dec_nonneg_cons a ltac:(lia)) as (c & s & E & Hc).
    by rewrite E in H; simplify_eq.
  - apply (f_equal (digits_value 0)) in H. rewrite !dec_nonneg_value in H by lia. congruence.
Qed.

(** A text without a colon. *)
Definition no_colon (s : string) : bool := all_chars (fun c => negb (Ascii.eqb c ":")) s.

Lemma all_chars_impl (p q : ascii -> bool) s :
  (forall c, p c = true -> q c = true) -> all_chars p s = true -> all_chars q s = true.
Proof.
  intros H. induction s as [|c s IH]; simpl; [done|].
  intros [Hc Hs]%andb_true_iff. rewrite (H c Hc). auto.
Qed.

(** ** RFC 3339

    [time.Parse(time.RFC3339, s)] as an acceptance test: date, [T], clock with
    a one- or two-digit hour, an optional fraction after a period or a comma,
    then [Z] or a numeric zone. *)

Definition dec2 (a b : ascii) : Z := 10 * (code a - 48) + (code b - 48).

Definition is_leap (y : Z) : bool := (y mod 4 =? 0) && (negb (y mod 100 =? 0) || (y mod 400 =? 0)).
Definition days_in (m y : Z) : Z :=
  if m =? 2 then (if is_leap y then 29 else 28)
  else if (m =? 4) || (m =? 6) || (m =? 9) || (m =? 11) then 30 else 31.

Fixpoint span (p : ascii -> bool) (s : string) : string * string :=
  match s with
  | EmptyString => ("", "")
  | String c s' => if p c then let '(a, b) := span p s' in (String c a, b) else ("", s)
  end.

Definition zone_ok (s : string) : bool :=
  match s with
  | String z "" => Ascii.eqb z "Z"
  | String sg (String h1 (String h2 (String colon (String m1 (String m2 ""))))) =>
      (Ascii.eqb sg "+" || Ascii.eqb sg "-") && Ascii.eqb colon ":"
      && is_digit h1 && is_digit h2 && is_digit m1 && is_digit m2
      && (dec2 h1 h2 <=? 24) && (dec2 m1 m2 <=? 60)
  | _ => false
  end.

Definition clock_ok (s : string) : bool :=
  match s with
  | String m1 (String m2 (String colon (String s1 (String s2 rest)))) =>
      is_digit m1 && is_digit m2 && (dec2 m1 m2 <? 60) && Ascii.eqb colon ":"
      && is_digit s1 && is_digit s2 && (dec2 s1 s2 <? 60)
      && match rest with
         | String dot (String d r) =>
             if (Ascii.eqb dot "." || Ascii.eqb dot ",") && is_digit d
             then zone_ok (snd (span is_digit r))
             else zone_ok rest
         | _ => zone_ok rest
         end
  | _ => false
  end.

Definition hour_ok (s : string) : bool :=
  match s with
  | String h1 (String h2 s2) =>
      if is_digit h1 then
        if Ascii.eqb h2 ":" then clock_ok s2
        else match s2 with
             | String colon s3 =>
                 is_digit h2 && (dec2 h1 h2 <? 24) && Ascii.eqb colon ":" && clock_ok s3
             | EmptyString => false
             end
      else false
  | _ => false
  end.

Definition rfc3339_ok (s : string) : bool :=
  match s with
  | String y1 (String y2 (String y3 (String y4 (String d1 (String m1 (String m2 (String d2
      (String a1 (String a2 (String t rest)))))))))) =>
      is_digit y1 && is_digit y2 && is_digit y3 && is_digit y4
      && Ascii.eqb d1 "-" && is_digit m1 && is_digit m2 && Ascii.eqb d2 "-"
      && is_digit a1 && is_digit a2 && Ascii.eqb t "T"
      && (1 <=? dec2 m1 m2) && (dec2 m1 m2 <=? 12) && (1 <=? dec2 a1 a2)
      && (dec2 a1 a2 <=? days_in (dec2 m1 m2) (100 * dec2 y1 y2 + dec2 y3 y4))
      && hour_ok rest
  | _ => false
  end.

Example rfc3339_ok_ex :
  map rfc3339_ok ["2026-02-28T10:00:00Z"; "2026-02-29T10:00:00Z"; "2024-02-29T1:02:03.5+01:00";
                  "2026-13-01T00:00:00Z"; "2026-01-01"] = [true; false; true; false; false].
Proof. reflexivity. Qed.
