(* ===== verification/GoSha256.v ===== *)
(** * SHA-256

    [crypto/sha256.Sum256] on bytes, and the hexadecimal digests the sources
    build from it.  Words are integers below 2^32. *)

From S2P Require Import Prelude GoText.
Open Scope string_scope.
Open Scope Z_scope.

Definition word (x : Z) : Z := x mod 2 ^ 32.
Definition rotr (n x : Z) : Z := Z.lor (Z.shiftr x n) (word (Z.shiftl x (32 - n))).
Definition sha_not (x : Z) : Z := Z.lxor x (2 ^ 32 - 1).

Definition sha_ch (x y z : Z) : Z := Z.lxor (Z.land x y) (Z.land (sha_not x) z).
Definition sha_maj (x y z : Z) : Z := Z.lxor (Z.lxor (Z.land x y) (Z.land x z)) (Z.land y z).
Definition big_sigma0 (x : Z) : Z := Z.lxor (Z.lxor (rotr 2 x) (rotr 13 x)) (rotr 22 x).
Definition big_sigma1 (x : Z) : Z := Z.lxor (Z.lxor (rotr 6 x) (rotr 11 x)) (rotr 25 x).
Definition small_sigma0 (x : Z) : Z := Z.lxor (Z.lxor (rotr 7 x) (rotr 18 x)) (Z.shiftr x 3).
Definition small_sigma1 (x : Z) : Z := Z.lxor (Z.lxor (rotr 17 x) (rotr 19 x)) (Z.shiftr x 10).

Definition sha_k : list Z :=
  [ 1116352408; 1899447441; 3049323471; 3921009573; 961987163; 1508970993; 2453635748; 2870763221;
    3624381080; 310598401; 607225278; 1426881987; 1925078388; 2162078206; 2614888103; 3248222580;
    3835390401; 4022224774; 264347078; 604807628; 770255983; 1249150122; 1555081692; 1996064986;
    2554220882; 2821834349; 2952996808; 3210313671; 3336571891; 3584528711; 113926993; 338241895;
    666307205; 773529912; 1294757372; 1396182291; 1695183700; 1986661051; 2177026350; 2456956037;
    2730485921; 2820302411; 3259730800; 3345764771; 3516065817; 3600352804; 4094571909; 275423344;
    430227734; 506948616; 659060556; 883997877; 958139571; 1322822218; 1537002063; 1747873779;
    1955562222; 2024104815; 2227730452; 2361852424; 2428436474; 2756734187; 3204031479; 3329325298 ].

Record sha_state := ShaState { sa : Z; sb : Z; sc : Z; sd : Z; se : Z; sf : Z; sg : Z; sh : Z }.

Definition sha_init : sha_state :=
  ShaState 1779033703 3144134277 1013904242 2773480762 1359893119 2600822924 528734635 1541459225.

Definition sha_round (s : sha_state) (kw : Z * Z) : sha_state :=
  let t1 := sh s + big_sigma1 (se s) + sha_ch (se s) (sf s) (sg s) + fst kw + snd kw in
  let t2 := big_sigma0 (sa s) + sha_maj (sa s) (sb s) (sc s) in
  ShaState (word (t1 + t2)) (sa s) (sb s) (sc s) (word (sd s + t1)) (se s) (sf s) (sg s).

(** The message schedule, newest word first; [ws] holds the last sixteen. *)
Fixpoint sha_schedule (n : nat) (ws : list Z) : list Z :=
  match n with
  | O => ws
  | S n' =>
      let at_ i := nth i ws 0 in
      sha_schedule n'
        (word (small_sigma1 (at_ 1%nat) + at_ 6%nat + small_sigma0 (at_ 14%nat) + at_ 15%nat) :: ws)
  end.

Definition sha_compress (s : sha_state) (block : list Z) : sha_state :=
  let ws := rev (sha_schedule 48 (rev block)) in
  let r := fold_left sha_round (combine sha_k ws) s in
  ShaState (word (sa s + sa r)) (word (sb s + sb r)) (word (sc s + sc r)) (word (sd s + sd r))
           (word (se s + se r)) (word (sf s + sf r)) (word (sg s + sg r)) (word (sh s + sh r)).

Fixpoint be_words (bs : list Z) : list Z :=
  match bs with
  | a :: b :: c :: d :: bs' => (a * 16777216 + b * 65536 + c * 256 + d) :: be_words bs'
  | _ => []
  end.

Fixpoint be_bytes (n : nat) (x : Z) : list Z :=
  match n with
  | O => []
  | S n' => be_bytes n' (x / 256) ++ [x mod 256]
  end.

Definition sha_pad (bs : list Z) : list Z :=
  let l := length bs in
  let zeros := ((119 - l mod 64) mod 64)%nat in
  bs ++ [128] ++ repeat 0 zeros ++ be_bytes 8 (8 * Z.of_nat l).

Fixpoint sha_blocks (fuel : nat) (s : sha_state) (ws : list Z) : sha_state :=
  match fuel with
  | O => s
  | S k =>
      match ws with
      | [] => s
      | _ => sha_blocks k (sha_compress s (firstn 16 ws)) (skipn 16 ws)
      end
  end.

Definition Sum256 (bs : list Z) : list Z :=
  let ws := be_words (sha_pad bs) in
  let s := sha_blocks (S (length ws)) sha_init ws in
  flat_map (be_bytes 4) [sa s; sb s; sc s; sd s; se s; sf s; sg s; sh s].

(** [hex.EncodeToString(sha256.Sum256(data))]. *)
Definition sha256_hex (data : string) : string := hex (Sum256 (bytes_of data)).

(** The two test vectors of FIPS 180-4 and the empty message. *)
Example sha256_vectors :
  map sha256_hex
    [""; "abc"; "abcdbcdecdefdefgefghfghighijhijkijkljklmklmnlmnomnopnopq"]
  = ["e3b0c44298fc1c149afbf4c8996fb92427ae41e4649b934ca495991b7852b855";
     "ba7816bf8f01cfea414140de5dae2223b00361a396177a9cb410ff61f20015ad";
     "248d6a61d20638b8e5c026930c3e6039a33ce45964ff2167f6ecedd419db06c1"].
Proof. vm_compute. reflexivity. Qed.

(** ** The digest is always sixty-four lower-case hexadecimal digits *)

Lemma length_be_bytes n x : length (be_bytes n x) = n.
Proof.
  revert x. induction n as [|n IH]; intros x; simpl; [done|]. rewrite length_app, IH. simpl. lia.
Qed.

Lemma be_bytes_range n x b : b ∈ be_bytes n x -> 0 <= b < 256.
Proof.
  revert x. induction n as [|n IH]; intros x; simpl; [by intros ?%elem_of_nil|].
  rewrite elem_of_app, list_elem_of_singleton. intros [H| ->]; [by eapply IH|].
  apply Z.mod_pos_bound. lia.
Qed.

Lemma is_hex_digit d : 0 <= d < 16 -> is_hex_lower (hex_digit d) = true.
Proof.
  intros H. unfold hex_digit, is_hex_lower, is_digit, between.
  destruct (Z.ltb_spec d 10); rewrite code_byte_of by lia.
  - rewrite (proj2 (Z.leb_le 48 _)), (proj2 (Z.leb_le _ 57)) by lia. done.
  - rewrite (proj2 (Z.leb_le 97 _)), (proj2 (Z.leb_le _ 102)) by lia. apply orb_true_r.
Qed.

Lemma all_chars_app p a b : all_chars p (a ++ b) = all_chars p a && all_chars p b.
Proof. induction a as [|c a IH]; simpl; [done|]. by rewrite IH, andb_assoc. Qed.

Lemma len_app a b : len (a ++ b) = len a + len b.
Proof.
  unfold len. rewrite <- Nat2Z.inj_add. f_equal.
  induction a as [|c a IH]; simpl; [done|]. by rewrite IH.
Qed.

Lemma hex_shape bs :
  Forall (fun b => 0 <= b < 256) bs ->
  all_chars is_hex_lower (hex bs) = true /\ len (hex bs) = 2 * Z.of_nat (length bs).
Proof.
  induction 1 as [|b bs Hb _ [IHc IHl]]; [done|].
  change (hex (b :: bs)) with
    (String (hex_digit (b / 16)) (String (hex_digit (b mod 16)) (hex bs))).
  split.
  - cbn [all_chars]. rewrite !is_hex_digit, IHc; [done| |].
    + apply Z.mod_pos_bound. lia.
    + split; [apply Z.div_pos; lia|apply Z.div_lt_upper_bound; lia].
  - unfold len in *. cbn [String.length length]. lia.
Qed.

Lemma Sum256_shape bs : length (Sum256 bs) = 32%nat /\ Forall (fun b => 0 <= b < 256) (Sum256 bs).
Proof.
  unfold Sum256. set (s := sha_blocks _ _ _). clearbody s. cbn [flat_map].
  rewrite !length_app, !length_be_bytes. split; [done|].
  apply list.Forall_forall. intros b. rewrite !elem_of_app.
  intros H. repeat (destruct H as [H|H]; [by eapply be_bytes_range|]). by apply elem_of_nil in H.
Qed.

Lemma sha256_hex_shape data :
  all_chars is_hex_lower (sha256_hex data) = true /\ len (sha256_hex data) = 64.
Proof.
  unfold sha256_hex. destruct (Sum256_shape (bytes_of data)) as [Hl Hf].
  destruct (hex_shape _ Hf) as [? Hlen]. rewrite Hl in Hlen. split; [done|]. rewrite Hlen. done.
Qed.

Lemma sha256_format_hex data : sha256_format ("sha256:" ++ sha256_hex data) = true.
Proof.
  unfold sha256_format.
  change (strip_prefix _ _) with (Some (sha256_hex data)). cbv iota.
  destruct (sha256_hex_shape data) as [-> ->]. done.
Qed.

(** ** HMAC *)

(** [hmac.New(sha256.New, key)]: a long key is hashed, a short one padded. *)
Definition hmac_block_key (key : list Z) : list Z :=
  let k := if (64 <? Z.of_nat (length key)) then Sum256 key else key in
  (k ++ repeat 0 (64 - length k))%list.

Definition hmac_sha256 (key message : list Z) : list Z :=
  let k := hmac_block_key key in
  Sum256 (map (Z.lxor 92) k ++ Sum256 (map (Z.lxor 54) k ++ message))%list.
