(* ===== verification/GoJson.v ===== *)
(** * JSON

    What the sources use of [encoding/json]: the text [json.Marshal] writes
    (compact, HTML-escaped), the scanner and the string decoder of
    [json.Unmarshal] / [json.Decoder], and the field matching of struct
    decoding.  Numbers keep their literal text, as the decoder does until the
    target type is known. *)

From S2P Require Import Prelude GoText.
From Stdlib Require Import Ascii.
Open Scope string_scope.
Open Scope Z_scope.

#[warnings="-register-all"]
Inductive json : Type :=
  | JNull
  | JBool (b : bool)
  | JNum (lit : string)
  | JStr (s : string)
  | JArr (l : list json)
  | JObj (fields : list (string * json)).

(** Induction with hypotheses for the elements of arrays and objects. *)
Definition json_rect_nested (P : json -> Prop)
    (Hnull : P JNull) (Hbool : forall b, P (JBool b)) (Hnum : forall n, P (JNum n))
    (Hstr : forall s, P (JStr s))
    (Harr : forall l, Forall P l -> P (JArr l))
    (Hobj : forall fs, Forall (fun kv => P (snd kv)) fs -> P (JObj fs)) :
  forall j, P j :=
  fix go (j : json) : P j :=
    match j with
    | JNull => Hnull
    | JBool b => Hbool b
    | JNum n => Hnum n
    | JStr s => Hstr s
    | JArr l =>
        Harr l ((fix each (l : list json) : Forall P l :=
                   match l with
                   | [] => @List.Forall_nil _ _
                   | x :: l' => @List.Forall_cons _ _ x l' (go x) (each l')
                   end) l)
    | JObj fs =>
        Hobj fs ((fix each (fs : list (string * json)) : Forall (fun kv => P (snd kv)) fs :=
                    match fs with
                    | [] => @List.Forall_nil _ _
                    | kv :: fs' => @List.Forall_cons _ _ kv fs' (go (snd kv)) (each fs')
                    end) fs)
    end.

(** ** Writing *)

Definition quote_mark : ascii := byte_of 34.
Definition backslash : ascii := byte_of 92.

(** The escape of an ASCII byte in [appendString] with [escapeHTML]. *)
Definition escape_ascii (a : ascii) : string :=
  let c := code a in
  if (c =? 34) || (c =? 92) then String backslash (String a "")
  else if c =? 8 then "\b"
  else if c =? 12 then "\f"
  else if c =? 10 then "\n"
  else if c =? 13 then "\r"
  else if c =? 9 then "\t"
  else if (c <? 32) || (c =? 60) || (c =? 62) || (c =? 38) then
    "\u00" ++ hex_byte c
  else String a "".

(** U+2028 and U+2029 are escaped; every other valid rune is copied. *)
Definition escape_3 (a b c : ascii) : string :=
  if (code a =? 226) && (code b =? 128) && ((code c =? 168) || (code c =? 169))
  then "\u202" ++ String (hex_digit (code c - 160)) ""
  else String a (String b (String c "")).

Fixpoint quote_body (s : string) : string :=
  match s with
  | EmptyString => ""
  | String a s1 =>
      if is_ascii a then escape_ascii a ++ quote_body s1
      else match s1 with
           | EmptyString => "\ufffd"
           | String b s2 =>
               if utf8_2 a b then String a (String b (quote_body s2))
               else match s2 with
                    | EmptyString => "\ufffd" ++ quote_body s1
                    | String c s3 =>
                        if utf8_3 a b c then escape_3 a b c ++ quote_body s3
                        else match s3 with
                             | EmptyString => "\ufffd" ++ quote_body s1
                             | String d s4 =>
                                 if utf8_4 a b c d
                                 then String a (String b (String c (String d (quote_body s4))))
                                 else "\ufffd" ++ quote_body s1
                             end
                    end
           end
  end.

Definition quote (s : string) : string :=
  String quote_mark (quote_body s ++ String quote_mark "").

Fixpoint marshal (j : json) : string :=
  match j with
  | JNull => "null"
  | JBool true => "true"
  | JBool false => "false"
  | JNum lit => lit
  | JStr s => quote s
  | JArr l =>
      "[" ++ (match l with
              | [] => ""
              | x :: l' =>
                  marshal x ++ (fix rest (l : list json) : string :=
                                  match l with
                                  | [] => ""
                                  | y :: l' => "," ++ marshal y ++ rest l'
                                  end) l'
              end) ++ "]"
  | JObj fs =>
      "{" ++ (match fs with
              | [] => ""
              | (k, x) :: fs' =>
                  quote k ++ ":" ++ marshal x ++
                  (fix rest (fs : list (string * json)) : string :=
                     match fs with
                     | [] => ""
                     | (k, y) :: fs' => "," ++ quote k ++ ":" ++ marshal y ++ rest fs'
                     end) fs'
              end) ++ "}"
  end.

(** ** Reading *)

(** Decode a string body up to the closing quotation mark.  [getu4] reads the
    four digits of an escape. *)
Definition getu4 (a b c d : ascii) : option Z :=
  match hex_value a, hex_value b, hex_value c, hex_value d with
  | Some x, Some y, Some z, Some w => Some (4096 * x + 256 * y + 16 * z + w)
  | _, _, _, _ => None
  end.

Definition is_surrogate (r : Z) : bool := (55296 <=? r) && (r <=? 57343).
Definition high_surrogate (r : Z) : bool := (55296 <=? r) && (r <=? 56319).
Definition low_surrogate (r : Z) : bool := (56320 <=? r) && (r <=? 57343).

Definition simple_escape (e : ascii) : option ascii :=
  let c := code e in
  if (c =? 34) || (c =? 92) || (c =? 47) then Some e
  else if c =? 98 then Some (byte_of 8)
  else if c =? 102 then Some (byte_of 12)
  else if c =? 110 then Some (byte_of 10)
  else if c =? 114 then Some (byte_of 13)
  else if c =? 116 then Some (byte_of 9)
  else None.

Definition prepend (p : string) (o : option (string * string)) : option (string * string) :=
  match o with Some (a, r) => Some (p ++ a, r) | None => None end.

Fixpoint unquote_body (s : string) : option (string * string) :=
  match s with
  | EmptyString => None
  | String a s1 =>
      if code a =? 34 then Some ("", s1)
      else if code a <? 32 then None
      else if code a =? 92 then
        match s1 with
        | EmptyString => None
        | String e s2 =>
            if code e =? 117 then
              match s2 with
              | String x1 (String x2 (String x3 (String x4 s6))) =>
                  match getu4 x1 x2 x3 x4 with
                  | None => None
                  | Some r =>
                      if is_surrogate r then
                        match s6 with
                        | String b (String u (String y1 (String y2 (String y3 (String y4 s12))))) =>
                            match getu4 y1 y2 y3 y4 with
                            | Some r2 =>
                                if (code b =? 92) && (code u =? 117)
                                   && high_surrogate r && low_surrogate r2
                                then prepend (encode_rune ((r - 55296) * 1024 + (r2 - 56320) + 65536))
                                       (unquote_body s12)
                                else prepend replacement (unquote_body s6)
                            | None => prepend replacement (unquote_body s6)
                            end
                        | _ => prepend replacement (unquote_body s6)
                        end
                      else prepend (encode_rune r) (unquote_body s6)
                  end
              | _ => None
              end
            else match simple_escape e with
                 | Some c => prepend (String c "") (unquote_body s2)
                 | None => None
                 end
        end
      else if is_ascii a then prepend (String a "") (unquote_body s1)
      else match s1 with
           | EmptyString => None
           | String b s2 =>
               if utf8_2 a b then prepend (String a (String b "")) (unquote_body s2)
               else match s2 with
                    | EmptyString => prepend replacement (unquote_body s1)
                    | String c s3 =>
                        if utf8_3 a b c
                        then prepend (String a (String b (String c ""))) (unquote_body s3)
                        else match s3 with
                             | EmptyString => prepend replacement (unquote_body s1)
                             | String d s4 =>
                                 if utf8_4 a b c d
                                 then prepend (String a (String b (String c (String d ""))))
                                        (unquote_body s4)
                                 else prepend replacement (unquote_body s1)
                             end
                    end
           end
  end.

Definition is_json_space (c : ascii) : bool :=
  (code c =? 32) || (code c =? 9) || (code c =? 10) || (code c =? 13).

Fixpoint skip_space (s : string) : string :=
  match s with
  | String c s' => if is_json_space c then skip_space s' else s
  | EmptyString => ""
  end.

(** The number grammar: sign, integer part, fraction, exponent. *)
Definition scan_frac (s : string) : option (string * string) :=
  match s with
  | String dot s1 =>
      if code dot =? 46 then
        match span is_digit s1 with
        | (EmptyString, _) => None
        | (ds, r) => Some (String dot ds, r)
        end
      else Some ("", s)
  | EmptyString => Some ("", "")
  end.

Definition scan_exp (s : string) : option (string * string) :=
  match s with
  | String e s1 =>
      if (code e =? 101) || (code e =? 69) then
        let '(sg, s2) := match s1 with
                         | String g s' => if (code g =? 43) || (code g =? 45)
                                          then (String g "", s') else ("", s1)
                         | EmptyString => ("", "")
                         end in
        match span is_digit s2 with
        | (EmptyString, _) => None
        | (ds, r) => Some (String e (sg ++ ds), r)
        end
      else Some ("", s)
  | EmptyString => Some ("", "")
  end.

Definition scan_int (s : string) : option (string * string) :=
  match s with
  | String c s1 =>
      if code c =? 48 then Some (String c "", s1)
      else if between 49 57 c then let '(ds, r) := span is_digit s1 in Some (String c ds, r)
      else None
  | EmptyString => None
  end.

Definition scan_number (s : string) : option (string * string) :=
  let '(sg, s1) := match s with
                   | String c s' => if code c =? 45 then (String c "", s') else ("", s)
                   | EmptyString => ("", "")
                   end in
  match scan_int s1 with
  | None => None
  | Some (i, s2) =>
      match scan_frac s2 with
      | None => None
      | Some (f, s3) =>
          match scan_exp s3 with
          | None => None
          | Some (e, s4) => Some (sg ++ i ++ f ++ e, s4)
          end
      end
  end.

(** [scanner.maxNestingDepth]. *)
Definition max_depth : Z := 10000.

(** One value from the text; the rest of the text is returned.  [fuel] bounds
    the number of values, at most one per byte of text. *)
Fixpoint parse_value (fuel : nat) (depth : Z) (s : string) : option (json * string) :=
  match fuel with
  | O => None
  | S k =>
      match skip_space s with
      | EmptyString => None
      | String c r =>
          if code c =? 34 then
            match unquote_body r with
            | Some (t, r') => Some (JStr t, r')
            | None => None
            end
          else if code c =? 91 then
            if max_depth <? depth + 1 then None
            else match skip_space r with
                 | String e r1 =>
                     if code e =? 93 then Some (JArr [], r1)
                     else match parse_value k (depth + 1) r with
                          | Some (x, r2) =>
                              match parse_elements k (depth + 1) r2 with
                              | Some (xs, r3) => Some (JArr (x :: xs), r3)
                              | None => None
                              end
                          | None => None
                          end
                 | EmptyString => None
                 end
          else if code c =? 123 then
            if max_depth <? depth + 1 then None
            else match skip_space r with
                 | String e r1 =>
                     if code e =? 125 then Some (JObj [], r1)
                     else match parse_field k (depth + 1) r with
                          | Some (f, r2) =>
                              match parse_fields k (depth + 1) r2 with
                              | Some (fs, r3) => Some (JObj (f :: fs), r3)
                              | None => None
                              end
                          | None => None
                          end
                 | EmptyString => None
                 end
          else match strip_prefix "true" (String c r) with
               | Some r' => Some (JBool true, r')
               | None =>
                   match strip_prefix "false" (String c r) with
                   | Some r' => Some (JBool false, r')
                   | None =>
                       match strip_prefix "null" (String c r) with
                       | Some r' => Some (JNull, r')
                       | None =>
                           match scan_number (String c r) with
                           | Some (n, r') => Some (JNum n, r')
                           | None => None
                           end
                       end
                   end
               end
      end
  end
(** After an element: a comma and the next one, or the closing bracket. *)
with parse_elements (fuel : nat) (depth : Z) (s : string) : option (list json * string) :=
  match fuel with
  | O => None
  | S k =>
      match skip_space s with
      | EmptyString => None
      | String c r =>
          if code c =? 93 then Some ([], r)
          else if code c =? 44 then
            match parse_value k depth r with
            | Some (x, r1) =>
                match parse_elements k depth r1 with
                | Some (xs, r2) => Some (x :: xs, r2)
                | None => None
                end
            | None => None
            end
          else None
      end
  end
with parse_field (fuel : nat) (depth : Z) (s : string) : option ((string * json) * string) :=
  match fuel with
  | O => None
  | S k =>
      match skip_space s with
      | EmptyString => None
      | String q r =>
          if code q =? 34 then
            match unquote_body r with
            | None => None
            | Some (key, r1) =>
                match skip_space r1 with
                | EmptyString => None
                | String c r2 =>
                    if code c =? 58 then
                      match parse_value k depth r2 with
                      | Some (x, r3) => Some ((key, x), r3)
                      | None => None
                      end
                    else None
                end
            end
          else None
      end
  end
with parse_fields (fuel : nat) (depth : Z) (s : string) : option (list (string * json) * string) :=
  match fuel with
  | O => None
  | S k =>
      match skip_space s with
      | EmptyString => None
      | String c r =>
          if code c =? 125 then Some ([], r)
          else if code c =? 44 then
            match parse_field k depth r with
            | Some (f, r1) =>
                match parse_fields k depth r1 with
                | Some (fs, r2) => Some (f :: fs, r2)
                | None => None
                end
            | None => None
            end
          else None
      end
  end.

(** Fuel for a text: every recursive call of the parser is made after at least
    one byte of the text was consumed, so two steps per byte are enough. *)
Definition json_fuel (s : string) : nat := S (S (2 * String.length s)).

(** [json.Unmarshal] and [Decoder.Decode] followed by an end-of-input check:
    one value, then only white space. *)
Definition parse_json (s : string) : option json :=
  match parse_value (json_fuel s) 0 s with
  | Some (j, r) => if skip_space r == "" then Some j else None
  | None => None
  end.

Example parse_json_ex :
  parse_json ("{" ++ quote "a" ++ ": [1, -2.5e3, true, null], " ++ quote "b" ++ ":"
              ++ String quote_mark ("x\u0041\n\ud83d\ude00" ++ String quote_mark "} "))
  = Some (JObj [("a", JArr [JNum "1"; JNum "-2.5e3"; JBool true; JNull]);
                ("b", JStr ("xA" ++ String (byte_of 10) (encode_rune 128512)))]).
Proof. vm_compute. reflexivity. Qed.

Example marshal_ex :
  marshal (JObj [("k<", JArr [JStr "a&b"; JNum "3"])])
  = "{" ++ String quote_mark ("k\u003c" ++ String quote_mark (":["
    ++ String quote_mark ("a\u0026b" ++ String quote_mark ",3]}"))).
Proof. vm_compute. reflexivity. Qed.

(** ** Reading back what was written *)

Lemma sapp_assoc (a b c : string) : (a ++ b) ++ c = a ++ b ++ c.
Proof. induction a as [|x a IH]; cbn [String.append]; [done|]. by rewrite IH. Qed.

Lemma sapp_nil_r (a : string) : a ++ "" = a.
Proof. induction a as [|x a IH]; cbn [String.append]; [done|]. by rewrite IH. Qed.

Lemma prepend_prepend p q o : prepend p (prepend q o) = prepend (p ++ q) o.
Proof. destruct o as [[a r]|]; cbn [prepend]; [|done]. by rewrite sapp_assoc. Qed.

Lemma code_range a : 0 <= code a < 256.
Proof. unfold code. pose proof (N_ascii_bounded a). lia. Qed.

Lemma byte_of_code a : byte_of (code a) = a.
Proof. unfold byte_of, code. rewrite N2Z.id. apply ascii_N_embedding. Qed.

Lemma code_eqb a z : (code a =? z) = true -> a = byte_of z.
Proof. intros H%Z.eqb_eq. rewrite <- H. by rewrite byte_of_code. Qed.

Lemma not_ascii_code a : is_ascii a = false -> 128 <= code a.
Proof.
  unfold is_ascii, between. pose proof (code_range a). intros [Hb|Hb]%andb_false_iff;
    apply Z.leb_gt in Hb; lia.
Qed.

Lemma unquote_escape_ascii a rest :
  is_ascii a = true ->
  unquote_body (escape_ascii a ++ rest) = prepend (String a "") (unquote_body rest).
Proof. destruct a as [[] [] [] [] [] [] [] []]; intros H; try discriminate H; reflexivity. Qed.

(** A byte outside ASCII is neither a quotation mark nor an escape. *)
Lemma unquote_not_ascii a s1 :
  is_ascii a = false ->
  unquote_body (String a s1) =
    match s1 with
    | EmptyString => None
    | String b s2 =>
        if utf8_2 a b then prepend (String a (String b "")) (unquote_body s2)
        else match s2 with
             | EmptyString => prepend replacement (unquote_body s1)
             | String c s3 =>
                 if utf8_3 a b c
                 then prepend (String a (String b (String c ""))) (unquote_body s3)
                 else match s3 with
                      | EmptyString => prepend replacement (unquote_body s1)
                      | String d s4 =>
                          if utf8_4 a b c d
                          then prepend (String a (String b (String c (String d ""))))
                                 (unquote_body s4)
                          else prepend replacement (unquote_body s1)
                      end
             end
    end.
Proof.
  intros Ha. pose proof (not_ascii_code a Ha).
  cbn [unquote_body]. rewrite Ha.
  rewrite (proj2 (Z.eqb_neq (code a) 34)), (proj2 (Z.ltb_ge (code a) 32)),
    (proj2 (Z.eqb_neq (code a) 92)) by lia. done.
Qed.

Lemma unquote_escape_3 a b c rest :
  is_ascii a = false -> utf8_2 a b = false -> utf8_3 a b c = true ->
  unquote_body (escape_3 a b c ++ rest) =
    prepend (String a (String b (String c ""))) (unquote_body rest).
Proof.
  intros Ha H2 H3. unfold escape_3.
  destruct ((code a =? 226) && (code b =? 128) && ((code c =? 168) || (code c =? 169))) eqn:E.
  - apply andb_true_iff in E as [[Ea Eb]%andb_true_iff Ec].
    apply code_eqb in Ea as ->, Eb as ->. apply orb_true_iff in Ec as [Ec|Ec];
      apply code_eqb in Ec as ->; reflexivity.
  - cbn [String.append]. rewrite unquote_not_ascii, H2, H3 by done. done.
Qed.

(** Decoding a quoted string gives the string back, for valid UTF-8. *)
Lemma unquote_quote s rest :
  Utf8 s -> unquote_body (quote_body s ++ String quote_mark rest) = Some (s, rest).
Proof.
  induction 1 as [|a s Ha _ IH|a b s Ha H2 _ IH|a b c s Ha H2 H3 _ IH|a b c d s Ha H2 H3 H4 _ IH].
  - reflexivity.
  - cbn [quote_body]. rewrite Ha, sapp_assoc, unquote_escape_ascii, IH by done. done.
  - cbn [quote_body]. rewrite Ha, H2. cbn [String.append].
    rewrite unquote_not_ascii, H2, IH by done. done.
  - cbn [quote_body]. rewrite Ha, H2, H3, sapp_assoc, unquote_escape_3, IH by done. done.
  - cbn [quote_body]. rewrite Ha, H2, H3, H4. cbn [String.append].
    rewrite unquote_not_ascii, H2, H3, H4, IH by done. done.
Qed.

(** What may follow a value in the text [marshal] writes. *)
Definition delim (s : string) : bool :=
  match s with
  | EmptyString => true
  | String c _ => (code c =? 44) || (code c =? 93) || (code c =? 125)
  end.

Lemma delim_cases s :
  delim s = true -> s = "" \/ exists c r, s = String c r /\ (c = byte_of 44 \/ c = byte_of 93 \/ c = byte_of 125).
Proof.
  destruct s as [|c r]; [by left|]. simpl. intros [[H|H]%orb_true_iff|H]%orb_true_iff; right;
    exists c, r; (split; [done|]); apply code_eqb in H; auto.
Qed.

Lemma span_digits ds rest :
  all_chars is_digit ds = true -> delim rest = true -> span is_digit (ds ++ rest) = (ds, rest).
Proof.
  intros Hd Hr. induction ds as [|c ds IH]; cbn [String.append span all_chars] in *.
  - destruct (delim_cases _ Hr) as [->|(c & r & -> & [->|[->| ->]])]; reflexivity.
  - apply andb_true_iff in Hd as [-> Hd]. by rewrite IH.
Qed.

Lemma scan_tail_delim rest :
  delim rest = true -> scan_frac rest = Some ("", rest) /\ scan_exp rest = Some ("", rest).
Proof. intros H. destruct (delim_cases _ H) as [->|(c & r & -> & [->|[->| ->]])]; split; reflexivity. Qed.

Lemma digit_not_minus c : is_digit c = true -> (code c =? 45) = false.
Proof. unfold is_digit, between. intros [H _]%andb_true_iff. apply Z.leb_le in H. apply Z.eqb_neq. lia. Qed.

Lemma scan_int_dec n rest :
  0 <= n -> delim rest = true -> scan_int (dec_nonneg n ++ rest) = Some (dec_nonneg n, rest).
Proof.
  intros Hn Hr. destruct (dec_nonneg_shape n Hn) as [Ha [E|(c & s & E & Hc)]]; rewrite E in *.
  - reflexivity.
  - cbn [String.append scan_int]. rewrite Hc.
    unfold between in Hc. apply andb_true_iff in Hc as [Hc _]. apply Z.leb_le in Hc.
    rewrite (proj2 (Z.eqb_neq (code c) 48)) by lia. simpl in Ha. apply andb_true_iff in Ha as [_ Ha].
    by rewrite span_digits.
Qed.

Lemma scan_number_fmt_d z rest :
  delim rest = true -> scan_number (fmt_d z ++ rest) = Some (fmt_d z, rest).
Proof.
  intros Hr. destruct (scan_tail_delim rest Hr) as [Hf He]. unfold fmt_d.
  destruct (Z.ltb_spec z 0).
  - unfold scan_number. cbn [String.append]. change (code "-" =? 45) with true. cbv iota beta zeta.
    rewrite scan_int_dec, Hf, He by (done || lia). simpl. by rewrite !sapp_nil_r.
  - destruct (dec_nonneg_cons z ltac:(lia)) as (c & s & E & Hc).
    assert (Hs : dec_nonneg z ++ rest = String c (s ++ rest)) by by rewrite E.
    unfold scan_number. rewrite Hs, digit_not_minus by done.
    cbv iota beta zeta. rewrite <- Hs, scan_int_dec, Hf, He by (done || lia).
    simpl. by rewrite !sapp_nil_r.
Qed.

(** *** Values *)

(** Values [json.Marshal] is applied to: strings are valid UTF-8, numbers are
    integers, and nesting is at most [h]. *)
#[warnings="-register-all"]
Inductive wf_json : nat -> json -> Prop :=
  | wf_null h : wf_json h JNull
  | wf_bool h b : wf_json h (JBool b)
  | wf_num h z : wf_json h (JNum (fmt_d z))
  | wf_str h s : ValidString s = true -> wf_json h (JStr s)
  | wf_arr h l : Forall (wf_json h) l -> wf_json (S h) (JArr l)
  | wf_obj h fs :
      Forall (fun kv => ValidString (fst kv) = true /\ wf_json h (snd kv)) fs ->
      wf_json (S h) (JObj fs).

(** Fuel the parser needs. *)
Fixpoint need (j : json) : nat :=
  match j with
  | JArr l => fold_right (fun x n => S (need x + n))%nat 2%nat l
  | JObj fs => fold_right (fun kv n => S (S (need (snd kv) + n)))%nat 2%nat fs
  | _ => 1%nat
  end.

Definition tail_elems (l : list json) : string :=
  fold_right (fun y acc => String (byte_of 44) (marshal y ++ acc)) "" l.
Definition field_text (kv : string * json) : string :=
  quote (fst kv) ++ String (byte_of 58) (marshal (snd kv)).
Definition tail_fields (fs : list (string * json)) : string :=
  fold_right (fun kv acc => String (byte_of 44) (field_text kv ++ acc)) "" fs.

Lemma marshal_tail l :
  (fix rest (l : list json) : string :=
     match l with [] => "" | y :: l' => "," ++ marshal y ++ rest l' end) l = tail_elems l.
Proof.
  induction l as [|y l IH]; [done|]. change (tail_elems (y :: l)) with ("," ++ marshal y ++ tail_elems l).
  rewrite <- IH. done.
Qed.

Lemma marshal_arr x l :
  marshal (JArr (x :: l)) = String (byte_of 91) (marshal x ++ tail_elems l ++ "]").
Proof.
  rewrite <- marshal_tail, <- sapp_assoc. done.
Qed.

Lemma marshal_field_tail fs :
  (fix rest (fs : list (string * json)) : string :=
     match fs with
     | [] => ""
     | (k, y) :: fs' => "," ++ quote k ++ ":" ++ marshal y ++ rest fs'
     end) fs = tail_fields fs.
Proof.
  induction fs as [|[k y] fs IH]; [done|].
  change (tail_fields ((k, y) :: fs)) with
    ("," ++ (quote k ++ (":" ++ marshal y)) ++ tail_fields fs).
  rewrite <- IH, !sapp_assoc. done.
Qed.

Lemma marshal_obj kv fs :
  marshal (JObj (kv :: fs)) = String (byte_of 123) (field_text kv ++ tail_fields fs ++ "}").
Proof.
  destruct kv as [k x]. rewrite <- marshal_field_tail. unfold field_text. cbn [fst snd].
  rewrite <- !sapp_assoc. cbn [marshal]. rewrite !sapp_assoc. done.
Qed.

(** The first character of a written value. *)
Definition value_start (c : ascii) : bool :=
  negb (is_json_space c) && negb (code c =? 93) && negb (code c =? 125).

Lemma fmt_d_head z : exists c s, fmt_d z = String c s /\ (is_digit c = true \/ c = "-"%char).
Proof.
  unfold fmt_d. destruct (Z.ltb_spec z 0); [eauto|].
  destruct (dec_nonneg_cons z ltac:(lia)) as (c & s & -> & Hc). eauto 6.
Qed.

Lemma marshal_head h j :
  wf_json h j -> exists c s, marshal j = String c s /\ value_start c = true.
Proof.
  destruct 1 as [| h [] | h z | h s | h [|] | h [|[]]]; try (eexists _, _; split; reflexivity).
  destruct (fmt_d_head z) as (c & s & E & [Hc| ->]); cbn [marshal]; rewrite E; eexists _, _;
    (split; [done|]); [|done].
  revert Hc. clear. by destruct c as [[] [] [] [] [] [] [] []].
Qed.

Lemma skip_space_start c s : value_start c = true -> skip_space (String c s) = String c s.
Proof. intros [[H _]%andb_true_iff _]%andb_true_iff. simpl. apply negb_true_iff in H. by rewrite H. Qed.

Lemma delim_tail_elems l rest : delim (tail_elems l ++ String (byte_of 93) rest) = true.
Proof. by destruct l. Qed.
Lemma delim_tail_fields fs rest : delim (tail_fields fs ++ String (byte_of 125) rest) = true.
Proof. by destruct fs as [|[]]. Qed.

Lemma parse_number_value k d c r :
  is_digit c = true \/ c = "-"%char ->
  parse_value (S k) d (String c r) =
    match scan_number (String c r) with Some (n, r') => Some (JNum n, r') | None => None end.
Proof.
  intros [H| ->]; [|reflexivity]. revert H.
  destruct c as [[] [] [] [] [] [] [] []]; intros H; try discriminate H; reflexivity.
Qed.

Lemma parse_quoted k d s rest :
  ValidString s = true -> parse_value (S k) d (quote s ++ rest) = Some (JStr s, rest).
Proof.
  intros H%ValidString_Utf8. unfold quote. cbn [String.append]. rewrite sapp_assoc. cbn [String.append].
  change (parse_value (S k) d (String quote_mark (quote_body s ++ String quote_mark rest)))
    with (match unquote_body (quote_body s ++ String quote_mark rest) with
          | Some (t, r') => Some (JStr t, r') | None => None end).
  by rewrite unquote_quote.
Qed.

(** *** The parser inverts [marshal] *)

Definition parses (h : nat) (j : json) : Prop :=
  forall fuel depth rest,
    (need j <= fuel)%nat -> depth + Z.of_nat h <= max_depth -> delim rest = true ->
    parse_value fuel depth (marshal j ++ rest) = Some (j, rest).

Lemma parse_elements_tail h depth rest l fuel :
  Forall (parses h) l -> depth + Z.of_nat h <= max_depth ->
  (fold_right (fun x n => S (need x + n))%nat 1%nat l <= fuel)%nat ->
  parse_elements fuel depth (tail_elems l ++ String (byte_of 93) rest) = Some (l, rest).
Proof.
  intros Hl Hd. revert fuel. induction Hl as [|x l Hx _ IH]; intros [|k] Hf; cbn [fold_right] in Hf;
    try lia; [reflexivity|].
  cbn [tail_elems fold_right String.append]. fold (tail_elems l). rewrite sapp_assoc.
  change (parse_elements (S k) depth (String (byte_of 44) ?s))
    with (match parse_value k depth s with
          | Some (y, r1) => match parse_elements k depth r1 with
                            | Some (ys, r2) => Some (y :: ys, r2) | None => None end
          | None => None end).
  rewrite Hx, IH; auto using delim_tail_elems; lia.
Qed.

Lemma parse_field_text h depth rest kv fuel :
  ValidString (fst kv) = true -> parses h (snd kv) -> depth + Z.of_nat h <= max_depth ->
  (S (need (snd kv)) <= fuel)%nat -> delim rest = true ->
  parse_field fuel depth (field_text kv ++ rest) = Some (kv, rest).
Proof.
  destruct kv as [k x]. cbn [fst snd]. intros Hk Hx Hd Hf Hr. destruct fuel as [|n]; [lia|].
  unfold field_text, quote. cbn [fst snd String.append]. rewrite !sapp_assoc. cbn [String.append].
  cbn [parse_field]. change (skip_space (String quote_mark ?s)) with (String quote_mark s).
  change (code quote_mark =? 34) with true. cbv iota.
  rewrite unquote_quote by by apply ValidString_Utf8.
  change (skip_space (String (byte_of 58) ?s)) with (String (byte_of 58) s).
  change (code (byte_of 58) =? 58) with true. cbv iota. rewrite Hx by (done || lia). done.
Qed.

Lemma parse_fields_tail h depth rest fs fuel :
  Forall (fun kv => ValidString (fst kv) = true /\ parses h (snd kv)) fs ->
  depth + Z.of_nat h <= max_depth ->
  (fold_right (fun kv n => S (S (need (snd kv) + n)))%nat 1%nat fs <= fuel)%nat ->
  parse_fields fuel depth (tail_fields fs ++ String (byte_of 125) rest) = Some (fs, rest).
Proof.
  intros Hl Hd. revert fuel.
  induction Hl as [|kv fs [Hk Hx] _ IH]; intros [|n] Hf; cbn [fold_right] in Hf;
    try lia; [reflexivity|].
  cbn [tail_fields fold_right String.append]. fold (tail_fields fs). rewrite sapp_assoc.
  change (parse_fields (S n) depth (String (byte_of 44) ?s))
    with (match parse_field n depth s with
          | Some (f, r1) => match parse_fields n depth r1 with
                            | Some (gs, r2) => Some (f :: gs, r2) | None => None end
          | None => None end).
  rewrite (parse_field_text h), IH; auto using delim_tail_fields; lia.
Qed.

Lemma need_fold (f : json -> nat) (l : list json) :
  fold_right (fun x n => S (f x + n))%nat 2%nat l = S (fold_right (fun x n => S (f x + n))%nat 1%nat l).
Proof. induction l as [|x l IH]; simpl; [done|]. rewrite IH. lia. Qed.

Lemma need_fold_fields (f : string * json -> nat) (l : list (string * json)) :
  fold_right (fun x n => S (S (f x + n)))%nat 2%nat l
  = S (fold_right (fun x n => S (S (f x + n)))%nat 1%nat l).
Proof. induction l as [|x l IH]; simpl; [done|]. rewrite IH. lia. Qed.

Lemma parse_value_arr k depth c s :
  value_start c = true -> depth + 1 <= max_depth ->
  parse_value (S k) depth (String (byte_of 91) (String c s)) =
    match parse_value k (depth + 1) (String c s) with
    | Some (x, r2) => match parse_elements k (depth + 1) r2 with
                      | Some (xs, r3) => Some (JArr (x :: xs), r3) | None => None end
    | None => None
    end.
Proof.
  intros Hc Hd. cbn [parse_value]. change (skip_space (String (byte_of 91) ?t)) with (String (byte_of 91) t).
  change (code (byte_of 91) =? 34) with false. change (code (byte_of 91) =? 91) with true. cbv iota.
  rewrite (proj2 (Z.ltb_ge _ _)) by lia. rewrite skip_space_start by done.
  unfold value_start in Hc. split_bools. by rewrite (proj2 (Z.eqb_neq (code c) 93)).
Qed.

Lemma parse_value_obj k depth kv s :
  depth + 1 <= max_depth ->
  parse_value (S k) depth (String (byte_of 123) (field_text kv ++ s)) =
    match parse_field k (depth + 1) (field_text kv ++ s) with
    | Some (f, r2) => match parse_fields k (depth + 1) r2 with
                      | Some (fs, r3) => Some (JObj (f :: fs), r3) | None => None end
    | None => None
    end.
Proof.
  intros Hd. cbn [parse_value]. change (skip_space (String (byte_of 123) ?t)) with (String (byte_of 123) t).
  change (code (byte_of 123) =? 34) with false. change (code (byte_of 123) =? 91) with false.
  change (code (byte_of 123) =? 123) with true. cbv iota.
  rewrite (proj2 (Z.ltb_ge _ _)) by lia. unfold field_text, quote. cbn [String.append].
  change (skip_space (String quote_mark ?t)) with (String quote_mark t).
  change (code quote_mark =? 125) with false. done.
Qed.

Lemma parse_empty_arr k depth rest :
  depth + 1 <= max_depth -> parse_value (S k) depth (marshal (JArr []) ++ rest) = Some (JArr [], rest).
Proof.
  intros H. change (parse_value (S k) depth (marshal (JArr []) ++ rest))
    with (if max_depth <? depth + 1 then None else Some (JArr [], rest)).
  by rewrite (proj2 (Z.ltb_ge _ _)) by lia.
Qed.

Lemma parse_empty_obj k depth rest :
  depth + 1 <= max_depth -> parse_value (S k) depth (marshal (JObj []) ++ rest) = Some (JObj [], rest).
Proof.
  intros H. change (parse_value (S k) depth (marshal (JObj []) ++ rest))
    with (if max_depth <? depth + 1 then None else Some (JObj [], rest)).
  by rewrite (proj2 (Z.ltb_ge _ _)) by lia.
Qed.

Lemma parse_marshal_value h j : wf_json h j -> parses h j.
Proof.
  revert h. induction j as [| b | n | s | l IH | fs IH] using json_rect_nested;
    intros h Hwf fuel depth rest Hf Hd Hr; inversion Hwf; subst;
    (destruct fuel as [|k]; [cbn [need] in Hf; try rewrite need_fold in Hf;
       try rewrite need_fold_fields in Hf; lia|]).
  - reflexivity.
  - by destruct b.
  - cbn [marshal]. destruct (fmt_d_head z) as (c & s & E & Hc).
    assert (Hs : fmt_d z ++ rest = String c (s ++ rest)) by by rewrite E.
    rewrite Hs, parse_number_value, <- Hs, scan_number_fmt_d by done. done.
  - by apply parse_quoted.
  - rename h0 into h. assert (Hl : Forall (parses h) l).
    { apply List.Forall_forall. intros x Hx. rewrite List.Forall_forall in *. auto. }
    cbn [need] in Hf. rewrite need_fold in Hf. destruct l as [|x l]; [apply parse_empty_arr; lia|].
    rewrite marshal_arr. cbn [String.append]. rewrite !sapp_assoc. cbn [String.append].
    inversion Hl as [|? ? Hx Hl']; subst. assert (wf_json h x) as Hwx by by inversion H1.
    destruct (marshal_head h x Hwx) as (c & s & E & Hc).
    assert (Hs : forall t, marshal x ++ t = String c (s ++ t)) by by rewrite E.
    cbn [fold_right] in Hf. rewrite Hs, parse_value_arr, <- Hs by (done || lia).
    rewrite Hx, (parse_elements_tail h); auto using delim_tail_elems; lia.
  - rename h0 into h.
    assert (Hl : Forall (fun kv => ValidString (fst kv) = true /\ parses h (snd kv)) fs).
    { apply List.Forall_forall. intros x Hx. rewrite List.Forall_forall in *. split; [by apply H1|].
      apply IH; [done|]. by apply H1. }
    cbn [need] in Hf. rewrite need_fold_fields in Hf.
    destruct fs as [|kv fs]; [apply parse_empty_obj; lia|].
    rewrite marshal_obj. cbn [String.append]. rewrite !sapp_assoc. cbn [String.append].
    inversion Hl as [|? ? [Hk Hx] Hl']; subst. cbn [fold_right] in Hf.
    rewrite parse_value_obj, (parse_field_text h), (parse_fields_tail h);
      auto using delim_tail_fields; lia.
Qed.

Lemma slength_app (a b : string) : String.length (a ++ b) = (String.length a + String.length b)%nat.
Proof. induction a as [|c a IH]; cbn [String.append String.length]; [done|]. lia. Qed.

Lemma sapp_inj_len (a b x y : string) : String.length x = String.length y -> a ++ x = b ++ y -> a = b /\ x = y.
Proof.
  intros El. revert b. induction a as [|c a IH]; intros [|c' b] E; cbn in E.
  - done.
  - subst x. cbn in El. rewrite slength_app in El. lia.
  - subst y. cbn in El. rewrite slength_app in El. lia.
  - injection E as -> E. by destruct (IH b E) as [-> ->].
Qed.

Lemma need_le h j : wf_json h j -> (need j <= 2 * String.length (marshal j))%nat.
Proof.
  revert h. induction j as [| b | n | s | l IH | fs IH] using json_rect_nested; intros h Hwf;
    inversion Hwf; subst.
  - cbn. lia.
  - destruct b; cbn; lia.
  - destruct (fmt_d_head z) as (c & s & E & _). cbn [need marshal]. rewrite E. cbn [String.length]. lia.
  - unfold quote. cbn [need marshal quote String.length]. lia.
  - rename h0 into h. rewrite List.Forall_forall in *.
    assert (Hall : forall x, In x l -> (need x <= 2 * String.length (marshal x))%nat) by eauto.
    clear IH H1 Hwf. destruct l as [|x l]; [cbn; lia|].
    rewrite marshal_arr. cbn [need fold_right String.length]. rewrite need_fold, !slength_app.
    pose proof (Hall x (or_introl eq_refl)).
    assert (fold_right (fun x n => S (need x + n))%nat 1%nat l
            <= 1 + 2 * String.length (tail_elems l))%nat.
    { assert (Hl : forall y, In y l -> (need y <= 2 * String.length (marshal y))%nat)
        by (intros; apply Hall; by right). clear Hall. induction l as [|y l IH]; [cbn; lia|].
      cbn [fold_right tail_elems String.length]. fold (tail_elems l). rewrite slength_app.
      pose proof (Hl y (or_introl eq_refl)). pose proof (IH (fun z Hz => Hl z (or_intror Hz))). lia. }
    cbn [String.length]. lia.
  - rename h0 into h. rewrite List.Forall_forall in *.
    assert (Hall : forall x, In x fs -> (need (snd x) <= 2 * String.length (marshal (snd x)))%nat)
      by (intros x Hx; eapply IH; [done|]; by apply H1).
    clear IH H1 Hwf. destruct fs as [|x fs]; [cbn; lia|].
    rewrite marshal_obj. cbn [need fold_right String.length].
    rewrite (need_fold_fields (fun kv => need (snd kv))), !slength_app.
    assert (Hf : forall kv, (String.length (marshal (snd kv)) < String.length (field_text kv))%nat).
    { intros kv. unfold field_text. rewrite slength_app. cbn [String.length]. lia. }
    pose proof (Hall x (or_introl eq_refl)). pose proof (Hf x).
    assert (fold_right (fun kv n => S (S (need (snd kv) + n)))%nat 1%nat fs
            <= 1 + 2 * String.length (tail_fields fs))%nat.
    { assert (Hl : forall y, In y fs -> (need (snd y) <= 2 * String.length (marshal (snd y)))%nat)
        by (intros; apply Hall; by right). clear Hall. induction fs as [|y fs IH]; [cbn; lia|].
      cbn [fold_right tail_fields String.length]. fold (tail_fields fs). rewrite slength_app.
      pose proof (Hl y (or_introl eq_refl)). pose proof (Hf y).
      pose proof (IH (fun z Hz => Hl z (or_intror Hz))). lia. }
    cbn [String.length]. lia.
Qed.

(** [json.Unmarshal] of the text [json.Marshal] writes is the value. *)
Lemma parse_json_marshal h j :
  wf_json h j -> Z.of_nat h <= max_depth -> parse_json (marshal j) = Some j.
Proof.
  intros Hwf Hd. unfold parse_json.
  rewrite <- (sapp_nil_r (marshal j)) at 2.
  rewrite (parse_marshal_value h j Hwf); [done| |lia|done].
  pose proof (need_le h j Hwf). unfold json_fuel. lia.
Qed.

(** ** Decoding into structs *)

(** [foldName]: ASCII letters fold to upper case, and so do the two runes of
    other blocks whose simple folding is an ASCII letter. *)
Fixpoint fold_name (s : string) : string :=
  match s with
  | EmptyString => ""
  | String a s1 =>
      let plain := String (if is_lower a then byte_of (code a - 32) else a) (fold_name s1) in
      match s1 with
      | String b s2 =>
          if (code a =? 197) && (code b =? 191) then String "S" (fold_name s2)
          else match s2 with
               | String c s3 =>
                   if (code a =? 226) && (code b =? 132) && (code c =? 170)
                   then String "K" (fold_name s3) else plain
               | EmptyString => plain
               end
      | EmptyString => plain
      end
  end.

(** The field a key addresses: its exact name, otherwise its folded name. *)
Definition find_field (names : list string) (key : string) : option string :=
  if exists_where (fun n => n == key) names then Some key
  else first_where (fun n => fold_name n == fold_name key) names.

Section DecodeStruct.
Context {R : Type} (names : list string) (strict : bool)
        (set_field : string -> json -> R -> option R).

(** Keys are decoded in order into the struct; [strict] is
    [DisallowUnknownFields]. *)
Fixpoint decode_fields (fs : list (string * json)) (r : R) : option R :=
  match fs with
  | [] => Some r
  | (k, v) :: fs' =>
      match find_field names k with
      | Some n => match set_field n v r with
                  | Some r' => decode_fields fs' r'
                  | None => None
                  end
      | None => if strict then None else decode_fields fs' r
      end
  end.

(** [null] leaves a struct as it is; any other non-object is an error. *)
Definition decode_struct (v : json) (r : R) : option R :=
  match v with
  | JObj fs => decode_fields fs r
  | JNull => Some r
  | _ => None
  end.

Lemma decode_fields_exact k v fs r :
  k ∈ names ->
  decode_fields ((k, v) :: fs) r =
    match set_field k v r with Some r' => decode_fields fs r' | None => None end.
Proof.
  intros Hk. cbn [decode_fields]. unfold find_field.
  rewrite (proj2 (exists_where_spec _ _)); [done|]. exists k. split; [done|]. by apply bool_decide_eq_true.
Qed.
End DecodeStruct.

Definition decode_string (v : json) (old : string) : option string :=
  match v with JStr s => Some s | JNull => Some old | _ => None end.
Definition decode_int (v : json) (old : Z) : option Z :=
  match v with JNum lit => ParseInt lit | JNull => Some old | _ => None end.
Definition decode_uint (v : json) (old : Z) : option Z :=
  match v with JNum lit => ParseUint lit | JNull => Some old | _ => None end.
Definition decode_bool (v : json) (old : bool) : option bool :=
  match v with JBool b => Some b | JNull => Some old | _ => None end.

(** A Go slice is nil or a list. *)
Abbreviation slice A := (option (list A)).
Definition elems {A} (s : slice A) : list A := default [] s.

Fixpoint decode_elems {A} (dec : json -> A -> option A) (zero : A) (vs : list json) (old : list A)
  : option (list A) :=
  match vs with
  | [] => Some []
  | v :: vs' =>
      match dec v (default zero (head old)), decode_elems dec zero vs' (tail old) with
      | Some x, Some xs => Some (x :: xs)
      | _, _ => None
      end
  end.

Definition decode_slice {A} (dec : json -> A -> option A) (zero : A) (v : json) (old : slice A)
  : option (slice A) :=
  match v with
  | JNull => Some None
  | JArr vs => option_map Some (decode_elems dec zero vs (elems old))
  | _ => None
  end.

Definition json_slice {A} (enc : A -> json) (s : slice A) : json :=
  match s with None => JNull | Some l => JArr (map enc l) end.

(** Into a pointer: [null] clears it, any other value decodes into what it
    points to, a new zero value when it is nil. *)
Definition decode_pointer {A} (dec : json -> A -> option A) (zero : A) (v : json) (old : option A)
  : option (option A) :=
  match v with JNull => Some None | _ => option_map Some (dec v (default zero old)) end.

Lemma decode_slice_strings s old :
  decode_slice decode_string "" (json_slice JStr s) old = Some s.
Proof.
  destruct s as [l|]; [|done]. simpl. generalize (elems old). clear old.
  induction l as [|x l IH]; intros o; simpl; [done|].
  specialize (IH (tail o)). by destruct (decode_elems _ _ _ _); simplify_eq/=.
Qed.

Lemma decode_slice_ints s old :
  Forall (fun z => - 2 ^ 63 <= z < 2 ^ 63) (elems s) ->
  decode_slice decode_int 0 (json_slice (fun z => JNum (fmt_d z)) s) old = Some s.
Proof.
  destruct s as [l|]; [|done]. simpl. generalize (elems old). clear old.
  induction l as [|x l IH]; intros o H; cbn [map decode_elems]; [done|].
  inversion H; subst. cbn [decode_int]. rewrite ParseInt_fmt_d by done.
  specialize (IH (tail o) ltac:(done)). by destruct (decode_elems _ _ _ _); simplify_eq/=.
Qed.

(** ** Values of no declared type *)

(** Members of a map, sorted by key; a later member replaces an earlier one. *)
Fixpoint insert_member (k : string) (v : json) (l : list (string * json)) : list (string * json) :=
  match l with
  | [] => [(k, v)]
  | (k', v') :: l' =>
      if k == k' then (k, v) :: l'
      else if String.leb k k' then (k, v) :: l
      else (k', v') :: insert_member k v l'
  end.

(** The text [json.Marshal] gives the [float64] a number literal decodes to;
    [None] when the literal is out of range. *)
Class GoFloat := float_text : string -> option string.

Section Any.
Context `{GoFloat}.

(** Into an [any]: a number becomes a [float64], an object a map. *)
Fixpoint decode_any (v : json) : option json :=
  match v with
  | JNum lit => JNum <$> float_text lit
  | JArr l =>
      JArr <$> (fix each (l : list json) : option (list json) :=
                  match l with
                  | [] => Some []
                  | x :: l' => match decode_any x, each l' with
                               | Some y, Some ys => Some (y :: ys) | _, _ => None end
                  end) l
  | JObj fs =>
      JObj <$> (fix each (fs : list (string * json)) (acc : list (string * json)) : option (list (string * json)) :=
                  match fs with
                  | [] => Some acc
                  | (k, x) :: fs' => match decode_any x with
                                     | Some y => each fs' (insert_member k y acc) | None => None end
                  end) fs []
  | _ => Some v
  end.

(** Into a [map[string]any]: the members are added to the map. *)
Definition decode_map (v : json) (old : option (list (string * json))) : option (option (list (string * json))) :=
  match v with
  | JNull => Some None
  | JObj fs =>
      option_map Some (fold_left (fun acc kv => match acc, decode_any (snd kv) with
                                                | Some m, Some y => Some (insert_member (fst kv) y m) | _, _ => None end)
                         fs (Some (elems old)))
  | _ => None
  end.
End Any.

(** [json.NewDecoder(r).Decode]: the first value of a text and what follows it. *)
Definition parse_first (s : string) : option (json * string) := parse_value (json_fuel s) 0 s.
