(* ===== verification/GoNet.v ===== *)
(** * The parts of Go's network libraries the program uses

    URLs and durations are parsed by the library, not by the program: the
    parsers are parameters of the definitions that use them. *)

From S2P Require Import Prelude GoText.
From Stdlib Require Import Ascii.
Open Scope string_scope.
Open Scope Z_scope.
Open Scope go_scope.

(** What the program reads of a [*url.URL]; [url.Parse] is [None] on error. *)
Record parsed_url := mkParsedURL {
  pu_Scheme : string; pu_Host : string; pu_HasUser : bool; pu_Path : string; pu_EscapedPath : string;
  pu_RawQuery : string; pu_Fragment : string }.
Class NetURL := url_Parse : string -> option parsed_url.

(** [time.ParseDuration] in nanoseconds. *)
Class GoDuration := time_ParseDuration : string -> option Z.

(** [os.Getenv]. *)
Class Environ := os_Getenv : string -> string.

(** ** Escaping of a path segment: [url.PathEscape] *)

Definition upper_hex (d : Z) : ascii := if d <? 10 then byte_of (48 + d) else byte_of (55 + d).

Definition path_segment_char (c : ascii) : bool :=
  is_alnum c || is_char "-" c || is_char "_" c || is_char "." c || is_char "~" c || is_char "$" c || is_char "&" c
  || is_char "+" c || is_char ":" c || is_char "=" c || is_char "@" c.

Fixpoint PathEscape (s : string) : string :=
  match s with
  | EmptyString => ""
  | String c s' =>
      if path_segment_char c then String c (PathEscape s')
      else String "%" (String (upper_hex (code c / 16)) (String (upper_hex (code c mod 16)) (PathEscape s')))
  end.

Example PathEscape_ex : PathEscape "a b/c:d%" = "a%20b%2Fc:d%25".
Proof. vm_compute. reflexivity. Qed.

(** ** Replies *)

(** What [client.Do] gives: a transport error, or a status and the bytes of the
    body, which end in an error or at the end of the stream. *)
Inductive http_reply :=
  | TransportError (text : string)
  | Reply (status : Z) (body : string) (read_error : option string).

(** [io.ReadAll(io.LimitReader(body, n))]: the first [n] bytes, or the error
    that ends a shorter body. *)
Definition ReadAll_limit (n : Z) (body : string) (read_error : option string) : string + string :=
  if n <=? len body then inl (take_str (Z.to_nat n) body)
  else match read_error with Some e => inr e | None => inl body end.

(** ** Files *)

(** What the program reads of an [os.FileInfo]. *)
Record file_info := mkFileInfo { fi_IsDir : bool; fi_IsRegular : bool; fi_IsSocket : bool; fi_Perm : Z }.
Inductive stat_result :=
  | NotExist
  | StatError (text : string)
  | Stat (info : file_info).

(** The files of the host: [os.Stat], [os.Lstat], [os.ReadFile] and whether
    [os.Remove] succeeds. *)
Class FileSystem := {
  os_Stat : string -> stat_result;
  os_Lstat : string -> stat_result;
  os_ReadFile : string -> res string;
  os_Remove : string -> res unit }.

Definition IsAbs (path : string) : bool := HasPrefix path "/".

(** [filepath.Dir] of an absolute path: the components before the last
    separator, cleaned. *)
Definition clean_step (acc : list string) (component : string) : list string :=
  if (component == "") || (component == ".") then acc
  else if component == ".." then List.removelast acc
  else (acc ++ [component])%list.
Definition Dir (path : string) : string := "/" ++ Join (fold_left clean_step (List.removelast (Split "/" path)) []) "/".

Example Dir_ex : map Dir ["/run//a/../b/./x.sock"; "/x"; "/a/"] = ["/run/b"; "/"; "/a"].
Proof. vm_compute. reflexivity. Qed.
