(* ===== verification/GoScan.v ===== *)
(** * Scanning integers

    [fmt.Sscan(s, &n)] for an [int64]: leading space, an optional sign, an
    optional base prefix, the longest run of digits and underscores of that
    base, converted by [strconv.ParseInt(token, 0, 64)]; what follows the token
    is ignored. *)

From S2P Require Import Prelude GoText.
From Stdlib Require Import Ascii.
Open Scope string_scope.
Open Scope Z_scope.

(** The value of a digit in bases up to sixteen. *)
Definition digit_value (c : ascii) : option Z :=
  if is_digit c then Some (code c - 48)
  else if between 97 102 c then Some (code c - 87)
  else if between 65 70 c then Some (code c - 55)
  else None.

Definition in_base (base : Z) (c : ascii) : bool :=
  match digit_value c with Some d => d <? base | None => false end.

Definition is_under (c : ascii) : bool := code c =? 95.

(** [underscoreOK] after the base prefix: an underscore follows a digit or the
    prefix, and a digit follows an underscore. *)
Fixpoint underscores_ok (after_digit : bool) (s : string) : bool :=
  match s with
  | EmptyString => true
  | String c s' =>
      if is_under c
      then after_digit && match s' with String d _ => negb (is_under d) | EmptyString => false end
           && underscores_ok false s'
      else underscores_ok true s'
  end.

Fixpoint digits_in (base v : Z) (s : string) : Z :=
  match s with
  | EmptyString => v
  | String c s' =>
      if is_under c then digits_in base v s'
      else digits_in base (base * v + match digit_value c with Some d => d | None => 0 end) s'
  end.

Fixpoint has_digit (s : string) : bool :=
  match s with EmptyString => false | String c s' => negb (is_under c) || has_digit s' end.

(** The token after the sign; [prefixed] when the prefix itself counts as a
    digit for underscores, [zero] when a leading zero was consumed. *)
Definition scan_token (base : Z) (prefixed zero : bool) (s : string) : option Z :=
  let '(digits, _) := span (fun c => in_base base c || is_under c) s in
  if negb (zero || match digits with EmptyString => false | _ => true end) then None
  else if negb (underscores_ok (prefixed || zero) digits) then None
  else if prefixed && negb (has_digit digits) then None
  else Some (digits_in base 0 digits).

Definition scan_magnitude (s : string) : option Z :=
  match s with
  | String z rest =>
      if code z =? 48 then
        match rest with
        | String p rest' =>
            if (code p =? 98) || (code p =? 66) then scan_token 2 true false rest'
            else if (code p =? 111) || (code p =? 79) then scan_token 8 true false rest'
            else if (code p =? 120) || (code p =? 88) then scan_token 16 true false rest'
            else scan_token 8 false true rest
        | EmptyString => Some 0
        end
      else scan_token 10 false false s
  | EmptyString => None
  end.

Definition Sscan_int64 (s : string) : option Z :=
  let s := trim_left s in
  let '(negative, body) :=
    match s with
    | String c rest => if code c =? 45 then (true, rest) else if code c =? 43 then (false, rest) else (false, s)
    | EmptyString => (false, s)
    end in
  match scan_magnitude body with
  | None => None
  | Some v =>
      let v := if negative : bool then - v else v in
      if (v <? - 2 ^ 63) || (2 ^ 63 - 1 <? v) then None else Some v
  end.

Example scan_plain : Sscan_int64 "42" = Some 42. Proof. reflexivity. Qed.
Example scan_trailing : Sscan_int64 " 42abc" = Some 42. Proof. reflexivity. Qed.
Example scan_hex : Sscan_int64 "0x2a" = Some 42. Proof. reflexivity. Qed.
Example scan_octal : Sscan_int64 "052" = Some 42. Proof. reflexivity. Qed.
Example scan_empty : Sscan_int64 "" = None. Proof. reflexivity. Qed.
Example scan_word : Sscan_int64 "abc" = None. Proof. reflexivity. Qed.
Example scan_under : Sscan_int64 "4_2" = Some 42. Proof. reflexivity. Qed.
Example scan_negative : Sscan_int64 "-7" = Some (-7). Proof. reflexivity. Qed.
