(* ===== verification/LedgerModel.v ===== *)
(** * The work-ledger data model

    [internal/workledger/model.go], [registry.go], [agentbinding.go] and
    [adapter.go], with the envelope of [internal/envelope/envelope.go]: routes
    and their validation, events and their digests, release operations, the
    agent binding, the executor registry and the GitHub ingress adapter. *)

From stdpp Require Import gmap.
From S2P Require Import Prelude GoText GoSha256 GoJson.
From Stdlib Require Import Ascii.
Open Scope string_scope.
Open Scope Z_scope.
Open Scope go_scope.

(** ** States *)

Inductive WorkState :=
  | StateObserved | StateAdmitted | StateActive | StateWaiting | StateCompleted
  | StateFailed | StateCancelled | StateSuperseded | StateDeadLetter.
#[export] Instance WorkState_eq_dec : EqDecision WorkState.
Proof. solve_decision. Defined.

Inductive AttemptState :=
  | AttemptRunning | AttemptRecoverable | AttemptRetryScheduled | AttemptSucceeded
  | AttemptFailed | AttemptInterrupted | AttemptSuperseded.
#[export] Instance AttemptState_eq_dec : EqDecision AttemptState.
Proof. solve_decision. Defined.

Definition ExecutorDeterministicTool : string := "deterministic_tool".
Definition ExecutorPolicyEvaluator : string := "policy_evaluator".
Definition SerializeObject : string := "object".
Definition SerializeNamespace : string := "namespace".
Definition SerializeRoute : string := "route".

(** ** Routes *)

Record AdmissionPolicy := mkAdmissionPolicy {
  Sources : slice string; Namespaces : slice string; ObjectKinds : slice string;
  Events : slice string; Actions : slice string }.
#[export] Instance AdmissionPolicy_eta : Eta AdmissionPolicy := fun p =>
  mkAdmissionPolicy (Sources p) (Namespaces p) (ObjectKinds p) (Events p) (Actions p).
#[export] Instance AdmissionPolicy_eq_dec : EqDecision AdmissionPolicy.
Proof. solve_decision. Defined.

Record ConcurrencyPolicy := mkConcurrencyPolicy { Serialization : string; Supersede : bool }.
#[export] Instance ConcurrencyPolicy_eta : Eta ConcurrencyPolicy := fun p =>
  mkConcurrencyPolicy (Serialization p) (Supersede p).
#[export] Instance ConcurrencyPolicy_eq_dec : EqDecision ConcurrencyPolicy.
Proof. solve_decision. Defined.

Record RetryPolicy := mkRetryPolicy { MaxAttempts : Z; Backoff : slice Z }.
#[export] Instance RetryPolicy_eta : Eta RetryPolicy := fun p =>
  mkRetryPolicy (MaxAttempts p) (Backoff p).
#[export] Instance RetryPolicy_eq_dec : EqDecision RetryPolicy.
Proof. solve_decision. Defined.

Record RouteDefinition := mkRouteDefinition {
  rd_ID : string; rd_SchemaVersion : Z; rd_SemanticVersion : string; rd_ExecutorID : string;
  rd_Admission : AdmissionPolicy; rd_Concurrency : ConcurrencyPolicy; rd_Retry : RetryPolicy }.
#[export] Instance RouteDefinition_eta : Eta RouteDefinition := fun d =>
  mkRouteDefinition (rd_ID d) (rd_SchemaVersion d) (rd_SemanticVersion d) (rd_ExecutorID d)
    (rd_Admission d) (rd_Concurrency d) (rd_Retry d).
#[export] Instance RouteDefinition_eq_dec : EqDecision RouteDefinition.
Proof. solve_decision. Defined.

Record RouteSnapshot := mkRouteSnapshot {
  rs_ID : string; rs_RouteID : string; rs_SchemaVersion : Z; rs_SemanticVersion : string;
  rs_Digest : string; rs_ExecutorID : string; rs_ExecutorKind : string; rs_ExecutorVersion : string;
  rs_Admission : AdmissionPolicy; rs_Concurrency : ConcurrencyPolicy; rs_Retry : RetryPolicy;
  rs_ActivatedAt : Z; rs_RetiredAt : option Z }.

(** [identifierPattern]: [^[a-z][a-z0-9_.-]{0,127}$] *)
Definition identifierPattern (s : string) : bool :=
  match s with
  | EmptyString => false
  | String c r =>
      is_lower c
      && all_chars (fun x => is_lower x || is_digit x || is_char "_" x || is_char "." x || is_char "-" x) r
      && (len r <=? 127)
  end.

(** One list of the admission policy: at most 64 entries, none blank or longer
    than 256 bytes, no duplicate. *)
Definition validate_list (name : string) (values : list string) : res unit :=
  _ ← guard_err (64 <? Z.of_nat (length values)) ("route admission " ++ name ++ " exceeds 64 entries");
  (fix each (seen rest : list string) : res unit :=
     match rest with
     | [] => Ok tt
     | v :: rest' =>
         if (TrimSpace v == "") || (256 <? len v)
         then Err ("route admission " ++ name ++ " contains an empty or oversized value")
         else if exists_where (fun s => s == v) seen
         then Err ("route admission " ++ name ++ " contains duplicate")
         else each (v :: seen) rest'
     end) [] values.

(** Go ranges over the map of lists in an unspecified order, which only decides
    which of several errors is reported; they are tried in field order here. *)
Definition validate_lists (p : AdmissionPolicy) : res unit :=
  _ ← validate_list "sources" (elems (Sources p));
  _ ← validate_list "namespaces" (elems (Namespaces p));
  _ ← validate_list "object_kinds" (elems (ObjectKinds p));
  _ ← validate_list "events" (elems (Events p));
  validate_list "actions" (elems (Actions p)).

Definition valid_serialization (s : string) : bool :=
  (s == SerializeObject) || (s == SerializeNamespace) || (s == SerializeRoute).

Definition RouteDefinition_Validate (d : RouteDefinition) : res unit :=
  _ ← guard_err (negb (identifierPattern (rd_ID d))) "route id must be a bounded lowercase identifier";
  _ ← guard_err ((rd_SchemaVersion d <=? 0) || (TrimSpace (rd_SemanticVersion d) == ""))
        "route schema and semantic versions are required";
  _ ← guard_err (negb (identifierPattern (rd_ExecutorID d)))
        "route executor_id must name a registered executor";
  let a := rd_Admission d in
  _ ← guard_err ((elems (Sources a) == []) || (elems (ObjectKinds a) == []) || (elems (Events a) == []))
        "route admission requires sources, object kinds, and events";
  _ ← validate_lists a;
  _ ← guard_err (negb (valid_serialization (Serialization (rd_Concurrency d))))
        "unsupported serialization scope";
  let r := rd_Retry d in
  _ ← guard_err ((MaxAttempts r <? 1) || (10 <? MaxAttempts r))
        "route max_attempts must be between 1 and 10";
  _ ← guard_err (negb (Z.of_nat (length (elems (Backoff r))) =? MaxAttempts r - 1))
        "route retry backoff must define one delay per retry";
  guard_err (existsb (fun delay => (delay <=? 0) || (24 * Hour <? delay)) (elems (Backoff r)))
        "route retry delays must be positive and at most 24 hours".

(** *** JSON form of a route *)

Definition admission_json (p : AdmissionPolicy) : json :=
  JObj ([("sources", json_slice JStr (Sources p)); ("namespaces", json_slice JStr (Namespaces p));
         ("object_kinds", json_slice JStr (ObjectKinds p)); ("events", json_slice JStr (Events p))]
        ++ match elems (Actions p) with
           | [] => []
           | l => [("actions", JArr (map JStr l))]
           end)%list.

Definition concurrency_json (p : ConcurrencyPolicy) : json :=
  JObj [("serialization", JStr (Serialization p)); ("supersede", JBool (Supersede p))].

Definition retry_json (p : RetryPolicy) : json :=
  JObj [("max_attempts", JNum (fmt_d (MaxAttempts p)));
        ("backoff", json_slice (fun z => JNum (fmt_d z)) (Backoff p))].

Definition route_json (d : RouteDefinition) : json :=
  JObj [("id", JStr (rd_ID d)); ("schema_version", JNum (fmt_d (rd_SchemaVersion d)));
        ("semantic_version", JStr (rd_SemanticVersion d)); ("executor_id", JStr (rd_ExecutorID d));
        ("admission", admission_json (rd_Admission d));
        ("concurrency", concurrency_json (rd_Concurrency d)); ("retry", retry_json (rd_Retry d))].

(** [json.Marshal(definition)] *)
Definition Marshal_route (d : RouteDefinition) : string := marshal (route_json d).

Definition set_admission (n : string) (v : json) (p : AdmissionPolicy) : option AdmissionPolicy :=
  if n == "sources" then x ← decode_slice decode_string "" v (Sources p); Some (p <| Sources := x |>)
  else if n == "namespaces" then x ← decode_slice decode_string "" v (Namespaces p); Some (p <| Namespaces := x |>)
  else if n == "object_kinds" then x ← decode_slice decode_string "" v (ObjectKinds p); Some (p <| ObjectKinds := x |>)
  else if n == "events" then x ← decode_slice decode_string "" v (Events p); Some (p <| Events := x |>)
  else x ← decode_slice decode_string "" v (Actions p); Some (p <| Actions := x |>).

Definition decode_admission : json -> AdmissionPolicy -> option AdmissionPolicy :=
  decode_struct ["sources"; "namespaces"; "object_kinds"; "events"; "actions"] true set_admission.

Definition set_concurrency (n : string) (v : json) (p : ConcurrencyPolicy) : option ConcurrencyPolicy :=
  if n == "serialization" then x ← decode_string v (Serialization p); Some (p <| Serialization := x |>)
  else x ← decode_bool v (Supersede p); Some (p <| Supersede := x |>).

Definition decode_concurrency : json -> ConcurrencyPolicy -> option ConcurrencyPolicy :=
  decode_struct ["serialization"; "supersede"] true set_concurrency.

Definition set_retry (n : string) (v : json) (p : RetryPolicy) : option RetryPolicy :=
  if n == "max_attempts" then x ← decode_int v (MaxAttempts p); Some (p <| MaxAttempts := x |>)
  else x ← decode_slice decode_int 0 v (Backoff p); Some (p <| Backoff := x |>).

Definition decode_retry : json -> RetryPolicy -> option RetryPolicy :=
  decode_struct ["max_attempts"; "backoff"] true set_retry.

Definition set_route (n : string) (v : json) (d : RouteDefinition) : option RouteDefinition :=
  if n == "id" then x ← decode_string v (rd_ID d); Some (d <| rd_ID := x |>)
  else if n == "schema_version" then x ← decode_int v (rd_SchemaVersion d); Some (d <| rd_SchemaVersion := x |>)
  else if n == "semantic_version" then x ← decode_string v (rd_SemanticVersion d); Some (d <| rd_SemanticVersion := x |>)
  else if n == "executor_id" then x ← decode_string v (rd_ExecutorID d); Some (d <| rd_ExecutorID := x |>)
  else if n == "admission" then x ← decode_admission v (rd_Admission d); Some (d <| rd_Admission := x |>)
  else if n == "concurrency" then x ← decode_concurrency v (rd_Concurrency d); Some (d <| rd_Concurrency := x |>)
  else x ← decode_retry v (rd_Retry d); Some (d <| rd_Retry := x |>).

Definition zero_route : RouteDefinition :=
  mkRouteDefinition "" 0 "" "" (mkAdmissionPolicy None None None None None)
    (mkConcurrencyPolicy "" false) (mkRetryPolicy 0 None).

Definition decode_route (v : json) : option RouteDefinition :=
  decode_struct ["id"; "schema_version"; "semantic_version"; "executor_id"; "admission";
                 "concurrency"; "retry"] true set_route v zero_route.

Definition DecodeRouteDefinition (data : string) : res RouteDefinition :=
  definition ← of_option "decode route definition" (parse_json data ≫= decode_route);
  _ ← RouteDefinition_Validate definition;
  Ok definition.

Definition RouteDefinition_Digest (d : RouteDefinition) : res string :=
  _ ← RouteDefinition_Validate d; Ok (sha256_hex (Marshal_route d)).

(** ** Events *)

Record Event := mkEvent {
  SignalID : string; SourceDeliveryID : string; TransportStream : string; TransportSequence : Z;
  Source : string; Namespace : string; ObjectKind : string; ObjectID : string; EventKind : string;
  Action : string; ActorClass : string; SourceRevision : string; CorrelationID : string;
  CausationID : string; RootWorkItemID : string; ParentWorkItemID : string;
  OriginatingSession : string; OriginatingTurn : string; HopCount : Z; ExpiresAt : option Z;
  PayloadDigest : string; EvidenceRef : string; ReceivedAt : Z }.
#[export] Instance Event_eta : Eta Event := fun e =>
  mkEvent (SignalID e) (SourceDeliveryID e) (TransportStream e) (TransportSequence e) (Source e)
    (Namespace e) (ObjectKind e) (ObjectID e) (EventKind e) (Action e) (ActorClass e)
    (SourceRevision e) (CorrelationID e) (CausationID e) (RootWorkItemID e) (ParentWorkItemID e)
    (OriginatingSession e) (OriginatingTurn e) (HopCount e) (ExpiresAt e) (PayloadDigest e)
    (EvidenceRef e) (ReceivedAt e).

Definition event_canonical (e : Event) : json :=
  JObj [("Source", JStr (Source e)); ("Namespace", JStr (Namespace e));
        ("ObjectKind", JStr (ObjectKind e)); ("ObjectID", JStr (ObjectID e));
        ("EventKind", JStr (EventKind e)); ("Action", JStr (Action e));
        ("ActorClass", JStr (ActorClass e)); ("SourceRevision", JStr (SourceRevision e));
        ("PayloadDigest", JStr (PayloadDigest e))].

Definition Event_Digest (e : Event) : string := sha256_hex (marshal (event_canonical e)).

Definition SemanticObjectKey (e : Event) : string :=
  Join [Source e; Namespace e; ObjectKind e; ObjectID e] ":".

(** [contains]: an empty list admits everything. *)
Definition contains (allowed : slice string) (value : string) : bool :=
  match elems allowed with
  | [] => true
  | l => exists_where (fun c => c == value) l
  end.

Definition Matches (p : AdmissionPolicy) (e : Event) : bool :=
  contains (Sources p) (Source e) && contains (Namespaces p) (Namespace e)
  && contains (ObjectKinds p) (ObjectKind e) && contains (Events p) (EventKind e)
  && contains (Actions p) (Action e).

Definition serializationKey (route : RouteDefinition) (e : Event) : string :=
  let s := Serialization (rd_Concurrency route) in
  if s == SerializeNamespace then rd_ID route ++ ":namespace:" ++ Namespace e
  else if s == SerializeRoute then rd_ID route ++ ":route"
  else rd_ID route ++ ":object:" ++ SemanticObjectKey e.

(** ** Work items and attempts *)

Record WorkItem := mkWorkItem {
  wi_ID : string; wi_RouteSnapshotID : string; wi_RouteID : string; wi_SemanticObjectKey : string;
  wi_Source : string; wi_Namespace : string; wi_ObjectKind : string; wi_ObjectID : string;
  wi_SourceRevision : string; wi_SerializationKey : string; wi_AgentType : string;
  wi_AgentMode : string; wi_TypeContractRevision : string; wi_ResolvedReleaseGeneration : Z;
  wi_ResolvedReleaseDigest : string; wi_BrokerRunID : string; wi_AuthoritativePRRepository : string;
  wi_AuthoritativePRNumber : Z; wi_State : WorkState; wi_StateVersion : Z;
  wi_SupersededByID : string; wi_LatestExecutorCorrelation : string; wi_CreatedAt : Z;
  wi_UpdatedAt : Z; wi_TerminalAt : option Z; wi_NextAttemptAt : option Z }.
#[export] Instance WorkItem_eta : Eta WorkItem := fun w =>
  mkWorkItem (wi_ID w) (wi_RouteSnapshotID w) (wi_RouteID w) (wi_SemanticObjectKey w) (wi_Source w)
    (wi_Namespace w) (wi_ObjectKind w) (wi_ObjectID w) (wi_SourceRevision w) (wi_SerializationKey w)
    (wi_AgentType w) (wi_AgentMode w) (wi_TypeContractRevision w) (wi_ResolvedReleaseGeneration w)
    (wi_ResolvedReleaseDigest w) (wi_BrokerRunID w) (wi_AuthoritativePRRepository w)
    (wi_AuthoritativePRNumber w) (wi_State w) (wi_StateVersion w) (wi_SupersededByID w)
    (wi_LatestExecutorCorrelation w) (wi_CreatedAt w) (wi_UpdatedAt w) (wi_TerminalAt w)
    (wi_NextAttemptAt w).

Record ExecutorAttempt := mkExecutorAttempt {
  at_ID : string; at_WorkItemID : string; at_AttemptNumber : Z; at_ExecutorID : string;
  at_ExecutorKind : string; at_ExecutorVersion : string; at_IdempotencyKey : string;
  at_OperationIdempotencyKey : string; at_RequestedOperationDigest : string;
  at_State : AttemptState; at_RetryClassification : string; at_ExternalCorrelation : string;
  at_ResultDigest : string; at_CreatedAt : Z }.
#[export] Instance ExecutorAttempt_eta : Eta ExecutorAttempt := fun a =>
  mkExecutorAttempt (at_ID a) (at_WorkItemID a) (at_AttemptNumber a) (at_ExecutorID a)
    (at_ExecutorKind a) (at_ExecutorVersion a) (at_IdempotencyKey a) (at_OperationIdempotencyKey a)
    (at_RequestedOperationDigest a) (at_State a) (at_RetryClassification a)
    (at_ExternalCorrelation a) (at_ResultDigest a) (at_CreatedAt a).

Record AdmissionResult := mkAdmissionResult {
  ar_WorkItem : WorkItem; ar_EventID : string; ar_Duplicate : bool }.

(** ** Release operations *)

Record ReleaseOperation := mkReleaseOperation {
  ro_RepositoryID : Z; ro_InstallationID : Z; ro_ReleaseID : Z; ro_Repository : string;
  ro_Tag : string; ro_PublishedAt : string; ro_TargetCommitish : string; ro_CommitSHA : string;
  ro_AssetID : Z; ro_AssetSize : Z; ro_AssetName : string; ro_AssetContentType : string;
  ro_ProviderDigest : string; ro_ComputedDigest : string }.
#[export] Instance ReleaseOperation_eq_dec : EqDecision ReleaseOperation.
Proof. solve_decision. Defined.

(** [^v\d{4}\.\d{2}\.\d{2}-[0-9a-f]{7}$] *)
Definition tagPattern : string -> bool :=
  match_classes ([is_char "v"; is_digit; is_digit; is_digit; is_digit; is_char "."; is_digit;
                  is_digit; is_char "."; is_digit; is_digit; is_char "-"]
                 ++ repeat is_hex_lower 7)%list.

(** [^[A-Za-z0-9][A-Za-z0-9._-]*_<date>\.structured\.md$], with the date digits
    only: the last characters are fixed and the rest is a name. *)
Definition is_name_char (c : ascii) : bool :=
  is_alnum c || is_char "." c || is_char "_" c || is_char "-" c.
Definition name_pattern (s : string) : bool :=
  match s with EmptyString => false | String c r => is_alnum c && all_chars is_name_char r end.
Definition assetPattern (date s : string) : bool :=
  let suffix := "_" ++ date ++ ".structured.md" in
  let n := (String.length s - String.length suffix)%nat in
  (drop_str n s == suffix) && name_pattern (take_str n s).

Definition ReleaseOperation_Validate (o : ReleaseOperation) : res unit :=
  _ ← guard_err ((ro_Repository o != "grubbyhacker/resume-builder") || (ro_RepositoryID o <=? 0)
        || negb (ro_InstallationID o =? 146625575) || (ro_ReleaseID o <=? 0) || (ro_AssetID o <=? 0)
        || (ro_AssetSize o <=? 0) || (20 * 1024 <? ro_AssetSize o))
        "release operation has invalid fixed identity or bounds";
  _ ← guard_err (existsb (fun v => (v == "") || (256 <? len v))
        [ro_Tag o; ro_PublishedAt o; ro_TargetCommitish o; ro_CommitSHA o; ro_AssetName o;
         ro_AssetContentType o; ro_ProviderDigest o; ro_ComputedDigest o])
        "release operation field is missing or oversized";
  _ ← guard_err (negb (tagPattern (ro_Tag o)) || negb (githubSHA (ro_CommitSHA o)))
        "release operation tag or commit contract is invalid";
  let date := remove_char "." (take_str 10 (drop_str 1 (ro_Tag o))) in
  _ ← guard_err (negb (rfc3339_ok (ro_PublishedAt o))) "release operation published_at is invalid";
  _ ← guard_err ((ro_TargetCommitish o != ro_CommitSHA o) || (ro_AssetContentType o != "text/markdown")
        || (drop_str (String.length (ro_Tag o) - 7) (ro_Tag o) != take_str 7 (ro_CommitSHA o))
        || negb (assetPattern date (ro_AssetName o)))
        "release operation tag, commit, or asset contract is invalid";
  guard_err (negb (sha256_format (ro_ProviderDigest o)) || (ro_ProviderDigest o != ro_ComputedDigest o))
        "release operation digest contract is invalid".

(** ** Agent binding *)

Record AgentBinding := mkAgentBinding {
  ab_AgentType : string; ab_Mode : string; ab_TypeContractRevision : string;
  ab_ResolvedReleaseGeneration : Z; ab_ResolvedReleaseDigest : string; ab_BrokerRunID : string;
  ab_AuthoritativePRRepository : string; ab_AuthoritativePRNumber : Z }.
#[export] Instance AgentBinding_eq_dec : EqDecision AgentBinding.
Proof. solve_decision. Defined.

Definition zero_binding : AgentBinding := mkAgentBinding "" "" "" 0 "" "" "" 0.
Definition AgentBinding_Zero (b : AgentBinding) : bool := b == zero_binding.

(** [^[a-z][a-z0-9-]{0,127}$] and [^[a-z][a-z0-9_]{0,127}$] *)
Definition kebabIdentifier (s : string) : bool :=
  match s with
  | EmptyString => false
  | String c r => is_lower c && all_chars (fun x => is_lower x || is_digit x || is_char "-" x) r && (len r <=? 127)
  end.
Definition snakeIdentifier (s : string) : bool :=
  match s with
  | EmptyString => false
  | String c r => is_lower c && all_chars (fun x => is_lower x || is_digit x || is_char "_" x) r && (len r <=? 127)
  end.

Definition imageDigestFormat : string -> bool := sha256_format.

(** [^[A-Za-z0-9][A-Za-z0-9._-]*/[A-Za-z0-9][A-Za-z0-9._-]*$] *)
Definition repoFormat (s : string) : bool :=
  match cut_at "/" s with
  | Some (owner, name) => name_pattern owner && name_pattern name
  | None => false
  end.

Definition AgentBinding_Validate (b : AgentBinding) : res unit :=
  if AgentBinding_Zero b then Ok tt else
  _ ← guard_err (negb (kebabIdentifier (ab_AgentType b)))
        "agent_type must be a bounded kebab-case identifier";
  _ ← guard_err (negb (snakeIdentifier (ab_Mode b))) "agent mode must be a bounded snake_case identifier";
  _ ← guard_err ((ab_TypeContractRevision b == "") || (256 <? len (ab_TypeContractRevision b)))
        "type_contract_revision is required and bounded when an agent is bound";
  _ ← guard_err (ab_ResolvedReleaseGeneration b <? 0) "resolved_release_generation must be non-negative";
  _ ← guard_err (xorb (ab_ResolvedReleaseGeneration b =? 0) (ab_ResolvedReleaseDigest b == ""))
        "resolved release generation and digest must be set together";
  _ ← guard_err ((ab_ResolvedReleaseDigest b != "") && negb (imageDigestFormat (ab_ResolvedReleaseDigest b)))
        "resolved_release_digest must be a sha256 image digest";
  _ ← guard_err ((ab_BrokerRunID b != "") && (256 <? len (ab_BrokerRunID b))) "broker_run_id is oversized";
  _ ← guard_err (xorb (ab_AuthoritativePRRepository b == "") (ab_AuthoritativePRNumber b =? 0))
        "authoritative PR repository and number must be set together";
  if ab_AuthoritativePRRepository b != "" then
    _ ← guard_err (negb (repoFormat (ab_AuthoritativePRRepository b)) || (256 <? len (ab_AuthoritativePRRepository b)))
          "authoritative_pr_repository must be owner/name";
    guard_err (ab_AuthoritativePRNumber b <? 0) "authoritative_pr_number must be non-negative"
  else Ok tt.

Definition admissionSelectionFields : list string :=
  ["resolved_release_generation"; "resolved_release_digest"; "broker_run_id";
   "authoritative_pr_repository"; "authoritative_pr_number"].

(** The [violations] map. *)
Definition admission_violation (b : AgentBinding) (field : string) : bool :=
  if field == "resolved_release_generation" then negb (ab_ResolvedReleaseGeneration b =? 0)
  else if field == "resolved_release_digest" then ab_ResolvedReleaseDigest b != ""
  else if field == "broker_run_id" then ab_BrokerRunID b != ""
  else if field == "authoritative_pr_repository" then ab_AuthoritativePRRepository b != ""
  else if field == "authoritative_pr_number" then negb (ab_AuthoritativePRNumber b =? 0)
  else false.

Definition RejectAdmissionSelection (b : AgentBinding) : res unit :=
  match first_where (admission_violation b) admissionSelectionFields with
  | Some field => Err ("admission caller may not supply " ++ field)
  | None => Ok tt
  end.

Definition AdmissionBinding (b : AgentBinding) : AgentBinding :=
  mkAgentBinding (ab_AgentType b) (ab_Mode b) (ab_TypeContractRevision b) 0 "" "" "" 0.

(** ** Executors and their registry *)

Record ExecutorDescriptor := mkExecutorDescriptor { ed_ID : string; ed_Kind : string; ed_Version : string }.

Definition ExecutorDescriptor_Validate (d : ExecutorDescriptor) : res unit :=
  _ ← guard_err (negb (identifierPattern (ed_ID d)) || (ed_Version d == ""))
        "executor requires a bounded id and version";
  guard_err (negb ((ed_Kind d == ExecutorDeterministicTool) || (ed_Kind d == ExecutorPolicyEvaluator)))
        "unsupported executor kind".

Definition OutcomeCompleted : string := "completed".
Definition OutcomeRetryableFailure : string := "retryable_failure".
Definition OutcomePermanentFailure : string := "permanent_failure".
Definition OutcomeWaiting : string := "waiting".

Record ExecutorResult := mkExecutorResult {
  er_Outcome : string; er_RetryClassification : string; er_ExternalCorrelation : string;
  er_SanitizedError : string; er_ResultDigest : string; er_NextAttemptAt : option Z;
  er_DeadlineAt : option Z }.
#[export] Instance ExecutorResult_eta : Eta ExecutorResult := fun r =>
  mkExecutorResult (er_Outcome r) (er_RetryClassification r) (er_ExternalCorrelation r)
    (er_SanitizedError r) (er_ResultDigest r) (er_NextAttemptAt r) (er_DeadlineAt r).

(** The interface the registry holds; [Execute] is in the executor packages. *)
Class Executor (E : Type) := Descriptor : E -> ExecutorDescriptor.

Section Registry.
Context {E : Type} `{Executor E}.

Definition NewRegistry : gmap string E := ∅.

(** A nil executor is [None]. *)
Definition Register (registry : gmap string E) (executor : option E) : gmap string E * res unit :=
  match executor with
  | None => (registry, Err "executor is required")
  | Some x =>
      let d := Descriptor x in
      match ExecutorDescriptor_Validate d with
      | Ok _ =>
          match registry !! ed_ID d with
          | Some _ => (registry, Err "executor is already registered")
          | None => (<[ed_ID d := x]> registry, Ok tt)
          end
      | Err e => (registry, Err e)
      | Panic => (registry, Panic)
      end
  end.

Definition Resolve (registry : gmap string E) (id : string) : res E :=
  of_option "executor is not registered" (registry !! id).
End Registry.

Definition descriptor_json (d : ExecutorDescriptor) : json :=
  JObj [("ID", JStr (ed_ID d)); ("Kind", JStr (ed_Kind d)); ("Version", JStr (ed_Version d))].

Definition activationDigest (d : RouteDefinition) (x : ExecutorDescriptor) : res string :=
  _ ← RouteDefinition_Validate d;
  _ ← ExecutorDescriptor_Validate x;
  Ok (sha256_hex (marshal (JObj [("route", route_json d); ("executor", descriptor_json x)]))).

(** ** Envelope and ingress adapter *)

Record Authentication := mkAuthentication { Method : string; Verified : bool }.

Record Meta := mkMeta {
  m_SignalID : string; m_Source : string; m_RouteID : string; m_ReceivedAt : Z;
  m_SourceEvent : string; m_SourceAction : string; m_SourceDeliveryID : string;
  m_Namespace : string; m_ObjectKind : string; m_ObjectID : string; m_SourceRevision : string;
  m_SourceRef : string; m_SourceBefore : string; m_SourceAfter : string;
  m_SourceHeadTime : option Z; m_SourceTimestamp : option Z;
  m_ActorClass : string; m_CorrelationID : string; m_CausationID : string;
  m_RootWorkItemID : string; m_ParentWorkItemID : string; m_OriginatingSession : string;
  m_OriginatingTurn : string; m_HopCount : Z; m_ExpiresAt : option Z;
  m_Authentication : Authentication }.

(** [Payload] is raw JSON text. *)
Record Signal := mkSignal { sg_Meta : Meta; sg_Payload : string }.

Definition GitHubAdapter_Normalize (signal : Signal) (stream : string) (sequence : Z) : res Event :=
  let meta := sg_Meta signal in
  _ ← guard_err ((m_Source meta != "github") || negb (Verified (m_Authentication meta))
        || (Method (m_Authentication meta) != "github_hmac_sha256"))
        "verified GitHub HMAC authentication is required";
  _ ← guard_err ((m_Namespace meta == "") || (m_ObjectKind meta == "") || (m_ObjectID meta == "")
        || (m_SourceRevision meta == ""))
        "GitHub envelope lacks normalized namespace, object, or revision identity";
  _ ← guard_err ((stream == "") || (sequence =? 0)) "transport stream and positive sequence are required";
  Ok (mkEvent (m_SignalID meta) (m_SourceDeliveryID meta) stream sequence (m_Source meta)
        (m_Namespace meta) (m_ObjectKind meta) (m_ObjectID meta) (m_SourceEvent meta)
        (m_SourceAction meta) (m_ActorClass meta) (m_SourceRevision meta) (m_CorrelationID meta)
        (m_CausationID meta) (m_RootWorkItemID meta) (m_ParentWorkItemID meta)
        (m_OriginatingSession meta) (m_OriginatingTurn meta) (m_HopCount meta) (m_ExpiresAt meta)
        ("sha256:" ++ sha256_hex (sg_Payload signal))
        ("jetstream://" ++ stream ++ "/" ++ fmt_d sequence) (m_ReceivedAt meta)).
