(* ===== verification/LedgerModelFacts.v ===== *)
(** * Properties of the work-ledger data model

    The JSON round trip of route definitions, what validation guarantees, the
    admission guard on agent bindings, separation of serialization keys, the
    executor registry and the ingress adapter. *)

From stdpp Require Import gmap.
From S2P Require Import Prelude GoText GoSha256 GoJson LedgerModel.
From Stdlib Require Import Ascii.
Open Scope string_scope.
Open Scope Z_scope.
Open Scope go_scope.

(** ** What validation guarantees *)

Record valid_route (d : RouteDefinition) : Prop := {
  vr_id : identifierPattern (rd_ID d) = true;
  vr_executor : identifierPattern (rd_ExecutorID d) = true;
  vr_schema : 0 < rd_SchemaVersion d;
  vr_sources : elems (Sources (rd_Admission d)) <> [];
  vr_scope : valid_serialization (Serialization (rd_Concurrency d)) = true;
  vr_max : 1 <= MaxAttempts (rd_Retry d) <= 10;
  vr_backoff_len : Z.of_nat (length (elems (Backoff (rd_Retry d)))) = MaxAttempts (rd_Retry d) - 1;
  vr_backoff : Forall (fun z => 0 < z <= 24 * Hour) (elems (Backoff (rd_Retry d))) }.

Lemma RouteDefinition_Validate_ok d u : RouteDefinition_Validate d = Ok u -> valid_route d.
Proof.
  destruct u. intros H. unfold RouteDefinition_Validate in H. open_guards H. split_bools.
  constructor; auto; try lia. apply list.Forall_forall. intros z Hz.
  pose proof (proj1 (exists_where_false _ _) H z Hz) as Hr. cbv beta in Hr. split_bools. lia.
Qed.

Lemma DecodeRouteDefinition_valid data d : DecodeRouteDefinition data = Ok d -> valid_route d.
Proof.
  unfold DecodeRouteDefinition. rewrite bind_ok. intros (x & _ & H). open_guards H. simplify_eq.
  by eapply RouteDefinition_Validate_ok.
Qed.

Lemma validate_list_no_panic n l : validate_list n l <> Panic.
Proof.
  unfold validate_list. apply bind_no_panic; [apply guard_no_panic|]. intros _. generalize (@nil string) as seen.
  induction l as [|v l IH]; intros seen; [done|]. by repeat case_match.
Qed.
#[local] Hint Resolve validate_list_no_panic : panic.

Lemma RouteDefinition_Validate_no_panic d : RouteDefinition_Validate d <> Panic.
Proof.
  unfold RouteDefinition_Validate, validate_lists.
  repeat (apply bind_no_panic; [auto 12 with panic|intros []; cbv zeta]). auto with panic.
Qed.

Lemma DecodeRouteDefinition_no_panic data : DecodeRouteDefinition data <> Panic.
Proof.
  unfold DecodeRouteDefinition. apply bind_no_panic; [eauto with panic|]. intros d.
  apply bind_no_panic; [apply RouteDefinition_Validate_no_panic|done].
Qed.

(** A retry that is not the last has its delay: the index is in range. *)
Lemma valid_backoff_lookup d n :
  valid_route d -> 1 <= n < MaxAttempts (rd_Retry d) ->
  exists delay, elems (Backoff (rd_Retry d)) !! Z.to_nat (n - 1) = Some delay /\ 0 < delay <= 24 * Hour.
Proof.
  intros Hd Hn. destruct Hd as [_ _ _ _ _ Hm Hl Hb].
  destruct (elems (Backoff (rd_Retry d)) !! Z.to_nat (n - 1)) as [z|] eqn:E.
  - exists z. split; [done|]. rewrite list.Forall_forall in Hb. apply Hb.
    by eapply list_elem_of_lookup_2.
  - apply lookup_ge_None in E. lia.
Qed.

(** ** JSON round trip of route definitions *)

(** Go values of the struct: UTF-8 text and 64-bit integers. *)
Definition utf8_list (l : slice string) : Prop := Forall (fun s => ValidString s = true) (elems l).
Definition int64 (z : Z) : Prop := - 2 ^ 63 <= z < 2 ^ 63.

Record route_text (d : RouteDefinition) : Prop := {
  rt_id : ValidString (rd_ID d) = true;
  rt_semver : ValidString (rd_SemanticVersion d) = true;
  rt_exec : ValidString (rd_ExecutorID d) = true;
  rt_schema : int64 (rd_SchemaVersion d);
  rt_sources : utf8_list (Sources (rd_Admission d));
  rt_namespaces : utf8_list (Namespaces (rd_Admission d));
  rt_kinds : utf8_list (ObjectKinds (rd_Admission d));
  rt_events : utf8_list (Events (rd_Admission d));
  rt_actions : utf8_list (Actions (rd_Admission d));
  rt_scope : ValidString (Serialization (rd_Concurrency d)) = true;
  rt_max : int64 (MaxAttempts (rd_Retry d));
  rt_backoff : Forall int64 (elems (Backoff (rd_Retry d))) }.

(** [omitempty] writes no empty list of actions, so it is read back as nil. *)
Definition normalize_route (d : RouteDefinition) : RouteDefinition :=
  match elems (Actions (rd_Admission d)) with
  | [] => d <| rd_Admission ::= fun a => a <| Actions := None |> |>
  | _ => d
  end.

Lemma wf_json_strings h (l : slice string) : utf8_list l -> wf_json (S h) (json_slice JStr l).
Proof.
  destruct l as [l|]; intros H; [|constructor]. constructor. apply List.Forall_forall.
  intros j (s & <- & Hs)%in_map_iff. constructor. unfold utf8_list in H.
  rewrite list.Forall_forall in H. apply H. by apply list_elem_of_In.
Qed.

Lemma wf_json_ints h (l : slice Z) : wf_json (S h) (json_slice (fun z => JNum (fmt_d z)) l).
Proof.
  destruct l as [l|]; [|constructor]. constructor. apply List.Forall_forall.
  intros j (s & <- & Hs)%in_map_iff. constructor.
Qed.

#[local] Hint Resolve wf_json_strings wf_json_ints : core.
#[local] Hint Constructors wf_json : core.

(** Prove [wf_json] of an object literal field by field. *)
Ltac wf_fields := repeat (apply List.Forall_cons; [split; simpl; [done|auto]|]); try apply List.Forall_nil.

Lemma wf_admission_json p :
  utf8_list (Sources p) -> utf8_list (Namespaces p) -> utf8_list (ObjectKinds p) ->
  utf8_list (Events p) -> utf8_list (Actions p) -> wf_json 2 (admission_json p).
Proof.
  intros Hs Hn Hk He Ha. unfold admission_json. constructor. apply List.Forall_app.
  split; [wf_fields|]. pose proof (wf_json_strings 0 (Some (elems (Actions p))) Ha) as Hw.
  destruct (elems (Actions p)); wf_fields.
Qed.

Lemma wf_route_json d : route_text d -> wf_json 3 (route_json d).
Proof.
  intros [Hid Hsv Hex Hsc Hs Hn Hk He Ha Hco Hm Hb]. unfold route_json. constructor. wf_fields.
  - by apply wf_admission_json.
  - unfold concurrency_json. constructor. wf_fields.
  - unfold retry_json. constructor. wf_fields.
Qed.

(** One key of an object addressed by its exact name. *)
Ltac decode_key eqn :=
  rewrite decode_fields_exact by (apply list_elem_of_In; simpl; tauto);
  rewrite eqn; cbn [mbind option_bind decode_string decode_bool].

Lemma decode_admission_json p old :
  decode_admission (admission_json p) old =
    Some (match elems (Actions p) with
          | [] => p <| Actions := Actions old |>
          | l => p <| Actions := Some l |>
          end).
Proof.
  assert (H1 : forall v q, set_admission "sources" v q =
    (x ← decode_slice decode_string "" v (Sources q); Some (q <| Sources := x |>))) by reflexivity.
  assert (H2 : forall v q, set_admission "namespaces" v q =
    (x ← decode_slice decode_string "" v (Namespaces q); Some (q <| Namespaces := x |>))) by reflexivity.
  assert (H3 : forall v q, set_admission "object_kinds" v q =
    (x ← decode_slice decode_string "" v (ObjectKinds q); Some (q <| ObjectKinds := x |>))) by reflexivity.
  assert (H4 : forall v q, set_admission "events" v q =
    (x ← decode_slice decode_string "" v (Events q); Some (q <| Events := x |>))) by reflexivity.
  assert (H5 : forall v q, set_admission "actions" v q =
    (x ← decode_slice decode_string "" v (Actions q); Some (q <| Actions := x |>))) by reflexivity.
  unfold decode_admission, admission_json, decode_struct. cbn [app].
  decode_key H1. rewrite decode_slice_strings. cbn [mbind option_bind].
  decode_key H2. rewrite decode_slice_strings. cbn [mbind option_bind].
  decode_key H3. rewrite decode_slice_strings. cbn [mbind option_bind].
  decode_key H4. rewrite decode_slice_strings. cbn [mbind option_bind].
  destruct (elems (Actions p)) as [|x l]; [by destruct p|].
  decode_key H5. rewrite (decode_slice_strings (Some (x :: l))). by destruct p.
Qed.

Lemma decode_concurrency_json p old : decode_concurrency (concurrency_json p) old = Some p.
Proof.
  assert (H1 : forall v q, set_concurrency "serialization" v q =
    (x ← decode_string v (Serialization q); Some (q <| Serialization := x |>))) by reflexivity.
  assert (H2 : forall v q, set_concurrency "supersede" v q =
    (x ← decode_bool v (Supersede q); Some (q <| Supersede := x |>))) by reflexivity.
  unfold decode_concurrency, concurrency_json, decode_struct.
  decode_key H1. decode_key H2. by destruct p.
Qed.

Lemma decode_retry_json p old :
  int64 (MaxAttempts p) -> Forall int64 (elems (Backoff p)) ->
  decode_retry (retry_json p) old = Some p.
Proof.
  intros Hm Hb.
  assert (H1 : forall v q, set_retry "max_attempts" v q =
    (x ← decode_int v (MaxAttempts q); Some (q <| MaxAttempts := x |>))) by reflexivity.
  assert (H2 : forall v q, set_retry "backoff" v q =
    (x ← decode_slice decode_int 0 v (Backoff q); Some (q <| Backoff := x |>))) by reflexivity.
  unfold decode_retry, retry_json, decode_struct.
  decode_key H1. cbn [decode_int]. rewrite ParseInt_fmt_d by done. cbn [mbind option_bind].
  decode_key H2. rewrite decode_slice_ints by done. by destruct p.
Qed.

Lemma decode_route_json d : route_text d -> decode_route (route_json d) = Some (normalize_route d).
Proof.
  intros Ht.
  assert (H1 : forall v q, set_route "id" v q =
    (x ← decode_string v (rd_ID q); Some (q <| rd_ID := x |>))) by reflexivity.
  assert (H2 : forall v q, set_route "schema_version" v q =
    (x ← decode_int v (rd_SchemaVersion q); Some (q <| rd_SchemaVersion := x |>))) by reflexivity.
  assert (H3 : forall v q, set_route "semantic_version" v q =
    (x ← decode_string v (rd_SemanticVersion q); Some (q <| rd_SemanticVersion := x |>))) by reflexivity.
  assert (H4 : forall v q, set_route "executor_id" v q =
    (x ← decode_string v (rd_ExecutorID q); Some (q <| rd_ExecutorID := x |>))) by reflexivity.
  assert (H5 : forall v q, set_route "admission" v q =
    (x ← decode_admission v (rd_Admission q); Some (q <| rd_Admission := x |>))) by reflexivity.
  assert (H6 : forall v q, set_route "concurrency" v q =
    (x ← decode_concurrency v (rd_Concurrency q); Some (q <| rd_Concurrency := x |>))) by reflexivity.
  assert (H7 : forall v q, set_route "retry" v q =
    (x ← decode_retry v (rd_Retry q); Some (q <| rd_Retry := x |>))) by reflexivity.
  unfold decode_route, route_json, decode_struct.
  decode_key H1. decode_key H2. cbn [decode_int]. rewrite ParseInt_fmt_d by apply Ht. cbn [mbind option_bind].
  decode_key H3. decode_key H4. decode_key H5. rewrite decode_admission_json. cbn [mbind option_bind].
  decode_key H6. rewrite decode_concurrency_json. cbn [mbind option_bind].
  decode_key H7. rewrite decode_retry_json by apply Ht. cbn [mbind option_bind].
  unfold normalize_route. destruct d as [i sv ve ex [s n k e [a|]] co re]; [|done].
  by destruct a.
Qed.

Lemma Validate_normalize d : RouteDefinition_Validate (normalize_route d) = RouteDefinition_Validate d.
Proof. unfold normalize_route. by destruct d as [i sv ve ex [s n k e [[|]|]] co re]. Qed.

(** Normalization changes no admission decision. *)
Lemma Matches_normalize d e :
  Matches (rd_Admission (normalize_route d)) e = Matches (rd_Admission d) e.
Proof. unfold normalize_route. by destruct d as [i sv ve ex [s n k ev [[|]|]] co re]. Qed.

(** C18: a valid route definition whose text is UTF-8 survives storage: decoding
    the JSON that saveRoute writes gives the same definition, up to an empty
    action list being read back as nil. *)
Theorem route_roundtrip d :
  route_text d -> RouteDefinition_Validate d = Ok tt ->
  DecodeRouteDefinition (Marshal_route d) = Ok (normalize_route d).
Proof.
  intros Ht Hv. unfold DecodeRouteDefinition, Marshal_route.
  rewrite (parse_json_marshal 3) by (try apply wf_route_json; done).
  cbn [mbind option_bind]. rewrite decode_route_json by done. cbn [of_option].
  unfold mbind, res_bind. by rewrite Validate_normalize, Hv.
Qed.

Definition sample_route : RouteDefinition :=
  mkRouteDefinition "resume-release" 1 "1.0.0" "youknowme_upload_v1"
    (mkAdmissionPolicy (Some ["github"]) (Some ["grubbyhacker/resume-builder"]) (Some ["release"])
       (Some ["release"]) (Some ["published"]))
    (mkConcurrencyPolicy "object" true) (mkRetryPolicy 3 (Some [Minute; 5 * Minute])).

Lemma sample_route_text : route_text sample_route.
Proof. constructor; try reflexivity; try (split; [done|reflexivity]); repeat constructor; done. Qed.

Lemma route_roundtrip_witness :
  DecodeRouteDefinition (Marshal_route sample_route) = Ok sample_route.
Proof. apply (route_roundtrip sample_route sample_route_text). vm_compute. reflexivity. Defined.

(** ** The admission guard on agent bindings *)

Lemma RejectAdmissionSelection_ok b :
  RejectAdmissionSelection b = Ok tt <->
  ab_ResolvedReleaseGeneration b = 0 /\ ab_ResolvedReleaseDigest b = "" /\ ab_BrokerRunID b = "" /\
  ab_AuthoritativePRRepository b = "" /\ ab_AuthoritativePRNumber b = 0.
Proof.
  unfold RejectAdmissionSelection.
  destruct (first_where _ _) as [f|] eqn:E.
  - apply first_where_Some in E as [Hf Hv]. split; [done|].
    intros (H1 & H2 & H3 & H4 & H5). exfalso. revert Hf Hv. unfold admissionSelectionFields.
    rewrite !elem_of_cons, elem_of_nil.
    intros [->|[->|[->|[->|[->|[]]]]]]; unfold admission_violation; simpl;
      rewrite ?H1, ?H2, ?H3, ?H4, ?H5; done.
  - rewrite first_where_None in E. split; [intros _|done].
    assert (Hf : forall f, f ∈ admissionSelectionFields -> admission_violation b f = false) by auto.
    pose proof (Hf "resolved_release_generation" ltac:(left)) as H1.
    pose proof (Hf "resolved_release_digest" ltac:(right; left)) as H2.
    pose proof (Hf "broker_run_id" ltac:(do 2 right; left)) as H3.
    pose proof (Hf "authoritative_pr_repository" ltac:(do 3 right; left)) as H4.
    pose proof (Hf "authoritative_pr_number" ltac:(do 4 right; left)) as H5.
    unfold admission_violation in *; simpl in *. split_bools. auto.
Qed.

(** The admission guard accepts exactly the bindings that name no release,
    image digest, broker run or pull request, and for those the admitted
    binding is the caller's binding unchanged. *)
Theorem admission_guard_exact b :
  RejectAdmissionSelection b = Ok tt <-> AdmissionBinding b = b.
Proof.
  rewrite RejectAdmissionSelection_ok. destruct b as [t m c g d r p n]. unfold AdmissionBinding. simpl.
  split; [intros (-> & -> & -> & -> & ->); done|intros H; injection H; naive_solver].
Qed.

(** ** Serialization keys *)

Lemma cut_at_app x a b :
  all_chars (fun c => negb (Ascii.eqb c x)) a = true -> cut_at x (a ++ String x b) = Some (a, b).
Proof.
  induction a as [|c a IH]; cbn [String.append cut_at all_chars].
  - intros _. by rewrite Ascii.eqb_refl.
  - intros [Hc Ha]%andb_true_iff. apply negb_true_iff in Hc. by rewrite Hc, IH.
Qed.

Lemma identifier_no_colon s :
  identifierPattern s = true -> all_chars (fun c => negb (Ascii.eqb c ":")) s = true.
Proof.
  destruct s as [|c s]; [done|]. cbn [identifierPattern all_chars].
  intros [[Hc Hs]%andb_true_iff _]%andb_true_iff. apply andb_true_intro. split.
  - revert Hc. clear. by destruct c as [[] [] [] [] [] [] [] []].
  - revert Hs. apply all_chars_impl. clear. by intros [[] [] [] [] [] [] [] []].
Qed.

(** What follows the route id in a serialization key. *)
Definition key_suffix (route : RouteDefinition) (e : Event) : string :=
  let s := Serialization (rd_Concurrency route) in
  if s == SerializeNamespace then "namespace:" ++ Namespace e
  else if s == SerializeRoute then "route"
  else "object:" ++ SemanticObjectKey e.

Lemma serializationKey_split route e :
  valid_route route -> cut_at ":" (serializationKey route e) = Some (rd_ID route, key_suffix route e).
Proof.
  intros Hv. assert (Hk : serializationKey route e = rd_ID route ++ String ":" (key_suffix route e)).
  { unfold serializationKey, key_suffix. repeat case_bool_decide; done. }
  rewrite Hk. apply cut_at_app, identifier_no_colon, Hv.
Qed.

(** Two events serialize under the same key only on the same route, in the
    same scope, and on the same namespace or object of that scope: leases of
    different routes never exclude each other. *)
Theorem serialization_key_separates r1 r2 e1 e2 :
  valid_route r1 -> valid_route r2 ->
  serializationKey r1 e1 = serializationKey r2 e2 ->
  rd_ID r1 = rd_ID r2 /\
  Serialization (rd_Concurrency r1) = Serialization (rd_Concurrency r2) /\
  (Serialization (rd_Concurrency r1) = SerializeNamespace -> Namespace e1 = Namespace e2) /\
  (Serialization (rd_Concurrency r1) = SerializeObject -> SemanticObjectKey e1 = SemanticObjectKey e2).
Proof.
  intros H1 H2 Hk. pose proof (serializationKey_split r1 e1 H1) as S1.
  rewrite Hk, (serializationKey_split r2 e2 H2) in S1. injection S1 as Hid Hs.
  pose proof (vr_scope _ H1) as V1. pose proof (vr_scope _ H2) as V2.
  unfold valid_serialization, key_suffix in *.
  split; [done|]. revert Hs.
  apply orb_true_iff in V1 as [[V1|V1]%orb_true_iff|V1]; apply bool_decide_eq_true in V1; rewrite V1;
  apply orb_true_iff in V2 as [[V2|V2]%orb_true_iff|V2]; apply bool_decide_eq_true in V2; rewrite V2;
  simpl; intros Hs; simplify_eq; naive_solver.
Qed.

Definition sample_event : Event :=
  mkEvent "signal-1" "delivery-1" "SIGNALS" 7 "github" "grubbyhacker/resume-builder" "release" "42"
    "release" "published" "human" "rev-1" "" "" "" "" "" "" 0 None "sha256:00" "jetstream://SIGNALS/7" 0.

Lemma sample_route_valid : valid_route sample_route.
Proof. apply (RouteDefinition_Validate_ok _ tt). vm_compute. reflexivity. Qed.

Lemma serialization_key_separates_witness :
  rd_ID sample_route = rd_ID sample_route /\
  SemanticObjectKey sample_event = SemanticObjectKey (sample_event <| Action := "edited" |>).
Proof.
  destruct (serialization_key_separates sample_route sample_route sample_event
              (sample_event <| Action := "edited" |>) sample_route_valid sample_route_valid) as (Hid & _ & _ & Ho).
  - vm_compute. reflexivity.
  - split; [exact Hid|apply Ho; reflexivity].
Defined.

(** ** Executor registry *)

Section RegistryFacts.
Context {E : Type} `{Executor E}.

(** Every executor is stored under its own validated id. *)
Definition registry_ok (r : gmap string E) : Prop :=
  forall id x, r !! id = Some x ->
    ed_ID (Descriptor x) = id /\ ExecutorDescriptor_Validate (Descriptor x) = Ok tt.

Lemma NewRegistry_ok : registry_ok NewRegistry.
Proof. intros id x Hx. unfold NewRegistry in Hx. by rewrite lookup_empty in Hx. Qed.

(** Registration, on every branch: it keeps the registry well formed, never
    replaces an executor, and on success makes exactly that executor
    resolvable. *)
Lemma Register_spec r x r' res :
  registry_ok r -> Register r x = (r', res) ->
  registry_ok r' /\ (forall id y, r !! id = Some y -> r' !! id = Some y) /\
  (res = Ok tt -> exists e, x = Some e /\ Resolve r' (ed_ID (Descriptor e)) = Ok e) /\
  (res <> Ok tt -> r' = r).
Proof.
  intros Hr HR. destruct x as [x|]; simpl in HR; [|simplify_eq; naive_solver].
  destruct (ExecutorDescriptor_Validate (Descriptor x)) as [[]| |] eqn:Ev; [|simplify_eq; naive_solver..].
  destruct (r !! ed_ID (Descriptor x)) as [y|] eqn:El; simplify_eq; [naive_solver|].
  split_and!; [|..|done].
  - intros id y Hy. destruct (decide (ed_ID (Descriptor x) = id)) as [<-|Hne].
    + rewrite lookup_insert_eq in Hy. by simplify_eq.
    + rewrite lookup_insert_ne in Hy by done. auto.
  - intros id y Hy. rewrite lookup_insert_ne; congruence.
  - intros _. exists x. split; [done|]. unfold Resolve. by rewrite lookup_insert_eq.
Qed.
End RegistryFacts.

(** ** Ingress adapter *)

(** The GitHub adapter fails closed: it yields an event only for a verified
    GitHub HMAC envelope, and the event carries every identity admission
    requires but the delivery id, with digests in canonical form. *)
Theorem adapter_fails_closed signal stream sequence event :
  GitHubAdapter_Normalize signal stream sequence = Ok event ->
  Verified (m_Authentication (sg_Meta signal)) = true /\
  Method (m_Authentication (sg_Meta signal)) = "github_hmac_sha256" /\
  Source event = "github" /\ TransportStream event <> "" /\ TransportSequence event <> 0 /\
  Namespace event <> "" /\ ObjectID event <> "" /\ SourceRevision event <> "" /\
  EvidenceRef event <> "" /\ sha256_format (PayloadDigest event) = true.
Proof.
  unfold GitHubAdapter_Normalize. intros H. open_guards H. split_bools. simplify_eq.
  cbn -[sha256_format sha256_hex String.append] in *. split_and!; auto; try done.
  apply (sha256_format_hex (sg_Payload signal)).
Qed.

Definition sample_signal : Signal :=
  mkSignal (mkMeta "signal-1" "github" "route" 0 "release" "published" "delivery-1"
              "grubbyhacker/resume-builder" "release" "42" "rev-1" "" "" "" None None "human" "" "" "" "" "" "" 0 None
              (mkAuthentication "github_hmac_sha256" true)) "{}".

Lemma adapter_fails_closed_witness :
  exists e, GitHubAdapter_Normalize sample_signal "SIGNALS" 7 = Ok e /\ Source e = "github".
Proof.
  eexists. split; [reflexivity|].
  apply (adapter_fails_closed sample_signal "SIGNALS" 7). reflexivity.
Defined.
