(* ===== verification/LedgerStore.v ===== *)
(** * The work-ledger store

    [internal/workledger/store.go] over the tables of [schema.go].  A database
    is a record of tables; each method is a function on it, in the transaction
    structure of the source, with the constraints of the schema checked where
    a statement can violate them.  The random identifiers of [newID] are
    arguments. *)

From S2P Require Import Prelude GoText GoSha256 GoJson LedgerModel.
Open Scope string_scope.
Open Scope Z_scope.
Open Scope go_scope.

Definition durablePollInterval : Z := 5 * Second.
Definition durableWaitDeadline : Z := 30 * Minute.

(** [millis] and [optionalMillis]. *)
Definition millis (t : Z) : Z := UnixMilli t.
Definition optionalMillis (t : option Z) : option Z := option_map millis t.

(** The values of [newID prefix]: sixteen random bytes in hexadecimal, or the
    clock when the random source fails. *)
Definition newID_format (prefix id : string) : bool :=
  match strip_prefix (prefix ++ "-") id with
  | Some rest => all_chars is_hex_lower rest && (rest != "")
  | None => false
  end.

(** ** Rows *)

Record snapshot_row := mkSnapshotRow {
  sn_id : string; sn_route_id : string; sn_schema_version : Z; sn_semantic_version : string;
  sn_digest : string; sn_executor_id : string; sn_executor_kind : string;
  sn_executor_version : string; sn_definition_json : string; sn_activated_at : Z;
  sn_retired_at : option Z }.
#[export] Instance snapshot_row_eta : Eta snapshot_row := fun r =>
  mkSnapshotRow (sn_id r) (sn_route_id r) (sn_schema_version r) (sn_semantic_version r) (sn_digest r)
    (sn_executor_id r) (sn_executor_kind r) (sn_executor_version r) (sn_definition_json r)
    (sn_activated_at r) (sn_retired_at r).

Record item_row := mkItemRow {
  it_id : string; it_route_snapshot_id : string; it_route_id : string; it_semantic_object_key : string;
  it_source : string; it_namespace : string; it_object_kind : string; it_object_id : string;
  it_source_revision : string; it_serialization_key : string; it_task_evidence_digest : string;
  it_agent_type : string; it_agent_mode : string; it_type_contract_revision : string;
  it_resolved_release_generation : Z; it_resolved_release_digest : string; it_broker_run_id : string;
  it_authoritative_pr_repository : string; it_authoritative_pr_number : Z; it_state : WorkState;
  it_state_version : Z; it_superseded_by_id : option string; it_latest_executor_correlation : string;
  it_created_at : Z; it_updated_at : Z; it_terminal_at : option Z; it_next_attempt_at : option Z;
  it_wait_deadline_at : option Z }.
#[export] Instance item_row_eta : Eta item_row := fun r =>
  mkItemRow (it_id r) (it_route_snapshot_id r) (it_route_id r) (it_semantic_object_key r) (it_source r)
    (it_namespace r) (it_object_kind r) (it_object_id r) (it_source_revision r)
    (it_serialization_key r) (it_task_evidence_digest r) (it_agent_type r) (it_agent_mode r)
    (it_type_contract_revision r) (it_resolved_release_generation r) (it_resolved_release_digest r)
    (it_broker_run_id r) (it_authoritative_pr_repository r) (it_authoritative_pr_number r)
    (it_state r) (it_state_version r) (it_superseded_by_id r) (it_latest_executor_correlation r)
    (it_created_at r) (it_updated_at r) (it_terminal_at r) (it_next_attempt_at r)
    (it_wait_deadline_at r).

(** The columns of work_events that copy the event are the event. *)
Record event_row := mkEventRow {
  ev_id : string; ev_work_item_id : string; ev_event_digest : string; ev_event : Event;
  ev_recorded_at : Z }.

Record attempt_row := mkAttemptRow {
  aw_id : string; aw_work_item_id : string; aw_attempt_number : Z; aw_executor_id : string;
  aw_executor_kind : string; aw_executor_version : string; aw_idempotency_key : string;
  aw_operation_idempotency_key : string; aw_requested_operation_digest : string;
  aw_state : AttemptState; aw_retry_classification : string; aw_external_correlation : string;
  aw_result_digest : string; aw_sanitized_error : string; aw_created_at : Z; aw_started_at : Z;
  aw_completed_at : option Z }.
#[export] Instance attempt_row_eta : Eta attempt_row := fun r =>
  mkAttemptRow (aw_id r) (aw_work_item_id r) (aw_attempt_number r) (aw_executor_id r)
    (aw_executor_kind r) (aw_executor_version r) (aw_idempotency_key r)
    (aw_operation_idempotency_key r) (aw_requested_operation_digest r) (aw_state r)
    (aw_retry_classification r) (aw_external_correlation r) (aw_result_digest r)
    (aw_sanitized_error r) (aw_created_at r) (aw_started_at r) (aw_completed_at r).

Record lease_row := mkLeaseRow {
  ls_serialization_key : string; ls_work_item_id : string; ls_attempt_id : string; ls_acquired_at : Z }.

Record content_row := mkContentRow {
  ct_computed_digest : string; ct_external_correlation : string; ct_result_digest : string;
  ct_recorded_at : Z }.

Record ingress_row := mkIngressRow {
  in_source : string; in_namespace : string; in_source_delivery_id : string; in_event_digest : string;
  in_classification : string; in_attempts : Z; in_recorded_at : Z }.
#[export] Instance ingress_row_eta : Eta ingress_row := fun r =>
  mkIngressRow (in_source r) (in_namespace r) (in_source_delivery_id r) (in_event_digest r)
    (in_classification r) (in_attempts r) (in_recorded_at r).

Record Ledger := mkLedger {
  route_snapshots : list snapshot_row; work_items : list item_row; work_events : list event_row;
  executor_attempts : list attempt_row; serialization_leases : list lease_row;
  release_operations : list (string * ReleaseOperation); content_results : list content_row;
  ingress_failures : list ingress_row }.
#[export] Instance Ledger_eta : Eta Ledger := fun d =>
  mkLedger (route_snapshots d) (work_items d) (work_events d) (executor_attempts d)
    (serialization_leases d) (release_operations d) (content_results d) (ingress_failures d).

(** A freshly migrated database. *)
Definition empty_ledger : Ledger := mkLedger [] [] [] [] [] [] [] [].

(** ** Scanning rows into Go structs *)

Definition optionalTime (ms : option Z) : option Z := option_map OfUnixMilli ms.

Definition workItemScan (r : item_row) : WorkItem :=
  mkWorkItem (it_id r) (it_route_snapshot_id r) (it_route_id r) (it_semantic_object_key r)
    (it_source r) (it_namespace r) (it_object_kind r) (it_object_id r) (it_source_revision r)
    (it_serialization_key r) (it_agent_type r) (it_agent_mode r) (it_type_contract_revision r)
    (it_resolved_release_generation r) (it_resolved_release_digest r) (it_broker_run_id r)
    (it_authoritative_pr_repository r) (it_authoritative_pr_number r) (it_state r)
    (it_state_version r) (default "" (it_superseded_by_id r)) (it_latest_executor_correlation r)
    (OfUnixMilli (it_created_at r)) (OfUnixMilli (it_updated_at r)) (optionalTime (it_terminal_at r))
    (optionalTime (it_next_attempt_at r)).

Definition attempt_scan (r : attempt_row) : ExecutorAttempt :=
  mkExecutorAttempt (aw_id r) (aw_work_item_id r) (aw_attempt_number r) (aw_executor_id r)
    (aw_executor_kind r) (aw_executor_version r) (aw_idempotency_key r)
    (aw_operation_idempotency_key r) (aw_requested_operation_digest r) (aw_state r)
    (aw_retry_classification r) (aw_external_correlation r) (aw_result_digest r)
    (OfUnixMilli (aw_created_at r)).

Definition snapshot_scan (r : snapshot_row) (d : RouteDefinition) : RouteSnapshot :=
  mkRouteSnapshot (sn_id r) (sn_route_id r) (sn_schema_version r) (sn_semantic_version r)
    (sn_digest r) (sn_executor_id r) (sn_executor_kind r) (sn_executor_version r)
    (rd_Admission d) (rd_Concurrency d) (rd_Retry d) (OfUnixMilli (sn_activated_at r))
    (optionalTime (sn_retired_at r)).

(** ** Lookups *)

Definition is_active (r : snapshot_row) : bool := sn_retired_at r == None.

Definition find_snapshot (id : string) (db : Ledger) : res snapshot_row :=
  of_option ErrNoRows (first_where (fun r => sn_id r == id) (route_snapshots db)).

Definition loadSnapshot (id : string) (db : Ledger) : res (RouteSnapshot * RouteDefinition) :=
  r ← find_snapshot id db;
  d ← DecodeRouteDefinition (sn_definition_json r);
  Ok (snapshot_scan r d, d).

Definition loadDefinition (id : string) (db : Ledger) : res RouteDefinition :=
  r ← find_snapshot id db; DecodeRouteDefinition (sn_definition_json r).

Definition find_item (id : string) (db : Ledger) : res item_row :=
  of_option ErrNoRows (first_where (fun r => it_id r == id) (work_items db)).

Definition loadWorkItem (id : string) (db : Ledger) : res WorkItem :=
  r ← find_item id db; Ok (workItemScan r).

Definition loadReleaseOperation (id : string) (db : Ledger) : res ReleaseOperation :=
  r ← of_option ErrNoRows (first_where (fun r => fst r == id) (release_operations db)); Ok (snd r).

(** ** Routes *)

Definition valid_kind (k : string) : bool :=
  (k == ExecutorDeterministicTool) || (k == ExecutorPolicyEvaluator).

(** INSERT INTO route_snapshots: primary key, the unique index on active
    routes, and the CHECK constraints. *)
Definition insert_snapshot (r : snapshot_row) (db : Ledger) : res Ledger :=
  _ ← guard_err (exists_where (fun x => sn_id x == sn_id r) (route_snapshots db)
        || exists_where (fun x => (sn_route_id x == sn_route_id r) && is_active x) (route_snapshots db)
        || (sn_schema_version r <=? 0) || negb (valid_kind (sn_executor_kind r))) ErrConstraint;
  Ok (db <| route_snapshots := (route_snapshots db ++ [r])%list |>).

(** UPDATE route_snapshots SET retired_at=now WHERE p: the CHECK refuses a
    retirement before the activation. *)
Definition retire_where (p : snapshot_row -> bool) (now : Z) (db : Ledger) : res Ledger :=
  _ ← guard_err (exists_where (fun r => p r && (millis now <? sn_activated_at r)) (route_snapshots db))
        ErrConstraint;
  Ok (db <| route_snapshots ::= update_where p (fun r => r <| sn_retired_at := Some (millis now) |>) |>).

Definition saveRoute (definition : RouteDefinition) (executor : ExecutorDescriptor) (now : Z)
    (new_id : string) (db0 : Ledger) : Ledger * res RouteSnapshot :=
  transact (fun db =>
    _ ← RouteDefinition_Validate definition;
    _ ← guard_err (rd_ExecutorID definition != ed_ID executor) "route executor does not match descriptor";
    _ ← ExecutorDescriptor_Validate executor;
    digest ← activationDigest definition executor;
    let snapshot := mkRouteSnapshot new_id (rd_ID definition) (rd_SchemaVersion definition)
      (rd_SemanticVersion definition) digest (ed_ID executor) (ed_Kind executor) (ed_Version executor)
      (rd_Admission definition) (rd_Concurrency definition) (rd_Retry definition) now None in
    match first_where (fun r => (sn_route_id r == rd_ID definition) && (sn_digest r == digest) && is_active r)
            (route_snapshots db) with
    | Some existing => Ok (snapshot_scan existing definition, db)
    | None =>
        db ← retire_where (fun r => (sn_route_id r == rd_ID definition) && is_active r) now db;
        db ← insert_snapshot
               (mkSnapshotRow new_id (rd_ID definition) (rd_SchemaVersion definition)
                  (rd_SemanticVersion definition) digest (ed_ID executor) (ed_Kind executor)
                  (ed_Version executor) (Marshal_route definition) (millis now) None) db;
        Ok (snapshot, db)
    end) db0.

(** [ActivateRoute] with the registry already reduced to the descriptor its
    [Resolve] returned. *)
Definition ActivateRoute (resolve : string -> res ExecutorDescriptor) (definition : RouteDefinition)
    (now : Z) (new_id : string) (db : Ledger) : Ledger * res RouteSnapshot :=
  match resolve (rd_ExecutorID definition) with
  | Ok executor => saveRoute definition executor now new_id db
  | Err e => (db, Err e)
  | Panic => (db, Panic)
  end.

(** One UPDATE outside a transaction: it is durable whatever the row count. *)
Definition RetireRoute (snapshotID : string) (now : Z) (db : Ledger) : Ledger * res unit :=
  let p := fun r => (sn_id r == snapshotID) && is_active r in
  match retire_where p now db with
  | Ok db' =>
      (db', guard_err (negb (count_where p (route_snapshots db) =? 1)) "active route snapshot not found")
  | Err e => (db, Err e)
  | Panic => (db, Panic)
  end.

(** The loop over the active rows; the ORDER BY does not influence the result,
    which is used only when it is a single route. *)
Fixpoint match_rows (event : Event) (rows : list snapshot_row) : res (list RouteSnapshot) :=
  match rows with
  | [] => Ok []
  | r :: rows' =>
      d ← DecodeRouteDefinition (sn_definition_json r);
      rest ← match_rows event rows';
      Ok (if Matches (rd_Admission d) event then snapshot_scan r d :: rest else rest)
  end.

Definition MatchRoute (event : Event) (db : Ledger) : res RouteSnapshot :=
  matches ← match_rows event (rows_where is_active (route_snapshots db));
  match matches with
  | [] => Err "no active route matches event"
  | [m] => Ok m
  | _ => Err "ambiguous active routes match event"
  end.

Definition ActiveRouteSnapshot (routeID : string) (db : Ledger) : option snapshot_row :=
  first_where (fun r => (sn_route_id r == routeID) && is_active r) (route_snapshots db).

Definition RouteSnapshotExists (id : string) (db : Ledger) : bool :=
  count_where (fun r => (sn_id r == id) && is_active r) (route_snapshots db) =? 1.

(** ** Deliveries *)

Definition same_delivery (event : Event) (r : event_row) : bool :=
  (Source (ev_event r) == Source event) && (Namespace (ev_event r) == Namespace event)
  && (SourceDeliveryID (ev_event r) == SourceDeliveryID event).

Definition DeliveryRecorded (event : Event) (db : Ledger) : res bool :=
  match first_where (same_delivery event) (work_events db) with
  | None => Ok false
  | Some r =>
      if ev_event_digest r != Event_Digest event
      then Err "source delivery id conflicts with different event content" else Ok true
  end.

Definition RecordIngressFailure (event : Event) (classification : string) (attempts now : Z)
    (db : Ledger) : Ledger * res unit :=
  if (attempts <? 1) || (classification == "") || (80 <? len classification)
  then (db, Err "invalid bounded ingress failure")
  else
    let same r := (in_source r == Source event) && (in_namespace r == Namespace event)
                  && (in_source_delivery_id r == SourceDeliveryID event) in
    if exists_where same (ingress_failures db)
    then (db <| ingress_failures ::= update_where same (fun r =>
            r <| in_attempts := attempts |> <| in_classification := classification |>
              <| in_recorded_at := millis now |>) |>, Ok tt)
    else (db <| ingress_failures := (ingress_failures db ++
            [mkIngressRow (Source event) (Namespace event) (SourceDeliveryID event)
               (Event_Digest event) classification attempts (millis now)])%list |>, Ok tt).

(** ** Admission *)

Definition open_state (s : WorkState) : bool :=
  (s == StateObserved) || (s == StateAdmitted) || (s == StateActive) || (s == StateWaiting).
Definition live_attempt (s : AttemptState) : bool :=
  (s == AttemptRunning) || (s == AttemptRecoverable) || (s == AttemptRetryScheduled).

(** INSERT INTO work_items, with its primary and foreign keys. *)
Definition insert_item (r : item_row) (db : Ledger) : res Ledger :=
  _ ← guard_err (exists_where (fun x => it_id x == it_id r) (work_items db)
        || negb (exists_where (fun s => sn_id s == it_route_snapshot_id r) (route_snapshots db)))
        ErrConstraint;
  Ok (db <| work_items := (work_items db ++ [r])%list |>).

(** The three statements of supersession: attempts, leases, work items. *)
Definition superseded_by (routeID semanticKey newID : string) (r : item_row) : bool :=
  (it_route_id r == routeID) && (it_semantic_object_key r == semanticKey) && (it_id r != newID)
  && open_state (it_state r).

Definition supersede_attempt (now : Z) (a : attempt_row) : attempt_row :=
  a <| aw_state := AttemptSuperseded |> <| aw_completed_at := Some (millis now) |>.

Definition supersede_item (newID : string) (now : Z) (r : item_row) : item_row :=
  r <| it_state := StateSuperseded |> <| it_state_version ::= Z.succ |>
    <| it_superseded_by_id := Some newID |> <| it_updated_at := millis now |>
    <| it_terminal_at := Some (millis now) |> <| it_next_attempt_at := None |>.

Definition supersede (routeID semanticKey newID : string) (now : Z) (db : Ledger) : Ledger :=
  let sel := superseded_by routeID semanticKey newID in
  let ids := map it_id (rows_where sel (work_items db)) in
  db <| executor_attempts ::= update_where
          (fun a => live_attempt (aw_state a) && bool_decide (aw_work_item_id a ∈ ids))
          (supersede_attempt now) |>
     <| serialization_leases ::= delete_where (fun l => bool_decide (ls_work_item_id l ∈ ids)) |>
     <| work_items ::= update_where sel (supersede_item newID now) |>.

(** INSERT INTO release_operations ... ON CONFLICT DO NOTHING, then the read
    back and comparison. *)
Definition record_operation (id : string) (operation : ReleaseOperation) (db : Ledger) : res Ledger :=
  let db := if exists_where (fun r => fst r == id) (release_operations db) then db
            else db <| release_operations := (release_operations db ++ [(id, operation)])%list |> in
  match loadReleaseOperation id db with
  | Ok stored => if stored == operation then Ok db
                 else Err "work item conflicts with durable release operation"
  | _ => Err "work item conflicts with durable release operation"
  end.

(** INSERT INTO work_events, with both unique constraints and the checks; the
    driver refuses an unsigned sequence with its high bit set. *)
Definition insert_event (r : event_row) (db : Ledger) : res Ledger :=
  let e := ev_event r in
  _ ← guard_err (2 ^ 63 <=? TransportSequence e) "uint64 values with high bit set are not supported";
  _ ← guard_err (exists_where (fun x => ev_id x == ev_id r) (work_events db)
        || exists_where (same_delivery e) (work_events db)
        || exists_where (fun x => (TransportStream (ev_event x) == TransportStream e)
                                  && (TransportSequence (ev_event x) =? TransportSequence e)) (work_events db)
        || (TransportSequence e <=? 0) || (HopCount e <? 0)
        || negb (exists_where (fun x => it_id x == ev_work_item_id r) (work_items db))) ErrConstraint;
  Ok (db <| work_events := (work_events db ++ [r])%list |>).

Definition event_identity_missing (e : Event) : bool :=
  (SourceDeliveryID e == "") || (TransportStream e == "") || (TransportSequence e =? 0)
  || (Namespace e == "") || (ObjectID e == "") || (SourceRevision e == "")
  || (PayloadDigest e == "") || (EvidenceRef e == "").

Definition event_expired (e : Event) (now : Z) : bool :=
  (HopCount e <? 0) || match ExpiresAt e with Some t => t <=? now | None => false end.

(** The row a new work item gets. *)
Definition new_item_row (id : string) (snapshot : RouteSnapshot) (definition : RouteDefinition)
    (event : Event) (b : AgentBinding) (now : Z) : item_row :=
  mkItemRow id (rs_ID snapshot) (rd_ID definition) (SemanticObjectKey event) (Source event)
    (Namespace event) (ObjectKind event) (ObjectID event) (SourceRevision event)
    (serializationKey definition event) (PayloadDigest event) (ab_AgentType b) (ab_Mode b)
    (ab_TypeContractRevision b) 0 "" "" "" 0 StateAdmitted 1 None "" (millis now) (millis now) None
    (Some (millis now)) None.

(** The struct returned for it keeps the full time and no next attempt. *)
Definition new_item (r : item_row) (now : Z) : WorkItem :=
  (workItemScan r) <| wi_CreatedAt := now |> <| wi_UpdatedAt := now |> <| wi_NextAttemptAt := None |>.

Definition find_revision (snapshotID semanticKey revision : string) (db : Ledger) : option item_row :=
  best_where (fun r => [- it_created_at r])
    (fun r => (it_route_snapshot_id r == snapshotID) && (it_semantic_object_key r == semanticKey)
              && (it_source_revision r == revision)) (work_items db).

Definition admit_event (snapshotID : string) (event : Event) (operation : option ReleaseOperation)
    (binding : AgentBinding) (now : Z) (work_id event_id : string) (db0 : Ledger)
    : Ledger * res AdmissionResult :=
  transact (fun db =>
    _ ← RejectAdmissionSelection binding;
    let admissionBinding := AdmissionBinding binding in
    _ ← AgentBinding_Validate admissionBinding;
    '(snapshot, definition) ← loadSnapshot snapshotID db;
    _ ← guard_err ((rs_RetiredAt snapshot != None) || negb (Matches (rd_Admission definition) event))
          "event is not admitted by active route snapshot";
    _ ← guard_err (event_identity_missing event)
          "event requires delivery, transport, namespace, object, and revision identity";
    _ ← guard_err (event_expired event now) "event is expired or has an invalid hop count";
    let eventDigest := Event_Digest event in
    match first_where (same_delivery event) (work_events db) with
    | Some dup =>
        _ ← guard_err (ev_event_digest dup != eventDigest)
              "source delivery id conflicts with different event content";
        _ ← match operation with
            | Some op =>
                match loadReleaseOperation (ev_work_item_id dup) db with
                | Ok stored => guard_err (stored != op) "duplicate delivery conflicts with durable release operation"
                | _ => Err "duplicate delivery conflicts with durable release operation"
                end
            | None => Ok tt
            end;
        item ← loadWorkItem (ev_work_item_id dup) db;
        Ok (mkAdmissionResult item (ev_id dup) true, db)
    | None =>
        '(item, db) ←
          match find_revision (rs_ID snapshot) (SemanticObjectKey event) (SourceRevision event) db with
          | Some r => Ok (workItemScan r, db)
          | None =>
              let r := new_item_row work_id snapshot definition event admissionBinding now in
              db ← insert_item r db;
              let db := if Supersede (rd_Concurrency definition)
                        then supersede (rd_ID definition) (SemanticObjectKey event) work_id now db else db in
              Ok (new_item r now, db)
          end;
        db ← match operation with
             | Some op => record_operation (wi_ID item) op db
             | None => Ok db
             end;
        db ← insert_event (mkEventRow event_id (wi_ID item) eventDigest event (millis now)) db;
        Ok (mkAdmissionResult item event_id false, db)
    end) db0.

Definition Admit (snapshotID : string) (event : Event) (now : Z) (work_id event_id : string) (db : Ledger) :=
  admit_event snapshotID event None zero_binding now work_id event_id db.

Definition AdmitWithAgent (snapshotID : string) (event : Event) (binding : AgentBinding) (now : Z)
    (work_id event_id : string) (db : Ledger) :=
  admit_event snapshotID event None binding now work_id event_id db.

Definition AdmitRelease (snapshotID : string) (event : Event) (operation : ReleaseOperation) (now : Z)
    (work_id event_id : string) (db : Ledger) : Ledger * res AdmissionResult :=
  match ReleaseOperation_Validate operation with
  | Ok _ => admit_event snapshotID event (Some operation) zero_binding now work_id event_id db
  | Err e => (db, Err e)
  | Panic => (db, Panic)
  end.

(** ** Content results *)

Definition find_content (digest : string) (db : Ledger) : option content_row :=
  first_where (fun r => ct_computed_digest r == digest) (content_results db).

(** [(external, result, found)]. *)
Definition ContentResult (digest : string) (db : Ledger) : string * string * bool :=
  match find_content digest db with
  | None => ("", "", false)
  | Some r => (ct_external_correlation r, ct_result_digest r, true)
  end.

Definition RecordContentResult (digest external result : string) (now : Z) (db0 : Ledger)
    : Ledger * res unit :=
  transact (fun db =>
    let db := match find_content digest db with
              | Some _ => db
              | None => db <| content_results := (content_results db ++
                                [mkContentRow digest external result (millis now)])%list |>
              end in
    stored ← of_option ErrNoRows (find_content digest db);
    _ ← guard_err ((ct_external_correlation stored != external) || (ct_result_digest stored != result))
          "content digest already has a conflicting durable result";
    Ok (tt, db)) db0.

(** ** Claiming *)

(** Deadline exhaustion of waiting items. *)
Definition wait_expired (now : Z) (r : item_row) : bool :=
  (it_state r == StateWaiting)
  && match it_wait_deadline_at r with Some d => d <=? millis now | None => false end.

Definition expire_item (now : Z) (r : item_row) : item_row :=
  r <| it_state := StateFailed |> <| it_state_version ::= Z.succ |>
    <| it_terminal_at := Some (millis now) |> <| it_next_attempt_at := None |>
    <| it_updated_at := millis now |>.

Definition expire_waiting (now : Z) (db : Ledger) : Ledger :=
  db <| work_items ::= update_where (wait_expired now) (expire_item now) |>.

Definition claimable (db : Ledger) (now : Z) (r : item_row) : bool :=
  ((it_state r == StateAdmitted) || (it_state r == StateWaiting))
  && match it_next_attempt_at r with Some t => t <=? millis now | None => false end
  && negb (exists_where (fun l => ls_serialization_key l == it_serialization_key r)
             (serialization_leases db)).

Definition claim_order (r : item_row) : list Z := [default 0 (it_next_attempt_at r); it_created_at r].

Definition next_claim (db : Ledger) (now : Z) : option item_row :=
  best_where claim_order (claimable db now) (work_items db).

Definition insert_lease (l : lease_row) (db : Ledger) : res Ledger :=
  _ ← guard_err (exists_where (fun x => (ls_serialization_key x == ls_serialization_key l)
                                        || (ls_work_item_id x == ls_work_item_id l)
                                        || (ls_attempt_id x == ls_attempt_id l)) (serialization_leases db)
        || negb (exists_where (fun r => it_id r == ls_work_item_id l) (work_items db))
        || negb (exists_where (fun a => aw_id a == ls_attempt_id l) (executor_attempts db))) ErrConstraint;
  Ok (db <| serialization_leases := (serialization_leases db ++ [l])%list |>).

Definition insert_attempt (a : attempt_row) (db : Ledger) : res Ledger :=
  _ ← guard_err (exists_where (fun x => (aw_id x == aw_id a)
                                        || (aw_idempotency_key x == aw_idempotency_key a)
                                        || ((aw_work_item_id x == aw_work_item_id a)
                                            && (aw_attempt_number x =? aw_attempt_number a)))
                   (executor_attempts db)
        || (aw_attempt_number a <=? 0) || negb (valid_kind (aw_executor_kind a))
        || negb (exists_where (fun r => it_id r == aw_work_item_id a) (work_items db))) ErrConstraint;
  Ok (db <| executor_attempts := (executor_attempts db ++ [a])%list |>).

Definition activate (now : Z) (r : item_row) : item_row :=
  r <| it_state := StateActive |> <| it_state_version ::= Z.succ |> <| it_updated_at := millis now |>
    <| it_next_attempt_at := None |>.

(** The struct [Claim] returns for the item it activated. *)
Definition claimed_item (r : item_row) (now : Z) : WorkItem :=
  (workItemScan r) <| wi_State := StateActive |> <| wi_StateVersion ::= Z.succ |>
    <| wi_UpdatedAt := now |> <| wi_NextAttemptAt := None |>.

Definition recoverable_attempt (id : string) (db : Ledger) : option attempt_row :=
  best_where (fun a => [- aw_attempt_number a])
    (fun a => (aw_work_item_id a == id) && (aw_state a == AttemptRecoverable)) (executor_attempts db).

(** [fmt.Sprintf("executor:%s:%s:%d", ...)] *)
Definition attempt_key (itemID digest : string) (number : Z) : string :=
  "executor:" ++ itemID ++ ":" ++ digest ++ ":" ++ fmt_d number.

Definition restart_attempt (now : Z) (a : attempt_row) : attempt_row :=
  a <| aw_state := AttemptRunning |> <| aw_started_at := millis now |> <| aw_completed_at := None |>.

(** The recovered branch: the ambiguous attempt is reclaimed as it is. *)
Definition claim_recovered (item : item_row) (recovered : attempt_row) (now : Z) (db : Ledger)
    : res (WorkItem * ExecutorAttempt * Ledger) :=
  let db := db <| executor_attempts ::= update_where
                   (fun a => (aw_id a == aw_id recovered) && (aw_state a == AttemptRecoverable))
                   (restart_attempt now) |> in
  db ← insert_lease (mkLeaseRow (it_serialization_key item) (it_id item) (aw_id recovered) (millis now)) db;
  let db := db <| work_items ::= update_where
                   (fun r => (it_id r == it_id item) && (it_state r == StateWaiting)) (activate now) |> in
  Ok (claimed_item item now, (attempt_scan recovered) <| at_State := AttemptRunning |>, db).

(** The fresh branch: a new attempt numbered after all attempts of the item. *)
Definition claim_fresh (item : item_row) (now : Z) (attempt_id : string) (db : Ledger)
    : res (WorkItem * ExecutorAttempt * Ledger) :=
  snapshot ← find_snapshot (it_route_snapshot_id item) db;
  let number := count_where (fun a => aw_work_item_id a == it_id item) (executor_attempts db) + 1 in
  let '(operationKey, requested) :=
    match first_where (fun r => fst r == it_id item) (release_operations db) with
    | Some (_, op) =>
        ("signal-plane:resume:v1:" ++ TrimPrefix (ro_ComputedDigest op) "sha256:", ro_ComputedDigest op)
    | None => ("", sn_digest snapshot)
    end in
  let row := mkAttemptRow attempt_id (it_id item) number (sn_executor_id snapshot)
    (sn_executor_kind snapshot) (sn_executor_version snapshot)
    (attempt_key (it_id item) (sn_digest snapshot) number) operationKey requested AttemptRunning
    "" "" "" "" (millis now) (millis now) None in
  db ← insert_attempt row db;
  db ← insert_lease (mkLeaseRow (it_serialization_key item) (it_id item) attempt_id (millis now)) db;
  let db := db <| work_items ::= update_where
                   (fun r => (it_id r == it_id item)
                             && ((it_state r == StateAdmitted) || (it_state r == StateWaiting)))
                   (activate now) |> in
  Ok (claimed_item item now, (attempt_scan row) <| at_CreatedAt := now |>, db).

(** [Claim]; [None] is the [false] result. *)
Definition Claim (now : Z) (attempt_id : string) (db0 : Ledger)
    : Ledger * res (option (WorkItem * ExecutorAttempt)) :=
  transact (fun db =>
    let db := expire_waiting now db in
    match next_claim db now with
    | None => Ok (None, db)
    | Some item =>
        '(w, a, db) ←
          match recoverable_attempt (it_id item) db with
          | Some recovered => claim_recovered item recovered now db
          | None => claim_fresh item now attempt_id db
          end;
        Ok (Some (w, a), db)
    end) db0.

(** ** Completion *)

(** The [switch] on the outcome: attempt state, next work state, terminal_at,
    next_attempt_at and the deadline given to COALESCE. *)
Record completion := mkCompletion {
  cp_attempt : AttemptState; cp_state : WorkState; cp_terminal : option Z; cp_next : option Z;
  cp_deadline : option Z }.

Definition decide_outcome (definition : RouteDefinition) (attemptNumber : Z) (result : ExecutorResult)
    (now : Z) : res completion :=
  if er_Outcome result == OutcomeCompleted then
    Ok (mkCompletion AttemptSucceeded StateCompleted (Some (millis now)) None (er_DeadlineAt result))
  else if er_Outcome result == OutcomePermanentFailure then
    Ok (mkCompletion AttemptFailed StateFailed (Some (millis now)) None (er_DeadlineAt result))
  else if er_Outcome result == OutcomeRetryableFailure then
    if MaxAttempts (rd_Retry definition) <=? attemptNumber then
      Ok (mkCompletion AttemptFailed StateDeadLetter (Some (millis now)) None (er_DeadlineAt result))
    else if attemptNumber - 1 <? 0 then Panic
    else match elems (Backoff (rd_Retry definition)) !! Z.to_nat (attemptNumber - 1) with
         | Some delay =>
             Ok (mkCompletion AttemptRetryScheduled StateWaiting None (Some (millis (now + delay)))
                   (er_DeadlineAt result))
         | None => Panic
         end
  else if er_Outcome result == OutcomeWaiting then
    let next := default (now + durablePollInterval) (er_NextAttemptAt result) in
    let deadline := default (now + durableWaitDeadline) (er_DeadlineAt result) in
    if negb (now <? next) || negb (next <? deadline)
    then Err "waiting result requires future schedule and deadline"
    else Ok (mkCompletion AttemptRetryScheduled StateWaiting None (Some (millis next)) (Some deadline))
  else Err "unsupported executor outcome".

Definition finish_item (c : completion) (result : ExecutorResult) (now : Z) (r : item_row) : item_row :=
  r <| it_state := cp_state c |> <| it_state_version ::= Z.succ |>
    <| it_latest_executor_correlation := er_ExternalCorrelation result |>
    <| it_updated_at := millis now |> <| it_terminal_at := cp_terminal c |>
    <| it_next_attempt_at := cp_next c |>
    <| it_wait_deadline_at ::= fun d =>
         if er_Outcome result == OutcomeWaiting
         then match d with Some _ => d | None => optionalMillis (cp_deadline c) end else d |>.

Definition finish_attempt (c : completion) (result : ExecutorResult) (now : Z) (a : attempt_row) : attempt_row :=
  a <| aw_state := cp_attempt c |> <| aw_retry_classification := er_RetryClassification result |>
    <| aw_external_correlation := er_ExternalCorrelation result |>
    <| aw_result_digest := er_ResultDigest result |> <| aw_sanitized_error := er_SanitizedError result |>
    <| aw_completed_at := Some (millis now) |>.

Definition Complete (attemptID : string) (result : ExecutorResult) (now : Z) (db0 : Ledger)
    : Ledger * res unit :=
  transact (fun db =>
    a ← of_option ErrNoRows (first_where (fun a => aw_id a == attemptID) (executor_attempts db));
    _ ← guard_err (aw_state a != AttemptRunning) "attempt is not running";
    item ← find_item (aw_work_item_id a) db;
    db ←
      if it_state item == StateSuperseded then
        Ok (db <| executor_attempts ::= update_where (fun x => aw_id x == attemptID)
                    (supersede_attempt now) |>)
      else if it_state item != StateActive then Err "work item is not active"
      else
        definition ← loadDefinition (it_route_snapshot_id item) db;
        c ← decide_outcome definition (aw_attempt_number a) result now;
        Ok (db <| executor_attempts ::= update_where (fun x => aw_id x == attemptID)
                    (finish_attempt c result now) |>
               <| work_items ::= update_where
                    (fun r => (it_id r == aw_work_item_id a) && (it_state r == StateActive))
                    (finish_item c result now) |>);
    Ok (tt, db <| serialization_leases ::= delete_where (fun l => ls_attempt_id l == attemptID) |>)) db0.

(** ** Wake-up and recovery *)

(** One UPDATE outside a transaction. *)
Definition WakeWaiting (workItemID : string) (now : Z) (db : Ledger) : Ledger * res unit :=
  let p := fun r => (it_id r == workItemID) && (it_state r == StateWaiting)
                    && (it_next_attempt_at r == None) in
  (db <| work_items ::= update_where p (fun r =>
           r <| it_next_attempt_at := Some (millis now) |> <| it_updated_at := millis now |>
             <| it_state_version ::= Z.succ |>) |>,
   guard_err (negb (count_where p (work_items db) =? 1))
     "work item is not waiting for an external wakeup").

Definition ids_in_state (s : WorkState) (db : Ledger) : list string :=
  map it_id (rows_where (fun r => it_state r == s) (work_items db)).

Definition interrupt_attempt (a : attempt_row) : attempt_row :=
  a <| aw_state := AttemptRecoverable |>
    <| aw_sanitized_error := "executor completion is ambiguous; reclaim with the same idempotency key" |>.

Definition interrupt_item (now : Z) (r : item_row) : item_row :=
  r <| it_state := StateWaiting |> <| it_state_version ::= Z.succ |>
    <| it_next_attempt_at := Some (millis now) |> <| it_updated_at := millis now |>.

Definition RecoverInterrupted (now : Z) (db : Ledger) : Ledger * res Z :=
  let superseded := ids_in_state StateSuperseded db in
  let active := ids_in_state StateActive db in
  let count := count_where (fun r => it_state r == StateActive) (work_items db) in
  let db := db <| executor_attempts ::= update_where
                   (fun a => live_attempt (aw_state a) && bool_decide (aw_work_item_id a ∈ superseded))
                   (supersede_attempt now) |> in
  let db := db <| executor_attempts ::= update_where
                   (fun a => (aw_state a == AttemptRunning) && bool_decide (aw_work_item_id a ∈ active))
                   interrupt_attempt |> in
  let db := db <| work_items ::= update_where (fun r => it_state r == StateActive)
                   (interrupt_item now) |> in
  (db <| serialization_leases := [] |>, Ok count).

(** ** Broker authority *)

Definition ResolveRelease (workItemID : string) (generation : Z) (digest brokerRunID : string) (now : Z)
    (db0 : Ledger) : Ledger * res unit :=
  transact (fun db =>
    _ ← guard_err (generation <=? 0) "resolved release generation must be positive";
    _ ← guard_err (negb (imageDigestFormat digest)) "resolved release digest must be a sha256 image digest";
    _ ← guard_err ((brokerRunID == "") || (256 <? len brokerRunID)) "broker run id is required and bounded";
    prior ← find_item workItemID db;
    _ ← if it_resolved_release_generation prior =? generation then
          _ ← guard_err (it_resolved_release_digest prior != digest)
                "resolved generation already bound to a different digest";
          guard_err ((it_broker_run_id prior != "") && (it_broker_run_id prior != brokerRunID))
                "resolved generation already bound to a different broker run"
        else guard_err (generation <? it_resolved_release_generation prior)
               "resolved release generation is not monotonic";
    let p := fun r => it_id r == workItemID in
    _ ← guard_err (negb (count_where p (work_items db) =? 1)) "work item not found for release resolution";
    Ok (tt, db <| work_items ::= update_where p (fun r =>
              r <| it_resolved_release_generation := generation |> <| it_resolved_release_digest := digest |>
                <| it_broker_run_id := brokerRunID |> <| it_state_version ::= Z.succ |>
                <| it_updated_at := millis now |>) |>)) db0.

Definition RecordAuthoritativePRCorrelation (workItemID repository : string) (prNumber now : Z)
    (db0 : Ledger) : Ledger * res unit :=
  transact (fun db =>
    _ ← guard_err (negb (repoFormat repository) || (256 <? len repository))
          "authoritative PR repository must be owner/name";
    _ ← guard_err (prNumber <=? 0) "authoritative PR number must be positive";
    prior ← find_item workItemID db;
    _ ← guard_err ((it_authoritative_pr_repository prior != "")
          && ((it_authoritative_pr_repository prior != repository)
              || negb (it_authoritative_pr_number prior =? prNumber)))
          "work item already correlated to a different pull request";
    let p := fun r => it_id r == workItemID in
    _ ← guard_err (negb (count_where p (work_items db) =? 1)) "work item not found for PR correlation";
    Ok (tt, db <| work_items ::= update_where p (fun r =>
              r <| it_authoritative_pr_repository := repository |>
                <| it_authoritative_pr_number := prNumber |> <| it_state_version ::= Z.succ |>
                <| it_updated_at := millis now |>) |>)) db0.

Definition WorkItemByAuthoritativePR (repository : string) (prNumber : Z) (db : Ledger) : res WorkItem :=
  r ← of_option ErrNoRows (best_where (fun r => [- it_created_at r])
        (fun r => (it_authoritative_pr_repository r == repository)
                  && (it_authoritative_pr_number r =? prNumber)) (work_items db));
  Ok (workItemScan r).
