(* ===== verification/LedgerInv.v ===== *)
(** * The execution invariant of the work ledger

    Work items, executor attempts and serialization leases are kept consistent
    by every store operation: each lease belongs to one active item and its one
    running attempt, and conversely.  The invariant is stated on the three
    tables, proved preserved statement by statement, then lifted to the store
    operations and to every reachable database. *)

From S2P Require Import Prelude GoText GoSha256 GoJson LedgerModel LedgerModelFacts LedgerStore.
Open Scope string_scope.
Open Scope Z_scope.
Open Scope go_scope.

Implicit Types (I : list item_row) (A : list attempt_row) (L : list lease_row) (db : Ledger).

Record exec_inv I A L : Prop := {
  xi_items : NoDup (map it_id I);
  xi_attempts : NoDup (map aw_id A);
  xi_keys : NoDup (map ls_serialization_key L);
  xi_lease_items : NoDup (map ls_work_item_id L);
  xi_lease_attempts : NoDup (map ls_attempt_id L);
  xi_lease_item : forall l, l ∈ L -> exists r, r ∈ I /\ it_id r = ls_work_item_id l /\
    it_state r = StateActive /\ it_serialization_key r = ls_serialization_key l;
  xi_lease_attempt : forall l, l ∈ L -> exists a, a ∈ A /\ aw_id a = ls_attempt_id l /\
    aw_work_item_id a = ls_work_item_id l /\ aw_state a = AttemptRunning;
  xi_active : forall r, r ∈ I -> it_state r = StateActive -> exists l, l ∈ L /\ ls_work_item_id l = it_id r;
  xi_running : forall a, a ∈ A -> aw_state a = AttemptRunning -> exists l, l ∈ L /\ ls_attempt_id l = aw_id a;
  xi_attempt_item : forall a, a ∈ A -> exists r, r ∈ I /\ it_id r = aw_work_item_id a;
  xi_recoverable : forall a r, a ∈ A -> r ∈ I -> aw_state a = AttemptRecoverable ->
    it_id r = aw_work_item_id a -> it_state r = StateWaiting \/ it_state r = StateFailed;
  xi_recoverable_unique : forall a b, a ∈ A -> b ∈ A -> aw_state a = AttemptRecoverable ->
    aw_state b = AttemptRecoverable -> aw_work_item_id a = aw_work_item_id b -> a = b;
  xi_numbers : forall a, a ∈ A ->
    1 <= aw_attempt_number a <= count_where (fun x => aw_work_item_id x == aw_work_item_id a) A }.

(** ** Consequences *)

Section Consequences.
Context {I A L} (H : exec_inv I A L).

Lemma running_lease a :
  a ∈ A -> aw_state a = AttemptRunning ->
  exists l, l ∈ L /\ ls_attempt_id l = aw_id a /\ ls_work_item_id l = aw_work_item_id a.
Proof.
  intros Ha Hs. destruct (xi_running _ _ _ H a Ha Hs) as (l & Hl & E).
  destruct (xi_lease_attempt _ _ _ H l Hl) as (b & Hb & Eb & Ew & _).
  assert (b = a) as ->. { eapply (key_unique aw_id); eauto using xi_attempts. congruence. }
  eauto.
Qed.

(** The item of a running attempt is active. *)
Lemma running_item a r :
  a ∈ A -> r ∈ I -> aw_state a = AttemptRunning -> it_id r = aw_work_item_id a ->
  it_state r = StateActive.
Proof.
  intros Ha Hr Hs E. destruct (running_lease a Ha Hs) as (l & Hl & _ & Ew).
  destruct (xi_lease_item _ _ _ H l Hl) as (r' & Hr' & E' & Hst & _).
  assert (r' = r) as ->. { eapply (key_unique it_id); eauto using xi_items. congruence. }
  done.
Qed.

Lemma running_unique a b :
  a ∈ A -> b ∈ A -> aw_state a = AttemptRunning -> aw_state b = AttemptRunning ->
  aw_work_item_id a = aw_work_item_id b -> a = b.
Proof.
  intros Ha Hb Sa Sb E.
  destruct (running_lease a Ha Sa) as (l & Hl & La & Lw).
  destruct (running_lease b Hb Sb) as (m & Hm & Ma & Mw).
  assert (l = m) as ->. { eapply (key_unique ls_work_item_id); eauto using xi_lease_items. congruence. }
  eapply (key_unique aw_id); eauto using xi_attempts. congruence.
Qed.

(** Mutual exclusion on a serialization key. *)
Lemma active_unique r1 r2 :
  r1 ∈ I -> r2 ∈ I -> it_state r1 = StateActive -> it_state r2 = StateActive ->
  it_serialization_key r1 = it_serialization_key r2 -> r1 = r2.
Proof.
  intros H1 H2 S1 S2 E.
  assert (Hk : forall r, r ∈ I -> it_state r = StateActive -> exists l, l ∈ L /\
            ls_work_item_id l = it_id r /\ ls_serialization_key l = it_serialization_key r).
  { intros r Hr Hs. destruct (xi_active _ _ _ H r Hr Hs) as (l & Hl & El).
    destruct (xi_lease_item _ _ _ H l Hl) as (r' & Hr' & E' & _ & Ek).
    assert (r' = r) as ->. { eapply (key_unique it_id); eauto using xi_items. congruence. }
    eauto. }
  destruct (Hk r1 H1 S1) as (l & Hl & E1 & K1), (Hk r2 H2 S2) as (m & Hm & E2 & K2).
  assert (l = m) as ->. { eapply (key_unique ls_serialization_key); eauto using xi_keys. congruence. }
  eapply (key_unique it_id); eauto using xi_items. congruence.
Qed.
End Consequences.

(** ** Statements that keep the invariant *)

(** The invariant reads only these columns of an item. *)
Definition item_core (r : item_row) : string * WorkState * string :=
  (it_id r, it_state r, it_serialization_key r).

Lemma item_core_transfer I I' r' :
  map item_core I' = map item_core I -> r' ∈ I' -> exists r, r ∈ I /\ item_core r = item_core r'.
Proof.
  intros E Hr. assert (Hin : item_core r' ∈ map item_core I').
  { apply list_elem_of_fmap. eauto. }
  rewrite E in Hin. apply list_elem_of_fmap in Hin as (r & ? & ?). eauto.
Qed.

Lemma exec_inv_core I I' A L :
  map item_core I' = map item_core I -> exec_inv I A L -> exec_inv I' A L.
Proof.
  intros E [Hi Ha Hk Hli Hla H1 H2 H3 H4 H5 H6 H7 H8].
  assert (Ht : forall r', r' ∈ I' -> exists r, r ∈ I /\ item_core r = item_core r')
    by (intros; by eapply item_core_transfer).
  assert (Hb : forall r, r ∈ I -> exists r', r' ∈ I' /\ item_core r' = item_core r)
    by (intros; by eapply item_core_transfer).
  unfold item_core in *. constructor; auto.
  - replace (map it_id I') with (map it_id I); [done|].
    pose proof (f_equal (map (fun x => fst (fst x))) E) as E'. by rewrite !map_map in E'.
  - intros l Hl. destruct (H1 l Hl) as (r & Hr & ? & ? & ?). destruct (Hb r Hr) as (r' & ? & ?).
    exists r'. simplify_eq. split_and!; congruence.
  - intros r' Hr' Hs. destruct (Ht r' Hr') as (r & Hr & ?). simplify_eq.
    destruct (H3 r Hr) as (l & ? & ?); [congruence|]. exists l. split; congruence.
  - intros a Ha'. destruct (H5 a Ha') as (r & Hr & ?). destruct (Hb r Hr) as (r' & ? & ?).
    exists r'. simplify_eq. split; congruence.
  - intros a r' Ha' Hr' Hs Ei. destruct (Ht r' Hr') as (r & Hr & ?). simplify_eq.
    destruct (H6 a r); try congruence; [left|right]; congruence.
Qed.

Lemma update_where_core p f I :
  (forall r, r ∈ I -> p r = true -> item_core (f r) = item_core r) ->
  map item_core (update_where p f I) = map item_core I.
Proof.
  intros H. unfold update_where. rewrite map_map. apply map_ext_in. intros r Hr.
  destruct (p r) eqn:E; [|done]. apply H; [by apply list_elem_of_In|done].
Qed.

(** A new admitted item. *)
Lemma exec_inv_insert_item I A L r :
  exec_inv I A L -> (forall x, x ∈ I -> it_id x <> it_id r) -> it_state r = StateAdmitted ->
  exec_inv (I ++ [r]) A L.
Proof.
  intros [Hi Ha Hk Hli Hla H1 H2 H3 H4 H5 H6 H7 H8] Hf Hs.
  constructor; auto.
  - by apply NoDup_snoc_key.
  - intros l Hl. destruct (H1 l Hl) as (x & ? & ?). exists x. rewrite elem_of_app. naive_solver.
  - intros x [Hx| ->%list_elem_of_singleton]%elem_of_app Hst; [auto|congruence].
  - intros a Ha'. destruct (H5 a Ha') as (x & ? & ?). exists x. rewrite elem_of_app. naive_solver.
  - intros a x Ha' [Hx| ->%list_elem_of_singleton]%elem_of_app Hst E; [eauto|].
    destruct (H5 a Ha') as (y & Hy & Ey). exfalso. apply (Hf y Hy). congruence.
Qed.

(** A change of state of items that are not active, and do not become so. *)
Lemma exec_inv_inactive p f I A L :
  exec_inv I A L ->
  (forall r, it_id (f r) = it_id r /\ it_serialization_key (f r) = it_serialization_key r) ->
  (forall r, r ∈ I -> p r = true -> it_state r <> StateActive /\ it_state (f r) <> StateActive) ->
  (forall r, r ∈ I -> p r = true -> it_state r = StateWaiting \/ it_state r = StateFailed ->
     it_state (f r) = StateWaiting \/ it_state (f r) = StateFailed) ->
  exec_inv (update_where p f I) A L.
Proof.
  intros [Hi Ha Hk Hli Hla H1 H2 H3 H4 H5 H6 H7 H8] Hf Hp Hw.
  constructor; auto.
  - apply NoDup_update_where; [apply Hf|done].
  - intros l Hl. destruct (H1 l Hl) as (x & Hx & ? & ? & ?). exists x. split; [|done].
    apply update_where_spec. exists x. split; [done|]. destruct (p x) eqn:E; [|done].
    by destruct (Hp x Hx E).
  - intros x' (x & Hx & ->)%update_where_spec Hst. destruct (p x) eqn:E; [|auto].
    by destruct (Hp x Hx E).
  - intros a Ha'. destruct (H5 a Ha') as (x & Hx & ?).
    exists (if p x then f x else x). split; [apply update_where_spec; eauto|].
    destruct (p x); [by rewrite (proj1 (Hf x))|done].
  - intros a x' Ha' (x & Hx & ->)%update_where_spec Hst E.
    destruct (p x) eqn:Ep; [|eauto]. apply Hw; auto. eapply H6; eauto.
    by rewrite <- (proj1 (Hf x)).
Qed.

(** Attempt updates that write neither identity nor number keep the counts. *)
Definition attempt_keeps (f : attempt_row -> attempt_row) : Prop :=
  forall a, aw_id (f a) = aw_id a /\ aw_work_item_id (f a) = aw_work_item_id a /\
            aw_attempt_number (f a) = aw_attempt_number a.

Lemma numbers_update p f A :
  attempt_keeps f ->
  (forall a, a ∈ A -> 1 <= aw_attempt_number a <= count_where (fun x => aw_work_item_id x == aw_work_item_id a) A) ->
  forall a, a ∈ update_where p f A ->
    1 <= aw_attempt_number a <= count_where (fun x => aw_work_item_id x == aw_work_item_id a) (update_where p f A).
Proof.
  intros Hf H a' (a & Ha & ->)%update_where_spec. specialize (H a Ha).
  rewrite count_where_update by (intros x; by rewrite (proj1 (proj2 (Hf x)))).
  destruct (p a); [destruct (Hf a) as (_ & Ew & En); by rewrite En, Ew|done].
Qed.

Lemma in_ids_iff sel I r :
  NoDup (map it_id I) -> r ∈ I -> it_id r ∈ map it_id (rows_where sel I) <-> sel r = true.
Proof.
  intros Hn Hr. split.
  - intros (x & E & [Hx Hs]%rows_where_spec)%list_elem_of_fmap.
    assert (x = r) as ->; [|done]. eapply (key_unique it_id); eauto.
  - intros Hs. apply list_elem_of_fmap. exists r. split; [done|]. by apply rows_where_spec.
Qed.

(** Closing a set of items: their live attempts are closed and their leases
    released in the same transaction. *)
Section CloseItems.
Context (sel : item_row -> bool) (f : item_row -> item_row) (g : attempt_row -> attempt_row).
Context (live : AttemptState -> bool).
Hypothesis f_keeps : forall r, it_id (f r) = it_id r /\ it_serialization_key (f r) = it_serialization_key r.
Hypothesis f_state : forall r, it_state (f r) <> StateActive.
Hypothesis g_keeps : attempt_keeps g.
Hypothesis g_state : forall a, aw_state (g a) <> AttemptRunning /\ aw_state (g a) <> AttemptRecoverable.
Hypothesis live_all : live AttemptRunning = true /\ live AttemptRecoverable = true.

Lemma exec_inv_close I A L :
  let ids := map it_id (rows_where sel I) in
  exec_inv I A L ->
  exec_inv (update_where sel f I)
    (update_where (fun a => live (aw_state a) && bool_decide (aw_work_item_id a ∈ ids)) g A)
    (delete_where (fun l => bool_decide (ls_work_item_id l ∈ ids)) L).
Proof.
  intros ids H. pose proof H as [Hi Ha Hk Hli Hla H1 H2 H3 H4 H5 H6 H7 H8].
  set (pa := fun a => live (aw_state a) && bool_decide (aw_work_item_id a ∈ ids)).
  set (pl := fun l => bool_decide (ls_work_item_id l ∈ ids)).
  (* a live attempt survives exactly outside the closed items *)
  assert (Hpa : forall a, a ∈ A -> aw_state a = AttemptRunning \/ aw_state a = AttemptRecoverable ->
            pa a = false -> aw_work_item_id a ∉ ids).
  { intros a _ Hs Hp. unfold pa in Hp. destruct live_all as [L1 L2].
    destruct Hs as [Hs|Hs]; rewrite Hs, ?L1, ?L2 in Hp; by apply bool_decide_eq_false in Hp. }
  constructor; auto using NoDup_delete_where.
  - apply NoDup_update_where; [apply f_keeps|done].
  - apply NoDup_update_where; [apply g_keeps|done].
  - intros l [Hl Hp%bool_decide_eq_false]%delete_where_spec.
    destruct (H1 l Hl) as (r & Hr & E & ? & ?). exists r. split; [|done].
    apply update_where_spec. exists r. split; [done|]. destruct (sel r) eqn:Es; [|done].
    exfalso. apply Hp. rewrite <- E. by apply in_ids_iff.
  - intros l [Hl Hp%bool_decide_eq_false]%delete_where_spec.
    destruct (H2 l Hl) as (a & Ha' & E & Ew & ?). exists a. split; [|done].
    apply update_where_spec. exists a. split; [done|]. destruct (pa a) eqn:Es; [|done].
    unfold pa in Es. split_bools. exfalso. apply Hp. congruence.
  - intros r' (r & Hr & ->)%update_where_spec Hs. destruct (sel r) eqn:Es; [by destruct (f_state r)|].
    destruct (H3 r Hr Hs) as (l & Hl & E). exists l. split; [|done]. apply delete_where_spec.
    split; [done|]. apply bool_decide_eq_false. rewrite E. unfold ids.
    rewrite (in_ids_iff sel I r Hi Hr). by rewrite Es.
  - intros a' (a & Ha' & ->)%update_where_spec Hs. destruct (pa a) eqn:Es; [by destruct (g_state a)|].
    destruct (running_lease H a Ha' Hs) as (l & Hl & E & Ew). exists l. split; [|done].
    apply delete_where_spec. split; [done|]. apply bool_decide_eq_false. rewrite Ew. auto.
  - intros a' (a & Ha' & ->)%update_where_spec. destruct (H5 a Ha') as (r & Hr & E).
    exists (if sel r then f r else r). split; [apply update_where_spec; eauto|].
    destruct (g_keeps a) as (_ & Eg & _), (f_keeps r) as [Ef _].
    destruct (sel r), (pa a); congruence.
  - intros a' r' (a & Ha' & ->)%update_where_spec (r & Hr & ->)%update_where_spec Hs E.
    destruct (pa a) eqn:Es; [by destruct (g_state a)|].
    assert (E' : it_id r = aw_work_item_id a).
    { rewrite <- E. destruct (sel r); [by rewrite (proj1 (f_keeps r))|done]. }
    destruct (sel r) eqn:Er; [|eauto]. exfalso. apply (Hpa a); auto. rewrite <- E'.
    by apply in_ids_iff.
  - intros a' b' (a & Ha' & ->)%update_where_spec (b & Hb' & ->)%update_where_spec Sa Sb E.
    destruct (pa a); [by destruct (g_state a)|]. destruct (pa b); [by destruct (g_state b)|]. auto.
  - by apply numbers_update.
Qed.
End CloseItems.

(** Attempts that are neither running nor recoverable may change among
    themselves. *)
Lemma exec_inv_quiet p g I A L :
  exec_inv I A L -> attempt_keeps g ->
  (forall a, a ∈ A -> p a = true -> aw_state a <> AttemptRunning /\ aw_state a <> AttemptRecoverable) ->
  (forall a, aw_state (g a) <> AttemptRunning /\ aw_state (g a) <> AttemptRecoverable) ->
  exec_inv I (update_where p g A) L.
Proof.
  intros [Hi Ha Hk Hli Hla H1 H2 H3 H4 H5 H6 H7 H8] Hg Hp Hgs.
  constructor; auto using numbers_update.
  - apply NoDup_update_where; [apply Hg|done].
  - intros l Hl. destruct (H2 l Hl) as (a & Ha' & ? & ? & ?). exists a. split; [|done].
    apply update_where_spec. exists a. split; [done|]. destruct (p a) eqn:E; [|done].
    by destruct (Hp a Ha' E).
  - intros a' (a & Ha' & ->)%update_where_spec Hs. destruct (p a); [by destruct (Hgs a)|auto].
  - intros a' (a & Ha' & ->)%update_where_spec. destruct (p a); [rewrite (proj1 (proj2 (Hg a)))|]; auto.
  - intros a' r (a & Ha' & ->)%update_where_spec Hr Hs. destruct (p a); [by destruct (Hgs a)|eauto].
  - intros a' b' (a & Ha' & ->)%update_where_spec (b & Hb' & ->)%update_where_spec Sa Sb.
    destruct (p a); [by destruct (Hgs a)|]. destruct (p b); [by destruct (Hgs b)|]. auto.
Qed.

(** Completing the running attempt of an active item closes that item. *)
Lemma exec_inv_complete f g a item I A L :
  exec_inv I A L -> a ∈ A -> aw_state a = AttemptRunning ->
  item ∈ I -> it_id item = aw_work_item_id a ->
  (forall r, it_id (f r) = it_id r /\ it_serialization_key (f r) = it_serialization_key r) ->
  (forall r, it_state (f r) <> StateActive) -> attempt_keeps g ->
  (forall x, aw_state (g x) <> AttemptRunning /\ aw_state (g x) <> AttemptRecoverable) ->
  exec_inv
    (update_where (fun r => (it_id r == aw_work_item_id a) && (it_state r == StateActive)) f I)
    (update_where (fun x => aw_id x == aw_id a) g A)
    (delete_where (fun l => ls_attempt_id l == aw_id a) L).
Proof.
  intros H Ha Sa Hitem Ei Hf Hfs Hg Hgs.
  pose proof (running_item H a item Ha Hitem Sa Ei) as Sact.
  set (sel := fun r => (it_id r == aw_work_item_id a) && (it_state r == StateActive)).
  set (live := fun s => (s == AttemptRunning) || (s == AttemptRecoverable)).
  set (ids := map it_id (rows_where sel I)).
  assert (Hids : forall id, id ∈ ids <-> id = aw_work_item_id a).
  { intros id. split.
    - intros (x & -> & [_ Hx]%rows_where_spec)%list_elem_of_fmap. unfold sel in Hx. by split_bools.
    - intros ->. rewrite <- Ei. unfold ids. apply (in_ids_iff sel I item (xi_items _ _ _ H) Hitem).
      unfold sel. by rewrite !bool_decide_true. }
  rewrite (update_where_ext _ (fun x => live (aw_state x) && bool_decide (aw_work_item_id x ∈ ids)) g A).
  2:{ intros x Hx. apply eq_bool_prop_intro. rewrite andb_True, !bool_decide_spec, Hids.
      unfold live. rewrite orb_True, !bool_decide_spec. split.
      - intros E. assert (x = a) as ->; [|auto]. eapply (key_unique aw_id); eauto using xi_attempts.
      - intros [[Hr|Hr] E]; [f_equal; by apply (running_unique H)|].
        destruct (xi_recoverable _ _ _ H x item Hx Hitem Hr); congruence. }
  rewrite (delete_where_ext _ (fun l => bool_decide (ls_work_item_id l ∈ ids)) L).
  2:{ intros l Hl. apply bool_decide_ext. rewrite Hids.
      destruct (running_lease H a Ha Sa) as (m & Hm & Em & Ew). split; intros E.
      - assert (l = m) as ->; [|done]. eapply (key_unique ls_attempt_id); eauto using xi_lease_attempts. congruence.
      - assert (l = m) as ->; [|done]. eapply (key_unique ls_work_item_id); eauto using xi_lease_items. congruence. }
  apply (exec_inv_close sel f g live); auto.
Qed.

(** Interrupted work: running attempts become recoverable, active items wait,
    and every lease is dropped. *)
Lemma exec_inv_interrupt f g I A L :
  exec_inv I A L ->
  (forall r, it_id (f r) = it_id r /\ it_state (f r) = StateWaiting /\
             it_serialization_key (f r) = it_serialization_key r) ->
  attempt_keeps g -> (forall a, aw_state (g a) = AttemptRecoverable) ->
  let ids := map it_id (rows_where (fun r => it_state r == StateActive) I) in
  exec_inv (update_where (fun r => it_state r == StateActive) f I)
    (update_where (fun a => (aw_state a == AttemptRunning) && bool_decide (aw_work_item_id a ∈ ids)) g A) [].
Proof.
  intros H Hf Hg Hgs ids. pose proof H as [Hi Ha Hk Hli Hla H1 H2 H3 H4 H5 H6 H7 H8].
  set (pa := fun a => (aw_state a == AttemptRunning) && bool_decide (aw_work_item_id a ∈ ids)).
  assert (Hpa : forall a, a ∈ A -> pa a = bool_decide (aw_state a = AttemptRunning)).
  { intros a Ha'. unfold pa. case_bool_decide as Hs; [|done]. simpl. apply bool_decide_true.
    destruct (H5 a Ha') as (r & Hr & E). rewrite <- E. apply in_ids_iff; [done..|].
    apply bool_decide_true.
    by apply (running_item H a). }
  constructor; try (by apply list.NoDup_nil); try (by intros l ?%elem_of_nil); auto using numbers_update.
  - apply NoDup_update_where; [intros r; apply Hf|done].
  - apply NoDup_update_where; [apply Hg|done].
  - intros r' (r & Hr & ->)%update_where_spec. case_bool_decide as E; [|done].
    rewrite (proj1 (proj2 (Hf r))). done.
  - intros a' (a & Ha' & ->)%update_where_spec. rewrite (Hpa a Ha'). case_bool_decide; [|done].
    by rewrite Hgs.
  - intros a' (a & Ha' & ->)%update_where_spec. destruct (H5 a Ha') as (r & Hr & E).
    exists (if it_state r == StateActive then f r else r). split; [apply update_where_spec; eauto|].
    destruct (Hf r) as [Ef _], (Hg a) as (_ & Eg & _). destruct (it_state r == StateActive), (pa a); congruence.
  - intros a' r' (a & Ha' & ->)%update_where_spec (r & Hr & ->)%update_where_spec Hs E.
    destruct (Hf r) as (Ef & Esf & _), (Hg a) as (_ & Eg & _).
    assert (E' : it_id r = aw_work_item_id a) by (destruct (it_state r == StateActive), (pa a); congruence).
    case_bool_decide as Ea; [by left|]. rewrite (Hpa a Ha') in Hs. case_bool_decide as Er; [|eauto].
    by rewrite (running_item H a r) in Ea.
  - intros a' b' (a & Ha' & ->)%update_where_spec (b & Hb' & ->)%update_where_spec Sa Sb E.
    destruct (Hg a) as (_ & Ea & _), (Hg b) as (_ & Eb & _).
    assert (E' : aw_work_item_id a = aw_work_item_id b) by (destruct (pa a), (pa b); congruence).
    destruct (H5 a Ha') as (r & Hr & Er). rewrite (Hpa a Ha'), (Hpa b Hb') in *.
    do 2 case_bool_decide; auto.
    + assert (a = b) as ->; [by apply (running_unique H)|done].
    + pose proof (running_item H a r Ha' Hr ltac:(done) Er). destruct (H6 b r); congruence.
    + pose proof (running_item H b r Hb' Hr ltac:(done) ltac:(congruence)). destruct (H6 a r); congruence.
Qed.

(** *** Claims

    The claimed item takes a lease on its free key together with one attempt
    that becomes the running attempt of the item. *)
Section ClaimItem.
Context (I : list item_row) (A A' : list attempt_row) (L : list lease_row).
Context (item : item_row) (b : attempt_row) (f : item_row -> item_row) (p : item_row -> bool) (at_ms : Z).
Hypothesis Hinv : exec_inv I A L.
Hypothesis Hitem : item ∈ I.
Hypothesis Hidle : it_state item <> StateActive.
Hypothesis Hfree : forall l, l ∈ L -> ls_serialization_key l <> it_serialization_key item.
Hypothesis f_spec : forall r, it_id (f r) = it_id r /\ it_state (f r) = StateActive /\
                              it_serialization_key (f r) = it_serialization_key r.
Hypothesis p_spec : forall r, r ∈ I -> p r = true <-> r = item.
(** [A'] is [A] with [b] as its only new running attempt, and no recoverable
    attempt of the item. *)
Hypothesis Hb : b ∈ A' /\ aw_state b = AttemptRunning /\ aw_work_item_id b = it_id item.
Hypothesis A'_nodup : NoDup (map aw_id A').
Hypothesis A'_old : forall a, a ∈ A' -> a = b \/ (a ∈ A /\ aw_id a <> aw_id b).
Hypothesis A'_kept : forall a, a ∈ A -> aw_state a = AttemptRunning -> a ∈ A'.
Hypothesis A'_recoverable : forall a, a ∈ A' -> aw_state a = AttemptRecoverable ->
  aw_work_item_id a <> it_id item.
Hypothesis A'_numbers : forall a, a ∈ A' ->
  1 <= aw_attempt_number a <= count_where (fun x => aw_work_item_id x == aw_work_item_id a) A'.
Hypothesis b_new : forall a, a ∈ A -> aw_state a = AttemptRunning -> aw_id a <> aw_id b.

Lemma exec_inv_claim :
  exec_inv (update_where p f I) A'
    (L ++ [mkLeaseRow (it_serialization_key item) (it_id item) (aw_id b) at_ms]).
Proof.
  pose proof Hinv as [Hi Ha Hk Hli Hla H1 H2 H3 H4 H5 H6 H7 H8].
  destruct Hb as (HbA & Sb & Eb).
  assert (Hleased : forall l, l ∈ L -> ls_work_item_id l <> it_id item).
  { intros l Hl E. destruct (H1 l Hl) as (r & Hr & Er & Sr & _).
    assert (r = item) as ->; [|done]. eapply (key_unique it_id); eauto. congruence. }
  assert (Hrow : forall r, r ∈ I -> exists r', r' ∈ update_where p f I /\ it_id r' = it_id r /\
            it_serialization_key r' = it_serialization_key r /\ (it_state r = StateActive -> it_state r' = StateActive)).
  { intros r Hr. exists (if p r then f r else r). split; [apply update_where_spec; eauto|].
    destruct (f_spec r) as (? & ? & ?). destruct (p r); auto. }
  constructor; auto.
  - apply NoDup_update_where; [apply f_spec|done].
  - apply NoDup_snoc_key; [done|exact Hfree].
  - apply NoDup_snoc_key; [done|exact Hleased].
  - apply NoDup_snoc_key; [done|]. simpl. intros l Hl E.
    destruct (H2 l Hl) as (a & Ha' & Ea & _ & Sa). apply (b_new a Ha' Sa). congruence.
  - intros l [Hl| ->%list_elem_of_singleton]%elem_of_app; simpl.
    + destruct (H1 l Hl) as (r & Hr & ? & ? & ?). destruct (Hrow r Hr) as (r' & ? & ? & ? & ?).
      exists r'. split_and!; auto; congruence.
    + exists (f item). destruct (f_spec item) as (? & ? & ?). split_and!; auto.
      apply update_where_spec. exists item. split; [done|]. by rewrite (proj2 (p_spec item Hitem) eq_refl).
  - intros l [Hl| ->%list_elem_of_singleton]%elem_of_app; simpl; [|eauto].
    destruct (H2 l Hl) as (a & ? & ? & ? & ?). exists a. auto.
  - intros r' (r & Hr & ->)%update_where_spec Sr. destruct (p r) eqn:Ep.
    + apply p_spec in Ep as ->; [|done]. eexists. split; [apply elem_of_app; right; left|]. simpl.
      symmetry. apply f_spec.
    + destruct (H3 r Hr Sr) as (l & ? & ?). exists l. rewrite elem_of_app. auto.
  - intros a Ha' Sa. destruct (A'_old a Ha') as [->|[HaA _]].
    + eexists. split; [apply elem_of_app; right; left|done].
    + destruct (H4 a HaA Sa) as (l & ? & ?). exists l. rewrite elem_of_app. auto.
  - intros a Ha'. destruct (A'_old a Ha') as [->|[HaA _]].
    + destruct (Hrow item Hitem) as (r' & ? & ? & _). exists r'. split; congruence.
    + destruct (H5 a HaA) as (r & Hr & ?). destruct (Hrow r Hr) as (r' & ? & ? & _). exists r'. split; congruence.
  - intros a r' Ha' (r & Hr & ->)%update_where_spec Sa E.
    destruct (A'_old a Ha') as [->|[HaA _]]; [congruence|]. destruct (p r) eqn:Ep; [|eauto].
    apply p_spec in Ep as ->; [|done]. destruct (A'_recoverable a Ha' Sa).
    rewrite <- E. apply f_spec.
  - intros a c Ha' Hc Sa Sc E.
    destruct (A'_old a Ha') as [->|[? _]]; [congruence|]. destruct (A'_old c Hc) as [->|[? _]]; [congruence|].
    auto.
Qed.
End ClaimItem.
