(* ===== verification/LedgerOps.v ===== *)
(** * The ledger as a state machine

    Every store operation preserves the execution invariant; [ledger_step] is
    one operation with any arguments and [reachable] a history of them from a
    freshly migrated database. *)

From stdpp Require Import relations.
From S2P Require Import Prelude GoText GoSha256 GoJson LedgerModel LedgerModelFacts LedgerStore LedgerInv.
Open Scope string_scope.
Open Scope Z_scope.
Open Scope go_scope.

Implicit Types db : Ledger.

Definition ledger_exec db : Prop :=
  exec_inv (work_items db) (executor_attempts db) (serialization_leases db).

(** Operations on other tables. *)
Definition same_exec db db' : Prop :=
  work_items db' = work_items db /\ executor_attempts db' = executor_attempts db /\
  serialization_leases db' = serialization_leases db.

Lemma ledger_exec_same db db' : same_exec db db' -> ledger_exec db -> ledger_exec db'.
Proof. intros (E1 & E2 & E3). unfold ledger_exec. by rewrite E1, E2, E3. Qed.

Lemma same_exec_refl db : same_exec db db.
Proof. done. Qed.

Lemma retire_where_same p now db db' : retire_where p now db = Ok db' -> same_exec db db'.
Proof. unfold retire_where. intros H. open_guards H. by simplify_eq. Qed.

Lemma insert_snapshot_same r db db' : insert_snapshot r db = Ok db' -> same_exec db db'.
Proof. unfold insert_snapshot. intros H. open_guards H. by simplify_eq. Qed.

Lemma insert_event_same r db db' : insert_event r db = Ok db' -> same_exec db db'.
Proof. unfold insert_event. intros H. open_guards H. by simplify_eq. Qed.

Lemma record_operation_same id op db db' : record_operation id op db = Ok db' -> same_exec db db'.
Proof. unfold record_operation. intros H. run_ok H; done. Qed.

Lemma saveRoute_same d ex now id db : same_exec db (saveRoute d ex now id db).1.
Proof.
  apply (transact_preserves (same_exec db)); [done|]. intros s db' H.
  open_guards H. apply bind_ok in H as (digest & _ & H). cbv zeta in H. case_match; [by simplify_eq|].
  apply bind_ok in H as (d1 & H1 & H). apply bind_ok in H as (d2 & H2 & H). simplify_eq.
  apply retire_where_same in H1 as (E1 & E2 & E3). apply insert_snapshot_same in H2 as (F1 & F2 & F3).
  split_and!; congruence.
Qed.

Lemma RetireRoute_same id now db : same_exec db (RetireRoute id now db).1.
Proof. unfold RetireRoute. case_match eqn:E; [by apply retire_where_same in E|done..]. Qed.

Lemma RecordIngressFailure_same e c n now db : same_exec db (RecordIngressFailure e c n now db).1.
Proof. unfold RecordIngressFailure. repeat case_match; done. Qed.

Lemma RecordContentResult_same d x r now db : same_exec db (RecordContentResult d x r now db).1.
Proof.
  apply (transact_preserves (same_exec db)); [done|]. intros s db' H.
  apply bind_ok in H as (c & _ & H). open_guards H. simplify_eq. by case_match.
Qed.

(** ** Admission *)

Lemma insert_item_exec r db db' :
  insert_item r db = Ok db' -> it_state r = StateAdmitted -> ledger_exec db -> ledger_exec db'.
Proof.
  unfold insert_item. intros H Hs Hx. open_guards H. split_bools. simplify_eq.
  apply exec_inv_insert_item; [done| |done].
  by apply exists_where_fresh.
Qed.

Lemma supersede_exec route key id now db : ledger_exec db -> ledger_exec (supersede route key id now db).
Proof.
  intros Hx. by apply (exec_inv_close _ (supersede_item id now) (supersede_attempt now) live_attempt).
Qed.

Lemma admit_exec sid e op b now w v db : ledger_exec db -> ledger_exec (admit_event sid e op b now w v db).1.
Proof.
  intros Hx. apply (transact_preserves ledger_exec); [done|]. intros res db' H.
  open_guards H. apply bind_ok in H as ([snapshot definition] & _ & H). open_guards H.
  case_match.
  - open_guards H. apply bind_ok in H as (item & _ & H). by simplify_eq.
  - apply bind_ok in H as ([item d1] & H1 & H). apply bind_ok in H as (d2 & H2 & H).
    apply bind_ok in H as (d3 & H3 & H). simplify_eq.
    assert (ledger_exec d1) as Hd1.
    { destruct (find_revision _ _ _ _); [by simplify_eq|]. apply bind_ok in H1 as (d0 & Hins & H1). simplify_eq.
      apply insert_item_exec in Hins; [|done..]. destruct (Supersede _); auto using supersede_exec. }
    apply insert_event_same in H3. eapply ledger_exec_same; [exact H3|].
    destruct op; [|by simplify_eq]. apply record_operation_same in H2. by eapply ledger_exec_same.
Qed.

(** ** Claims *)

Lemma expire_waiting_exec now db : ledger_exec db -> ledger_exec (expire_waiting now db).
Proof.
  intros Hx. apply exec_inv_inactive; [done|by intros| |by intros; right].
  intros r _ Hp. unfold wait_expired in Hp. split_bools. split; [congruence|done].
Qed.

Lemma next_claim_spec db now item :
  next_claim db now = Some item ->
  item ∈ work_items db /\ (it_state item = StateAdmitted \/ it_state item = StateWaiting) /\
  (forall l, l ∈ serialization_leases db -> ls_serialization_key l <> it_serialization_key item).
Proof.
  unfold next_claim. intros (Hin & Hc & _)%best_where_Some. unfold claimable in Hc. split_bools.
  split_and!; [done| |].
  - by match goal with H : (_ || _) = true |- _ => apply orb_true_iff in H as [?|?] end; split_bools; [left|right].
  - by apply exists_where_fresh.
Qed.

(** The update of the claimed item hits that row only. *)
Lemma item_selector db item (q : WorkState -> bool) r :
  ledger_exec db -> item ∈ work_items db -> q (it_state item) = true -> r ∈ work_items db ->
  ((it_id r == it_id item) && q (it_state r)) = true <-> r = item.
Proof.
  intros Hx Hi Hq Hr. split; [|intros ->; rewrite Hq, bool_decide_true by done; done].
  intros [E%bool_decide_eq_true _]%andb_true_iff. eapply (key_unique it_id); eauto using xi_items.
Qed.

Lemma insert_lease_tables l db db' :
  insert_lease l db = Ok db' ->
  work_items db' = work_items db /\ executor_attempts db' = executor_attempts db /\
  serialization_leases db' = (serialization_leases db ++ [l])%list.
Proof. unfold insert_lease. intros H. open_guards H. by simplify_eq. Qed.

Lemma claim_recovered_exec item b now db r db' :
  ledger_exec db -> item ∈ work_items db -> it_state item = StateWaiting ->
  (forall l, l ∈ serialization_leases db -> ls_serialization_key l <> it_serialization_key item) ->
  b ∈ executor_attempts db -> aw_state b = AttemptRecoverable -> aw_work_item_id b = it_id item ->
  claim_recovered item b now db = Ok (r, db') -> ledger_exec db'.
Proof.
  intros Hx Hi Hs Hfree Hb Sb Eb H. unfold claim_recovered in H.
  apply bind_ok in H as (d1 & (E1 & E2 & E3)%insert_lease_tables & H). simplify_eq. unfold ledger_exec.
  simpl in *. rewrite E1, E2, E3.
  set (pa := fun a => (aw_id a == aw_id b) && (aw_state a == AttemptRecoverable)).
  assert (Hpa : forall a, a ∈ executor_attempts db -> pa a = true <-> a = b).
  { intros a Ha. unfold pa. split; [|intros ->; by rewrite !bool_decide_true].
    intros [E%bool_decide_eq_true _]%andb_true_iff. eapply (key_unique aw_id); eauto using xi_attempts. }
  change (aw_id b) with (aw_id (restart_attempt now b)).
  eapply exec_inv_claim; try done.
  - by rewrite Hs.
  - intros x Hr. set (q := fun s : WorkState => s == StateWaiting). apply (item_selector db item q); auto.
    by apply bool_decide_true.
  - split; [|done]. apply update_where_spec. exists b. split; [done|]. by rewrite (proj2 (Hpa b Hb) eq_refl).
  - apply NoDup_update_where; [done|]. apply (xi_attempts _ _ _ Hx).
  - intros a' (a & Ha & ->)%update_where_spec. destruct (pa a) eqn:Ep.
    + apply Hpa in Ep as ->; auto.
    + right. split; [done|]. intros E. assert (a = b) as ->.
      { eapply (key_unique aw_id); eauto using xi_attempts. } by rewrite (proj2 (Hpa b Hb) eq_refl) in Ep.
  - intros a Ha Sa. apply update_where_spec. exists a. split; [done|]. destruct (pa a) eqn:Ep; [|done].
    apply Hpa in Ep as ->; [congruence|done].
  - intros a' (a & Ha & ->)%update_where_spec. destruct (pa a) eqn:Ep; [done|]. intros Sa E.
    assert (a = b) as ->; [|by rewrite (proj2 (Hpa b Hb) eq_refl) in Ep].
    eapply xi_recoverable_unique; eauto. congruence.
  - apply numbers_update; [done|]. apply (xi_numbers _ _ _ Hx).
  - intros a Ha Sa E. assert (a = b) as ->; [|congruence]. eapply (key_unique aw_id); eauto using xi_attempts.
Qed.

Lemma insert_attempt_tables a db db' :
  insert_attempt a db = Ok db' ->
  work_items db' = work_items db /\ executor_attempts db' = (executor_attempts db ++ [a])%list /\
  serialization_leases db' = serialization_leases db /\
  (forall x, x ∈ executor_attempts db -> aw_id x <> aw_id a /\ aw_idempotency_key x <> aw_idempotency_key a).
Proof.
  unfold insert_attempt. intros H. open_guards H. simplify_eq. split_bools. split_and!; try done.
  intros x Hx. match goal with Hex : exists_where _ _ = false |- _ =>
    pose proof (proj1 (exists_where_false _ _) Hex x Hx) as Hk end. cbv beta in Hk. by split_bools.
Qed.

Lemma numbers_snoc A a :
  (forall x, x ∈ A -> 1 <= aw_attempt_number x <= count_where (fun y => aw_work_item_id y == aw_work_item_id x) A) ->
  aw_attempt_number a = count_where (fun y => aw_work_item_id y == aw_work_item_id a) A + 1 ->
  forall x, x ∈ (A ++ [a])%list ->
    1 <= aw_attempt_number x <= count_where (fun y => aw_work_item_id y == aw_work_item_id x) (A ++ [a]).
Proof.
  intros H En x [Hx| ->%list_elem_of_singleton]%elem_of_app; rewrite count_where_snoc.
  - specialize (H x Hx). destruct (aw_work_item_id a == aw_work_item_id x); lia.
  - rewrite bool_decide_true by done. unfold count_where in *. lia.
Qed.

Lemma recoverable_attempt_None id db :
  recoverable_attempt id db = None ->
  forall a, a ∈ executor_attempts db -> aw_state a = AttemptRecoverable -> aw_work_item_id a <> id.
Proof.
  unfold recoverable_attempt. intros H a Ha Sa E.
  pose proof (proj1 (best_where_None _ _ _) H a Ha) as Hp. cbv beta in Hp.
  by rewrite !bool_decide_true in Hp.
Qed.

Lemma claim_fresh_exec item now id db r db' :
  ledger_exec db -> item ∈ work_items db ->
  it_state item = StateAdmitted \/ it_state item = StateWaiting ->
  (forall l, l ∈ serialization_leases db -> ls_serialization_key l <> it_serialization_key item) ->
  recoverable_attempt (it_id item) db = None ->
  claim_fresh item now id db = Ok (r, db') -> ledger_exec db'.
Proof.
  intros Hx Hi Hs Hfree Hrec H. unfold claim_fresh in H.
  apply bind_ok in H as (snap & _ & H). cbv zeta in H.
  match type of H with (let '(_, _) := ?m in _) = _ => destruct m as [okey requested] end.
  apply bind_ok in H as (d1 & (E1 & E2 & E3 & Hnew)%insert_attempt_tables & H).
  apply bind_ok in H as (d2 & (F1 & F2 & F3)%insert_lease_tables & H). simplify_eq.
  unfold ledger_exec. simpl in *. rewrite F1, F2, F3, E1, E2, E3.
  match goal with |- context [(_ ++ [?a])%list] => change id with (aw_id a) end.
  eapply exec_inv_claim; try done.
  - destruct Hs; congruence.
  - intros x Hr. set (q := fun s : WorkState => (s == StateAdmitted) || (s == StateWaiting)).
    apply (item_selector db item q); auto.
    apply orb_true_iff. rewrite !bool_decide_eq_true. done.
  - split; [|done]. apply elem_of_app. right. by left.
  - apply NoDup_snoc_key; [apply (xi_attempts _ _ _ Hx)|]. intros x Hin. by apply Hnew.
  - intros a [Ha| ->%list_elem_of_singleton]%elem_of_app; [right|by left]. split; [done|]. by apply Hnew.
  - intros a Ha _. apply elem_of_app. by left.
  - intros a [Ha| ->%list_elem_of_singleton]%elem_of_app Sa; [|done].
    by apply (recoverable_attempt_None _ _ Hrec).
  - apply numbers_snoc; [apply (xi_numbers _ _ _ Hx)|done].
  - intros a Ha _. by apply Hnew.
Qed.

Lemma Claim_exec now id db : ledger_exec db -> ledger_exec (Claim now id db).1.
Proof.
  intros Hx. apply (transact_preserves ledger_exec); [done|]. intros out db' H. cbv zeta in H.
  pose proof (expire_waiting_exec now db Hx) as He. revert H He. generalize (expire_waiting now db) as d.
  intros d H He. destruct (next_claim d now) as [item|] eqn:En; [|by simplify_eq].
  apply next_claim_spec in En as (Hin & Hs & Hfree).
  apply bind_ok in H as ([[w a] d1] & H1 & H). simplify_eq.
  destruct (recoverable_attempt _ _) as [b|] eqn:Er; [|by eapply claim_fresh_exec].
  pose proof Er as (Hb & Hp & _)%best_where_Some. split_bools.
  eapply claim_recovered_exec; eauto. destruct Hs as [Hs|]; [|done].
  destruct (xi_recoverable _ _ _ He b item); congruence.
Qed.

(** ** Completion *)

(** No outcome leaves the item active or the attempt live. *)
Lemma decide_outcome_closes d n result now c :
  decide_outcome d n result now = Ok c ->
  cp_state c <> StateActive /\ cp_attempt c <> AttemptRunning /\ cp_attempt c <> AttemptRecoverable.
Proof. unfold decide_outcome. intros H. cbv zeta in H. run_ok H; done. Qed.

Lemma Complete_exec id result now db : ledger_exec db -> ledger_exec (Complete id result now db).1.
Proof.
  intros Hx. apply (transact_preserves ledger_exec); [done|]. intros out db' H.
  apply bind_ok in H as (a & Ha & H). open_guards H.
  apply bind_ok in H as (item & Hitem & H). apply bind_ok in H as (d1 & H1 & H). simplify_eq. split_bools.
  unfold of_option in Ha. destruct (first_where _ _) as [a'|] eqn:Ef in Ha; [|done]. simplify_eq.
  apply first_where_Some in Ef as [HaA Eid%bool_decide_eq_true].
  unfold find_item, of_option in Hitem. destruct (first_where _ _) as [i'|] eqn:Ei in Hitem; [|done].
  simplify_eq. apply first_where_Some in Ei as [HiI Eit%bool_decide_eq_true].
  pose proof (running_item Hx a item HaA HiI ltac:(done) Eit) as Sact. rewrite Sact in H1. simpl in H1.
  apply bind_ok in H1 as (d & Hd & H1). apply bind_ok in H1 as (c & Hc & H1). simplify_eq.
  apply decide_outcome_closes in Hc as (? & ? & ?).
  by apply (exec_inv_complete (finish_item c result now) (finish_attempt c result now) a item).
Qed.

Lemma WakeWaiting_exec id now db : ledger_exec db -> ledger_exec (WakeWaiting id now db).1.
Proof. intros Hx. eapply exec_inv_core; [|exact Hx]. by apply update_where_core. Qed.

Lemma RecoverInterrupted_exec now db : ledger_exec db -> ledger_exec (RecoverInterrupted now db).1.
Proof.
  intros Hx. unfold RecoverInterrupted, ledger_exec. simpl.
  apply (exec_inv_interrupt (interrupt_item now) interrupt_attempt _ _ (serialization_leases db)); try done.
  apply exec_inv_quiet; try done. intros a Ha [Hl Hin%bool_decide_eq_true]%andb_true_iff.
  apply list_elem_of_fmap in Hin as (r & E & [Hr Hs%bool_decide_eq_true]%rows_where_spec). split; intros Sa.
  - pose proof (running_item Hx a r Ha Hr Sa). naive_solver congruence.
  - destruct (xi_recoverable _ _ _ Hx a r); congruence.
Qed.

Lemma ResolveRelease_exec id g dg run now db : ledger_exec db -> ledger_exec (ResolveRelease id g dg run now db).1.
Proof.
  intros Hx. apply (transact_preserves ledger_exec); [done|]. intros out db' H. open_guards H.
  apply bind_ok in H as (prior & _ & H). open_guards H. simplify_eq.
  eapply exec_inv_core; [|exact Hx]. by apply update_where_core.
Qed.

Lemma RecordPR_exec id repo n now db :
  ledger_exec db -> ledger_exec (RecordAuthoritativePRCorrelation id repo n now db).1.
Proof.
  intros Hx. apply (transact_preserves ledger_exec); [done|]. intros out db' H. open_guards H.
  apply bind_ok in H as (prior & _ & H). open_guards H. simplify_eq.
  eapply exec_inv_core; [|exact Hx]. by apply update_where_core.
Qed.

(** ** Histories *)

(** One call of a store operation, with any arguments and any outcome. *)
Inductive ledger_step : Ledger -> Ledger -> Prop :=
  | step_save d ex now id db : ledger_step db (saveRoute d ex now id db).1
  | step_retire id now db : ledger_step db (RetireRoute id now db).1
  | step_ingress e c n now db : ledger_step db (RecordIngressFailure e c n now db).1
  | step_content dg x r now db : ledger_step db (RecordContentResult dg x r now db).1
  | step_admit sid e op b now w v db : newID_format "work" w = true -> ledger_step db (admit_event sid e op b now w v db).1
  | step_claim now id db : ledger_step db (Claim now id db).1
  | step_complete id result now db : ledger_step db (Complete id result now db).1
  | step_wake id now db : ledger_step db (WakeWaiting id now db).1
  | step_recover now db : ledger_step db (RecoverInterrupted now db).1
  | step_resolve id g dg run now db : ledger_step db (ResolveRelease id g dg run now db).1
  | step_pr id repo n now db : ledger_step db (RecordAuthoritativePRCorrelation id repo n now db).1.

Definition reachable db : Prop := rtc ledger_step empty_ledger db.

#[export] Hint Resolve saveRoute_same RetireRoute_same RecordIngressFailure_same RecordContentResult_same : ledger.
#[export] Hint Resolve admit_exec Claim_exec Complete_exec WakeWaiting_exec RecoverInterrupted_exec
  ResolveRelease_exec RecordPR_exec : ledger.

Lemma ledger_step_exec db db' : ledger_step db db' -> ledger_exec db -> ledger_exec db'.
Proof. destruct 1; eauto 3 using ledger_exec_same with ledger. Qed.

Lemma empty_ledger_exec : ledger_exec empty_ledger.
Proof. constructor; simpl; try (by apply list.NoDup_nil); by set_solver. Qed.

Lemma reachable_exec db : reachable db -> ledger_exec db.
Proof.
  intros H. unfold reachable in H. pose proof empty_ledger_exec as H0. revert H0.
  induction H; eauto using ledger_step_exec.
Qed.
