(* ===== verification/LedgerHistory.v ===== *)
(** * How work items evolve

    A row invariant of work items and a transition relation that every store
    operation respects: identity columns never change, states move along the
    edges of the work-item state machine, versions grow, broker resolutions are
    monotone and a pull-request correlation is written once. *)

From stdpp Require Import relations.
From S2P Require Import Prelude GoText GoSha256 GoJson LedgerModel LedgerModelFacts LedgerStore LedgerInv LedgerOps.
Open Scope string_scope.
Open Scope Z_scope.
Open Scope go_scope.

Implicit Types db : Ledger.

(** ** Row invariant *)

Record row_ok (r : item_row) : Prop := {
  ro_terminal : is_Some (it_terminal_at r) <-> open_state (it_state r) = false;
  ro_superseded : is_Some (it_superseded_by_id r) <-> it_state r = StateSuperseded;
  ro_due : is_Some (it_next_attempt_at r) <-> it_state r = StateAdmitted \/ it_state r = StateWaiting;
  ro_version : 1 <= it_state_version r;
  ro_generation : 0 <= it_resolved_release_generation r;
  ro_unresolved : it_resolved_release_generation r = 0 ->
    it_resolved_release_digest r = "" /\ it_broker_run_id r = "" }.

(** ** Transitions *)

(** The edges of the work-item state machine. *)
Inductive state_edge : WorkState -> WorkState -> Prop :=
  | edge_claim s : s = StateAdmitted \/ s = StateWaiting -> state_edge s StateActive
  | edge_done s : s = StateCompleted \/ s = StateFailed \/ s = StateDeadLetter -> state_edge StateActive s
  | edge_wait : state_edge StateActive StateWaiting
  | edge_deadline : state_edge StateWaiting StateFailed
  | edge_supersede s : open_state s = true -> state_edge s StateSuperseded.

(** The columns written at admission only. *)
Definition item_identity (r : item_row) :=
  (it_id r, it_route_snapshot_id r, it_route_id r, it_semantic_object_key r, it_source r,
   it_namespace r, it_object_kind r, it_object_id r, it_source_revision r, it_serialization_key r,
   it_task_evidence_digest r, it_agent_type r, it_agent_mode r, it_type_contract_revision r, it_created_at r).

Record item_evolves (r r' : item_row) : Prop := {
  ie_identity : item_identity r' = item_identity r;
  ie_state : it_state r' = it_state r \/ (state_edge (it_state r) (it_state r') /\
                                          it_state_version r < it_state_version r');
  ie_version : it_state_version r <= it_state_version r';
  ie_generation : it_resolved_release_generation r <= it_resolved_release_generation r';
  ie_resolution : it_resolved_release_generation r' = it_resolved_release_generation r ->
    it_resolved_release_digest r' = it_resolved_release_digest r /\
    (it_broker_run_id r <> "" -> it_broker_run_id r' = it_broker_run_id r);
  ie_pr : it_authoritative_pr_repository r <> "" ->
    it_authoritative_pr_repository r' = it_authoritative_pr_repository r /\
    it_authoritative_pr_number r' = it_authoritative_pr_number r }.

(** An update is good on a row when it keeps the invariant and is a transition. *)
Definition good (r r' : item_row) : Prop := row_ok r -> row_ok r' /\ item_evolves r r'.

Lemma item_evolves_refl r : item_evolves r r.
Proof. constructor; auto; lia. Qed.

Lemma good_refl r : good r r.
Proof. intros H. split; [done|apply item_evolves_refl]. Qed.

(** Updates that touch neither resolution nor pull request. *)
Lemma good_state r r' :
  item_identity r' = item_identity r ->
  it_resolved_release_generation r' = it_resolved_release_generation r ->
  it_resolved_release_digest r' = it_resolved_release_digest r ->
  it_broker_run_id r' = it_broker_run_id r ->
  it_authoritative_pr_repository r' = it_authoritative_pr_repository r ->
  it_authoritative_pr_number r' = it_authoritative_pr_number r ->
  it_state_version r < it_state_version r' ->
  state_edge (it_state r) (it_state r') \/ it_state r' = it_state r ->
  (row_ok r -> (is_Some (it_terminal_at r') <-> open_state (it_state r') = false) /\
     (is_Some (it_superseded_by_id r') <-> it_state r' = StateSuperseded) /\
     (is_Some (it_next_attempt_at r') <-> it_state r' = StateAdmitted \/ it_state r' = StateWaiting)) ->
  good r r'.
Proof.
  intros Eid Eg Ed Eb Ep En Hv Hs Hok Hr. destruct (Hok Hr) as (? & ? & ?). destruct Hr as [_ _ _ Hv1 Hg Hu]. split.
  - constructor; try done; [lia|congruence|]. rewrite Eg, Ed, Eb. done.
  - constructor; try done; try lia; try congruence; auto. destruct Hs; auto.
Qed.

(** A table of items after an operation: its rows in place, then new ones. *)
Definition row_new (r : item_row) : Prop :=
  row_ok r /\ it_state r = StateAdmitted /\ it_state_version r = 1 /\
  it_resolved_release_generation r = 0 /\ it_authoritative_pr_repository r = "".

Definition items_evolve (I I' : list item_row) : Prop :=
  exists I0 news, I' = (I0 ++ news)%list /\ Forall2 good I I0 /\ Forall row_new news.

Lemma Forall2_good_refl I : Forall2 good I I.
Proof. apply Reflexive_instance_0. intros r. apply good_refl. Qed.

Lemma Forall2_good_map (g : item_row -> item_row) I :
  (forall r, r ∈ I -> good r (g r)) -> Forall2 good I (map g I).
Proof.
  intros H. apply Forall2_fmap_r, Forall_Forall2_diag, list.Forall_forall. auto.
Qed.

Lemma Forall2_good_update p f I :
  (forall r, r ∈ I -> p r = true -> good r (f r)) -> Forall2 good I (update_where p f I).
Proof. intros H. apply Forall2_good_map. intros r Hr. destruct (p r) eqn:E; [auto|apply good_refl]. Qed.

Lemma items_evolve_in_place I I' : Forall2 good I I' -> items_evolve I I'.
Proof. intros H. exists I', []. rewrite app_nil_r. auto using list.Forall_nil_2. Qed.

Lemma items_evolve_refl I : items_evolve I I.
Proof. apply items_evolve_in_place, Forall2_good_refl. Qed.

(** ** The updates of the store *)

Ltac solve_good := apply good_state; simpl; try done; try lia.

Lemma good_supersede id now r : open_state (it_state r) = true -> good r (supersede_item id now r).
Proof.
  intros Ho. solve_good; [left; by apply edge_supersede|]. intros _.
  split_and!; split; try done; naive_solver.
Qed.

Lemma good_expire now r : wait_expired now r = true -> good r (expire_item now r).
Proof.
  intros Ho. unfold wait_expired in Ho. split_bools. solve_good; [left; rewrite H; constructor|].
  intros Hr. rewrite (ro_superseded _ Hr), H. split_and!; split; try done; naive_solver.
Qed.

Lemma good_activate now r :
  it_state r = StateAdmitted \/ it_state r = StateWaiting -> good r (activate now r).
Proof.
  intros Ho. solve_good; [left; by constructor|]. intros Hr. rewrite (ro_terminal _ Hr), (ro_superseded _ Hr).
  destruct Ho as [Ho|Ho]; rewrite Ho; split_and!; split; try done; naive_solver.
Qed.

Lemma good_interrupt now r : it_state r = StateActive -> good r (interrupt_item now r).
Proof.
  intros Ho. solve_good; [left; rewrite Ho; apply edge_wait|].
  intros Hr. rewrite (ro_terminal _ Hr), (ro_superseded _ Hr), Ho. split_and!; split; try done; naive_solver.
Qed.

(** What an outcome makes of the item. *)
Lemma decide_outcome_shape d n result now c :
  decide_outcome d n result now = Ok c ->
  (cp_state c = StateWaiting /\ cp_terminal c = None /\ is_Some (cp_next c)) \/
  ((cp_state c = StateCompleted \/ cp_state c = StateFailed \/ cp_state c = StateDeadLetter) /\
   is_Some (cp_terminal c) /\ cp_next c = None).
Proof. unfold decide_outcome. intros H. cbv zeta in H. run_ok H; simpl; eauto 10. Qed.

Lemma good_finish d n c result now r :
  decide_outcome d n result now = Ok c -> it_state r = StateActive -> good r (finish_item c result now r).
Proof.
  intros Hc Ho. apply decide_outcome_shape in Hc. solve_good.
  - left. rewrite Ho. destruct Hc as [(-> & _)|(Hs & _)]; [apply edge_wait|by apply edge_done].
  - intros Hr. rewrite (ro_superseded _ Hr), Ho. destruct Hc as [(-> & -> & Hn)|(Hs & Ht & ->)].
    + split_and!; split; try done; naive_solver.
    + destruct Hs as [->|[-> | ->]]; split_and!; split; try done; naive_solver.
Qed.

Lemma good_wake id now r :
  ((it_id r == id) && (it_state r == StateWaiting) && (it_next_attempt_at r == None)) = true ->
  good r (r <| it_next_attempt_at := Some (millis now) |> <| it_updated_at := millis now |>
            <| it_state_version ::= Z.succ |>).
Proof.
  intros Hp. split_bools. intros Hr. exfalso.
  destruct (proj2 (ro_due _ Hr)) as [t Ht]; [by right|]. congruence.
Qed.

(** ** Operations *)

Lemma insert_item_tables r db db' :
  insert_item r db = Ok db' -> work_items db' = (work_items db ++ [r])%list.
Proof. unfold insert_item. intros H. open_guards H. by simplify_eq. Qed.

Lemma new_item_row_new id s d e b now : row_new (new_item_row id s d e b now).
Proof.
  split; [|done]. constructor; simpl; try lia; try done; split; try done; try naive_solver.
Qed.

Lemma supersede_items route key id now I r :
  it_id r = id -> Forall2 good I (update_where (superseded_by route key id) (supersede_item id now) I) /\
  update_where (superseded_by route key id) (supersede_item id now) [r] = [r].
Proof.
  intros E. split.
  - apply Forall2_good_update. intros x _ Hp. unfold superseded_by in Hp. split_bools. by apply good_supersede.
  - apply update_where_id. intros x ->%list_elem_of_singleton. unfold superseded_by.
    rewrite E, (bool_decide_true (id = id)) by done. simpl. by rewrite andb_false_r.
Qed.

Lemma same_items_evolve db db' : same_exec db db' -> items_evolve (work_items db) (work_items db').
Proof. intros (-> & _). apply items_evolve_refl. Qed.

Lemma admit_evolves sid e op b now w v db :
  items_evolve (work_items db) (work_items (admit_event sid e op b now w v db).1).
Proof.
  apply (transact_preserves (fun d => items_evolve (work_items db) (work_items d))); [apply items_evolve_refl|].
  intros out db' H. open_guards H. apply bind_ok in H as ([snapshot definition] & _ & H). open_guards H.
  destruct (first_where _ _).
  - open_guards H. apply bind_ok in H as (item & _ & H). simplify_eq. apply items_evolve_refl.
  - apply bind_ok in H as ([item d1] & H1 & H). apply bind_ok in H as (d2 & H2 & H).
    apply bind_ok in H as (d3 & (E3 & _)%insert_event_same & H). simplify_eq. rewrite E3.
    assert (work_items d2 = work_items d1) as ->.
    { destruct op; [by apply record_operation_same in H2 as (? & _)|by simplify_eq]. }
    destruct (find_revision _ _ _ _); [simplify_eq; apply items_evolve_refl|].
    apply bind_ok in H1 as (d0 & E0%insert_item_tables & H1). simplify_eq.
    set (r := new_item_row _ _ _ _ _ _) in *.
    assert (Forall row_new [r]) by (apply Forall_singleton, new_item_row_new).
    destruct (Supersede _); simpl; rewrite E0.
    + rewrite update_where_app. destruct (supersede_items (rd_ID definition) (SemanticObjectKey e) w now
        (work_items db) r) as [? ->]; [done|]. by eexists _, _.
    + eexists _, _. auto using Forall2_good_refl.
Qed.

(** Expiry then activation of one claimed row, seen from the original table. *)
Lemma expire_then_activate p now I :
  (forall r, r ∈ update_where (wait_expired now) (expire_item now) I -> p r = true ->
     it_state r = StateAdmitted \/ it_state r = StateWaiting) ->
  Forall2 good I (update_where p (activate now) (update_where (wait_expired now) (expire_item now) I)).
Proof.
  intros Hp. unfold update_where at 1. unfold update_where at 1. rewrite map_map.
  apply Forall2_good_map. intros r Hr.
  assert (Hin : (if wait_expired now r then expire_item now r else r)
                  ∈ update_where (wait_expired now) (expire_item now) I) by (apply update_where_spec; eauto).
  specialize (Hp _ Hin). destruct (wait_expired now r) eqn:Ew.
  - destruct (p (expire_item now r)); [by destruct Hp|by apply good_expire].
  - destruct (p r); [by apply good_activate, Hp|apply good_refl].
Qed.

Lemma Claim_evolves now id db : items_evolve (work_items db) (work_items (Claim now id db).1).
Proof.
  apply (transact_preserves (fun d => items_evolve (work_items db) (work_items d))); [apply items_evolve_refl|].
  intros out db' H. cbv zeta in H. apply items_evolve_in_place.
  destruct (next_claim _ now) as [item|]; [|simplify_eq; by apply Forall2_good_update; auto using good_expire].
  apply bind_ok in H as ([[x a] d1] & H1 & H). simplify_eq. destruct (recoverable_attempt _ _).
  - unfold claim_recovered in H1. apply bind_ok in H1 as (d2 & (E1 & _)%insert_lease_tables & H1). simplify_eq.
    simpl in *. rewrite E1. apply expire_then_activate. intros r _ Hp. split_bools. by right.
  - unfold claim_fresh in H1. apply bind_ok in H1 as (snap & _ & H1). cbv zeta in H1.
    match type of H1 with (let '(_, _) := ?m in _) = _ => destruct m as [okey requested] end.
    apply bind_ok in H1 as (d2 & (E1 & _)%insert_attempt_tables & H1).
    apply bind_ok in H1 as (d3 & (E2 & _)%insert_lease_tables & H1). simplify_eq. simpl in *. rewrite E2, E1.
    apply expire_then_activate. intros r _ [_ Hp]%andb_true_iff. apply orb_true_iff in Hp as [Hp|Hp];
      split_bools; auto.
Qed.

Lemma Complete_evolves id result now db : items_evolve (work_items db) (work_items (Complete id result now db).1).
Proof.
  apply (transact_preserves (fun d => items_evolve (work_items db) (work_items d))); [apply items_evolve_refl|].
  intros out db' H. apply items_evolve_in_place. apply bind_ok in H as (a & _ & H). open_guards H.
  apply bind_ok in H as (item & _ & H). apply bind_ok in H as (d1 & H1 & H). simplify_eq. simpl.
  destruct (it_state item == StateSuperseded); [simplify_eq; apply Forall2_good_refl|].
  destruct (it_state item != StateActive); [done|].
  apply bind_ok in H1 as (d & _ & H1). apply bind_ok in H1 as (c & Hc & H1). simplify_eq. simpl.
  apply Forall2_good_update. intros r _ Hp. split_bools. by eapply good_finish.
Qed.

Lemma RecoverInterrupted_evolves now db :
  items_evolve (work_items db) (work_items (RecoverInterrupted now db).1).
Proof.
  apply items_evolve_in_place, Forall2_good_update. intros r _ Hp. split_bools. by apply good_interrupt.
Qed.

Lemma WakeWaiting_evolves id now db : items_evolve (work_items db) (work_items (WakeWaiting id now db).1).
Proof. apply items_evolve_in_place, Forall2_good_update. intros r _ Hp. by apply (good_wake id). Qed.

Lemma repoFormat_nonempty s : repoFormat s = true -> s <> "".
Proof. by intros H ->. Qed.

(** The guards of [ResolveRelease] and of the correlation, on the row read,
    which is the row written. *)
Lemma find_item_key id db prior r :
  NoDup (map it_id (work_items db)) -> find_item id db = Ok prior -> r ∈ work_items db ->
  (it_id r == id) = true -> r = prior.
Proof.
  unfold find_item, of_option. intros Hn Hf Hr E. destruct (first_where _ _) as [x|] eqn:Ex in Hf; [|done].
  simplify_eq. apply first_where_Some in Ex as [Hx Ex]. split_bools. eapply (key_unique it_id); eauto. congruence.
Qed.

Lemma ResolveRelease_evolves id g dg run now db :
  ledger_exec db -> items_evolve (work_items db) (work_items (ResolveRelease id g dg run now db).1).
Proof.
  intros Hx. apply (transact_preserves (fun d => items_evolve (work_items db) (work_items d)));
    [apply items_evolve_refl|].
  intros out db' H. apply items_evolve_in_place. open_guards H. apply bind_ok in H as (prior & Hprior & H).
  apply bind_unit_ok in H as [Hg H]. open_guards H. simplify_eq. simpl. apply Forall2_good_update.
  intros r Hr Hp. rewrite (find_item_key _ _ _ _ (xi_items _ _ _ Hx) Hprior Hr Hp) in *. clear r Hr Hp.
  intros Hok. destruct Hok as [? ? ? Hv Hgen Hu]. split_bools.
  destruct (it_resolved_release_generation prior =? g) eqn:Eg.
  - open_guards Hg. split_bools. split; constructor; simpl; try done; try lia.
    + by left.
    + intros _. split; [congruence|]. intros Hne. apply andb_false_iff in Hg as [Hg|Hg]; split_bools; done.
  - open_guards Hg. split_bools. split; constructor; simpl; try done; try lia. by left.
Qed.

Lemma RecordPR_evolves id repo n now db :
  ledger_exec db -> items_evolve (work_items db) (work_items (RecordAuthoritativePRCorrelation id repo n now db).1).
Proof.
  intros Hx. apply (transact_preserves (fun d => items_evolve (work_items db) (work_items d)));
    [apply items_evolve_refl|].
  intros out db' H. apply items_evolve_in_place. open_guards H. apply bind_ok in H as (prior & Hprior & H).
  open_guards H. simplify_eq. simpl. apply Forall2_good_update.
  intros r Hr Hp. rewrite (find_item_key _ _ _ _ (xi_items _ _ _ Hx) Hprior Hr Hp) in *. clear r Hr Hp.
  intros Hok. split; [destruct Hok; constructor; simpl; try done; lia|]. split_bools.
  constructor; simpl; try done; try lia; [by left|]. intros Hne.
  match goal with H : (_ && _) = false |- _ => apply andb_false_iff in H as [H|H] end; split_bools; done.
Qed.

#[export] Hint Resolve same_items_evolve admit_evolves Claim_evolves Complete_evolves WakeWaiting_evolves
  RecoverInterrupted_evolves ResolveRelease_evolves RecordPR_evolves : ledger.

Lemma ledger_step_evolves db db' :
  ledger_step db db' -> ledger_exec db -> items_evolve (work_items db) (work_items db').
Proof. destruct 1; eauto 3 with ledger. Qed.

Lemma items_evolve_ok I I' : items_evolve I I' -> Forall row_ok I -> Forall row_ok I'.
Proof.
  intros (I0 & news & -> & H2 & Hn) H. apply Forall_app. split.
  - induction H2 as [|r r' I I0 Hg _ IH]; [done|]. apply list.Forall_cons in H as [Hr H].
    apply list.Forall_cons. split; [by apply Hg|auto].
  - apply list.Forall_forall. intros r Hr. by apply (proj1 (list.Forall_forall _ _) Hn r Hr).
Qed.

Lemma reachable_rows db : reachable db -> Forall row_ok (work_items db).
Proof.
  intros H. assert (Hr : forall d, reachable d -> rtc ledger_step d db -> Forall row_ok (work_items d) ->
    Forall row_ok (work_items db)).
  { clear H. intros d Hd H. induction H as [|d1 d2 d3 Hs _ IH]; [done|]. intros Hok. apply IH.
    - eapply rtc_r; eauto.
    - eapply items_evolve_ok; [|exact Hok]. eapply ledger_step_evolves; eauto using reachable_exec. }
  apply (Hr empty_ledger); [apply rtc_refl|done|apply list.Forall_nil_2].
Qed.
