(* ===== verification/LedgerRefs.v ===== *)
(** * References and keys of the ledger

    Route snapshots are append-only but for their retirement, and at most one
    is active per route; items keep referring to an existing snapshot; attempts
    are numbered without collision and their idempotency keys are determined by
    item, snapshot digest and number, hence unique. *)

From stdpp Require Import relations.
From S2P Require Import Prelude GoText GoSha256 GoJson LedgerModel LedgerModelFacts LedgerStore LedgerInv LedgerOps LedgerHistory.
From Stdlib Require Import Ascii.
Open Scope string_scope.
Open Scope Z_scope.
Open Scope go_scope.

Implicit Types db : Ledger.

(** ** Idempotency keys *)

Lemma strip_prefix_Some p s rest : strip_prefix p s = Some rest -> s = p ++ rest.
Proof.
  revert s. induction p as [|c p IH]; intros s; simpl; [by intros [= ->]|].
  destruct s as [|d s]; [done|]. case_match eqn:Ec; [|done]. intros E. rewrite (IH s E).
  by apply Ascii.eqb_eq in Ec as ->.
Qed.

Lemma newID_no_colon id : newID_format "work" id = true -> no_colon id = true.
Proof.
  unfold newID_format. destruct (strip_prefix _ id) as [rest|] eqn:E; [|done].
  apply strip_prefix_Some in E as ->. intros [H _]%andb_true_iff. unfold no_colon. rewrite all_chars_app.
  apply andb_true_iff. split; [done|]. revert H. apply all_chars_impl. clear. by intros [[] [] [] [] [] [] [] []].
Qed.

Lemma append_cancel a b c : a ++ b = a ++ c -> b = c.
Proof. induction a as [|x a IH]; simpl; [done|]. intros [= H]. auto. Qed.

Lemma attempt_key_item i1 i2 d1 d2 n1 n2 :
  no_colon i1 = true -> no_colon i2 = true ->
  attempt_key i1 d1 n1 = attempt_key i2 d2 n2 -> i1 = i2.
Proof.
  intros H1 H2 H. unfold attempt_key in H. apply append_cancel in H.
  pose proof (cut_at_app ":"%char i1 (d1 ++ ":" ++ fmt_d n1) H1) as C1.
  pose proof (cut_at_app ":"%char i2 (d2 ++ ":" ++ fmt_d n2) H2) as C2.
  simpl in *. rewrite H, C2 in C1. by injection C1.
Qed.

Lemma attempt_key_number i d n1 n2 : attempt_key i d n1 = attempt_key i d n2 -> n1 = n2.
Proof.
  unfold attempt_key. intros H. do 5 apply append_cancel in H. by apply fmt_d_inj.
Qed.

(** ** The invariant *)

Definition attempt_ident (a : attempt_row) : string * string * Z * string :=
  (aw_id a, aw_work_item_id a, aw_attempt_number a, aw_idempotency_key a).
Definition item_ref (r : item_row) : string * string := (it_id r, it_route_snapshot_id r).
(** What retirement does not write. *)
Definition snapshot_ident (s : snapshot_row) : string * string * string * string :=
  (sn_id s, sn_route_id s, sn_digest s, sn_executor_kind s).

Record refs_inv (S : list snapshot_row) (I : list (string * string)) (A : list (string * string * Z * string))
    : Prop := {
  rf_snapshots : NoDup (map sn_id S);
  rf_active : forall s t, s ∈ S -> t ∈ S -> is_active s = true -> is_active t = true ->
    sn_route_id s = sn_route_id t -> s = t;
  rf_kind : forall s, s ∈ S -> valid_kind (sn_executor_kind s) = true;
  rf_item : forall i, i ∈ I -> no_colon i.1 = true /\ exists s, s ∈ S /\ sn_id s = i.2;
  rf_key : forall a, a ∈ A -> exists i s, i ∈ I /\ s ∈ S /\ i.1 = a.1.1.2 /\ sn_id s = i.2 /\
    a.2 = attempt_key i.1 (sn_digest s) a.1.2;
  rf_numbers : NoDup (map (fun a => (a.1.1.2, a.1.2)) A) }.

Definition ledger_refs db : Prop :=
  refs_inv (route_snapshots db) (map item_ref (work_items db)) (map attempt_ident (executor_attempts db)).

(** Operations that write none of the columns read by the invariant. *)
Definition same_refs db db' : Prop :=
  route_snapshots db' = route_snapshots db /\
  map item_ref (work_items db') = map item_ref (work_items db) /\
  map attempt_ident (executor_attempts db') = map attempt_ident (executor_attempts db).

Lemma ledger_refs_same db db' : same_refs db db' -> ledger_refs db -> ledger_refs db'.
Proof. intros (E1 & E2 & E3). unfold ledger_refs. by rewrite E1, E2, E3. Qed.

Lemma refs_snapshots_update S p t I A :
  (forall s, s ∈ S -> p s = true -> is_active s = true) ->
  refs_inv S I A -> refs_inv (update_where p (fun r => r <| sn_retired_at := Some t |>) S) I A.
Proof.
  intros Hp [H1 H2 H3 H4 H5 H6].
  assert (Hid : forall s, s ∈ S -> exists s', s' ∈ update_where p (fun r => r <| sn_retired_at := Some t |>) S /\
            sn_id s' = sn_id s /\ sn_digest s' = sn_digest s).
  { intros s Hs. eexists. split; [apply update_where_spec; eauto|]. by destruct (p s). }
  constructor; auto.
  - by apply NoDup_update_where.
  - intros s' u' (s & Hs & ->)%update_where_spec (u & Hu & ->)%update_where_spec As Au E.
    destruct (p s) eqn:Es; [done|]. destruct (p u) eqn:Eu; [done|]. auto.
  - intros s' (s & Hs & ->)%update_where_spec. destruct (p s); simpl; auto.
  - intros i Hi. destruct (H4 i Hi) as (Hc & s & Hs & E). destruct (Hid s Hs) as (s' & ? & ? & _).
    split; [done|]. exists s'. split; congruence.
  - intros a Ha. destruct (H5 a Ha) as (i & s & Hi & Hs & E1 & E2 & E3).
    destruct (Hid s Hs) as (s' & ? & ? & ?). exists i, s'. split_and!; congruence.
Qed.

Lemma refs_snapshot_insert S r I A :
  (forall x, x ∈ S -> sn_id x <> sn_id r) ->
  (forall x, x ∈ S -> is_active x = true -> sn_route_id x <> sn_route_id r) ->
  valid_kind (sn_executor_kind r) = true ->
  refs_inv S I A -> refs_inv (S ++ [r]) I A.
Proof.
  intros Hn Ha Hk [H1 H2 H3 H4 H5 H6]. constructor; auto.
  - by apply NoDup_snoc_key.
  - intros s t [Hs| ->%list_elem_of_singleton]%elem_of_app [Ht| ->%list_elem_of_singleton]%elem_of_app As At E;
      auto; exfalso; [by apply (Ha s)|by apply (Ha t)].
  - intros s [Hs| ->%list_elem_of_singleton]%elem_of_app; auto.
  - intros i Hi. destruct (H4 i Hi) as (? & s & ? & ?). split; [done|]. exists s. rewrite elem_of_app. auto.
  - intros a Ha'. destruct (H5 a Ha') as (i & s & ?). exists i, s. rewrite elem_of_app. naive_solver.
Qed.

Lemma retire_where_refs p now db db' :
  retire_where p now db = Ok db' -> (forall s, p s = true -> is_active s = true) ->
  ledger_refs db -> ledger_refs db'.
Proof.
  unfold retire_where. intros H Hp Hr. open_guards H. simplify_eq. by apply refs_snapshots_update; auto.
Qed.

Lemma insert_snapshot_refs r db db' : insert_snapshot r db = Ok db' -> ledger_refs db -> ledger_refs db'.
Proof.
  unfold insert_snapshot. intros H Hr. open_guards H. split_bools. simplify_eq.
  apply refs_snapshot_insert; [by apply exists_where_fresh| |done|done].
  intros x Hx Ax E. match goal with Hex : exists_where (fun x => _ && _) _ = false |- _ =>
    pose proof (proj1 (exists_where_false _ _) Hex x Hx) as Hk end.
  cbv beta in Hk. by rewrite Ax, bool_decide_true in Hk.
Qed.

Lemma saveRoute_refs d ex now id db : ledger_refs db -> ledger_refs (saveRoute d ex now id db).1.
Proof.
  intros Hr. apply (transact_preserves ledger_refs); [done|]. intros s db' H.
  open_guards H. apply bind_ok in H as (digest & _ & H). cbv zeta in H. case_match; [by simplify_eq|].
  apply bind_ok in H as (d1 & H1 & H). apply bind_ok in H as (d2 & H2 & H). simplify_eq.
  eapply insert_snapshot_refs; [exact H2|]. eapply retire_where_refs; [exact H1| |done].
  by intros x [_ ?]%andb_true_iff.
Qed.

Lemma RetireRoute_refs id now db : ledger_refs db -> ledger_refs (RetireRoute id now db).1.
Proof.
  intros Hr. unfold RetireRoute. case_match eqn:E; [|done..].
  eapply retire_where_refs; [exact E| |done]. by intros x [_ ?]%andb_true_iff.
Qed.

(** Updates in place keep the references. *)
Lemma item_ref_update p f I :
  (forall r, item_ref (f r) = item_ref r) -> map item_ref (update_where p f I) = map item_ref I.
Proof. apply update_where_column. Qed.

Lemma attempt_ident_update p g A :
  (forall a, attempt_ident (g a) = attempt_ident a) ->
  map attempt_ident (update_where p g A) = map attempt_ident A.
Proof. apply update_where_column. Qed.

Lemma insert_item_refs r db db' :
  insert_item r db = Ok db' -> no_colon (it_id r) = true -> ledger_refs db -> ledger_refs db'.
Proof.
  unfold insert_item. intros H Hc [H1 H2 H3 H4 H5 H6]. open_guards H. split_bools. simplify_eq.
  unfold ledger_refs. simpl. rewrite map_app. constructor; auto.
  - intros i [Hi| ->%list_elem_of_singleton]%elem_of_app; [auto|]. split; [done|]. simpl.
    match goal with Hex : exists_where _ _ = true |- _ => apply exists_where_spec in Hex as (s & Hs & E) end.
    split_bools. eauto.
  - intros a Ha. destruct (H5 a Ha) as (i & s & ?). exists i, s. rewrite elem_of_app. naive_solver.
Qed.

Lemma supersede_refs route key id now db : same_refs db (supersede route key id now db).
Proof. split_and!; [done|by apply item_ref_update|by apply attempt_ident_update]. Qed.

Lemma insert_event_refs r db db' : insert_event r db = Ok db' -> same_refs db db'.
Proof. unfold insert_event. intros H. open_guards H. by simplify_eq. Qed.

Lemma record_operation_refs id op db db' : record_operation id op db = Ok db' -> same_refs db db'.
Proof. unfold record_operation. intros H. run_ok H; done. Qed.

Lemma admit_refs sid e op b now w v db :
  newID_format "work" w = true -> ledger_refs db -> ledger_refs (admit_event sid e op b now w v db).1.
Proof.
  intros Hw Hr. apply (transact_preserves ledger_refs); [done|]. intros res db' H.
  open_guards H. apply bind_ok in H as ([snapshot definition] & _ & H). open_guards H.
  case_match.
  - open_guards H. apply bind_ok in H as (item & _ & H). by simplify_eq.
  - apply bind_ok in H as ([item d1] & H1 & H). apply bind_ok in H as (d2 & H2 & H).
    apply bind_ok in H as (d3 & H3 & H). simplify_eq.
    assert (ledger_refs d1) as Hd1.
    { destruct (find_revision _ _ _ _); [by simplify_eq|]. apply bind_ok in H1 as (d0 & Hins & H1). simplify_eq.
      apply insert_item_refs in Hins; [|by apply newID_no_colon|done].
      destruct (Supersede _); [|done]. eapply ledger_refs_same; [apply supersede_refs|done]. }
    apply insert_event_refs in H3. eapply ledger_refs_same; [exact H3|].
    destruct op; [|by simplify_eq]. apply record_operation_refs in H2. by eapply ledger_refs_same.
Qed.

(** ** Claims *)

Lemma find_snapshot_spec id db s : find_snapshot id db = Ok s -> s ∈ route_snapshots db /\ sn_id s = id.
Proof.
  unfold find_snapshot, of_option. destruct (first_where _ _) eqn:E; [|done]. intros [= <-].
  apply first_where_Some in E as [? ?]. by split_bools.
Qed.

Lemma insert_attempt_refs a item s db db' :
  insert_attempt a db = Ok db' -> item ∈ work_items db -> s ∈ route_snapshots db ->
  sn_id s = it_route_snapshot_id item -> aw_work_item_id a = it_id item ->
  aw_idempotency_key a = attempt_key (it_id item) (sn_digest s) (aw_attempt_number a) ->
  ledger_refs db -> ledger_refs db'.
Proof.
  unfold insert_attempt. intros H Hi Hs Es Ei Ek [H1 H2 H3 H4 H5 H6]. open_guards H. split_bools. simplify_eq.
  unfold ledger_refs. simpl. rewrite map_app. constructor; auto.
  - intros b [Hb| ->%list_elem_of_singleton]%elem_of_app; [auto|]. exists (item_ref item), s.
    split_and!; try done. apply list_elem_of_fmap. eauto.
  - simpl. apply NoDup_snoc_key; [done|]. intros x (b & -> & Hb)%list_elem_of_fmap [= E1 E2].
    match goal with Hex : exists_where _ (executor_attempts db) = false |- _ =>
      pose proof (proj1 (exists_where_false _ _) Hex b Hb) as Hk end.
    cbv beta in Hk. rewrite E1, E2, Z.eqb_refl, (bool_decide_true (aw_work_item_id a = _)) in Hk by done.
    by rewrite orb_true_r in Hk.
Qed.

Lemma Claim_refs now id db : ledger_refs db -> ledger_refs (Claim now id db).1.
Proof.
  intros Hr. apply (transact_preserves ledger_refs); [done|]. intros out db' H. cbv zeta in H.
  assert (He : ledger_refs (expire_waiting now db)).
  { eapply ledger_refs_same; [|exact Hr]. split_and!; [done|by apply item_ref_update|done]. }
  revert H He. generalize (expire_waiting now db) as d. intros d H He.
  destruct (next_claim d now) as [item|] eqn:En; [|by simplify_eq].
  apply next_claim_spec in En as (Hin & _). apply bind_ok in H as ([[w a] d1] & H1 & H). simplify_eq.
  destruct (recoverable_attempt _ _).
  - unfold claim_recovered in H1. apply bind_ok in H1 as (d2 & E & H1). unfold insert_lease in E. open_guards E.
    simplify_eq. eapply ledger_refs_same; [|exact He].
    split_and!; [done|by apply item_ref_update|by apply attempt_ident_update].
  - unfold claim_fresh in H1. apply bind_ok in H1 as (snap & [Hs Es]%find_snapshot_spec & H1). cbv zeta in H1.
    match type of H1 with (let '(_, _) := ?m in _) = _ => destruct m as [okey requested] end.
    apply bind_ok in H1 as (d2 & H2 & H1).
    eapply insert_attempt_refs in H2; [|done..]. apply bind_ok in H1 as (d3 & E & H1).
    unfold insert_lease in E. open_guards E. simplify_eq. eapply ledger_refs_same; [|exact H2].
    split_and!; [done|by apply item_ref_update|done].
Qed.

(** ** The other operations *)

Lemma same_refs_refl db : same_refs db db.
Proof. done. Qed.

Ltac solve_same_refs := split_and!; [done|by apply item_ref_update|done].

Lemma Complete_refs id result now db : same_refs db (Complete id result now db).1.
Proof.
  apply (transact_preserves (same_refs db)); [done|]. intros out db' H.
  apply bind_ok in H as (a & _ & H). open_guards H. apply bind_ok in H as (item & _ & H).
  apply bind_ok in H as (d1 & H1 & H). simplify_eq.
  destruct (it_state item == StateSuperseded).
  { simplify_eq. split_and!; [done|done|by apply attempt_ident_update]. }
  destruct (it_state item != StateActive); [done|].
  apply bind_ok in H1 as (d & _ & H1). apply bind_ok in H1 as (c & Hc & H1). simplify_eq.
  split_and!; [done|by apply item_ref_update|by apply attempt_ident_update].
Qed.

Lemma RecoverInterrupted_refs now db : same_refs db (RecoverInterrupted now db).1.
Proof.
  split_and!; [done|by apply item_ref_update|]. simpl.
  rewrite attempt_ident_update by done. by apply attempt_ident_update.
Qed.

Lemma ResolveRelease_refs id g dg run now db : same_refs db (ResolveRelease id g dg run now db).1.
Proof.
  apply (transact_preserves (same_refs db)); [done|]. intros out db' H. open_guards H.
  apply bind_ok in H as (prior & _ & H). open_guards H. simplify_eq. solve_same_refs.
Qed.

Lemma RecordPR_refs id repo n now db : same_refs db (RecordAuthoritativePRCorrelation id repo n now db).1.
Proof.
  apply (transact_preserves (same_refs db)); [done|]. intros out db' H. open_guards H.
  apply bind_ok in H as (prior & _ & H). open_guards H. simplify_eq. solve_same_refs.
Qed.

Lemma WakeWaiting_refs id now db : same_refs db (WakeWaiting id now db).1.
Proof. solve_same_refs. Qed.

Lemma RecordIngressFailure_refs e c n now db : same_refs db (RecordIngressFailure e c n now db).1.
Proof. unfold RecordIngressFailure. repeat case_match; done. Qed.

Lemma RecordContentResult_refs d x r now db : same_refs db (RecordContentResult d x r now db).1.
Proof.
  apply (transact_preserves (same_refs db)); [done|]. intros s db' H.
  apply bind_ok in H as (c & _ & H). open_guards H. simplify_eq. by case_match.
Qed.

#[export] Hint Resolve saveRoute_refs RetireRoute_refs admit_refs Claim_refs Complete_refs RecoverInterrupted_refs
  ResolveRelease_refs RecordPR_refs WakeWaiting_refs RecordIngressFailure_refs RecordContentResult_refs : ledger.

Lemma ledger_step_refs db db' : ledger_step db db' -> ledger_refs db -> ledger_refs db'.
Proof. destruct 1; eauto 3 using ledger_refs_same with ledger. Qed.

Lemma reachable_refs db : reachable db -> ledger_refs db.
Proof.
  intros H. unfold reachable in H. assert (H0 : ledger_refs empty_ledger).
  { constructor; simpl; try (by apply list.NoDup_nil); by set_solver. }
  revert H0. induction H; eauto using ledger_step_refs.
Qed.

(** Two attempts never share an idempotency key. *)
Lemma keys_unique db a b :
  ledger_refs db -> ledger_exec db -> a ∈ executor_attempts db -> b ∈ executor_attempts db ->
  aw_idempotency_key a = aw_idempotency_key b -> aw_work_item_id a = aw_work_item_id b /\
  aw_attempt_number a = aw_attempt_number b.
Proof.
  intros [H1 _ _ H4 H5 _] Hx Ha Hb E.
  destruct (H5 (attempt_ident a)) as (i & s & Hi & Hs & Ei & Es & Ek); [apply list_elem_of_fmap; eauto|].
  destruct (H5 (attempt_ident b)) as (j & t & Hj & Ht & Ej & Et & Ekj); [apply list_elem_of_fmap; eauto|].
  simpl in *. rewrite E, Ekj in Ek. pose proof Ek as Eij.
  apply attempt_key_item in Eij; [|by apply H4..]. split; [congruence|].
  apply list_elem_of_fmap in Hi as (ri & -> & Hri), Hj as (rj & -> & Hrj). simpl in *.
  assert (ri = rj) as -> by (eapply (key_unique it_id); eauto using xi_items).
  assert (s = t) as -> by (eapply (key_unique sn_id); eauto; congruence).
  by apply attempt_key_number in Ek.
Qed.
