(* ===== verification/LedgerAdmission.v ===== *)
(** * Admission

    What a successful admission did, replay of a delivery, rejection of a
    conflicting replay, and supersession of older work. *)

From stdpp Require Import relations.
From S2P Require Import Prelude GoText GoSha256 GoJson LedgerModel LedgerModelFacts LedgerStore LedgerInv LedgerOps LedgerHistory LedgerRefs.
Open Scope string_scope.
Open Scope Z_scope.
Open Scope go_scope.

Implicit Types db : Ledger.

(** The guards every admission passes. *)
Record admissible (sid : string) (e : Event) (b : AgentBinding) (now : Z) db
    (s : RouteSnapshot) (d : RouteDefinition) : Prop := {
  ad_select : RejectAdmissionSelection b = Ok tt;
  ad_binding : AgentBinding_Validate (AdmissionBinding b) = Ok tt;
  ad_snapshot : loadSnapshot sid db = Ok (s, d);
  ad_active : rs_RetiredAt s = None;
  ad_match : Matches (rd_Admission d) e = true;
  ad_identity : event_identity_missing e = false;
  ad_fresh : event_expired e now = false }.

(** The work item an unseen delivery is attached to. *)
Definition place_item (s : RouteSnapshot) (d : RouteDefinition) (e : Event) (b : AgentBinding) (now : Z)
    (work_id : string) db : res (WorkItem * Ledger) :=
  match find_revision (rs_ID s) (SemanticObjectKey e) (SourceRevision e) db with
  | Some r => Ok (workItemScan r, db)
  | None =>
      let r := new_item_row work_id s d e (AdmissionBinding b) now in
      db ← insert_item r db;
      Ok (new_item r now, if Supersede (rd_Concurrency d)
                          then supersede (rd_ID d) (SemanticObjectKey e) work_id now db else db)
  end.

Definition store_operation (op : option ReleaseOperation) (id : string) db : res Ledger :=
  match op with Some o => record_operation id o db | None => Ok db end.

Definition replay_matches (op : option ReleaseOperation) (id : string) db : Prop :=
  match op with Some o => loadReleaseOperation id db = Ok o | None => True end.

Inductive admitted (sid : string) (e : Event) (op : option ReleaseOperation) (b : AgentBinding) (now : Z)
    (w v : string) db : Ledger -> AdmissionResult -> Prop :=
  | admitted_replay s d dup item :
      admissible sid e b now db s d -> first_where (same_delivery e) (work_events db) = Some dup ->
      ev_event_digest dup = Event_Digest e -> replay_matches op (ev_work_item_id dup) db ->
      loadWorkItem (ev_work_item_id dup) db = Ok item ->
      admitted sid e op b now w v db db (mkAdmissionResult item (ev_id dup) true)
  | admitted_new s d item db1 db2 db3 :
      admissible sid e b now db s d -> first_where (same_delivery e) (work_events db) = None ->
      place_item s d e b now w db = Ok (item, db1) -> store_operation op (wi_ID item) db1 = Ok db2 ->
      insert_event (mkEventRow v (wi_ID item) (Event_Digest e) e (millis now)) db2 = Ok db3 ->
      admitted sid e op b now w v db db3 (mkAdmissionResult item v false).

(** [admit_event] succeeds exactly in these two ways. *)
Lemma admit_ok sid e op b now w v db db' out :
  admit_event sid e op b now w v db = (db', Ok out) <-> admitted sid e op b now w v db db' out.
Proof.
  unfold admit_event. rewrite transact_ok. split.
  - intros H. open_guards H. apply bind_ok in H as ([s d] & Hs & H). open_guards H. split_bools.
    assert (Ha : admissible sid e b now db s d) by (constructor; auto).
    destruct (first_where _ _) as [dup|] eqn:Ef.
    + open_guards H. split_bools. apply bind_ok in H as (item & Hi & H). simplify_eq.
      eapply admitted_replay; eauto. destruct op as [o|]; [|done]. simpl.
      destruct (loadReleaseOperation _ _); [|done..]. open_guards G4. split_bools. congruence.
    + apply bind_ok in H as ([item d1] & Hpl & H). apply bind_ok in H as (d2 & Hop & H).
      apply bind_ok in H as (d3 & Hev & H). simplify_eq. eapply admitted_new; eauto.
  - intros H. destruct H as [s d dup item [H1 H2 H3 H4 H5 H6 H7] Hf Hd Hop Hi|
      s d item db1 db2 db3 [H1 H2 H3 H4 H5 H6 H7] Hf Hp Hop Hv];
      rewrite H1; simpl; rewrite H2; simpl; rewrite H3; simpl; rewrite H4, H5, H6, H7; simpl;
      rewrite Hf; simpl.
    + rewrite Hd, bool_decide_true by done. simpl. rewrite Hi. destruct op as [o|]; simpl in *; [|done].
      rewrite Hop. simpl. by rewrite bool_decide_true.
    + unfold place_item in Hp. unfold store_operation in Hop.
      destruct (find_revision _ _ _ _); simpl in *; [simplify_eq|].
      * destruct op; simpl in *; [rewrite Hop; simpl|simplify_eq]; by rewrite Hv.
      * apply bind_ok in Hp as (d0 & Hins & Hp). rewrite Hins. simpl. simplify_eq. simpl.
        destruct op; simpl in *; [rewrite Hop; simpl|simplify_eq]; by rewrite Hv.
Qed.

(** ** Replay *)

Lemma first_where_snoc {R} (p : R -> bool) t r :
  first_where p t = None -> p r = true -> first_where p (t ++ [r]) = Some r.
Proof.
  induction t as [|x t IH]; simpl; intros Hn Hr; [by rewrite Hr|]. destruct (p x); [done|auto].
Qed.

Lemma same_delivery_self v id dg e t : same_delivery e (mkEventRow v id dg e t) = true.
Proof. unfold same_delivery. simpl. by rewrite !bool_decide_true. Qed.

Lemma place_item_frame s d e b now w db item db' :
  place_item s d e b now w db = Ok (item, db') ->
  route_snapshots db' = route_snapshots db /\ work_events db' = work_events db /\
  release_operations db' = release_operations db.
Proof.
  unfold place_item. intros H. destruct (find_revision _ _ _ _); [by simplify_eq|]. cbv zeta in H.
  apply bind_ok in H as (d0 & H0 & H). unfold insert_item in H0. open_guards H0. simplify_eq.
  by destruct (Supersede _).
Qed.

Lemma store_operation_spec op id db db' :
  store_operation op id db = Ok db' ->
  route_snapshots db' = route_snapshots db /\ work_events db' = work_events db /\ replay_matches op id db'.
Proof.
  destruct op as [o|]; simpl; [|by intros [= <-]]. unfold record_operation. cbv zeta.
  destruct (loadReleaseOperation id _) as [st| |] eqn:E; [|done..]. case_bool_decide as Hs; [|done].
  intros [= <-]. subst st. split_and!; [by destruct (exists_where _ _)..|exact E].
Qed.

Lemma insert_event_spec r db db' :
  insert_event r db = Ok db' ->
  route_snapshots db' = route_snapshots db /\ release_operations db' = release_operations db /\
  work_events db' = (work_events db ++ [r])%list /\
  exists item, loadWorkItem (ev_work_item_id r) db' = Ok item /\ wi_ID item = ev_work_item_id r.
Proof.
  unfold insert_event. intros H. open_guards H. split_bools. simplify_eq. split_and!; try done.
  match goal with Hex : exists_where _ (work_items _) = true |- _ =>
    rewrite <- first_where_is_Some in Hex; destruct Hex as [x Hf] end.
  unfold loadWorkItem, find_item. simpl. rewrite Hf. simpl. eexists. split; [done|].
  apply first_where_Some in Hf as [_ ?]. by split_bools.
Qed.

Lemma loadSnapshot_frame id db db' :
  route_snapshots db' = route_snapshots db -> loadSnapshot id db' = loadSnapshot id db.
Proof. unfold loadSnapshot, find_snapshot. by intros ->. Qed.

Lemma loadWorkItem_id id db item : loadWorkItem id db = Ok item -> wi_ID item = id.
Proof.
  unfold loadWorkItem, find_item, of_option. destruct (first_where _ _) eqn:E; simpl; [|done]. intros [= <-].
  apply first_where_Some in E as [_ ?]. by split_bools.
Qed.

(** The same event delivered again: what identifies and admits it is unchanged. *)
Record redelivers (e e' : Event) : Prop := {
  rd_delivery : forall r, same_delivery e' r = same_delivery e r;
  rd_digest : Event_Digest e' = Event_Digest e;
  rd_matches : forall p, Matches p e' = Matches p e;
  rd_identity : event_identity_missing e' = event_identity_missing e }.

Lemma redelivers_refl e : redelivers e e.
Proof. by constructor. Qed.

Lemma admissible_later sid e e' b now now' db db' s d :
  admissible sid e b now db s d -> redelivers e e' -> route_snapshots db' = route_snapshots db ->
  event_expired e' now' = false -> admissible sid e' b now' db' s d.
Proof.
  intros [H1 H2 H3 H4 H5 H6 H7] [R1 R2 R3 R4] E Hx. constructor; auto; [|congruence..].
  by rewrite (loadSnapshot_frame _ _ _ E).
Qed.

Lemma first_where_ext {R} (p q : R -> bool) t : (forall r, p r = q r) -> first_where p t = first_where q t.
Proof. intros E. induction t as [|r t IH]; simpl; [done|]. by rewrite E, IH. Qed.

(** A redelivery reports what was recorded. *)
Lemma redelivery_replays sid e e' op b now w v db db' out now' w' v' :
  admit_event sid e op b now w v db = (db', Ok out) -> redelivers e e' -> event_expired e' now' = false ->
  exists item, wi_ID item = wi_ID (ar_WorkItem out) /\
    admit_event sid e' op b now' w' v' db' = (db', Ok (mkAdmissionResult item (ar_EventID out) true)).
Proof.
  intros H%admit_ok Hr Hx. pose proof Hr as [R1 R2 R3 R4].
  destruct H as [s d dup item Ha Hf Hd Hop Hi|s d item db1 db2 db3 Ha Hf Hp Hop Hv].
  - exists item. split; [done|]. apply admit_ok. eapply admitted_replay; eauto using admissible_later; [|congruence].
    by rewrite (first_where_ext _ _ _ R1).
  - apply place_item_frame in Hp as (P1 & P2 & P3). apply store_operation_spec in Hop as (O1 & O2 & O3).
    apply insert_event_spec in Hv as (V1 & V2 & V3 & item' & Hl & Hid). exists item'. split; [done|].
    apply admit_ok.
    apply (admitted_replay _ _ _ _ _ _ _ _ s d (mkEventRow v (wi_ID item) (Event_Digest e) e (millis now)) item'); [| |done| |done].
    + eapply admissible_later; [exact Ha|done|congruence|done].
    + rewrite (first_where_ext _ _ _ R1), V3, O2, P2. by apply first_where_snoc, same_delivery_self.
    + destruct op; [|done]. unfold replay_matches, loadReleaseOperation in *. by rewrite V2.
Qed.

(** C5: admission is idempotent per delivery: once an event was admitted, the
    same call at any later time at which the event has not expired, whatever
    new identifiers are drawn, reports the recorded event and its work item as
    a duplicate and changes nothing. *)
Theorem admission_replay sid e op b now w v db db' out now' w' v' :
  admit_event sid e op b now w v db = (db', Ok out) -> event_expired e now' = false ->
  exists item, wi_ID item = wi_ID (ar_WorkItem out) /\
    admit_event sid e op b now' w' v' db' = (db', Ok (mkAdmissionResult item (ar_EventID out) true)).
Proof. intros H Hx. by apply (redelivery_replays _ _ _ _ _ _ _ _ _ _ _ _ _ _ H (redelivers_refl e)). Qed.

(** C6: a delivery id replayed with different content is refused and changes
    nothing, whatever else the call carries. *)
Theorem admission_conflict sid e op b now w v db dup :
  first_where (same_delivery e) (work_events db) = Some dup -> ev_event_digest dup <> Event_Digest e ->
  (admit_event sid e op b now w v db).1 = db /\ is_ok (admit_event sid e op b now w v db).2 = false.
Proof.
  intros Hf Hd. assert (Hno : is_ok (admit_event sid e op b now w v db).2 = false).
  { destruct (admit_event sid e op b now w v db) as [db' [out|er|]] eqn:H; [|done..].
    apply admit_ok in H. destruct H; congruence. }
  split; [|done]. by apply transact_fail.
Qed.

(** ** Supersession *)

Lemma place_item_new s d e b now w db item db' :
  place_item s d e b now w db = Ok (item, db') -> wi_ID item = w -> (forall r, r ∈ work_items db -> it_id r <> w) ->
  let r := new_item_row w s d e (AdmissionBinding b) now in
  let db0 := db <| work_items := (work_items db ++ [r])%list |> in
  db' = if Supersede (rd_Concurrency d) then supersede (rd_ID d) (SemanticObjectKey e) w now db0 else db0.
Proof.
  unfold place_item. intros H Hid Hw. destruct (find_revision _ _ _ _) as [r|] eqn:Ef.
  - simplify_eq. unfold find_revision in Ef. apply best_where_Some in Ef as (Hr & _). by destruct (Hw r Hr).
  - cbv zeta in H. apply bind_ok in H as (d0 & H0 & H). unfold insert_item in H0. open_guards H0. by simplify_eq.
Qed.

Lemma supersede_effect route key w now db r :
  r ∈ work_items db -> superseded_by route key w r = true ->
  supersede_item w now r ∈ work_items (supersede route key w now db) /\
  (forall a, a ∈ executor_attempts (supersede route key w now db) -> aw_work_item_id a = it_id r ->
     live_attempt (aw_state a) = false) /\
  (forall l, l ∈ serialization_leases (supersede route key w now db) -> ls_work_item_id l <> it_id r).
Proof.
  intros Hr Hs.
  assert (Hids : it_id r ∈ map it_id (rows_where (superseded_by route key w) (work_items db))).
  { apply list_elem_of_fmap. exists r. split; [done|]. by apply rows_where_spec. }
  split_and!.
  - apply update_where_spec. exists r. by rewrite Hs.
  - intros a' (a & Ha & ->)%update_where_spec E. destruct (_ && _) eqn:Ep; [done|].
    rewrite E, bool_decide_true, andb_true_r in Ep by done. done.
  - intros l [Hl Hp%bool_decide_eq_false]%delete_where_spec E. apply Hp. by rewrite E.
Qed.

(** When a new item is created on a superseding route, every other open
    item of the same route and object is superseded by it in the same
    transaction, keeps no live attempt and no lease. *)
Theorem supersession sid e op b now w v db db' out s d r :
  admit_event sid e op b now w v db = (db', Ok out) -> loadSnapshot sid db = Ok (s, d) ->
  Supersede (rd_Concurrency d) = true ->
  (forall x, x ∈ work_items db -> it_id x <> w) -> wi_ID (ar_WorkItem out) = w ->
  r ∈ work_items db -> it_route_id r = rd_ID d -> it_semantic_object_key r = SemanticObjectKey e ->
  open_state (it_state r) = true ->
  supersede_item w now r ∈ work_items db' /\
  (forall a, a ∈ executor_attempts db' -> aw_work_item_id a = it_id r -> live_attempt (aw_state a) = false) /\
  (forall l, l ∈ serialization_leases db' -> ls_work_item_id l <> it_id r).
Proof.
  intros H%admit_ok Hl Hsup Hw Hid Hr Er Ek Ho.
  destruct H as [s' d' dup item Ha Hf Hd Hop Hi|s' d' item db1 db2 db3 Ha Hf Hp Hop Hv].
  - exfalso. unfold loadWorkItem, find_item, of_option in Hi. destruct (first_where _ (work_items db)) eqn:Ex; [|done].
    simpl in Hi. simplify_eq. apply first_where_Some in Ex as [Hx _]. by apply (Hw i).
  - assert (s' = s /\ d' = d) as [-> ->]. { pose proof (ad_snapshot _ _ _ _ _ _ _ Ha) as Hl'. rewrite Hl in Hl'. by injection Hl' as -> ->. }
    apply place_item_new in Hp; [|done..]. cbv zeta in Hp. rewrite Hsup in Hp.
    apply insert_event_same in Hv as (V1 & V2 & V3).
    assert (same_exec db1 db2) as (O1 & O2 & O3).
    { destruct op; simpl in Hop; [by apply record_operation_same in Hop|by simplify_eq]. }
    rewrite V1, V2, V3, O1, O2, O3, Hp. apply supersede_effect.
    + apply elem_of_app. by left.
    + unfold superseded_by. rewrite Er, Ek, !bool_decide_true, (bool_decide_false (it_id r = w)) by auto. done.
Qed.

(** ** Samples *)

Definition sample_executor : ExecutorDescriptor :=
  mkExecutorDescriptor "youknowme_upload_v1" ExecutorDeterministicTool "1.0.0".
Definition t0 : Z := 1700000000 * Second.

Definition sample_active : Ledger := (saveRoute sample_route sample_executor t0 "route-0a" empty_ledger).1.
Definition sample_admitted : Ledger := (Admit "route-0a" sample_event t0 "work-01" "event-01" sample_active).1.

(** The next revision of the same object, delivered later. *)
Definition sample_event2 : Event :=
  sample_event <| SourceDeliveryID := "delivery-2" |> <| TransportSequence := 8 |> <| SourceRevision := "rev-2" |>.
Lemma admission_replay_witness :
  exists out item, (Admit "route-0a" sample_event t0 "work-01" "event-01" sample_active).2 = Ok out /\
    admit_event "route-0a" sample_event None zero_binding (t0 + Second) "work-09" "event-09" sample_admitted
    = (sample_admitted, Ok (mkAdmissionResult item (ar_EventID out) true)).
Proof.
  assert (Hok : is_ok (Admit "route-0a" sample_event t0 "work-01" "event-01" sample_active).2 = true)
    by (vm_compute; reflexivity).
  unfold sample_admitted. revert Hok. generalize sample_active as db. intros db Hok.
  destruct (Admit "route-0a" sample_event t0 "work-01" "event-01" db) as [db' [out|er|]] eqn:E; [|discriminate Hok..].
  destruct (admission_replay "route-0a" sample_event None zero_binding t0 "work-01" "event-01" db
    db' out (t0 + Second) "work-09" "event-09" E) as (item & _ & H); [vm_compute; reflexivity|].
  exists out, item. split; [reflexivity|exact H].
Defined.

Definition sample_conflict : Event := sample_event <| ActorClass := "bot" |>.

Lemma admission_conflict_witness :
  (admit_event "route-0a" sample_conflict None zero_binding t0 "work-09" "event-09" sample_admitted).1 = sample_admitted.
Proof.
  assert (Hb : match first_where (same_delivery sample_conflict) (work_events sample_admitted) with
               | Some dup => ev_event_digest dup != Event_Digest sample_conflict
               | None => false end = true) by (vm_compute; reflexivity).
  revert Hb. generalize sample_admitted as db. intros db Hb.
  destruct (first_where _ _) as [dup|] eqn:E; [|discriminate Hb].
  apply (admission_conflict "route-0a" sample_conflict None zero_binding t0 "work-09" "event-09" db dup E).
  by apply negb_true_iff, bool_decide_eq_false in Hb.
Defined.

(** The claimed first revision is superseded while its attempt runs. *)
Definition sample_claimed : Ledger := (Claim (t0 + Second) "attempt-01" sample_admitted).1.

Lemma supersession_witness :
  exists r, r ∈ work_items sample_claimed /\ it_state r = StateActive /\
    supersede_item "work-02" (t0 + 2 * Second) r ∈ work_items
      (admit_event "route-0a" sample_event2 None zero_binding (t0 + 2 * Second) "work-02" "event-02" sample_claimed).1.
Proof.
  assert (Eo : option_map (fun o => wi_ID (ar_WorkItem o)) (opt_ok (admit_event "route-0a" sample_event2 None zero_binding
    (t0 + 2 * Second) "work-02" "event-02" sample_claimed).2) = Some "work-02") by (vm_compute; reflexivity).
  assert (Es : option_map (fun o => (Supersede (rd_Concurrency o.2), rd_ID o.2))
    (opt_ok (loadSnapshot "route-0a" sample_claimed)) = Some (true, "resume-release")) by (vm_compute; reflexivity).
  assert (Er : map (fun r => (it_id r, it_route_id r, it_semantic_object_key r, it_state r)) (work_items sample_claimed)
    = [("work-01", "resume-release", SemanticObjectKey sample_event2, StateActive)]) by (vm_compute; reflexivity).
  revert Eo Es Er. generalize sample_claimed as db. intros db Eo Es Er.
  destruct (loadSnapshot "route-0a" db) as [[s d]|er|] eqn:El; [|discriminate Es..].
  destruct (admit_event _ _ _ _ _ _ _ db) as [db' [out|er|]] eqn:E; [|discriminate Eo..].
  injection Eo as Eo. injection Es as Es Ed.
  destruct (work_items db) as [|r [|]] eqn:Ew; [discriminate Er| |discriminate Er].
  injection Er as Ei Ert Ek Est. exists r. split; [left|]. split; [exact Est|].
  apply (supersession "route-0a" sample_event2 None zero_binding (t0 + 2 * Second) "work-02" "event-02"
    db db' out s d r E El Es); rewrite ?Ew; try congruence.
  - intros x ->%list_elem_of_singleton. congruence.
  - left.
  - by rewrite Est.
Defined.
