(* ===== verification/LedgerProps.v ===== *)
(** * Correctness of the ledger

    Properties of every database reachable by store operations: mutual
    exclusion, finality of terminal work, claims, completion, recovery, routes
    and content results. *)

From stdpp Require Import relations.
From S2P Require Import Prelude GoText GoSha256 GoJson LedgerModel LedgerModelFacts LedgerStore LedgerInv LedgerOps LedgerHistory LedgerRefs LedgerAdmission.
Open Scope string_scope.
Open Scope Z_scope.
Open Scope go_scope.

Implicit Types db : Ledger.

(** The sample history: activate a route, admit_event an event, claim it. *)
Lemma sample_active_reachable : reachable sample_active.
Proof. eapply rtc_r; [apply rtc_refl|]. unfold sample_active. apply step_save. Qed.

Lemma sample_admitted_reachable : reachable sample_admitted.
Proof.
  eapply rtc_r; [apply sample_active_reachable|]. unfold sample_admitted. apply step_admit. reflexivity.
Qed.

Lemma sample_claimed_reachable : reachable sample_claimed.
Proof. eapply rtc_r; [apply sample_admitted_reachable|]. unfold sample_claimed. apply step_claim. Qed.

(** ** Mutual exclusion *)

(** C1: in every reachable database at most one work item per serialization key
    is active, and each active item has exactly one running attempt, which
    holds the lease of its key. *)
Theorem mutual_exclusion db :
  reachable db ->
  (forall r s, r ∈ work_items db -> s ∈ work_items db -> it_state r = StateActive -> it_state s = StateActive ->
     it_serialization_key r = it_serialization_key s -> r = s) /\
  (forall r, r ∈ work_items db -> it_state r = StateActive -> exists a, a ∈ executor_attempts db /\
     aw_state a = AttemptRunning /\ aw_work_item_id a = it_id r /\
     (exists l, l ∈ serialization_leases db /\ ls_serialization_key l = it_serialization_key r /\
        ls_work_item_id l = it_id r /\ ls_attempt_id l = aw_id a) /\
     forall b, b ∈ executor_attempts db -> aw_state b = AttemptRunning -> aw_work_item_id b = it_id r -> b = a).
Proof.
  intros Hr%reachable_exec. split; [intros r s ? ? ? ? ?; by apply (active_unique Hr)|].
  intros r Hin Hs. destruct (xi_active _ _ _ Hr r Hin Hs) as (l & Hl & El).
  destruct (xi_lease_attempt _ _ _ Hr l Hl) as (a & Ha & E1 & E2 & Sa).
  destruct (xi_lease_item _ _ _ Hr l Hl) as (r' & Hr' & E & _ & Ek).
  assert (r' = r) as -> by (eapply (key_unique it_id); eauto using xi_items; congruence).
  exists a. split_and!; [done..|congruence| |].
  - exists l. split_and!; congruence.
  - intros b Hb Sb Eb. apply (running_unique Hr); auto. congruence.
Qed.

Lemma mutual_exclusion_witness :
  exists r a, r ∈ work_items sample_claimed /\ a ∈ executor_attempts sample_claimed /\
    it_state r = StateActive /\ aw_state a = AttemptRunning /\ aw_work_item_id a = it_id r.
Proof.
  destruct (mutual_exclusion sample_claimed sample_claimed_reachable) as [_ H].
  assert (Er : map it_state (work_items sample_claimed) = [StateActive]) by (vm_compute; reflexivity).
  revert H Er. generalize sample_claimed as db. intros db H Er.
  destruct (work_items db) as [|r [|]] eqn:Ew; [discriminate Er| |discriminate Er]. injection Er as Er.
  destruct (H r (list_elem_of_here _ _) Er) as (a & Ha & Sa & Ea & _). exists r, a.
  split_and!; [left|exact Ha|exact Er|exact Sa|exact Ea].
Defined.

(** ** Evolution of items *)

(** C2: one operation moves an item only along an edge of the work-item state
    machine, raising its version, and never rewrites what admission recorded;
    broker resolutions are monotone in their generation and a recorded pull
    request is never replaced.  Any other item afterwards is newly admitted. *)
Theorem step_refines_state_machine db db' :
  reachable db -> ledger_step db db' -> exists rows news,
    work_items db' = (rows ++ news)%list /\ Forall2 item_evolves (work_items db) rows /\
    Forall (fun r => it_state r = StateAdmitted /\ it_state_version r = 1) news.
Proof.
  intros Hr Hs. pose proof (reachable_rows db Hr) as Hok.
  destruct (ledger_step_evolves db db' Hs (reachable_exec db Hr)) as (rows & news & E & H2 & Hn).
  exists rows, news. split; [done|]. split.
  - clear -H2 Hok. induction H2 as [|r r' I I0 Hg _ IH]; [constructor|].
    apply list.Forall_cons in Hok as [Ho Hok]. constructor; [by apply Hg|auto].
  - apply list.Forall_forall. intros r Hin. by destruct (proj1 (list.Forall_forall _ _) Hn r Hin) as (_ & ? & ? & _).
Qed.

Lemma step_refines_state_machine_witness :
  exists rows news, work_items sample_claimed = (rows ++ news)%list /\
    Forall2 item_evolves (work_items sample_admitted) rows.
Proof.
  destruct (step_refines_state_machine sample_admitted sample_claimed sample_admitted_reachable
    (step_claim (t0 + Second) "attempt-01" sample_admitted)) as (rows & news & E & H & _).
  exists rows, news. split; [exact E|exact H].
Defined.

(** An item at two times of one history. *)
Record item_later (r r' : item_row) : Prop := {
  il_identity : item_identity r' = item_identity r;
  il_version : it_state_version r <= it_state_version r';
  il_terminal : open_state (it_state r) = false -> it_state r' = it_state r;
  il_generation : it_resolved_release_generation r <= it_resolved_release_generation r';
  il_pr : it_authoritative_pr_repository r <> "" ->
    it_authoritative_pr_repository r' = it_authoritative_pr_repository r /\
    it_authoritative_pr_number r' = it_authoritative_pr_number r }.

Lemma terminal_no_edge s t : open_state s = false -> ~ state_edge s t.
Proof. intros Ho He. inversion He; subst; try done; [naive_solver|congruence]. Qed.

Lemma item_later_trans r1 r2 r3 : item_later r1 r2 -> item_later r2 r3 -> item_later r1 r3.
Proof.
  intros [A1 A2 A3 A4 A5] [B1 B2 B3 B4 B5]. constructor; try congruence; try lia.
  - intros Ho. rewrite B3, A3 by (rewrite ?A3; auto). done.
  - intros Hp. destruct (A5 Hp) as [E1 E2]. destruct B5 as [F1 F2]; [by rewrite E1|]. split; congruence.
Qed.

Lemma item_evolves_later r r' : item_evolves r r' -> item_later r r'.
Proof.
  intros [A1 A2 A3 A4 _ A5]. constructor; auto. intros Ho. destruct A2 as [|[He _]]; [done|].
  by apply terminal_no_edge in He.
Qed.

Lemma step_later db db' r :
  reachable db -> ledger_step db db' -> r ∈ work_items db -> exists r', r' ∈ work_items db' /\ item_later r r'.
Proof.
  intros Hr Hs Hin. destruct (ledger_step_evolves db db' Hs (reachable_exec db Hr)) as (rows & news & E & H2 & _).
  pose proof (proj1 (list.Forall_forall _ _) (reachable_rows db Hr) r Hin) as Hok.
  destruct (proj1 (list_elem_of_lookup _ _) Hin) as [i Hi].
  destruct (Forall2_lookup_l _ _ _ _ _ H2 Hi) as (r' & Hi' & Hg). exists r'. split.
  - rewrite E. apply elem_of_app. left. by eapply list_elem_of_lookup_2.
  - by apply item_evolves_later, Hg.
Qed.

(** C7: over any continuation of a history no work item disappears or loses its
    identity, terminal work keeps its state, versions and release generations
    never decrease, and a recorded pull request stays. *)
Theorem terminal_work_is_final db db' r :
  reachable db -> rtc ledger_step db db' -> r ∈ work_items db ->
  exists r', r' ∈ work_items db' /\ item_later r r'.
Proof.
  intros Hr H. revert Hr r. induction H as [d|d1 d2 d3 Hs _ IH]; intros Hr r Hin.
  - exists r. split; [done|]. constructor; auto; lia.
  - destruct (step_later d1 d2 r Hr Hs Hin) as (r2 & H2 & L2).
    destruct (IH (rtc_r _ _ _ Hr Hs) r2 H2) as (r3 & H3 & L3). eauto using item_later_trans.
Qed.

Lemma terminal_work_is_final_witness :
  exists r r', r ∈ work_items sample_admitted /\ r' ∈ work_items sample_claimed /\ item_later r r'.
Proof.
  assert (Er : map it_id (work_items sample_admitted) = ["work-01"]) by (vm_compute; reflexivity).
  pose proof (terminal_work_is_final sample_admitted sample_claimed) as H.
  destruct (work_items sample_admitted) as [|r l] eqn:Ew; [discriminate Er|].
  destruct (H r sample_admitted_reachable (rtc_once _ _ (step_claim (t0 + Second) "attempt-01" sample_admitted)))
    as (r' & H1 & H2); [left|].
  exists r, r'. split; [left|]. split; [exact H1|exact H2].
Defined.

(** ** Claims *)

Lemma find_snapshot_ok db r : ledger_refs db -> r ∈ work_items db ->
  exists s, find_snapshot (it_route_snapshot_id r) db = Ok s /\ s ∈ route_snapshots db /\
    sn_id s = it_route_snapshot_id r.
Proof.
  intros H Hr. destruct (rf_item _ _ _ H (item_ref r)) as (_ & s & Hs & E); [apply list_elem_of_fmap; eauto|].
  simpl in E. exists s. split; [|done]. unfold find_snapshot. rewrite <- E.
  by rewrite (first_where_key sn_id _ s (rf_snapshots _ _ _ H) Hs).
Qed.

(** The lease constraints hold for an idle item with a free key and an attempt
    that is not running. *)
Lemma insert_lease_ok db item att t :
  ledger_exec db -> item ∈ work_items db -> it_state item <> StateActive ->
  (forall l, l ∈ serialization_leases db -> ls_serialization_key l <> it_serialization_key item) ->
  (forall l, l ∈ serialization_leases db -> ls_attempt_id l <> att) ->
  forall db1, work_items db1 = work_items db -> serialization_leases db1 = serialization_leases db ->
  (exists a, a ∈ executor_attempts db1 /\ aw_id a = att) ->
  is_ok (insert_lease (mkLeaseRow (it_serialization_key item) (it_id item) att t) db1) = true.
Proof.
  intros Hx Hi Hs Hk Ha db1 E1 E2 (a & Hin & Ea). unfold insert_lease. rewrite E1, E2. simpl.
  rewrite (proj2 (exists_where_false _ _)), !(proj2 (exists_where_spec _ _)); [done|..].
  - exists a. by rewrite bool_decide_true.
  - exists item. by rewrite bool_decide_true.
  - intros l Hl. rewrite !orb_false_iff, !bool_decide_eq_false. split_and!; auto. intros E.
    destruct (xi_lease_item _ _ _ Hx l Hl) as (r & Hr & Er & Sr & _). apply Hs.
    assert (r = item) as <-; [|done]. eapply (key_unique it_id); eauto using xi_items. congruence.
Qed.

Lemma leased_running db l : ledger_exec db -> l ∈ serialization_leases db ->
  exists a, a ∈ executor_attempts db /\ aw_id a = ls_attempt_id l /\ aw_state a = AttemptRunning.
Proof. intros Hx Hl. destruct (xi_lease_attempt _ _ _ Hx l Hl) as (a & ? & ? & _ & ?). eauto. Qed.

Lemma claim_recovered_ok db item b now :
  ledger_exec db -> item ∈ work_items db -> it_state item <> StateActive ->
  (forall l, l ∈ serialization_leases db -> ls_serialization_key l <> it_serialization_key item) ->
  b ∈ executor_attempts db -> aw_state b = AttemptRecoverable ->
  is_ok (claim_recovered item b now db) = true.
Proof.
  intros Hx Hi Hs Hk Hb Sb. unfold claim_recovered.
  match goal with |- context [insert_lease ?l ?d] =>
    assert (Hl : is_ok (insert_lease l d) = true); [|by destruct (insert_lease l d)] end.
  apply (insert_lease_ok db); auto.
  - intros l Hl E. destruct (leased_running db l Hx Hl) as (a & Ha & Ea & Sa).
    assert (a = b) as ->; [|congruence]. eapply (key_unique aw_id); eauto using xi_attempts. congruence.
  - exists (restart_attempt now b). split; [|done]. apply update_where_spec. exists b.
    by rewrite !bool_decide_true.
Qed.

(** The new attempt violates no constraint: its number is beyond those of the
    item and its key belongs to no other item. *)
Lemma insert_attempt_ok db item s a :
  ledger_exec db -> ledger_refs db -> item ∈ work_items db -> s ∈ route_snapshots db ->
  sn_id s = it_route_snapshot_id item -> (forall x, x ∈ executor_attempts db -> aw_id x <> aw_id a) ->
  aw_work_item_id a = it_id item ->
  aw_attempt_number a = count_where (fun x => aw_work_item_id x == it_id item) (executor_attempts db) + 1 ->
  aw_idempotency_key a = attempt_key (it_id item) (sn_digest s) (aw_attempt_number a) ->
  valid_kind (aw_executor_kind a) = true ->
  is_ok (insert_attempt a db) = true.
Proof.
  intros Hx Hrf Hi Hs Es Hid Ew En Ek Hv. unfold insert_attempt.
  assert (Hnum : forall x, x ∈ executor_attempts db -> aw_work_item_id x = it_id item ->
    aw_attempt_number x <> aw_attempt_number a).
  { intros x Hin E. pose proof (xi_numbers _ _ _ Hx x Hin) as Hn. rewrite E in Hn. lia. }
  rewrite Hv, (proj2 (exists_where_false _ _)), (proj2 (exists_where_spec _ (work_items db))).
  - simpl. rewrite (proj2 (Z.leb_gt _ _)); [done|]. rewrite En. unfold count_where. lia.
  - exists item. by rewrite bool_decide_true.
  - intros x Hin. rewrite !orb_false_iff, andb_false_iff, !bool_decide_eq_false, Z.eqb_neq. split_and!; auto.
    + intros E. destruct Hrf as [H1 _ _ H4 H5 _].
      destruct (H5 (attempt_ident x)) as (i & t & Hri & Ht & Ei & Et & Ekx); [apply list_elem_of_fmap; eauto|].
      simpl in *. rewrite E, Ek in Ekx.
      pose proof (H4 _ Hri) as [Hc _].
      pose proof (H4 (item_ref item)) as [Hci _]; [apply list_elem_of_fmap; eauto|].
      apply attempt_key_item in Ekx as Eid; [|done..]. apply list_elem_of_fmap in Hri as (ri & -> & Hri). simpl in *.
      assert (ri = item) as -> by (eapply (key_unique it_id); eauto using xi_items).
      assert (t = s) as -> by (eapply (key_unique sn_id); eauto; congruence).
      apply attempt_key_number in Ekx. apply (Hnum x Hin); [done|congruence].
    + destruct (decide (aw_work_item_id x = it_id item)) as [E|E]; [right; auto|left; congruence].
Qed.

Lemma insert_attempt_frame a db db' :
  insert_attempt a db = Ok db' -> route_snapshots db' = route_snapshots db.
Proof. unfold insert_attempt. intros H. open_guards H. by simplify_eq. Qed.

Lemma claim_fresh_ok db item now id :
  ledger_exec db -> ledger_refs db -> item ∈ work_items db -> it_state item <> StateActive ->
  (forall l, l ∈ serialization_leases db -> ls_serialization_key l <> it_serialization_key item) ->
  (forall x, x ∈ executor_attempts db -> aw_id x <> id) ->
  is_ok (claim_fresh item now id db) = true.
Proof.
  intros Hx Hrf Hi Hs Hk Hid. unfold claim_fresh.
  destruct (find_snapshot_ok db item Hrf Hi) as (s & -> & Hin & Es). simpl.
  match goal with |- context [let '(_, _) := ?m in _] => destruct m as [okey requested] end.
  match goal with |- context [insert_attempt ?a db] => set (row := a) end.
  assert (Ha : is_ok (insert_attempt row db) = true).
  { apply (insert_attempt_ok db item s); auto. apply (rf_kind _ _ _ Hrf s Hin). }
  destruct (insert_attempt row db) as [db1| |] eqn:E; [|done..]. simpl.
  apply insert_attempt_tables in E as (E1 & E2 & E3 & _).
  match goal with |- context [insert_lease ?l db1] =>
    assert (Hl : is_ok (insert_lease l db1) = true); [|by destruct (insert_lease l db1)] end.
  apply (insert_lease_ok db); auto.
  - intros l Hl E. destruct (leased_running db l Hx Hl) as (a & Ha' & Ea & Sa). apply (Hid a Ha'). congruence.
  - exists row. split; [|done]. rewrite E2. apply elem_of_app. right. by left.
Qed.

(** C8: a claim never fails: with a fresh attempt id it always commits, and it
    reports no work exactly when, after expiry of deadlines, no admitted or
    waiting item is due with a free serialization key. *)
Theorem claim_total now id db :
  reachable db -> (forall a, a ∈ executor_attempts db -> aw_id a <> id) ->
  exists out, (Claim now id db).2 = Ok out /\
    (out = None <-> forall r, r ∈ work_items (expire_waiting now db) ->
                      claimable (expire_waiting now db) now r = false).
Proof.
  intros Hr Hid. pose proof (expire_waiting_exec now db (reachable_exec db Hr)) as Hx.
  assert (Hrf : ledger_refs (expire_waiting now db)).
  { eapply ledger_refs_same; [|by apply reachable_refs]. split_and!; [done|by apply item_ref_update|done]. }
  unfold Claim, transact. cbv zeta. change (executor_attempts db) with (executor_attempts (expire_waiting now db)) in Hid.
  revert Hx Hrf Hid. generalize (expire_waiting now db) as d. intros d Hx Hrf Hid.
  destruct (next_claim d now) as [item|] eqn:En.
  2:{ exists None. split; [done|]. split; [intros _|done]. exact (proj1 (best_where_None _ _ _) En). }
  pose proof (best_where_Some _ _ _ _ En) as (Hin & Hc & _). apply next_claim_spec in En as (_ & Hs & Hk).
  assert (Hna : it_state item <> StateActive) by (destruct Hs; congruence).
  match goal with |- context [match recoverable_attempt _ _ with _ => _ end] =>
    match goal with |- context [mbind _ ?m] => assert (Hok : is_ok m = true) end end.
  { destruct (recoverable_attempt (it_id item) d) as [b|] eqn:Eb; [|by apply claim_fresh_ok].
    unfold recoverable_attempt in Eb. apply best_where_Some in Eb as (Hb & Hp & _). split_bools.
    by apply claim_recovered_ok. }
  match type of Hok with is_ok ?m = _ => destruct m as [[[x y] d1]| |] end; [|done..]. simpl.
  exists (Some (x, y)). split; [done|]. split; [done|]. intros Hno. by rewrite (Hno item Hin) in Hc.
Qed.

Lemma claim_total_witness :
  exists out, (Claim (t0 + Second) "attempt-01" sample_admitted).2 = Ok out /\ out <> None.
Proof.
  pose proof (claim_total (t0 + Second) "attempt-01" sample_admitted sample_admitted_reachable) as H.
  assert (Ha : executor_attempts sample_admitted = []) by (vm_compute; reflexivity).
  assert (Hc : exists_where (claimable (expire_waiting (t0 + Second) sample_admitted) (t0 + Second))
            (work_items (expire_waiting (t0 + Second) sample_admitted)) = true) by (vm_compute; reflexivity).
  revert H Ha Hc. generalize sample_admitted as db. intros db H Ha Hc.
  destruct H as (out & E & Hn); [rewrite Ha; intros a Hin; by apply elem_of_nil in Hin|].
  exists out. split; [exact E|]. intros Hout.
  apply exists_where_spec in Hc as (r & Hr & Hc). by rewrite (proj1 Hn Hout r Hr) in Hc.
Defined.

(** The attempt row a claim returns, running. *)
Definition claimed_row (row : attempt_row) (a : ExecutorAttempt) (id : string) : Prop :=
  aw_id row = at_ID a /\ aw_work_item_id row = id /\ aw_state row = AttemptRunning /\
  aw_idempotency_key row = at_IdempotencyKey a /\ aw_operation_idempotency_key row = at_OperationIdempotencyKey a /\
  aw_executor_id row = at_ExecutorID a /\ aw_executor_kind row = at_ExecutorKind a /\
  aw_executor_version row = at_ExecutorVersion a.

Lemma Claim_effect now id db db' w a :
  ledger_exec db -> Claim now id db = (db', Ok (Some (w, a))) ->
  exists r row, r ∈ work_items (expire_waiting now db) /\ claimable (expire_waiting now db) now r = true /\
    (forall x, x ∈ work_items (expire_waiting now db) -> claimable (expire_waiting now db) now x = true ->
       lex_ltb (claim_order x) (claim_order r) = false) /\
    w = claimed_item r now /\ activate now r ∈ work_items db' /\
    row ∈ executor_attempts db' /\ claimed_row row a (it_id r) /\
    serialization_leases db' =
      (serialization_leases db ++ [mkLeaseRow (it_serialization_key r) (it_id r) (at_ID a) (millis now)])%list.
Proof.
  intros Hx%(expire_waiting_exec now) H.
  unfold Claim in H. rewrite transact_ok in H. cbv zeta in H.
  change (serialization_leases db) with (serialization_leases (expire_waiting now db)).
  revert H Hx. generalize (expire_waiting now db) as d.
  intros d H Hx. destruct (next_claim d now) as [item|] eqn:En; [|done].
  pose proof (best_where_Some _ _ _ _ En) as (Hin & Hc & Hmin). apply next_claim_spec in En as (_ & Hs & Hk).
  apply bind_ok in H as ([[w' a'] d1] & H1 & H). simplify_eq. exists item.
  destruct (recoverable_attempt (it_id item) d) as [b|] eqn:Eb.
  - unfold recoverable_attempt in Eb; apply best_where_Some in Eb as (Hb & Hp & _); split_bools.
    unfold claim_recovered in H1; apply bind_ok in H1 as (d2 & (E1 & E2 & E3)%insert_lease_tables & H1).
    simplify_eq; simpl in *. exists (restart_attempt now b).
    assert (Hw : it_state item = StateWaiting).
    { destruct Hs as [Hs|]; [|done]. destruct (xi_recoverable _ _ _ Hx b item); congruence. }
    split_and!; try done.
    + rewrite E1. apply update_where_spec. exists item. rewrite Hw. by rewrite !bool_decide_true.
    + rewrite E2. apply update_where_spec. exists b. by rewrite !bool_decide_true.
  - unfold claim_fresh in H1; apply bind_ok in H1 as (sn & _ & H1); cbv zeta in H1.
    match type of H1 with (let '(_, _) := ?m in _) = _ => destruct m as [okey requested] end.
    apply bind_ok in H1 as (d2 & (E1 & E2 & E3 & _)%insert_attempt_tables & H1).
    apply bind_ok in H1 as (d3 & (F1 & F2 & F3)%insert_lease_tables & H1); simplify_eq; simpl in *.
    eexists. split_and!; try done.
    + rewrite F1, E1. apply update_where_spec. exists item. split; [done|].
      rewrite (bool_decide_true (it_id item = _)) by done. simpl. by destruct Hs as [-> | ->].
    + rewrite F2, E2. apply elem_of_app; right; by left.
    + done.
    + by rewrite F3, E3.
Qed.

(** C9: the item a claim returns was due with a free key and no other such item
    precedes it in the order of due time and age; it becomes active with the
    returned attempt running under the lease of its key. *)
Theorem claim_order_and_effect now id db db' w a :
  reachable db -> Claim now id db = (db', Ok (Some (w, a))) ->
  exists r, r ∈ work_items (expire_waiting now db) /\ claimable (expire_waiting now db) now r = true /\
    (forall x, x ∈ work_items (expire_waiting now db) -> claimable (expire_waiting now db) now x = true ->
       lex_ltb (claim_order x) (claim_order r) = false) /\
    w = claimed_item r now /\ activate now r ∈ work_items db' /\
    (exists row, row ∈ executor_attempts db' /\ aw_id row = at_ID a /\ aw_work_item_id row = it_id r /\
       aw_state row = AttemptRunning /\ aw_idempotency_key row = at_IdempotencyKey a) /\
    mkLeaseRow (it_serialization_key r) (it_id r) (at_ID a) (millis now) ∈ serialization_leases db'.
Proof.
  intros Hr H. apply Claim_effect in H as (r & row & H1 & H2 & H3 & H4 & H5 & H6 & (H7 & H8 & H9 & H10 & _) & E);
    [|by apply reachable_exec].
  exists r. split_and!; [done..| |].
  - by exists row.
  - rewrite E. apply elem_of_app. right. by left.
Qed.

Lemma claim_order_and_effect_witness :
  exists r, claimable (expire_waiting (t0 + Second) sample_admitted) (t0 + Second) r = true /\
    activate (t0 + Second) r ∈ work_items sample_claimed.
Proof.
  pose proof (claim_order_and_effect (t0 + Second) "attempt-01" sample_admitted) as H.
  pose proof sample_admitted_reachable as Hr. unfold sample_claimed.
  assert (Ho : match (Claim (t0 + Second) "attempt-01" sample_admitted).2 with Ok (Some _) => true | _ => false end
            = true) by (vm_compute; reflexivity).
  revert H Hr Ho. generalize sample_admitted as db. intros db H Hr Ho.
  destruct (Claim (t0 + Second) "attempt-01" db) as [db' [[[w a]|]|e|]]; try discriminate Ho.
  destruct (H db' w a Hr eq_refl) as (r & _ & Hc & _ & _ & Hact & _). exists r. split; [exact Hc|exact Hact].
Defined.

(** ** Recovery *)

Lemma recovered_attempt_row now db a :
  ledger_exec db -> a ∈ executor_attempts db -> aw_state a = AttemptRunning ->
  interrupt_attempt a ∈ executor_attempts (RecoverInterrupted now db).1.
Proof.
  intros Hx Ha Sa. destruct (xi_attempt_item _ _ _ Hx a Ha) as (r & Hr & E).
  pose proof (running_item Hx a r Ha Hr Sa E) as Sr.
  apply update_where_spec. exists a. split.
  - apply update_where_spec. exists a. split; [done|].
    destruct (_ && _) eqn:Ep; [|done]. split_bools. exfalso.
    match goal with H : _ ∈ ids_in_state _ _ |- _ =>
      apply list_elem_of_fmap in H as (r' & E' & [Hr' Hs']%rows_where_spec) end.
    split_bools. assert (r' = r) as -> by (eapply (key_unique it_id); eauto using xi_items; congruence). congruence.
  - rewrite Sa, !bool_decide_true; [done| |done]. unfold ids_in_state. rewrite <- E.
    apply in_ids_iff; [apply (xi_items _ _ _ Hx)|done|]. by rewrite Sr.
Qed.

(** After a crash the interrupted work is reclaimed as the same attempt:
    the next claim of its item hands out the attempt that was running, with its
    id, number and idempotency keys unchanged. *)
Theorem recovery_reuses_attempt t now id db db' w x a :
  reachable db -> a ∈ executor_attempts db -> aw_state a = AttemptRunning ->
  Claim now id (RecoverInterrupted t db).1 = (db', Ok (Some (w, x))) -> wi_ID w = aw_work_item_id a ->
  x = (attempt_scan (interrupt_attempt a)) <| at_State := AttemptRunning |>.
Proof.
  intros Hr Ha Sa H Ew. pose proof (reachable_exec db Hr) as Hx.
  pose proof (recovered_attempt_row t db a Hx Ha Sa) as Hin.
  pose proof (expire_waiting_exec now _ (RecoverInterrupted_exec t db Hx)) as He.
  unfold Claim in H. rewrite transact_ok in H. cbv zeta in H.
  change (executor_attempts (RecoverInterrupted t db).1)
    with (executor_attempts (expire_waiting now (RecoverInterrupted t db).1)) in Hin.
  revert H Hin He. generalize (expire_waiting now (RecoverInterrupted t db).1) as d. intros d H Hin He.
  destruct (next_claim d now) as [item|]; [|done]. apply bind_ok in H as ([[w' x'] d1] & H1 & H). simplify_eq.
  destruct (recoverable_attempt (it_id item) d) as [b|] eqn:Eb.
  - unfold recoverable_attempt in Eb. apply best_where_Some in Eb as (Hb & Hp & _). split_bools.
    unfold claim_recovered in H1. apply bind_ok in H1 as (d2 & _ & H1). simplify_eq. simpl in Ew.
    assert (b = interrupt_attempt a) as ->; [|done].
    apply (xi_recoverable_unique _ _ _ He); auto. simpl. congruence.
  - exfalso. unfold claim_fresh in H1. apply bind_ok in H1 as (sn & _ & H1). cbv zeta in H1.
    match type of H1 with (let '(_, _) := ?m in _) = _ => destruct m as [okey requested] end.
    apply bind_ok in H1 as (d2 & _ & H1). apply bind_ok in H1 as (d3 & _ & H1). simplify_eq. simpl in Ew.
    by apply (recoverable_attempt_None _ _ Eb (interrupt_attempt a)).
Qed.

Lemma recovery_reuses_attempt_witness :
  exists a w x db', a ∈ executor_attempts sample_claimed /\
    Claim (t0 + 9 * Second) "attempt-02" (RecoverInterrupted (t0 + 8 * Second) sample_claimed).1 = (db', Ok (Some (w, x))) /\
    at_ID x = aw_id a /\ at_IdempotencyKey x = aw_idempotency_key a.
Proof.
  pose proof (recovery_reuses_attempt (t0 + 8 * Second) (t0 + 9 * Second) "attempt-02" sample_claimed) as H.
  pose proof sample_claimed_reachable as Hr.
  assert (Ea : map (fun a => (aw_state a, aw_work_item_id a)) (executor_attempts sample_claimed)
            = [(AttemptRunning, "work-01")]) by (vm_compute; reflexivity).
  assert (Ho : match (Claim (t0 + 9 * Second) "attempt-02" (RecoverInterrupted (t0 + 8 * Second) sample_claimed).1).2
    with Ok (Some (w, _)) => wi_ID w == "work-01" | _ => false end = true) by (vm_compute; reflexivity).
  revert H Hr Ea Ho. generalize sample_claimed as db. intros db H Hr Ea Ho.
  destruct (executor_attempts db) as [|a [|]] eqn:Ew; [discriminate Ea| |discriminate Ea].
  injection Ea as Sa Ei. destruct (Claim _ _ _) as [db' [[[w x]|]|e|]]; try discriminate Ho.
  apply bool_decide_eq_true in Ho. exists a, w, x, db'.
  rewrite (H db' w x a Hr (list_elem_of_here _ _) Sa eq_refl) by (rewrite Ho, Ei; reflexivity).
  split; [left|]. split; [reflexivity|]. split; reflexivity.
Defined.
