(* ===== verification/LedgerOutcomes.v ===== *)
(** * Outcomes, routes and durable results of the ledger

    Completion on every branch, the bounded retry schedule, external wake-ups,
    uniqueness of idempotency keys, activation of routes and content results. *)

From stdpp Require Import relations.
From S2P Require Import Prelude GoText GoSha256 GoJson LedgerModel LedgerModelFacts LedgerStore LedgerInv LedgerOps LedgerHistory LedgerRefs LedgerAdmission LedgerProps.
Open Scope string_scope.
Open Scope Z_scope.
Open Scope go_scope.

Implicit Types db : Ledger.

(** ** Completion *)

Lemma find_item_ok db r : NoDup (map it_id (work_items db)) -> r ∈ work_items db -> find_item (it_id r) db = Ok r.
Proof. intros Hn Hr. unfold find_item. by rewrite (first_where_key it_id _ r Hn Hr). Qed.

(** Completing a running attempt is the decision of the outcome and its two
    updates; nothing else can go wrong. *)
Lemma Complete_running db a r d result now :
  ledger_exec db -> a ∈ executor_attempts db -> aw_state a = AttemptRunning ->
  r ∈ work_items db -> it_id r = aw_work_item_id a -> loadDefinition (it_route_snapshot_id r) db = Ok d ->
  Complete (aw_id a) result now db =
  match decide_outcome d (aw_attempt_number a) result now with
  | Ok c =>
      (db <| executor_attempts ::= update_where (fun x => aw_id x == aw_id a) (finish_attempt c result now) |>
          <| work_items ::= update_where (fun r => (it_id r == aw_work_item_id a) && (it_state r == StateActive))
               (finish_item c result now) |>
          <| serialization_leases ::= delete_where (fun l => ls_attempt_id l == aw_id a) |>, Ok tt)
  | Err e => (db, Err e)
  | Panic => (db, Panic)
  end.
Proof.
  intros Hx Ha Sa Hr E Hd. unfold Complete, transact.
  rewrite (first_where_key aw_id _ a (xi_attempts _ _ _ Hx) Ha). simpl. rewrite Sa. simpl.
  rewrite <- E, (find_item_ok db r (xi_items _ _ _ Hx) Hr). simpl.
  rewrite (running_item Hx a r Ha Hr Sa E). simpl. rewrite Hd. simpl.
  by destruct (decide_outcome _ _ _ _).
Qed.

Lemma finished_row db a r c result now :
  ledger_exec db -> a ∈ executor_attempts db -> aw_state a = AttemptRunning ->
  r ∈ work_items db -> it_id r = aw_work_item_id a ->
  finish_item c result now r ∈
    update_where (fun r => (it_id r == aw_work_item_id a) && (it_state r == StateActive))
      (finish_item c result now) (work_items db).
Proof.
  intros Hx Ha Sa Hr E. apply update_where_spec. exists r. split; [done|].
  by rewrite E, (running_item Hx a r Ha Hr Sa E), !bool_decide_true.
Qed.

(** A retryable failure follows the route's bounded schedule: an attempt
    below the limit leaves the item waiting for the configured delay of that
    attempt, which exists and is positive and at most a day; the last attempt
    dead-letters it.  In both cases the lease is released. *)
Theorem retry_schedule db a r d result now :
  reachable db -> a ∈ executor_attempts db -> aw_state a = AttemptRunning ->
  r ∈ work_items db -> it_id r = aw_work_item_id a -> loadDefinition (it_route_snapshot_id r) db = Ok d ->
  er_Outcome result = OutcomeRetryableFailure ->
  exists db' r', Complete (aw_id a) result now db = (db', Ok tt) /\ r' ∈ work_items db' /\ it_id r' = it_id r /\
    (forall l, l ∈ serialization_leases db' -> ls_attempt_id l <> aw_id a) /\
    if MaxAttempts (rd_Retry d) <=? aw_attempt_number a
    then it_state r' = StateDeadLetter /\ it_terminal_at r' = Some (millis now) /\ it_next_attempt_at r' = None
    else exists delay, elems (Backoff (rd_Retry d)) !! Z.to_nat (aw_attempt_number a - 1) = Some delay /\
           0 < delay <= 24 * Hour /\ it_state r' = StateWaiting /\
           it_next_attempt_at r' = Some (millis (now + delay)).
Proof.
  intros Hre Ha Sa Hr E Hd Ho. pose proof (reachable_exec db Hre) as Hx.
  rewrite (Complete_running db a r d result now) by done.
  assert (Hv : valid_route d).
  { unfold loadDefinition in Hd. apply bind_ok in Hd as (sn & _ & Hd). by eapply DecodeRouteDefinition_valid. }
  pose proof (xi_numbers _ _ _ Hx a Ha) as Hn. unfold decide_outcome. rewrite Ho. simpl.
  assert (Hlease : forall l, l ∈ delete_where (fun l => ls_attempt_id l == aw_id a) (serialization_leases db) ->
    ls_attempt_id l <> aw_id a) by (intros l [_ Hl]%delete_where_spec; by split_bools).
  destruct (MaxAttempts (rd_Retry d) <=? aw_attempt_number a) eqn:Em.
  - eexists _, _. split; [done|]. split; [by apply (finished_row db a r)|]. done.
  - split_bools. rewrite (proj2 (Z.ltb_ge _ _)) by lia.
    destruct (valid_backoff_lookup d (aw_attempt_number a) Hv) as (delay & El & Hdl); [lia|]. rewrite El.
    eexists _, _. split; [done|]. split; [by apply (finished_row db a r)|]. eauto 10.
Qed.

Definition retryable_result : ExecutorResult :=
  mkExecutorResult OutcomeRetryableFailure "" "" "timeout" "" None None.

Lemma retry_schedule_witness :
  exists a db' r', a ∈ executor_attempts sample_claimed /\
    Complete (aw_id a) retryable_result (t0 + 3 * Second) sample_claimed = (db', Ok tt) /\
    r' ∈ work_items db' /\ it_state r' = StateWaiting.
Proof.
  pose proof (retry_schedule sample_claimed) as H. pose proof sample_claimed_reachable as Hre.
  assert (Ea : map (fun a => (aw_state a, aw_work_item_id a, aw_attempt_number a)) (executor_attempts sample_claimed)
            = [(AttemptRunning, "work-01", 1)]) by (vm_compute; reflexivity).
  assert (Er : map (fun r => (it_id r, it_route_snapshot_id r)) (work_items sample_claimed)
            = [("work-01", "route-0a")]) by (vm_compute; reflexivity).
  assert (Ed : option_map (fun d => MaxAttempts (rd_Retry d)) (opt_ok (loadDefinition "route-0a" sample_claimed))
            = Some 3) by (vm_compute; reflexivity).
  revert H Hre Ea Er Ed. generalize sample_claimed as db. intros db H Hre Ea Er Ed.
  destruct (executor_attempts db) as [|a [|]] eqn:Ew; [discriminate Ea| |discriminate Ea].
  destruct (work_items db) as [|r [|]] eqn:Ewi; [discriminate Er| |discriminate Er].
  destruct (loadDefinition "route-0a" db) as [d|e|] eqn:El; [|discriminate Ed..].
  injection Ea as Sa Ei En. injection Er as Eid Esn. injection Ed as Ed.
  destruct (H a r d retryable_result (t0 + 3 * Second) Hre (list_elem_of_here _ _) Sa (list_elem_of_here _ _))
    as (db' & r' & Hc & Hin & _ & _ & Hs).
  - rewrite Ei, Eid. reflexivity.
  - rewrite Esn. exact El.
  - reflexivity.
  - rewrite Ed, En in Hs. simpl in Hs. destruct Hs as (delay & _ & _ & Hs & _). exists a, db', r'.
    split; [left|]. split; [exact Hc|]. split; [exact Hin|exact Hs].
Defined.

(** Completing any attempt with any result never panics: the delay of a
    scheduled retry is always within the validated backoff list. *)
Theorem complete_never_panics id result now db :
  reachable db -> (Complete id result now db).2 <> Panic.
Proof.
  intros Hre. pose proof (reachable_exec db Hre) as Hx. unfold Complete, transact.
  destruct (first_where _ _) as [a|] eqn:Ef; [|done]. simpl. apply first_where_Some in Ef as [Ha _].
  destruct (aw_state a != AttemptRunning); [done|]. simpl.
  destruct (find_item _ _) as [item| |] eqn:Ei; simpl; [|done|].
  2:{ unfold find_item, of_option in Ei. by case_match. }
  destruct (it_state item == StateSuperseded); [done|]. destruct (it_state item != StateActive); [done|].
  destruct (loadDefinition _ _) as [d|e|] eqn:Ed; simpl; [|done|].
  - assert (Hv : valid_route d).
    { unfold loadDefinition in Ed. apply bind_ok in Ed as (sn & _ & Ed). by eapply DecodeRouteDefinition_valid. }
    pose proof (xi_numbers _ _ _ Hx a Ha) as Hn.
    destruct (decide_outcome d (aw_attempt_number a) result now) as [c|e|] eqn:Ec; simpl; [done..|exfalso].
    unfold decide_outcome in Ec. cbv zeta in Ec. repeat case_bool_decide; try done; [|by case_match].
    destruct (MaxAttempts (rd_Retry d) <=? aw_attempt_number a) eqn:Em; [done|]. split_bools.
    rewrite (proj2 (Z.ltb_ge _ _)) in Ec by lia.
    destruct (valid_backoff_lookup d (aw_attempt_number a) Hv) as (delay & El & _); [lia|]. by rewrite El in Ec.
  - exfalso. unfold loadDefinition, find_snapshot, of_option in Ed.
    destruct (first_where _ _); simpl in Ed; [|done]. by eapply DecodeRouteDefinition_no_panic.
Qed.

Lemma complete_never_panics_witness :
  (Complete "attempt-01" retryable_result (t0 + 3 * Second) sample_claimed).2 <> Panic.
Proof. apply (complete_never_panics "attempt-01" _ _ sample_claimed sample_claimed_reachable). Defined.

(** ** External wake-ups *)

(** No operation leaves an item waiting without a next attempt, so a wake-up
    is refused in every reachable database and never changes one. *)
Theorem wake_always_refused id now db :
  reachable db -> WakeWaiting id now db = (db, Err "work item is not waiting for an external wakeup").
Proof.
  intros Hre. pose proof (reachable_rows db Hre) as Hok. unfold WakeWaiting. cbv zeta.
  set (p := fun r => _ && _ && _).
  assert (Hp : forall r, r ∈ work_items db -> p r = false).
  { intros r Hr. unfold p. apply not_true_is_false. intros Hp. split_bools.
    pose proof (proj1 (list.Forall_forall _ _) Hok r Hr) as Hrow.
    destruct (proj2 (ro_due _ Hrow)) as [t Ht]; [by right|congruence]. }
  rewrite (proj2 (count_where_zero p _) Hp). simpl. f_equal. rewrite update_where_id by done. by destruct db.
Qed.

Lemma wake_always_refused_witness : is_err (WakeWaiting "work-01" t0 sample_claimed).2 = true.
Proof.
  rewrite (wake_always_refused "work-01" t0 sample_claimed sample_claimed_reachable). reflexivity.
Defined.

(** ** Idempotency keys *)

(** An idempotency key identifies its attempt: no two attempts of a reachable
    database share one, whatever their items. *)
Theorem idempotency_keys_unique db a b :
  reachable db -> a ∈ executor_attempts db -> b ∈ executor_attempts db ->
  aw_idempotency_key a = aw_idempotency_key b -> a = b.
Proof.
  intros Hre Ha Hb E. pose proof (reachable_refs db Hre) as Hrf.
  destruct (keys_unique db a b Hrf (reachable_exec db Hre) Ha Hb E) as [Ew En].
  pose proof (rf_numbers _ _ _ Hrf) as Hn. rewrite map_map in Hn.
  eapply key_unique; [exact Hn|done|done|]. simpl. congruence.
Qed.

Lemma idempotency_keys_unique_witness :
  exists a, a ∈ executor_attempts sample_claimed /\
    forall b, b ∈ executor_attempts sample_claimed -> aw_idempotency_key a = aw_idempotency_key b -> a = b.
Proof.
  pose proof (fun a b => idempotency_keys_unique sample_claimed a b sample_claimed_reachable) as H.
  assert (Ea : map aw_id (executor_attempts sample_claimed) = ["attempt-01"]) by (vm_compute; reflexivity).
  revert H Ea. generalize sample_claimed as db. intros db H Ea.
  destruct (executor_attempts db) as [|a l]; [discriminate Ea|]. exists a. split; [left|].
  intros b Hb. apply H; [left|exact Hb].
Defined.

(** ** Routes *)

(** The active snapshot found for a digest. *)
Definition active_with (route digest : string) (r : snapshot_row) : bool :=
  (sn_route_id r == route) && (sn_digest r == digest) && is_active r.

Lemma saveRoute_ok d ex now id db db' s :
  saveRoute d ex now id db = (db', Ok s) ->
  exists digest, RouteDefinition_Validate d = Ok tt /\ rd_ExecutorID d = ed_ID ex /\
    ExecutorDescriptor_Validate ex = Ok tt /\ activationDigest d ex = Ok digest /\
    rs_Digest s = digest /\ exists r, first_where (active_with (rd_ID d) digest) (route_snapshots db') = Some r /\
      sn_id r = rs_ID s.
Proof.
  unfold saveRoute. rewrite transact_ok. intros H. open_guards H. split_bools.
  apply bind_ok in H as (digest & Hd & H). cbv zeta in H. exists digest. split_and!; [done..| |].
  all: change (fun r => (sn_route_id r == rd_ID d) && (sn_digest r == digest) && is_active r)
    with (active_with (rd_ID d) digest) in H; destruct (first_where _ (route_snapshots db)) as [x|] eqn:Ef.
  - simplify_eq. apply first_where_Some in Ef as [_ Hx]. unfold active_with in Hx. by split_bools.
  - apply bind_ok in H as (d1 & _ & H). apply bind_ok in H as (d2 & _ & H). by simplify_eq.
  - simplify_eq. eauto.
  - apply bind_ok in H as (d1 & H1 & H). apply bind_ok in H as (d2 & H2 & H). simplify_eq.
    unfold retire_where in H1. open_guards H1. simplify_eq. unfold insert_snapshot in H2. open_guards H2. simplify_eq.
    eexists. split; [simpl; apply first_where_snoc|done].
    + apply first_where_None. intros r (x & Hx & ->)%update_where_spec.
      pose proof (proj1 (first_where_None _ _) Ef x Hx) as Hn. unfold active_with in *.
      destruct ((sn_route_id x == rd_ID d) && is_active x) eqn:Ep; [|done]. unfold is_active. simpl. by rewrite andb_false_r.
    + unfold active_with. simpl. by rewrite !bool_decide_true.
Qed.

(** The same activation again finds the snapshot it made. *)
Lemma saveRoute_again d ex now id db db' s now' id' :
  saveRoute d ex now id db = (db', Ok s) ->
  exists s', saveRoute d ex now' id' db' = (db', Ok s') /\ rs_ID s' = rs_ID s /\ rs_Digest s' = rs_Digest s.
Proof.
  intros H. apply saveRoute_ok in H as (digest & Hv & He & Hx & Hd & Es & r & Hf & Er).
  eexists. split; [unfold saveRoute; apply transact_ok|].
  - rewrite Hv. simpl. rewrite He, bool_decide_true by done. simpl. rewrite Hx. simpl. rewrite Hd. simpl.
    unfold active_with in Hf. rewrite Hf. done.
  - simpl. split; [done|]. apply first_where_Some in Hf as [_ Hf]. unfold active_with in Hf. split_bools. congruence.
Qed.

(** Activating a route is idempotent and exclusive: activating the same
    definition and executor again, at any time and with any new id, returns the
    snapshot already active and changes nothing; and a reachable database has at
    most one active snapshot per route. *)
Theorem route_activation d ex now id now' id' db db' s :
  reachable db -> saveRoute d ex now id db = (db', Ok s) ->
  (exists s', saveRoute d ex now' id' db' = (db', Ok s') /\ rs_ID s' = rs_ID s /\ rs_Digest s' = rs_Digest s) /\
  (forall x y, x ∈ route_snapshots db' -> y ∈ route_snapshots db' -> is_active x = true -> is_active y = true ->
     sn_route_id x = sn_route_id y -> x = y).
Proof.
  intros Hre H. split.
  - by apply (saveRoute_again _ _ _ _ _ _ _ now' id' H).
  - assert (Hrf : ledger_refs db').
    { pose proof (saveRoute_refs d ex now id db (reachable_refs db Hre)) as Hs. by rewrite H in Hs. }
    apply (rf_active _ _ _ Hrf).
Qed.

Lemma route_activation_witness :
  exists s s', (saveRoute sample_route sample_executor t0 "route-0a" empty_ledger).2 = Ok s /\
    saveRoute sample_route sample_executor (t0 + Hour) "route-0b" sample_active = (sample_active, Ok s') /\
    rs_ID s' = rs_ID s.
Proof.
  assert (Hok : is_ok (saveRoute sample_route sample_executor t0 "route-0a" empty_ledger).2 = true)
    by (vm_compute; reflexivity).
  unfold sample_active.
  destruct (saveRoute sample_route sample_executor t0 "route-0a" empty_ledger) as [db' [s|e|]] eqn:E;
    [|discriminate Hok..].
  destruct (route_activation sample_route sample_executor t0 "route-0a" (t0 + Hour) "route-0b" empty_ledger db' s
    (rtc_refl _ _) E) as [(s' & H & Hid & _) _].
  exists s, s'. split; [reflexivity|]. split; [exact H|exact Hid].
Defined.

(** ** Content results *)

Lemma RecordContentResult_grows dg x r now db :
  exists news, content_results (RecordContentResult dg x r now db).1 = (content_results db ++ news)%list.
Proof.
  apply (transact_preserves (fun d => exists news, content_results d = (content_results db ++ news)%list)).
  - exists []. by rewrite app_nil_r.
  - intros out db' H. apply bind_ok in H as (c & _ & H). open_guards H. simplify_eq.
    destruct (find_content dg db); [exists []; by rewrite app_nil_r|by eexists].
Qed.

(** Operations that leave the content table alone. *)
Definition same_content db db' : Prop := content_results db' = content_results db.

Ltac content_stmt H := unfold same_content; intros H; open_guards H; by simplify_eq.

Lemma retire_where_content p now db db' : retire_where p now db = Ok db' -> same_content db db'.
Proof. unfold retire_where. content_stmt H. Qed.
Lemma insert_snapshot_content r db db' : insert_snapshot r db = Ok db' -> same_content db db'.
Proof. unfold insert_snapshot. content_stmt H. Qed.
Lemma insert_event_content r db db' : insert_event r db = Ok db' -> same_content db db'.
Proof. unfold insert_event. content_stmt H. Qed.
Lemma insert_lease_content l db db' : insert_lease l db = Ok db' -> same_content db db'.
Proof. unfold insert_lease. content_stmt H. Qed.
Lemma insert_attempt_content a db db' : insert_attempt a db = Ok db' -> same_content db db'.
Proof. unfold insert_attempt. content_stmt H. Qed.
Lemma place_item_content s d e b now w db item db' :
  place_item s d e b now w db = Ok (item, db') -> same_content db db'.
Proof.
  unfold place_item. intros H. destruct (find_revision _ _ _ _); [by simplify_eq|]. cbv zeta in H.
  apply bind_ok in H as (d0 & H0 & H). unfold insert_item in H0. open_guards H0. simplify_eq.
  by destruct (Supersede _).
Qed.
Lemma store_operation_content op id db db' : store_operation op id db = Ok db' -> same_content db db'.
Proof.
  destruct op; simpl; [|by intros [= <-]]. unfold record_operation. intros H. run_ok H; done.
Qed.

Lemma saveRoute_content d ex now id db : same_content db (saveRoute d ex now id db).1.
Proof.
  apply (transact_preserves (same_content db)); [done|]. intros s db' H.
  open_guards H. apply bind_ok in H as (digest & _ & H). cbv zeta in H. case_match; [by simplify_eq|].
  apply bind_ok in H as (d1 & H1 & H). apply bind_ok in H as (d2 & H2 & H). simplify_eq.
  apply retire_where_content in H1. apply insert_snapshot_content in H2. unfold same_content in *. congruence.
Qed.

Lemma admit_content sid e op b now w v db : same_content db (admit_event sid e op b now w v db).1.
Proof.
  destruct (admit_event sid e op b now w v db) as [db' [out|er|]] eqn:H; simpl.
  - apply admit_ok in H. destruct H as [|s d item d1 d2 d3 _ _ Hp Ho Hv]; [done|].
    apply place_item_content in Hp. apply store_operation_content in Ho. apply insert_event_content in Hv.
    unfold same_content in *. congruence.
  - unfold admit_event in H. by apply transact_err in H as ->.
  - pose proof (f_equal fst H) as E. unfold admit_event in E, H. rewrite transact_fail in E by (by rewrite H).
    simpl in E. by subst.
Qed.

Lemma Claim_content now id db : same_content db (Claim now id db).1.
Proof.
  apply (transact_preserves (same_content db)); [done|]. intros out db' H. cbv zeta in H.
  destruct (next_claim _ now) as [item|]; [|by simplify_eq].
  apply bind_ok in H as ([[x a] d1] & H1 & H). simplify_eq. unfold same_content.
  destruct (recoverable_attempt _ _).
  - unfold claim_recovered in H1. apply bind_ok in H1 as (d2 & E%insert_lease_content & H1). by simplify_eq.
  - unfold claim_fresh in H1. apply bind_ok in H1 as (snap & _ & H1). cbv zeta in H1.
    match type of H1 with (let '(_, _) := ?m in _) = _ => destruct m as [okey requested] end.
    apply bind_ok in H1 as (d2 & E1%insert_attempt_content & H1).
    apply bind_ok in H1 as (d3 & E2%insert_lease_content & H1). simplify_eq. unfold same_content in *. simpl in *. congruence.
Qed.

Lemma Complete_content id result now db : same_content db (Complete id result now db).1.
Proof.
  apply (transact_preserves (same_content db)); [done|]. intros out db' H.
  apply bind_ok in H as (a & _ & H). open_guards H. apply bind_ok in H as (item & _ & H).
  apply bind_ok in H as (d1 & H1 & H). simplify_eq.
  destruct (it_state item == StateSuperseded); [by simplify_eq|].
  destruct (it_state item != StateActive); [done|].
  apply bind_ok in H1 as (d & _ & H1). apply bind_ok in H1 as (c & Hc & H1). by simplify_eq.
Qed.

Lemma RetireRoute_content id now db : same_content db (RetireRoute id now db).1.
Proof. unfold RetireRoute. case_match eqn:E; [by apply retire_where_content in E|done..]. Qed.

Lemma RecordIngressFailure_content e c n now db : same_content db (RecordIngressFailure e c n now db).1.
Proof. unfold RecordIngressFailure. repeat case_match; done. Qed.

Lemma ResolveRelease_content id g dg run now db : same_content db (ResolveRelease id g dg run now db).1.
Proof.
  apply (transact_preserves (same_content db)); [done|]. intros out db' H. open_guards H.
  apply bind_ok in H as (prior & _ & H). open_guards H. by simplify_eq.
Qed.

Lemma RecordPR_content id repo n now db : same_content db (RecordAuthoritativePRCorrelation id repo n now db).1.
Proof.
  apply (transact_preserves (same_content db)); [done|]. intros out db' H. open_guards H.
  apply bind_ok in H as (prior & _ & H). open_guards H. by simplify_eq.
Qed.

Definition content_grows db db' : Prop := exists news, content_results db' = (content_results db ++ news)%list.

Lemma content_grows_same db db' : same_content db db' -> content_grows db db'.
Proof. intros E. exists []. by rewrite app_nil_r. Qed.

#[local] Hint Resolve saveRoute_content RetireRoute_content RecordIngressFailure_content admit_content
  Claim_content Complete_content ResolveRelease_content RecordPR_content : ledger.

Lemma step_content_grows db db' : ledger_step db db' -> content_grows db db'.
Proof.
  destruct 1; try (apply content_grows_same; eauto with ledger; done). apply RecordContentResult_grows.
Qed.

Lemma first_where_app {R} (p : R -> bool) t1 t2 x :
  first_where p t1 = Some x -> first_where p (t1 ++ t2) = Some x.
Proof. induction t1 as [|y t1 IH]; simpl; [done|]. destruct (p y); auto. Qed.

(** A content result is durable and written once: recording one succeeds
    exactly when the digest is new or already has the same result, it is then
    what every later database of the history returns, and a conflicting report
    changes nothing. *)
Theorem content_result_durable dg x r now db :
  (ContentResult dg db = (x, r, true) \/ (ContentResult dg db).2 = false <->
     (RecordContentResult dg x r now db).2 = Ok tt) /\
  ((RecordContentResult dg x r now db).2 = Ok tt ->
     forall db', rtc ledger_step (RecordContentResult dg x r now db).1 db' -> ContentResult dg db' = (x, r, true)) /\
  ((RecordContentResult dg x r now db).2 <> Ok tt -> (RecordContentResult dg x r now db).1 = db).
Proof.
  assert (Hlater : forall db1 db2, rtc ledger_step db1 db2 -> forall c, find_content dg db1 = Some c ->
    find_content dg db2 = Some c).
  { intros db1 db2 H. induction H as [|d1 d2 d3 Hs _ IH]; [done|]. intros c Hc. apply IH.
    destruct (step_content_grows d1 d2 Hs) as [news E]. unfold find_content. rewrite E. by apply first_where_app. }
  assert (Hnew : find_content dg db = None -> find_content dg (db <| content_results :=
      (content_results db ++ [mkContentRow dg x r (millis now)])%list |>) = Some (mkContentRow dg x r (millis now))).
  { intros E. unfold find_content in *. simpl. apply first_where_snoc; [done|]. by apply bool_decide_true. }
  unfold RecordContentResult, transact, ContentResult. cbv zeta.
  destruct (find_content dg db) as [c|] eqn:E.
  - rewrite E. simpl. destruct (ct_external_correlation c == x) eqn:Ex, (ct_result_digest c == r) eqn:Er;
      simpl; split_bools; (split; [naive_solver|]); split; try done; try naive_solver.
    intros _ db' Hdb. rewrite (Hlater db db' Hdb c E). congruence.
  - rewrite Hnew by done. simpl. rewrite !bool_decide_true by done. simpl. split; [naive_solver|]. split; [|done].
    intros _ db' Hdb. by rewrite (Hlater _ db' Hdb _ (Hnew eq_refl)).
Qed.
