(* ===== verification/Envelope.v ===== *)
(** * Signal envelopes

    [internal/envelope]: the signal a gateway publishes, as a consumer decodes
    it with [json.Unmarshal].  The payload is a [json.RawMessage], so the text
    of the member is kept byte for byte; times are read from their raw text. *)

From S2P Require Import Prelude GoText GoJson LedgerModel.
From Stdlib Require Import Ascii.
Open Scope string_scope.
Open Scope Z_scope.
Open Scope go_scope.

(** ** Times *)

Definition number (s : string) : Z := default 0 (digits_value 0 s).

(** Days from the Unix epoch to a date of the proleptic Gregorian calendar. *)
Definition days_from_civil (y m d : Z) : Z :=
  let y := if m <=? 2 then y - 1 else y in
  let yoe := y mod 400 in
  let doy := (153 * (if 2 <? m then m - 3 else m + 9) + 2) / 5 + d - 1 in
  (y / 400) * 146097 + (yoe * 365 + yoe / 4 - yoe / 100 + doy) - 719468.

(** The first nine digits of the fraction are the nanoseconds. *)
Definition fraction (s : string) : Z * string :=
  match s with
  | String c r =>
      if Ascii.eqb c "." || Ascii.eqb c ","
      then let '(ds, rest) := span is_digit r in (number (take_str 9 (ds ++ "000000000")), rest)
      else (0, s)
  | EmptyString => (0, s)
  end.

(** Seconds east of UTC. *)
Definition zone_offset (s : string) : Z :=
  match s with
  | String sg (String h1 (String h2 (String _ (String m1 (String m2 _))))) =>
      let east := 3600 * dec2 h1 h2 + 60 * dec2 m1 m2 in
      if Ascii.eqb sg "-" then - east else east
  | _ => 0
  end.

(** [time.Parse(time.RFC3339, s)] as an instant. *)
Definition Parse_RFC3339 (s : string) : option Z :=
  if rfc3339_ok s then
    let days := days_from_civil (number (take_str 4 s)) (number (take_str 2 (drop_str 5 s)))
                  (number (take_str 2 (drop_str 8 s))) in
    let '(hour, r) := span is_digit (drop_str 11 s) in
    let minute := number (take_str 2 (drop_str 1 r)) in
    let second := number (take_str 2 (drop_str 4 r)) in
    let '(nanos, zone) := fraction (drop_str 6 r) in
    Some ((86400 * days + 3600 * number hour + 60 * minute + second - zone_offset zone) * Second + nanos)
  else None.

Example Parse_RFC3339_ex :
  map Parse_RFC3339 ["1970-01-01T00:00:00Z"; "2026-07-01T12:30:15.25Z"; "2024-02-29T01:00:00-02:30"; "0001-01-01T00:00:00Z"]
  = [Some 0; Some 1782909015250000000; Some 1709177400000000000; Some ZeroTime].
Proof. vm_compute. reflexivity. Qed.

(** [Time.UnmarshalJSON]: [null] is ignored, and the text between the quotes is
    parsed without unescaping. *)
Definition Time_UnmarshalJSON (raw : string) (old : Z) : option Z :=
  if raw == "null" then Some old
  else match raw with
       | String q r =>
           if Ascii.eqb q quote_mark && (drop_str (String.length r - 1) r == String quote_mark "")
           then Parse_RFC3339 (take_str (String.length r - 1) r) else None
       | EmptyString => None
       end.

(** Into a [*time.Time]. *)
Definition decode_time_pointer (raw : string) (old : option Z) : option (option Z) :=
  if raw == "null" then Some None else Some <$> Time_UnmarshalJSON raw (default ZeroTime old).

(** ** Members with their text *)

(** The members of an object that was already accepted by [parse_json]; fuel:
    every member takes at least four bytes. *)
Fixpoint raw_members_go (fuel : nat) (s : string) : list (string * string) :=
  match fuel with
  | O => []
  | S k =>
      match skip_space s with
      | String q r =>
          if Ascii.eqb q quote_mark then
            match unquote_body r with
            | Some (key, r1) =>
                let value := skip_space (drop_str 1 (skip_space r1)) in
                match parse_value (json_fuel value) 1 value with
                | Some (_, r2) =>
                    (key, take_str (String.length value - String.length r2) value)
                      :: raw_members_go k (drop_str 1 (skip_space r2))
                | None => []
                end
            | None => []
            end
          else []
      | EmptyString => []
      end
  end.

Definition raw_members (s : string) : list (string * string) :=
  raw_members_go (String.length s) (drop_str 1 (skip_space s)).

(** [decode_struct] with the text of each value; [strict] is
    [DisallowUnknownFields]. *)
Definition decode_raw {R} (strict : bool) (names : list string) (set_field : string -> string -> R -> option R)
    (raw : string) (r : R) : option R :=
  match parse_json raw with
  | Some (JObj _) =>
      fold_left (fun acc kv => r ← acc;
                   match find_field names (fst kv) with
                   | Some n => set_field n (snd kv) r
                   | None => if strict then None else Some r
                   end) (raw_members raw) (Some r)
  | Some JNull => Some r
  | _ => None
  end.
Definition decode_raw_struct {R} : list string -> (string -> string -> R -> option R) -> string -> R -> option R :=
  decode_raw false.

(** The texts of the elements of an array that was already accepted. *)
Fixpoint raw_elements_go (fuel : nat) (s : string) : list string :=
  match fuel with
  | O => []
  | S k =>
      let value := skip_space s in
      match parse_value (json_fuel value) 1 value with
      | Some (_, rest) =>
          take_str (String.length value - String.length rest) value :: raw_elements_go k (drop_str 1 (skip_space rest))
      | None => []
      end
  end.
Definition raw_elements (s : string) : list string := raw_elements_go (String.length s) (drop_str 1 (skip_space s)).

(** [decode_slice] with the text of each element. *)
Fixpoint decode_raw_elems {A} (dec : string -> A -> option A) (zero : A) (texts : list string) (old : list A)
  : option (list A) :=
  match texts with
  | [] => Some []
  | t :: texts' =>
      match dec t (default zero (head old)), decode_raw_elems dec zero texts' (tail old) with
      | Some x, Some xs => Some (x :: xs)
      | _, _ => None
      end
  end.
Definition decode_raw_slice {A} (dec : string -> A -> option A) (zero : A) (raw : string) (old : slice A)
  : option (slice A) :=
  match parse_json raw with
  | Some JNull => Some None
  | Some (JArr _) => Some <$> decode_raw_elems dec zero (raw_elements raw) (elems old)
  | _ => None
  end.

(** ** The envelope *)

#[export] Instance Authentication_eta : Eta Authentication := fun a => mkAuthentication (Method a) (Verified a).
#[export] Instance Meta_eta : Eta Meta := fun m =>
  mkMeta (m_SignalID m) (m_Source m) (m_RouteID m) (m_ReceivedAt m) (m_SourceEvent m) (m_SourceAction m)
    (m_SourceDeliveryID m) (m_Namespace m) (m_ObjectKind m) (m_ObjectID m) (m_SourceRevision m)
    (m_SourceRef m) (m_SourceBefore m) (m_SourceAfter m) (m_SourceHeadTime m) (m_SourceTimestamp m) (m_ActorClass m)
    (m_CorrelationID m) (m_CausationID m) (m_RootWorkItemID m) (m_ParentWorkItemID m) (m_OriginatingSession m)
    (m_OriginatingTurn m) (m_HopCount m) (m_ExpiresAt m) (m_Authentication m).
#[export] Instance Signal_eta : Eta Signal := fun s => mkSignal (sg_Meta s) (sg_Payload s).

Definition zero_signal : Signal :=
  mkSignal (mkMeta "" "" "" ZeroTime "" "" "" "" "" "" "" "" "" "" None None "" "" "" "" "" "" "" 0 None (mkAuthentication "" false)) "".

Definition raw_string (raw old : string) : option string := parse_json raw ≫= fun v => decode_string v old.

Definition set_authentication (n : string) (v : json) (a : Authentication) : option Authentication :=
  if n == "method" then x ← decode_string v (Method a); Some (a <| Method := x |>)
  else x ← decode_bool v (Verified a); Some (a <| Verified := x |>).

Definition meta_fields : list string :=
  ["signal_id"; "source"; "route_id"; "received_at"; "source_event"; "source_action"; "source_delivery_id";
   "namespace"; "object_kind"; "object_id"; "source_revision"; "source_ref"; "source_before_revision";
   "source_after_revision"; "source_head_timestamp"; "source_timestamp"; "actor_class"; "correlation_id";
   "causation_id"; "root_work_item_id"; "parent_work_item_id"; "originating_session_id"; "originating_turn_id";
   "hop_count"; "expires_at"; "authentication"].

Definition set_meta (n raw : string) (m : Meta) : option Meta :=
  if n == "signal_id" then x ← raw_string raw (m_SignalID m); Some (m <| m_SignalID := x |>)
  else if n == "source" then x ← raw_string raw (m_Source m); Some (m <| m_Source := x |>)
  else if n == "route_id" then x ← raw_string raw (m_RouteID m); Some (m <| m_RouteID := x |>)
  else if n == "received_at" then x ← Time_UnmarshalJSON raw (m_ReceivedAt m); Some (m <| m_ReceivedAt := x |>)
  else if n == "source_event" then x ← raw_string raw (m_SourceEvent m); Some (m <| m_SourceEvent := x |>)
  else if n == "source_action" then x ← raw_string raw (m_SourceAction m); Some (m <| m_SourceAction := x |>)
  else if n == "source_delivery_id" then x ← raw_string raw (m_SourceDeliveryID m); Some (m <| m_SourceDeliveryID := x |>)
  else if n == "namespace" then x ← raw_string raw (m_Namespace m); Some (m <| m_Namespace := x |>)
  else if n == "object_kind" then x ← raw_string raw (m_ObjectKind m); Some (m <| m_ObjectKind := x |>)
  else if n == "object_id" then x ← raw_string raw (m_ObjectID m); Some (m <| m_ObjectID := x |>)
  else if n == "source_revision" then x ← raw_string raw (m_SourceRevision m); Some (m <| m_SourceRevision := x |>)
  else if n == "source_ref" then x ← raw_string raw (m_SourceRef m); Some (m <| m_SourceRef := x |>)
  else if n == "source_before_revision" then x ← raw_string raw (m_SourceBefore m); Some (m <| m_SourceBefore := x |>)
  else if n == "source_after_revision" then x ← raw_string raw (m_SourceAfter m); Some (m <| m_SourceAfter := x |>)
  else if n == "source_head_timestamp" then
    x ← decode_time_pointer raw (m_SourceHeadTime m); Some (m <| m_SourceHeadTime := x |>)
  else if n == "source_timestamp" then
    x ← decode_time_pointer raw (m_SourceTimestamp m); Some (m <| m_SourceTimestamp := x |>)
  else if n == "actor_class" then x ← raw_string raw (m_ActorClass m); Some (m <| m_ActorClass := x |>)
  else if n == "correlation_id" then x ← raw_string raw (m_CorrelationID m); Some (m <| m_CorrelationID := x |>)
  else if n == "causation_id" then x ← raw_string raw (m_CausationID m); Some (m <| m_CausationID := x |>)
  else if n == "root_work_item_id" then x ← raw_string raw (m_RootWorkItemID m); Some (m <| m_RootWorkItemID := x |>)
  else if n == "parent_work_item_id" then x ← raw_string raw (m_ParentWorkItemID m); Some (m <| m_ParentWorkItemID := x |>)
  else if n == "originating_session_id" then x ← raw_string raw (m_OriginatingSession m); Some (m <| m_OriginatingSession := x |>)
  else if n == "originating_turn_id" then x ← raw_string raw (m_OriginatingTurn m); Some (m <| m_OriginatingTurn := x |>)
  else if n == "hop_count" then
    x ← parse_json raw ≫= fun v => decode_int v (m_HopCount m); Some (m <| m_HopCount := x |>)
  else if n == "expires_at" then x ← decode_time_pointer raw (m_ExpiresAt m); Some (m <| m_ExpiresAt := x |>)
  else
    x ← parse_json raw ≫= fun v => decode_struct ["method"; "verified"] false set_authentication v (m_Authentication m);
    Some (m <| m_Authentication := x |>).

(** [json.Unmarshal(data, &signal)]. *)
Definition Unmarshal_signal (data : string) : option Signal :=
  decode_raw_struct ["meta"; "payload"] (fun n raw s =>
    if n == "meta" then x ← decode_raw_struct meta_fields set_meta raw (sg_Meta s); Some (s <| sg_Meta := x |>)
    else Some (s <| sg_Payload := raw |>)) data zero_signal.

(** The text of a signal, with single quotes in place of double ones. *)
Fixpoint quoted (s : string) : string :=
  match s with
  | EmptyString => ""
  | String c s' => String (if Ascii.eqb c "'" then quote_mark else c) (quoted s')
  end.

Example Unmarshal_signal_ex :
  match Unmarshal_signal (quoted "{'meta':{'signal_id':'s','received_at':'1970-01-01T00:00:01Z','hop_count':2,'authentication':{'verified':true}}, 'payload': {'a': [1, 2] } }") with
  | Some s => Some (m_SignalID (sg_Meta s), m_ReceivedAt (sg_Meta s), m_HopCount (sg_Meta s),
                    Verified (m_Authentication (sg_Meta s)), sg_Payload s)
  | None => None
  end = Some ("s", Second, 2, true, quoted "{'a': [1, 2] }").
Proof. vm_compute. reflexivity. Qed.
