(* ===== verification/DispatchPolicy.v ===== *)
(** * Dispatcher policy

    The pure decisions of the repository-task dispatcher: selection of a task
    from a signal, retry delays, the broker's status vocabulary and error
    classification, bounded error text, external waits and the keys of durable
    operations ([internal/dispatcher]: predicate.go and the pure parts of
    dispatcher.go, broker.go, ci_repair.go, terminal.go, external_wait.go). *)

From S2P Require Import Prelude GoText GoSha256 GoJson LedgerModel.
From Stdlib Require Import Ascii.
Open Scope string_scope.
Open Scope Z_scope.
Open Scope go_scope.

(** ** Lifecycle states *)

Definition StatePendingLaunch : string := "pending_launch".
Definition StateLaunchRetry : string := "launch_retry".
Definition StateLaunched : string := "launched".
Definition JobCompleted : string := "completed".
Definition JobFailed : string := "failed".
Definition StateTimedOut : string := "timed_out".
Definition StateReportPending : string := "report_pending".
Definition StateReportRetry : string := "report_retry".
Definition StateReportBlocked : string := "report_blocked".
Definition StateStopped : string := "stopped".
Definition StateCancelled : string := "cancelled".
Definition StateCIWaiting : string := "ci_waiting".
Definition StateCIRepair : string := "ci_repair".
Definition StateCIEscalation : string := "ci_escalation".
Definition StateExternalWaiting : string := "external_waiting".
Definition RecoveryIncomplete : string := "incomplete".
Definition RecoveryCompleted : string := "completed".

Definition lifecycleStates : list string :=
  [StatePendingLaunch; StateLaunchRetry; StateLaunched; StateExternalWaiting; StateCIWaiting; StateCIRepair;
   StateCIEscalation; StateReportPending; StateReportRetry; StateReportBlocked; JobCompleted; JobFailed;
   StateTimedOut; StateStopped; StateCancelled].

Definition validLifecycleState (status : string) : bool := exists_where (fun s => status == s) lifecycleStates.

(** ** Errors *)

Record BrokerError := mkBrokerError {
  be_Status : Z; be_Code : string; be_Message : string; be_Transport : bool; be_Malformed : bool }.

(** A Go [error]: a [BrokerError] or any other, known by its text. *)
Inductive goerror :=
  | BrokerErr (e : BrokerError)
  | PlainErr (text : string).

Definition Error (e : goerror) : string :=
  match e with BrokerErr b => be_Message b | PlainErr t => t end.

Definition Retryable (e : BrokerError) : bool :=
  be_Transport e || (be_Status e =? 429) || (500 <=? be_Status e) || (be_Code e == "profile_busy").

Definition IsRetryable (e : goerror) : bool :=
  match e with BrokerErr b => Retryable b | PlainErr _ => false end.

Definition isStalePullHead (e : goerror) : bool :=
  match e with BrokerErr b => be_Code b == "stale_pull_head" | PlainErr _ => false end.

(** What a broker call returns. *)
Definition bres (A : Type) : Type := (A + goerror)%type.

(** [strings.ToValidUTF8(s, "\uFFFD")]: each maximal run of invalid bytes
    becomes one replacement character. *)
Fixpoint ToValidUTF8_go (bad : bool) (s : string) : string :=
  match s with
  | EmptyString => ""
  | String a s1 =>
      let invalid := fun _ : unit => (if bad then "" else replacement) ++ ToValidUTF8_go true s1 in
      if is_ascii a then String a (ToValidUTF8_go false s1)
      else match s1 with
           | EmptyString => invalid tt
           | String b s2 =>
               if utf8_2 a b then String a (String b (ToValidUTF8_go false s2))
               else match s2 with
                    | EmptyString => invalid tt
                    | String c s3 =>
                        if utf8_3 a b c then String a (String b (String c (ToValidUTF8_go false s3)))
                        else match s3 with
                             | EmptyString => invalid tt
                             | String d s4 =>
                                 if utf8_4 a b c d
                                 then String a (String b (String c (String d (ToValidUTF8_go false s4))))
                                 else invalid tt
                             end
                    end
           end
  end.
Definition ToValidUTF8 (s : string) : string := ToValidUTF8_go false s.

(** The loop that drops the last byte until the text is valid; as many rounds
    as bytes are enough, since the empty text is valid. *)
Fixpoint drop_invalid_tail (fuel : nat) (s : string) : string :=
  match fuel with
  | O => s
  | S fuel' => if ValidString s then s else drop_invalid_tail fuel' (take_str (String.length s - 1) s)
  end.

Definition safe_text (text : string) : string :=
  let text := ToValidUTF8 text in
  if 512 <? len text then drop_invalid_tail 513 (take_str 512 text) else text.

Definition safeBrokerError (e : goerror) : string := safe_text (Error e).

(** [fmt.Sprintf] of the launch diagnosis. *)
Definition safeLaunchFailureReason (e : goerror) : string :=
  match e with
  | PlainErr _ => "sandbox broker launch failed before acknowledging a run"
  | BrokerErr b =>
      if be_Transport b then "sandbox broker transport failed before acknowledging a run"
      else if negb (be_Status b =? 0) && (be_Code b != "")
      then "sandbox broker rejected the launch with HTTP " ++ fmt_d (be_Status b) ++ " (" ++ be_Code b ++ ")"
      else if negb (be_Status b =? 0)
      then "sandbox broker rejected the launch with HTTP " ++ fmt_d (be_Status b)
      else if be_Malformed b then "sandbox broker returned an invalid launch response"
      else "sandbox broker launch failed before acknowledging a run"
  end.

(** ** Retry schedules *)

Definition LaunchRetryWindow : Z := 10 * Minute.
Definition ReportRetryMaxAttempts : Z := 24.
Definition PreOutboxMaxAttempts : Z := 10.
Definition StatusPollInterval : Z := 2 * Second.
Definition ExternalRecoveryWake : Z := 15 * Minute.
Definition ReporterUnavailableDelay : Z := Minute.
Definition ciReconcileLease : Z := 2 * Minute.

(** [base << min(attempt-1, shift)], capped. *)
Definition backoff (base : Z) (shift cap attempt : Z) : Z :=
  let attempt := if attempt <? 1 then 1 else attempt in
  let delay := base * Z.shiftl 1 (Z.min (attempt - 1) shift) in
  if cap <? delay then cap else delay.

Definition LaunchRetryDelay (attempt : Z) : Z := backoff (2 * Second) 4 (20 * Second) attempt.
Definition ReportRetryDelay (attempt : Z) : Z := backoff (30 * Second) 7 Hour attempt.
Definition PreOutboxRetryDelay (attempt : Z) : Z := backoff StatusPollInterval 5 Minute attempt.

(** ** Jobs *)

Record Job := mkJob {
  jb_ID : Z; jb_SemanticKey : string; jb_RouteID : string; jb_Profile : string; jb_Repository : string;
  jb_IssueNumber : Z; jb_DeliveryID : string; jb_BrokerRunID : string; jb_Status : string; jb_Attempts : Z;
  jb_PreOutboxAttempts : Z; jb_FirstAttemptAt : Z }.
#[export] Instance Job_eta : Eta Job := fun j =>
  mkJob (jb_ID j) (jb_SemanticKey j) (jb_RouteID j) (jb_Profile j) (jb_Repository j) (jb_IssueNumber j)
    (jb_DeliveryID j) (jb_BrokerRunID j) (jb_Status j) (jb_Attempts j) (jb_PreOutboxAttempts j)
    (jb_FirstAttemptAt j).

(** [brokerSourceID]: the fields are separated by NUL bytes. *)
Definition nul : string := String Ascii.zero "".
Definition brokerSourceID (job : Job) : string :=
  "repository-task-dispatcher-v1-" ++
  sha256_hex (jb_RouteID job ++ nul ++ jb_Repository job ++ nul ++ fmt_d (jb_IssueNumber job) ++ nul ++ jb_Profile job).

Definition repairSourceID (attemptKey : string) : string := "ci-repair-v1-" ++ sha256_hex attemptKey.

(** ** Selection *)

Record RepositoryTaskRoute := mkRepositoryTaskRoute {
  tr_ID : string; tr_Repository : string; tr_Event : string; tr_Action : string; tr_Label : string;
  tr_Profile : string }.

Record Candidate := mkCandidate {
  cd_Repository : string; cd_IssueNumber : Z; cd_DeliveryID : string; cd_RouteID : string; cd_Profile : string }.

Definition SemanticKey (c : Candidate) : string :=
  "repository-task:v1:" ++ cd_RouteID c ++ ":" ++ cd_Repository c ++ ":issue:" ++ fmt_d (cd_IssueNumber c).

(** The anonymous struct of [Select]; [pull_request] is a raw message, whose
    bytes are non-empty exactly when the key is present. *)
Record issue_event := mkIssueEvent {
  ie_Action : string; ie_FullName : string; ie_Number : Z; ie_State : string; ie_PullRequest : option json;
  ie_LabelName : string; ie_Login : string }.
#[export] Instance issue_event_eta : Eta issue_event := fun e =>
  mkIssueEvent (ie_Action e) (ie_FullName e) (ie_Number e) (ie_State e) (ie_PullRequest e) (ie_LabelName e)
    (ie_Login e).

Definition decode_nested (name : string) (set : json -> issue_event -> option issue_event)
    : json -> issue_event -> option issue_event :=
  decode_struct [name] false (fun _ v e => set v e).

Definition decode_issue : json -> issue_event -> option issue_event :=
  decode_struct ["number"; "state"; "pull_request"] false (fun n v e =>
    if n == "number" then x ← decode_int v (ie_Number e); Some (e <| ie_Number := x |>)
    else if n == "state" then x ← decode_string v (ie_State e); Some (e <| ie_State := x |>)
    else Some (e <| ie_PullRequest := Some v |>)).

Definition decode_issue_event (v : json) : option issue_event :=
  decode_struct ["action"; "repository"; "issue"; "label"; "sender"] false (fun n v e =>
    if n == "action" then x ← decode_string v (ie_Action e); Some (e <| ie_Action := x |>)
    else if n == "repository" then
      decode_nested "full_name" (fun v e => x ← decode_string v (ie_FullName e); Some (e <| ie_FullName := x |>)) v e
    else if n == "issue" then decode_issue v e
    else if n == "label" then
      decode_nested "name" (fun v e => x ← decode_string v (ie_LabelName e); Some (e <| ie_LabelName := x |>)) v e
    else
      decode_nested "login" (fun v e => x ← decode_string v (ie_Login e); Some (e <| ie_Login := x |>)) v e)
    v (mkIssueEvent "" "" 0 "" None "" "").

Definition route_matches (signal : Signal) (event : issue_event) (route : RepositoryTaskRoute) : bool :=
  (ie_FullName event == tr_Repository route) && (m_SourceEvent (sg_Meta signal) == tr_Event route)
  && (ie_Action event == tr_Action route) && (ie_LabelName event == tr_Label route).

(** [Select]: the candidate when accepted, and the recorded outcome. *)
Definition Select (signal : Signal) (routes : list RepositoryTaskRoute) : option Candidate * string :=
  let meta := sg_Meta signal in
  if (m_Source meta != "github") || (m_SourceEvent meta != "issues") || (m_SourceAction meta != "labeled")
  then (None, "event_filtered")
  else if m_SourceDeliveryID meta == "" then (None, "missing_delivery_id")
  else match parse_json (sg_Payload signal) ≫= decode_issue_event with
       | None => (None, "invalid_payload")
       | Some event =>
           if (ie_Number event <=? 0) || (ie_State event != "open")
              || match ie_PullRequest event with Some _ => true | None => false end || (ie_Login event == "")
           then (None, "issue_filtered")
           else match rows_where (route_matches signal event) routes with
                | [] => (None, "route_filtered")
                | [matched] =>
                    (Some (mkCandidate (ie_FullName event) (ie_Number event) (m_SourceDeliveryID meta)
                             (tr_ID matched) (tr_Profile matched)), "accepted")
                | _ => (None, "ambiguous_route")
                end
       end.

Definition isCIWakeEvent (event : string) : bool :=
  (event == "check_run") || (event == "check_suite") || (event == "status") || (event == "pull_request").

Definition routeOwnsRepository (routes : list RepositoryTaskRoute) (repository : string) : bool :=
  exists_where (fun r => tr_Repository r == repository) routes.

(** ** Broker status *)

Definition unknown_status : goerror :=
  BrokerErr (mkBrokerError 0 "" "broker returned unknown run status" false true).

Definition one_of (s : string) (l : list string) : bool := exists_where (fun x => s == x) l.

Definition ReconciledStatus (status : string) : bres string :=
  if one_of status ["accepted"; "queued"; "pending"; "launching"; "running"; "in_progress"] then inl StateLaunched
  else if one_of status ["completed"; "succeeded"; "success"] then inl JobCompleted
  else if one_of status ["failed"; "error"] then inl JobFailed
  else if one_of status ["timed_out"; "timeout"] then inl StateTimedOut
  else if status == "stopped" then inl StateStopped
  else if one_of status ["cancelled"; "canceled"] then inl StateCancelled
  else inr unknown_status.

Definition terminalOutcomeMatchesStatus (status outcome failureStage : string) : bool :=
  if status == "completed" then
    (outcome == "no_change_required") || (outcome == "ready_for_review")
    || ((outcome == "failed") && (failureStage != ""))
  else if status == "failed" then outcome == "failed"
  else if status == "timed_out" then outcome == "timed_out"
  else if status == "stopped" then outcome == "stopped"
  else if status == "cancelled" then outcome == "cancelled"
  else false.

(** ** External waits *)

Record CIExternalWait := mkCIExternalWait {
  ew_Version : string; ew_Service : string; ew_Phase : string; ew_Operation : string; ew_Reason : string;
  ew_Generation : Z; ew_Since : Z }.
#[export] Instance CIExternalWait_eta : Eta CIExternalWait := fun w =>
  mkCIExternalWait (ew_Version w) (ew_Service w) (ew_Phase w) (ew_Operation w) (ew_Reason w) (ew_Generation w)
    (ew_Since w).

Definition CIExternalWait_Validate (wait : CIExternalWait) : res unit :=
  _ ← guard_err ((ew_Service wait != "github") || (ew_Generation wait <? 1) || (ew_Since wait =? ZeroTime))
        "external wait lacks GitHub identity, generation, or timestamp";
  _ ← guard_err ((ew_Reason wait != "unavailable") && (ew_Reason wait != "rate_limited"))
        "external wait has invalid reason";
  operations ←
    if ew_Phase wait == "preparation"
    then Ok ["issue.read"; "issue_comments.read"; "pull.read"; "ci.observe"; "actions_job_log.read"]
    else if ew_Phase wait == "delivery"
    then Ok ["pull.read"; "pull.reconcile"; "pull.create"; "git.push"]
    else Err "external wait has invalid phase";
  guard_err (negb (one_of (ew_Operation wait) operations)) "external wait has invalid operation".

Record RunStatus := mkRunStatus {
  st_Version : string; st_RunID : string; st_Status : string; st_ExternalWait : option CIExternalWait;
  st_Replay : bool }.
#[export] Instance RunStatus_eta : Eta RunStatus := fun s =>
  mkRunStatus (st_Version s) (st_RunID s) (st_Status s) (st_ExternalWait s) (st_Replay s).

Definition repositoryRunResumeKey (job : Job) (generation : Z) : string :=
  "repository-run-resume:v1:" ++ fmt_d (jb_ID job) ++ ":" ++ jb_BrokerRunID job ++ ":" ++ fmt_d generation.

Definition ciResumeKey (attemptKey : string) (generation : Z) : string :=
  "ci-repair-resume:v1:" ++ attemptKey ++ ":" ++ fmt_d generation.

Definition ciReconcileKey (jobID : Z) (headSHA : string) : string :=
  "ci-reconcile:v1:" ++ fmt_d jobID ++ ":" ++ headSHA.

Definition ciAttemptKey (jobID : Z) (agentModel head : string) (number : Z) : string :=
  "ci-repair:v1:" ++ fmt_d jobID ++ ":" ++ agentModel ++ ":" ++ head ++ ":" ++ fmt_d number.

(** ** CI repair policy *)

Record CIRepairPolicy := mkCIRepairPolicy { ReconciliationWake : Z; ActiveTimeout : Z; CIMaxAttempts : Z }.
#[export] Instance CIRepairPolicy_eta : Eta CIRepairPolicy := fun p =>
  mkCIRepairPolicy (ReconciliationWake p) (ActiveTimeout p) (CIMaxAttempts p).

Definition default_wake (policy : CIRepairPolicy) : CIRepairPolicy :=
  if ReconciliationWake policy =? 0 then policy <| ReconciliationWake := ActiveTimeout policy |> else policy.

Definition CIRepairPolicy_Validate (policy : CIRepairPolicy) : res unit :=
  let policy := default_wake policy in
  _ ← guard_err ((ReconciliationWake policy <? Minute) || (7 * 24 * Hour <? ReconciliationWake policy))
        "CI repair reconciliation wake must be between one minute and seven days";
  _ ← guard_err ((ActiveTimeout policy <? Minute) || (Hour <? ActiveTimeout policy))
        "CI repair active timeout must be between one minute and the reviewed 60-minute broker template maximum";
  guard_err ((CIMaxAttempts policy <? 1) || (2 <? CIMaxAttempts policy))
        "CI repair attempts must be between one and two".

(** [ConfigureCIRepair]: the policy the store keeps. *)
Definition ConfigureCIRepair (policy : CIRepairPolicy) : res CIRepairPolicy :=
  let policy := default_wake policy in
  _ ← CIRepairPolicy_Validate policy; Ok policy.

(** Go's integer division truncates. *)
Definition durationSeconds (value : Z) : Z := Z.quot (value + Second - 1) Second.
