(* ===== verification/Config.v ===== *)
(** * Configuration

    [internal/config]: the deployment configuration after [yaml.Unmarshal],
    the defaults and overrides of [applyEnv], and [Validate], which every
    process runs before it starts.  The environment, the URL parser and the
    duration parser are parameters; reading the file and the YAML decoder are
    not modelled. *)

From S2P Require Import Prelude GoText GoJson GoNet LedgerModel DispatchPolicy.
From Stdlib Require Import Ascii.
Open Scope string_scope.
Open Scope Z_scope.
Open Scope go_scope.

Definition DefaultGatewayAddr : string := ":8080".
Definition DefaultNATSURL : string := "nats://127.0.0.1:4222".
Definition DefaultStreamName : string := "SIGNALS".
Definition DefaultSubject : string := "signals.>".
Definition DefaultMaxBody : Z := 2 ^ 20.

(** ** The configuration tree *)

Record GatewayConfig := mkGatewayConfig {
  gc_Addr : string }.
#[export] Instance GatewayConfig_eta : Eta GatewayConfig := fun r =>
  mkGatewayConfig (gc_Addr r).

Record NATSConfig := mkNATSConfig {
  nc_URL : string; nc_Stream : string; nc_Subjects : list string }.
#[export] Instance NATSConfig_eta : Eta NATSConfig := fun r =>
  mkNATSConfig (nc_URL r) (nc_Stream r) (nc_Subjects r).

Record DispatcherConfig := mkDispatcherConfig {
  dc_Enabled : bool; dc_Addr : string; dc_Subject : string; dc_Durable : string; dc_DatabasePath : string;
  dc_BrokerURL : string; dc_BrokerTokenEnv : string; dc_ReporterBrokerURL : string;
  dc_ReporterBrokerTokenEnv : string; dc_Workers : Z; dc_RecoveryStartSequence : Z; dc_RepairDeadline : Z;
  dc_RepairReconciliationWake : Z; dc_RepairActiveTimeout : Z; dc_RepairMaxAttempts : Z;
  dc_RepositoryTaskRoutes : list RepositoryTaskRoute }.
#[export] Instance DispatcherConfig_eta : Eta DispatcherConfig := fun r =>
  mkDispatcherConfig (dc_Enabled r) (dc_Addr r) (dc_Subject r) (dc_Durable r) (dc_DatabasePath r)
    (dc_BrokerURL r) (dc_BrokerTokenEnv r) (dc_ReporterBrokerURL r) (dc_ReporterBrokerTokenEnv r)
    (dc_Workers r) (dc_RecoveryStartSequence r) (dc_RepairDeadline r) (dc_RepairReconciliationWake r)
    (dc_RepairActiveTimeout r) (dc_RepairMaxAttempts r) (dc_RepositoryTaskRoutes r).

Record WorkRouterConfig := mkWorkRouterConfig {
  wr_Enabled : bool; wr_Addr : string; wr_Subject : string; wr_Durable : string; wr_DatabasePath : string;
  wr_YKMURL : string; wr_YKMAuthMode : string; wr_GitHubPrivateKeyPath : string; wr_YKMClientIDEnv : string;
  wr_YKMClientSecretEnv : string; wr_YKMLocalSecretEnv : string }.
#[export] Instance WorkRouterConfig_eta : Eta WorkRouterConfig := fun r =>
  mkWorkRouterConfig (wr_Enabled r) (wr_Addr r) (wr_Subject r) (wr_Durable r) (wr_DatabasePath r)
    (wr_YKMURL r) (wr_YKMAuthMode r) (wr_GitHubPrivateKeyPath r) (wr_YKMClientIDEnv r)
    (wr_YKMClientSecretEnv r) (wr_YKMLocalSecretEnv r).

Record CanaryAttribution := mkCanaryAttribution {
  ca_LogicalSessionID : string; ca_SessionLineageID : string; ca_WorkerID : string;
  ca_WorkerStorageLineage : string; ca_WorkerFenceEpoch : Z }.

Record PushScannerBounds := mkPushScannerBounds {
  pb_MaxCommits : Z; pb_MaxPaths : Z; pb_MaxBlobBytes : Z; pb_MaxTotalBytes : Z; pb_MaxCandidates : Z;
  pb_MaxDecodeDepth : Z }.
#[export] Instance PushScannerBounds_eta : Eta PushScannerBounds := fun r =>
  mkPushScannerBounds (pb_MaxCommits r) (pb_MaxPaths r) (pb_MaxBlobBytes r) (pb_MaxTotalBytes r)
    (pb_MaxCandidates r) (pb_MaxDecodeDepth r).

Record PushScannerConfig := mkPushScannerConfig {
  ps_Enabled : bool; ps_Addr : string; ps_Subject : string; ps_Durable : string; ps_DatabasePath : string;
  ps_BrokerURL : string; ps_BrokerTokenEnv : string; ps_FingerprintKeyEnv : string;
  ps_HolderTokenEnv : string; ps_EventSubject : string; ps_Repositories : list string;
  ps_Refs : list string; ps_Profile : string; ps_ProfileGeneration : Z;
  ps_CanaryAttribution : CanaryAttribution; ps_ForensicRetention : string; ps_ReconcileInterval : string;
  ps_FingerprintPruneInterval : string; ps_Bounds : PushScannerBounds }.
#[export] Instance PushScannerConfig_eta : Eta PushScannerConfig := fun r =>
  mkPushScannerConfig (ps_Enabled r) (ps_Addr r) (ps_Subject r) (ps_Durable r) (ps_DatabasePath r)
    (ps_BrokerURL r) (ps_BrokerTokenEnv r) (ps_FingerprintKeyEnv r) (ps_HolderTokenEnv r)
    (ps_EventSubject r) (ps_Repositories r) (ps_Refs r) (ps_Profile r) (ps_ProfileGeneration r)
    (ps_CanaryAttribution r) (ps_ForensicRetention r) (ps_ReconcileInterval r)
    (ps_FingerprintPruneInterval r) (ps_Bounds r).

Record RouteActivation := mkRouteActivation {
  ra_RouteDefinitionPath : string; ra_ExecutorID : string; ra_ExecutorKind : string;
  ra_ExecutorVersion : string; ra_AllowSupersede : bool }.

Record ShadowIngressConfig := mkShadowIngressConfig {
  si_Enabled : bool; si_SocketPath : string; si_AllowedUIDs : list Z; si_RouteConfigPath : string }.

(** The profile map is the list of its entries. *)
Record WorkItemLauncherConfig := mkWorkItemLauncherConfig {
  wl_Enabled : bool; wl_AgentType : string; wl_ExecutorID : string; wl_ExecutorKind : string;
  wl_ExecutorVersion : string; wl_Profiles : list (string * string) }.

Record ShadowAdmissionConfig := mkShadowAdmissionConfig {
  sc_Enabled : bool; sc_DatabasePath : string; sc_Ingress : ShadowIngressConfig;
  sc_RouteActivations : list RouteActivation; sc_Launcher : WorkItemLauncherConfig }.

Record GitHubConfig := mkGitHubConfig {
  gh_WebhookSecretEnv : string; gh_PublishPing : bool; gh_PushRefs : list string }.

Record AdmissionTuple := mkAdmissionTuple {
  tu_Repository : string; tu_Event : string; tu_Actions : list string }.

Record AdmissionSet := mkAdmissionSet {
  as_Repositories : list string; as_Events : list string; as_Actions : list string;
  as_Tuples : list AdmissionTuple }.

Record Route := mkRoute {
  gr_ID : string; gr_Path : string; gr_Source : string; gr_MaxBodyBytes : Z; gr_PublishSubject : string;
  gr_PublishSubjectTemplate : string; gr_ManualAuthTokenEnv : string; gr_GitHub : GitHubConfig;
  gr_Admission : AdmissionSet }.
#[export] Instance Route_eta : Eta Route := fun r =>
  mkRoute (gr_ID r) (gr_Path r) (gr_Source r) (gr_MaxBodyBytes r) (gr_PublishSubject r)
    (gr_PublishSubjectTemplate r) (gr_ManualAuthTokenEnv r) (gr_GitHub r) (gr_Admission r).

Record Config := mkConfig {
  cf_Gateway : GatewayConfig; cf_NATS : NATSConfig; cf_Dispatcher : DispatcherConfig;
  cf_WorkRouter : WorkRouterConfig; cf_PushScanner : PushScannerConfig;
  cf_ShadowAdmission : ShadowAdmissionConfig; cf_Routes : list Route }.
#[export] Instance Config_eta : Eta Config := fun r =>
  mkConfig (cf_Gateway r) (cf_NATS r) (cf_Dispatcher r) (cf_WorkRouter r) (cf_PushScanner r)
    (cf_ShadowAdmission r) (cf_Routes r).

Definition CIRepairReconciliationWake (cfg : DispatcherConfig) : Z :=
  if 0 <? dc_RepairReconciliationWake cfg then dc_RepairReconciliationWake cfg else dc_RepairDeadline cfg.

Definition CIRepairActiveTimeout (cfg : DispatcherConfig) : Z :=
  if 0 <? dc_RepairActiveTimeout cfg then dc_RepairActiveTimeout cfg else Z.min (dc_RepairDeadline cfg) Hour.

(** [Route.Subject] *)
Definition Subject (route : Route) : string :=
  if gr_PublishSubject route != "" then gr_PublishSubject route else gr_PublishSubjectTemplate route.

Definition ContainsAllowed (values : list string) (value : string) : bool :=
  match values with [] => true | _ => one_of value values end.

(** ** Defaults *)

Definition or_default (d s : string) : string := if s == "" then d else s.
Definition or_default_z (d n : Z) : Z := if n =? 0 then d else n.

(** The override of a variable that is set. *)
Definition from_env `{Environ} (name s : string) : string :=
  if os_Getenv name != "" then os_Getenv name else s.

Definition default_bounds (b : PushScannerBounds) : PushScannerBounds :=
  b <| pb_MaxCommits ::= or_default_z 100 |> <| pb_MaxPaths ::= or_default_z 300 |>
    <| pb_MaxBlobBytes ::= or_default_z (2 ^ 20) |> <| pb_MaxTotalBytes ::= or_default_z (16 * 2 ^ 20) |>
    <| pb_MaxCandidates ::= or_default_z 4096 |> <| pb_MaxDecodeDepth ::= or_default_z 2 |>.

Definition default_dispatcher (d : DispatcherConfig) : DispatcherConfig :=
  d <| dc_Addr ::= or_default ":8082" |> <| dc_Subject ::= or_default "signals.github.>" |>
    <| dc_Durable ::= or_default "github-task-dispatcher" |>
    <| dc_DatabasePath ::= or_default "github-task-dispatcher.db" |> <| dc_Workers ::= or_default_z 1 |>.

Definition default_router (w : WorkRouterConfig) : WorkRouterConfig :=
  w <| wr_Addr ::= or_default ":8083" |> <| wr_Subject ::= or_default "signals.github.webhook" |>
    <| wr_Durable ::= or_default "resume-release-router" |>
    <| wr_DatabasePath ::= or_default "github-task-dispatcher.db" |>.

Definition default_scanner (p : PushScannerConfig) : PushScannerConfig :=
  p <| ps_Addr ::= or_default ":8084" |> <| ps_Subject ::= or_default "signals.github.webhook" |>
    <| ps_Durable ::= or_default "push-security-scanner" |>
    <| ps_DatabasePath ::= or_default "push-security-scanner.db" |>
    <| ps_EventSubject ::= or_default "signals.security.push-tripwire" |>
    <| ps_ForensicRetention ::= or_default "168h" |> <| ps_ReconcileInterval ::= or_default "5s" |>
    <| ps_FingerprintPruneInterval ::= or_default "1h" |> <| ps_Bounds ::= default_bounds |>.

Definition applyEnv `{Environ} (cfg : Config) : Config :=
  cfg <| cf_Gateway ::= fun g => g <| gc_Addr ::= fun a => from_env "SIGNAL_GATEWAY_ADDR" (or_default DefaultGatewayAddr a) |> |>
      <| cf_NATS ::= fun n =>
           n <| nc_URL ::= fun u => from_env "NATS_URL" (or_default DefaultNATSURL u) |>
             <| nc_Stream ::= or_default DefaultStreamName |>
             <| nc_Subjects ::= fun l => match l with [] => [DefaultSubject] | _ => l end |> |>
      <| cf_Dispatcher ::= default_dispatcher |> <| cf_WorkRouter ::= default_router |>
      <| cf_PushScanner ::= default_scanner |>
      <| cf_Routes ::= map (fun r => r <| gr_MaxBodyBytes ::= or_default_z DefaultMaxBody |>) |>.

(** ** Validation *)

Definition blank (s : string) : bool := TrimSpace s == "".

(** A loop that reports the first offending element; [seen] are the keys of the
    elements before it. *)
Fixpoint check_each {A K} (check : list K -> A -> res unit) (key : A -> K) (seen : list K) (l : list A) : res unit :=
  match l with
  | [] => Ok tt
  | x :: l' => _ ← check seen x; check_each check key (key x :: seen) l'
  end.

Definition exact_ref (ref : string) : bool := HasPrefix ref "refs/heads/" && (TrimSpace ref == ref).
Definition exact_repository (repository : string) : bool :=
  (TrimSpace repository == repository) && (count_char "/" repository =? 1).

Definition validate_actions (actions : list string) : res unit :=
  check_each (fun seen action =>
    _ ← guard_err (blank action) "admission tuple contains an empty action";
    guard_err (one_of action seen) "admission tuple contains duplicate action") id [] actions.

Definition tuple_key (t : AdmissionTuple) : string := tu_Repository t ++ nul ++ tu_Event t.
Definition actionless (event : string) : bool := (event == "push") || (event == "status").

Definition validate_tuple (seen : list string) (t : AdmissionTuple) : res unit :=
  _ ← guard_err (blank (tu_Repository t) || blank (tu_Event t)) "admission tuple requires repository and event";
  _ ← guard_err (actionless (tu_Event t) && negb (tu_Actions t == [])) "admission tuple must be actionless";
  _ ← guard_err (negb (actionless (tu_Event t)) && (tu_Actions t == [])) "admission tuple requires at least one action";
  _ ← guard_err (one_of (tuple_key t) seen) "admission has duplicate tuple";
  validate_actions (tu_Actions t).

Definition Route_Validate (route : Route) : res unit :=
  _ ← guard_err (blank (gr_ID route)) "route id is required";
  _ ← guard_err (negb (HasPrefix (gr_Path route) "/")) "route path must start with /";
  _ ← guard_err (blank (gr_Source route)) "route source is required";
  _ ← guard_err (gr_MaxBodyBytes route <=? 0) "route max_body_bytes must be positive";
  _ ← guard_err (blank (Subject route)) "route publish_subject is required";
  _ ← check_each (fun seen ref =>
        _ ← guard_err (negb (exact_ref ref)) "github push_refs must be exact branch refs";
        guard_err (one_of ref seen) "github push_refs contains duplicate") id [] (gh_PushRefs (gr_GitHub route));
  let a := gr_Admission route in
  match as_Tuples a with
  | [] => Ok tt
  | tuples =>
      _ ← guard_err (negb (as_Repositories a == []) || negb (as_Events a == []) || negb (as_Actions a == []))
            "admission cannot combine tuples with repositories/events/actions";
      check_each validate_tuple tuple_key [] tuples
  end.

(** [^[A-Za-z0-9][A-Za-z0-9_.-]{0,79}$] *)
Definition validName (s : string) : bool :=
  match s with
  | EmptyString => false
  | String c r => is_alnum c && all_chars (fun x => is_alnum x || is_char "_" x || is_char "." x || is_char "-" x) r
                  && (len r <=? 79)
  end.

Definition admission_key (r : RepositoryTaskRoute) : string :=
  Join [tr_Repository r; tr_Event r; tr_Action r; tr_Label r] nul.

Definition validate_task_route (seen : list (string * string)) (r : RepositoryTaskRoute) : res unit :=
  _ ← guard_err (negb (validName (tr_ID r)) || negb (validName (tr_Profile r)))
        "dispatcher repository task route id and profile must be bounded names";
  _ ← guard_err (negb (exact_repository (tr_Repository r)))
        "dispatcher repository task route repository must be an exact owner/repository";
  _ ← guard_err ((tr_Event r != "issues") || (tr_Action r != "labeled") || (tr_Label r == ""))
        "dispatcher repository task routes must select an issues/labeled event and a nonempty label";
  guard_err (one_of (tr_ID r) (map fst seen) || one_of (admission_key r) (map snd seen))
    "dispatcher repository task routes must have unique ids and non-overlapping admission".

Definition validateRepositoryTaskRoutes (routes : list RepositoryTaskRoute) : res unit :=
  _ ← guard_err (routes == []) "enabled dispatcher requires at least one repository_task_route";
  check_each validate_task_route (fun r => (tr_ID r, admission_key r)) [] routes.

Definition valid_executor_kind (k : string) : bool := one_of k [""; ExecutorDeterministicTool; ExecutorPolicyEvaluator].

Definition validateRouteActivations (activations : list RouteActivation) : res unit :=
  check_each (fun seen a =>
    _ ← guard_err (blank (ra_RouteDefinitionPath a)) "route_activations requires a route_definition_path";
    _ ← guard_err (negb (HasPrefix (ra_RouteDefinitionPath a) "/")) "route_definition_path must be absolute";
    _ ← guard_err (4096 <? len (ra_RouteDefinitionPath a)) "route_definition_path is oversized";
    _ ← guard_err (one_of (ra_RouteDefinitionPath a) seen) "route_activations declares duplicate route_definition_path";
    _ ← guard_err (blank (ra_ExecutorID a) || (256 <? len (ra_ExecutorID a))) "route_activations requires a bounded executor_id";
    _ ← guard_err (blank (ra_ExecutorVersion a) || (256 <? len (ra_ExecutorVersion a)))
          "route_activations requires a bounded executor_version";
    guard_err (negb (valid_executor_kind (ra_ExecutorKind a)))
      "route_activations executor_kind must be deterministic_tool or policy_evaluator")
    ra_RouteDefinitionPath [] activations.

Section Validate.
Context `{NetURL} `{GoDuration}.

(** A fixed broker origin. *)
Definition broker_origin (raw : string) : bool :=
  match url_Parse raw with
  | Some u => ((pu_Scheme u == "http") || (pu_Scheme u == "https")) && (pu_Host u != "") && negb (pu_HasUser u)
              && ((pu_EscapedPath u == "") || (pu_EscapedPath u == "/")) && (pu_RawQuery u == "") && (pu_Fragment u == "")
  | None => false
  end.

Definition validate_dispatcher (d : DispatcherConfig) : res unit :=
  _ ← guard_err (blank (dc_Subject d) || blank (dc_Durable d) || blank (dc_DatabasePath d)
        || blank (dc_BrokerURL d) || blank (dc_BrokerTokenEnv d))
        "enabled dispatcher requires subject, durable, database_path, broker_url, and broker_token_env";
  _ ← guard_err (negb (dc_Workers d =? 1)) "enabled dispatcher requires exactly one worker";
  let legacyTiming := 0 <? dc_RepairDeadline d in
  let separateTiming := (0 <? dc_RepairReconciliationWake d) || (0 <? dc_RepairActiveTimeout d) in
  _ ← guard_err (Bool.eqb legacyTiming separateTiming
        || (separateTiming && ((dc_RepairReconciliationWake d =? 0) || (dc_RepairActiveTimeout d =? 0))))
        "enabled dispatcher requires either legacy repair_deadline or both repair_reconciliation_wake and repair_active_timeout";
  let wake := CIRepairReconciliationWake d in
  let active := CIRepairActiveTimeout d in
  _ ← guard_err ((wake <? Minute) || (7 * 24 * Hour <? wake))
        "enabled dispatcher repair reconciliation wake must be between one minute and seven days";
  _ ← guard_err ((active <? Minute) || (Hour <? active))
        "enabled dispatcher repair active timeout must be between one minute and the reviewed 60-minute broker template maximum";
  _ ← guard_err ((dc_RepairMaxAttempts d <? 1) || (2 <? dc_RepairMaxAttempts d))
        "enabled dispatcher repair_max_attempts must be between one and two";
  _ ← guard_err (negb (broker_origin (dc_BrokerURL d)))
        "enabled dispatcher broker_url must be a fixed broker origin without path, query, credentials, or fragment";
  _ ← validateRepositoryTaskRoutes (dc_RepositoryTaskRoutes d);
  _ ← guard_err (xorb (dc_ReporterBrokerURL d == "") (dc_ReporterBrokerTokenEnv d == ""))
        "reporter_broker_url and reporter_broker_token_env must be configured together";
  guard_err ((dc_ReporterBrokerURL d != "") && negb (broker_origin (dc_ReporterBrokerURL d)))
    "enabled dispatcher reporter_broker_url must be a fixed broker origin without path, query, credentials, or fragment".

Definition ykm_endpoint (raw : string) : bool :=
  match url_Parse raw with
  | Some u => negb (pu_HasUser u) && (pu_RawQuery u == "") && (pu_Fragment u == "") && (pu_Path u == "/mcp")
              && (pu_Host u != "")
  | None => false
  end.

Definition validate_router (w : WorkRouterConfig) : res unit :=
  _ ← guard_err ((wr_Subject w == "") || (wr_Durable w == "") || (wr_DatabasePath w == "") || (wr_YKMURL w == "")
        || (wr_GitHubPrivateKeyPath w == ""))
        "enabled work_router requires subject, durable, database_path, ykm_url, and github_private_key_path";
  _ ← guard_err (negb (ykm_endpoint (wr_YKMURL w))) "work_router ykm_url must be a fixed MCP endpoint";
  if wr_YKMAuthMode w == "cloudflare_access" then
    guard_err ((wr_YKMURL w != "https://mcp.fleiglabs.cc/mcp") || (wr_YKMClientIDEnv w == "")
               || (wr_YKMClientSecretEnv w == "") || (wr_YKMLocalSecretEnv w != ""))
      "cloudflare_access work_router requires HTTPS client ID/secret env names only"
  else if wr_YKMAuthMode w == "local_secret" then
    guard_err ((wr_YKMURL w != "http://youknowme-mcp:8765/mcp") || (wr_YKMLocalSecretEnv w == "")
               || (wr_YKMClientIDEnv w != "") || (wr_YKMClientSecretEnv w != ""))
      "local_secret work_router requires a private local URL and local secret env name only"
  else Err "enabled work_router has unsupported ykm_auth_mode".

Definition tripwire_endpoint (raw : string) : bool :=
  match url_Parse raw with
  | Some u => ((pu_Scheme u == "http") || (pu_Scheme u == "https")) && negb (pu_HasUser u) && (pu_RawQuery u == "")
              && (pu_Fragment u == "") && (pu_Host u != "") && (pu_EscapedPath u == "/v1/security/push-tripwire")
  | None => false
  end.

(** A duration that parses, is positive and at most [bound]. *)
Definition duration_within (bound : option Z) (s : string) : bool :=
  match time_ParseDuration s with
  | Some d => (0 <? d) && match bound with Some b => d <=? b | None => true end
  | None => false
  end.

Definition bounds_within (b : PushScannerBounds) : bool :=
  (0 <? pb_MaxCommits b) && (pb_MaxCommits b <=? 100) && (0 <? pb_MaxPaths b) && (pb_MaxPaths b <=? 300)
  && (0 <? pb_MaxBlobBytes b) && (pb_MaxBlobBytes b <=? 2 ^ 20) && (0 <? pb_MaxTotalBytes b)
  && (pb_MaxTotalBytes b <=? 16 * 2 ^ 20) && (0 <? pb_MaxCandidates b) && (pb_MaxCandidates b <=? 4096)
  && (1 <=? pb_MaxDecodeDepth b) && (pb_MaxDecodeDepth b <=? 4).

Definition validate_scanner (p : PushScannerConfig) : res unit :=
  let canary := ps_CanaryAttribution p in
  _ ← guard_err ((ps_Subject p == "") || (ps_Durable p == "") || (ps_DatabasePath p == "") || (ps_BrokerTokenEnv p == "")
        || (ps_FingerprintKeyEnv p == "") || (ps_HolderTokenEnv p == "")
        || negb (HasPrefix (ps_EventSubject p) "signals.security.") || (ps_EventSubject p == ps_Subject p)
        || (ps_Repositories p == []) || (ps_Refs p == []) || (ps_Profile p == "") || (ps_ProfileGeneration p <=? 0)
        || (ca_LogicalSessionID canary == "") || (ca_SessionLineageID canary == "") || (ca_WorkerID canary == "")
        || (ca_WorkerStorageLineage canary == "") || (ca_WorkerFenceEpoch canary <=? 0))
        "enabled push_scanner requires durable storage, broker and holder credentials, fingerprint key, catalog, and profile generation";
  _ ← guard_err (negb (tripwire_endpoint (ps_BrokerURL p)))
        "enabled push_scanner broker_url must be the fixed push-tripwire base endpoint";
  _ ← guard_err (negb (forallb exact_repository (ps_Repositories p)))
        "push_scanner repositories must be exact owner/repository names";
  _ ← guard_err (negb (forallb exact_ref (ps_Refs p))) "push_scanner refs must be exact branch refs";
  _ ← guard_err (negb (duration_within None (ps_ForensicRetention p))) "push_scanner forensic_retention is invalid";
  _ ← guard_err (negb (duration_within (Some (30 * Second)) (ps_ReconcileInterval p)))
        "push_scanner reconcile_interval must be positive and at most 30s";
  _ ← guard_err (negb (duration_within (Some (24 * Hour)) (ps_FingerprintPruneInterval p)))
        "push_scanner fingerprint_prune_interval must be positive and at most 24h";
  guard_err (negb (bounds_within (ps_Bounds p))) "push_scanner bounds exceed the reviewed broker and scanner limits".

(** An empty kind stands for the deterministic tool. *)
Definition executor_kind (k : string) : string := or_default ExecutorDeterministicTool k.

Definition validate_launcher (cfg : Config) : res unit :=
  let launcher := sc_Launcher (cf_ShadowAdmission cfg) in
  let activations := sc_RouteActivations (cf_ShadowAdmission cfg) in
  let kind := executor_kind (wl_ExecutorKind launcher) in
  _ ← guard_err (negb (dc_Enabled (cf_Dispatcher cfg)) || negb (wr_Enabled (cf_WorkRouter cfg)))
        "enabled shadow_admission.launcher requires dispatcher and work_router execution loops";
  _ ← guard_err (negb (kebabIdentifier (wl_AgentType launcher)) || blank (wl_ExecutorID launcher)
        || blank (wl_ExecutorVersion launcher))
        "enabled shadow_admission.launcher requires bounded agent_type, executor_id, and executor_version";
  _ ← guard_err ((kind != ExecutorDeterministicTool) && (kind != ExecutorPolicyEvaluator))
        "shadow_admission.launcher executor_kind must be deterministic_tool or policy_evaluator";
  _ ← guard_err (wl_Profiles launcher == []) "enabled shadow_admission.launcher requires at least one mode profile";
  _ ← guard_err (negb (forallb (fun mp => snakeIdentifier (fst mp) && kebabIdentifier (snd mp)) (wl_Profiles launcher)))
        "shadow_admission.launcher profile mapping is invalid";
  let matched := rows_where (fun a => ra_ExecutorID a == wl_ExecutorID launcher) activations in
  _ ← guard_err (exists_where (fun a => (ra_ExecutorVersion a != wl_ExecutorVersion launcher)
                                        || (executor_kind (ra_ExecutorKind a) != kind)) matched)
        "shadow_admission.launcher descriptor must exactly match its route activation descriptor";
  guard_err (match matched with [] => true | _ => false end)
    "shadow_admission.launcher executor_id has no deployment-owned route activation".

(** The route loop: [seen] maps a path to the id of its route, and a path maps
    to the empty id when it is absent. *)
Definition validate_gateway_route (seen : list (string * string)) (route : Route) : res unit :=
  _ ← Route_Validate route;
  guard_err (match first_where (fun s => fst s == gr_Path route) seen with
             | Some (_, previous) => previous != "" | None => false end) "route path is used by two routes".

Definition Config_Validate (cfg : Config) : res unit :=
  _ ← guard_err (blank (gc_Addr (cf_Gateway cfg))) "gateway addr is required";
  _ ← guard_err (blank (nc_URL (cf_NATS cfg))) "nats url is required";
  _ ← guard_err (blank (nc_Stream (cf_NATS cfg))) "nats stream is required";
  _ ← guard_err (nc_Subjects (cf_NATS cfg) == []) "nats subjects are required";
  _ ← guard_err (match cf_Routes cfg with [] => true | _ => false end) "at least one route is required";
  _ ← if dc_Enabled (cf_Dispatcher cfg) then validate_dispatcher (cf_Dispatcher cfg) else Ok tt;
  _ ← if wr_Enabled (cf_WorkRouter cfg) then validate_router (cf_WorkRouter cfg) else Ok tt;
  _ ← if ps_Enabled (cf_PushScanner cfg) then validate_scanner (cf_PushScanner cfg) else Ok tt;
  _ ← validateRouteActivations (sc_RouteActivations (cf_ShadowAdmission cfg));
  _ ← if wl_Enabled (sc_Launcher (cf_ShadowAdmission cfg)) then validate_launcher cfg else Ok tt;
  check_each validate_gateway_route (fun r => (gr_Path r, gr_ID r)) [] (cf_Routes cfg).
End Validate.

(** [Load] after the file was read and decoded. *)
Definition load_config `{NetURL} `{GoDuration} `{Environ} (decoded : Config) : res Config :=
  let cfg := applyEnv decoded in
  _ ← Config_Validate cfg; Ok cfg.

(** The policy [main] configures the store with. *)
Definition repair_policy (d : DispatcherConfig) : CIRepairPolicy :=
  mkCIRepairPolicy (CIRepairReconciliationWake d) (CIRepairActiveTimeout d) (dc_RepairMaxAttempts d).
