(* ===== verification/Gateway.v ===== *)
(** * The signal gateway

    [internal/source/githubwebhook] and [internal/gateway]: a webhook or manual
    request is read, authenticated, admitted by its route and published as a
    signal.  The publisher, the environment, the random signal id and the clock
    are parameters; the counters are in [GatewayMetrics]; the HTTP server and the
    logger are not modelled. *)

From S2P Require Import Prelude GoText GoSha256 GoJson GoNet LedgerModel Envelope DispatchPolicy Config.
From Stdlib Require Import Ascii.
Open Scope string_scope.
Open Scope Z_scope.
Open Scope go_scope.

(** ** The webhook signature *)

Definition SignatureHeader : string := "X-Hub-Signature-256".

Definition VerifySignature (secret body header : string) : bool :=
  if (secret == "") || negb (HasPrefix header "sha256=") then false
  else match hex_DecodeString (TrimPrefix header "sha256=") with
       | Some got => got == hmac_sha256 (bytes_of secret) (bytes_of body)
       | None => false
       end.

(** The request of a published HMAC test vector. *)
Example hmac_ex :
  hex (hmac_sha256 (bytes_of "key") (bytes_of "The quick brown fox jumps over the lazy dog"))
  = "f7bc83f430538424b13298e6aa6fb143ef4d59a14946175997479dbc2d1a3cd8".
Proof. vm_compute. reflexivity. Qed.

(** ** Requests and responses *)

(** [Header.Get], and the body: [None] when reading it fails. *)
Record Request := mkRequest { rq_Header : string -> string; rq_Body : option string }.

Record rejectedRequest := mkRejected { rj_status : Z; rj_reason : string }.

(** The status and the members of the JSON body of a response. *)
Record Response := mkResponse { rp_Status : Z; rp_Body : list (string * string) }.

Definition StatusAccepted : Z := 202.
Definition StatusBadRequest : Z := 400.
Definition StatusUnauthorized : Z := 401.
Definition StatusForbidden : Z := 403.
Definition StatusServiceUnavailable : Z := 503.

Definition firstNonSpace (body : string) : option ascii :=
  match TrimSpace body with EmptyString => None | String c _ => Some c end.

(** [http.MaxBytesReader] refuses a body longer than its limit. *)
Definition readJSONBody (r : Request) (limit : Z) : option string :=
  match rq_Body r with
  | None => None
  | Some body =>
      if Z.max 0 limit <? len body then None
      else match parse_json body with
           | None => None
           | Some _ => match firstNonSpace body with
                       | Some c => if Ascii.eqb c "{" then Some body else None
                       | None => None
                       end
           end
  end.

Definition headerDefault (r : Request) (name fallback : string) : string :=
  if rq_Header r name != "" then rq_Header r name else fallback.

Definition bearerOrHeaderMatches (r : Request) (want : string) : bool :=
  if rq_Header r "X-Signal-Token" == want then true
  else let auth := rq_Header r "Authorization" in
       HasPrefix auth "Bearer " && (TrimPrefix auth "Bearer " == want).

(** ** Admission *)

Record admissionResult := mkAdmissionRes {
  ar_event : string; ar_action : string; ar_deliveryID : string; ar_ignore : bool; ar_ignoreReason : string;
  ar_namespace : string; ar_objectKind : string; ar_objectID : string; ar_sourceRevision : string;
  ar_sourceRef : string; ar_sourceBefore : string; ar_sourceAfter : string; ar_sourceHeadTime : option Z;
  ar_sourceTimestamp : option Z; ar_actorClass : string; ar_authMethod : string; ar_authVerified : bool }.
#[export] Instance admissionResult_eta : Eta admissionResult := fun r =>
  mkAdmissionRes (ar_event r) (ar_action r) (ar_deliveryID r) (ar_ignore r) (ar_ignoreReason r)
    (ar_namespace r) (ar_objectKind r) (ar_objectID r) (ar_sourceRevision r) (ar_sourceRef r)
    (ar_sourceBefore r) (ar_sourceAfter r) (ar_sourceHeadTime r) (ar_sourceTimestamp r) (ar_actorClass r)
    (ar_authMethod r) (ar_authVerified r).

Definition zero_admission : admissionResult :=
  mkAdmissionRes "" "" "" false "" "" "" "" "" "" "" "" None None "" "" false.

Definition ignored (reason : string) : admissionResult :=
  zero_admission <| ar_ignore := true |> <| ar_ignoreReason := reason |>.

Abbreviation admission := (admissionResult + rejectedRequest)%type.
Definition reject (status : Z) (reason : string) : admission := inr (mkRejected status reason).

Section Admit.
Context `{Environ}.

Definition admitManual (r : Request) (route : Route) : admission :=
  let accepted method verified :=
    inl (zero_admission <| ar_event := headerDefault r "X-Signal-Event" "manual" |>
           <| ar_action := rq_Header r "X-Signal-Action" |> <| ar_deliveryID := rq_Header r "X-Signal-Delivery" |>
           <| ar_authMethod := method |> <| ar_authVerified := verified |>) in
  if gr_ManualAuthTokenEnv route != "" then
    let want := os_Getenv (gr_ManualAuthTokenEnv route) in
    if want == "" then reject StatusServiceUnavailable "missing_manual_token"
    else if negb (bearerOrHeaderMatches r want) then reject StatusUnauthorized "bad_manual_token"
    else accepted "manual_bearer" true
  else accepted "manual_test" false.

(** The part of a webhook payload the gateway decodes. *)
Record gh_object := mkGhObject {
  go_Number : Z; go_UpdatedAt : string }.
#[export] Instance gh_object_eta : Eta gh_object := fun r =>
  mkGhObject (go_Number r) (go_UpdatedAt r).

Record gh_pull := mkGhPull {
  gp_Number : Z; gp_UpdatedAt : string; gp_HeadSHA : string }.
#[export] Instance gh_pull_eta : Eta gh_pull := fun r =>
  mkGhPull (gp_Number r) (gp_UpdatedAt r) (gp_HeadSHA r).

Record gh_release := mkGhRelease {
  gl_ID : Z; gl_TagName : string; gl_UpdatedAt : string }.
#[export] Instance gh_release_eta : Eta gh_release := fun r =>
  mkGhRelease (gl_ID r) (gl_TagName r) (gl_UpdatedAt r).

(** [check_run] and [check_suite]; a pull request is known by its number. *)
Record gh_check := mkGhCheck {
  gk_HeadSHA : string; gk_PullRequests : slice Z }.
#[export] Instance gh_check_eta : Eta gh_check := fun r =>
  mkGhCheck (gk_HeadSHA r) (gk_PullRequests r).

(** [repository.pushed_at] is a raw message, absent when it is empty. *)
Record gh_payload := mkGhPayload {
  gy_Action : string; gy_FullName : string; gy_PushedAt : option json; gy_Issue : option gh_object;
  gy_PullRequest : option gh_pull; gy_Release : option gh_release; gy_CheckRun : option gh_check;
  gy_CheckSuite : option gh_check; gy_SHA : string; gy_Ref : string; gy_Before : string; gy_After : string;
  gy_HeadCommit : option string; gy_SenderType : string }.
#[export] Instance gh_payload_eta : Eta gh_payload := fun r =>
  mkGhPayload (gy_Action r) (gy_FullName r) (gy_PushedAt r) (gy_Issue r) (gy_PullRequest r) (gy_Release r)
    (gy_CheckRun r) (gy_CheckSuite r) (gy_SHA r) (gy_Ref r) (gy_Before r) (gy_After r) (gy_HeadCommit r)
    (gy_SenderType r).

Definition zero_payload : gh_payload := mkGhPayload "" "" None None None None None None "" "" "" "" None "".

Definition set_object (n : string) (v : json) (o : gh_object) : option gh_object :=
  if n == "number" then x ← decode_int v (go_Number o); Some (o <| go_Number := x |>)
  else x ← decode_string v (go_UpdatedAt o); Some (o <| go_UpdatedAt := x |>).

Definition one_string (name : string) (v : json) (old : string) : option string :=
  decode_struct [name] false (fun _ => decode_string) v old.

Definition set_pull_request (n : string) (v : json) (o : gh_pull) : option gh_pull :=
  if n == "number" then x ← decode_int v (gp_Number o); Some (o <| gp_Number := x |>)
  else if n == "updated_at" then x ← decode_string v (gp_UpdatedAt o); Some (o <| gp_UpdatedAt := x |>)
  else x ← one_string "sha" v (gp_HeadSHA o); Some (o <| gp_HeadSHA := x |>).

Definition set_release (n : string) (v : json) (o : gh_release) : option gh_release :=
  if n == "id" then x ← decode_int v (gl_ID o); Some (o <| gl_ID := x |>)
  else if n == "tag_name" then x ← decode_string v (gl_TagName o); Some (o <| gl_TagName := x |>)
  else x ← decode_string v (gl_UpdatedAt o); Some (o <| gl_UpdatedAt := x |>).

Definition set_ci_check (n : string) (v : json) (o : gh_check) : option gh_check :=
  if n == "head_sha" then x ← decode_string v (gk_HeadSHA o); Some (o <| gk_HeadSHA := x |>)
  else x ← decode_slice (fun v old => decode_struct ["number"] false (fun _ => decode_int) v old) 0 v (gk_PullRequests o);
       Some (o <| gk_PullRequests := x |>).

Definition decode_ci_check (v : json) (old : gh_check) : option gh_check :=
  decode_struct ["head_sha"; "pull_requests"] false set_ci_check v old.

Definition set_repository (n : string) (v : json) (p : gh_payload) : option gh_payload :=
  if n == "full_name" then x ← decode_string v (gy_FullName p); Some (p <| gy_FullName := x |>)
  else Some (p <| gy_PushedAt := Some v |>).

Definition set_payload (n : string) (v : json) (p : gh_payload) : option gh_payload :=
  if n == "action" then x ← decode_string v (gy_Action p); Some (p <| gy_Action := x |>)
  else if n == "repository" then decode_struct ["full_name"; "pushed_at"] false set_repository v p
  else if n == "issue" then
    x ← decode_pointer (decode_struct ["number"; "updated_at"] false set_object) (mkGhObject 0 "") v (gy_Issue p);
    Some (p <| gy_Issue := x |>)
  else if n == "pull_request" then
    x ← decode_pointer (decode_struct ["number"; "updated_at"; "head"] false set_pull_request) (mkGhPull 0 "" "") v
          (gy_PullRequest p);
    Some (p <| gy_PullRequest := x |>)
  else if n == "release" then
    x ← decode_pointer (decode_struct ["id"; "tag_name"; "updated_at"] false set_release) (mkGhRelease 0 "" "") v
          (gy_Release p);
    Some (p <| gy_Release := x |>)
  else if n == "check_run" then
    x ← decode_pointer decode_ci_check (mkGhCheck "" None) v (gy_CheckRun p); Some (p <| gy_CheckRun := x |>)
  else if n == "check_suite" then
    x ← decode_pointer decode_ci_check (mkGhCheck "" None) v (gy_CheckSuite p); Some (p <| gy_CheckSuite := x |>)
  else if n == "sha" then x ← decode_string v (gy_SHA p); Some (p <| gy_SHA := x |>)
  else if n == "ref" then x ← decode_string v (gy_Ref p); Some (p <| gy_Ref := x |>)
  else if n == "before" then x ← decode_string v (gy_Before p); Some (p <| gy_Before := x |>)
  else if n == "after" then x ← decode_string v (gy_After p); Some (p <| gy_After := x |>)
  else if n == "head_commit" then
    x ← decode_pointer (one_string "timestamp") "" v (gy_HeadCommit p); Some (p <| gy_HeadCommit := x |>)
  else x ← one_string "type" v (gy_SenderType p); Some (p <| gy_SenderType := x |>).

Definition payload_fields : list string :=
  ["action"; "repository"; "issue"; "pull_request"; "release"; "check_run"; "check_suite"; "sha"; "ref"; "before";
   "after"; "head_commit"; "sender"].

Definition decode_payload (body : string) : option gh_payload :=
  v ← parse_json body; decode_struct payload_fields false set_payload v zero_payload.

Definition validGitHubSHA (value : string) : bool := (len value =? 40) && all_chars is_hex_lower value.

(** [time.Unix(seconds, 0)]: the internal seconds are an [int64] that counts
    from year 1. *)
Definition time_Unix (seconds : Z) : Z :=
  let internal := (seconds + 62135596800 + 2 ^ 63) mod 2 ^ 64 - 2 ^ 63 in
  (internal - 62135596800) * Second.

(** The result is [None] on error and [Some None] for the nil time. *)
Definition parseGitHubRepositoryPushedAt (raw : option json) : option (option Z) :=
  match raw with
  | None | Some JNull => Some None
  | Some (JStr value) => if value == "" then Some None else Some <$> Parse_RFC3339 value
  | Some v => (fun seconds => Some (time_Unix seconds)) <$> decode_int v 0
  end.

Section Enrich.
Variable unicode_lower : string -> string.

(** A CI check names the pull request only when it has exactly one. *)
Definition enrich_check (c : gh_check) (result : admissionResult) : admissionResult :=
  let result := result <| ar_objectKind := "commit" |> <| ar_sourceRevision := gk_HeadSHA c |>
                       <| ar_objectID := gk_HeadSHA c |> in
  match elems (gk_PullRequests c) with
  | [number] => if 0 <? number
                then result <| ar_objectKind := "pull_request" |> <| ar_objectID := fmt_d number |> else result
  | _ => result
  end.

Definition enrich_push (p : gh_payload) (pushedAt : option Z) (result : admissionResult) : admissionResult :=
  result <| ar_sourceRef := gy_Ref p |> <| ar_sourceBefore := gy_Before p |> <| ar_sourceAfter := gy_After p |>
         <| ar_sourceRevision := gy_After p |> <| ar_sourceTimestamp := pushedAt |>
         <| ar_sourceHeadTime := match gy_HeadCommit p with
                                 | Some ts => if ts == "" then None else Parse_RFC3339 ts
                                 | None => None
                                 end |>.

Definition enrich_issue (i : gh_object) (result : admissionResult) : admissionResult :=
  result <| ar_objectKind := "issue" |> <| ar_objectID := fmt_d (go_Number i) |>
         <| ar_sourceRevision := go_UpdatedAt i |>.

Definition enrich_pull (q : gh_pull) (result : admissionResult) : admissionResult :=
  result <| ar_objectKind := "pull_request" |> <| ar_objectID := fmt_d (gp_Number q) |>
         <| ar_sourceRevision := or_default (gp_UpdatedAt q) (gp_HeadSHA q) |>.

Definition enrich_release (l : gh_release) (result : admissionResult) : admissionResult :=
  result <| ar_objectKind := "release" |> <| ar_objectID := fmt_d (gl_ID l) |>
         <| ar_sourceRevision := or_default (gl_TagName l) (gl_UpdatedAt l) |>.

(** [if pointer != nil { ... }] *)
Definition if_present {A} (f : A -> admissionResult -> admissionResult) (o : option A) (result : admissionResult)
    : admissionResult :=
  match o with Some x => f x result | None => result end.

Definition enrichGitHubAdmission (result : admissionResult) (event : string) (p : gh_payload) (pushedAt : option Z)
    : admissionResult :=
  let result := result <| ar_namespace := gy_FullName p |> <| ar_objectKind := event |>
                       <| ar_authMethod := "github_hmac_sha256" |> <| ar_authVerified := true |>
                       <| ar_actorClass := ToLower unicode_lower (gy_SenderType p) |> in
  let result := if event == "push" then enrich_push p pushedAt result else result in
  let result := if_present enrich_issue (gy_Issue p) result in
  let result := if_present enrich_pull (gy_PullRequest p) result in
  let result := if_present enrich_release (gy_Release p) result in
  let result := if_present enrich_check (gy_CheckRun p) result in
  let result := if_present enrich_check (gy_CheckSuite p) result in
  if (event == "status") && (gy_SHA p != "")
  then result <| ar_objectKind := "commit" |> <| ar_objectID := gy_SHA p |> <| ar_sourceRevision := gy_SHA p |>
  else result.

(** The loop over the tuples; [matched] is [repositoryMatched]. *)
Fixpoint admit_tuples (ping : bool) (event deliveryID action repository : string) (matched : bool)
    (tuples : list AdmissionTuple) : admission :=
  match tuples with
  | [] => reject StatusForbidden (if matched then "event_not_allowed" else "repository_not_allowed")
  | t :: rest =>
      if tu_Repository t != repository then admit_tuples ping event deliveryID action repository matched rest
      else if tu_Event t != event then admit_tuples ping event deliveryID action repository true rest
      else if (event == "ping") && negb ping then inl (ignored "ping")
      else if (event == "push") || (event == "status")
      then inl (zero_admission <| ar_event := event |> <| ar_deliveryID := deliveryID |>)
      else
        let result := zero_admission <| ar_event := event |> <| ar_action := action |> <| ar_deliveryID := deliveryID |> in
        if ContainsAllowed (tu_Actions t) action then inl result
        else inl (result <| ar_ignore := true |> <| ar_ignoreReason := "action_filtered" |>)
  end.

Definition admitGitHubTuple (route : Route) (event deliveryID action repository : string) : admission :=
  admit_tuples (gh_PublishPing (gr_GitHub route)) event deliveryID action repository false
    (as_Tuples (gr_Admission route)).

(** The identity a push must carry; [Some] of its time otherwise. *)
Definition push_identity (route : Route) (event : string) (p : gh_payload) : option Z + rejectedRequest :=
  if event == "push" then
    if negb (ContainsAllowed (gh_PushRefs (gr_GitHub route)) (gy_Ref p))
    then inr (mkRejected StatusForbidden "ref_not_allowed")
    else if negb (validGitHubSHA (gy_Before p)) || negb (validGitHubSHA (gy_After p))
            || negb (HasPrefix (gy_Ref p) "refs/heads/")
    then inr (mkRejected StatusBadRequest "invalid_push_identity")
    else match parseGitHubRepositoryPushedAt (gy_PushedAt p) with
         | Some pushedAt => inl pushedAt
         | None => inr (mkRejected StatusBadRequest "invalid_push_identity")
         end
  else inl None.

Definition ci_check_sha (c : option gh_check) : bool :=
  match c with Some k => validGitHubSHA (gk_HeadSHA k) | None => false end.

Definition ci_identity (event : string) (p : gh_payload) : bool :=
  if event == "check_run" then ci_check_sha (gy_CheckRun p)
  else if event == "check_suite" then ci_check_sha (gy_CheckSuite p)
  else if event == "status" then validGitHubSHA (gy_SHA p)
  else true.

Definition admitGitHub (r : Request) (route : Route) (body : string) : admission :=
  let secret := os_Getenv (gh_WebhookSecretEnv (gr_GitHub route)) in
  if secret == "" then reject StatusServiceUnavailable "missing_github_secret"
  else if negb (VerifySignature secret body (rq_Header r SignatureHeader))
  then reject StatusUnauthorized "bad_github_signature"
  else
    let event := rq_Header r "X-GitHub-Event" in
    let deliveryID := rq_Header r "X-GitHub-Delivery" in
    match decode_payload body with
    | None => reject StatusBadRequest "invalid_github_payload"
    | Some decoded =>
        match push_identity route event decoded with
        | inr e => inr e
        | inl pushedAt =>
            if negb (ci_identity event decoded) then reject StatusBadRequest "invalid_ci_identity"
            else
              let enrich result := enrichGitHubAdmission result event decoded pushedAt in
              let a := gr_Admission route in
              match as_Tuples a with
              | _ :: _ =>
                  match admitGitHubTuple route event deliveryID (gy_Action decoded) (gy_FullName decoded) with
                  | inl result => inl (enrich result)
                  | inr e => inr e
                  end
              | [] =>
                  if negb (ContainsAllowed (as_Repositories a) (gy_FullName decoded))
                  then reject StatusForbidden "repository_not_allowed"
                  else if negb (ContainsAllowed (as_Events a) event)
                  then reject StatusForbidden "event_not_allowed"
                  else if (event == "ping") && negb (gh_PublishPing (gr_GitHub route))
                  then inl (ignored "ping")
                  else
                    let result := zero_admission <| ar_event := event |> <| ar_action := gy_Action decoded |>
                                                 <| ar_deliveryID := deliveryID |> in
                    if negb (ContainsAllowed (as_Actions a) (gy_Action decoded))
                    then inl (result <| ar_ignore := true |> <| ar_ignoreReason := "action_filtered" |>)
                    else inl (enrich result)
              end
        end
    end.

Definition admit_request (r : Request) (route : Route) (body : string) : admission :=
  if gr_Source route == "github" then admitGitHub r route body
  else if gr_Source route == "manual" then admitManual r route
  else reject StatusForbidden "unknown_source".

(** ** The handler *)

Definition signal_of (signal_id : string) (now : Z) (route : Route) (a : admissionResult) (body : string) : Signal :=
  mkSignal (mkMeta signal_id (gr_Source route) (gr_ID route) now (ar_event a) (ar_action a) (ar_deliveryID a)
              (ar_namespace a) (ar_objectKind a) (ar_objectID a) (ar_sourceRevision a) (ar_sourceRef a)
              (ar_sourceBefore a) (ar_sourceAfter a) (ar_sourceHeadTime a) (ar_sourceTimestamp a) (ar_actorClass a)
              "" "" "" "" "" "" 0 None (mkAuthentication (ar_authMethod a) (ar_authVerified a))) body.

(** [handleRoute]: what was handed to the publisher, and the response.  The
    publisher answers whether it failed. *)
Definition handleRoute (publish : string -> Signal -> bool) (signal_id : string) (now : Z) (r : Request) (route : Route)
    : option (string * Signal) * Response :=
  let rejected status reason := (None, mkResponse status [("error", reason)]) in
  match readJSONBody r (gr_MaxBodyBytes route) with
  | None => rejected StatusBadRequest "invalid_body"
  | Some body =>
      match admit_request r route body with
      | inr e => rejected (rj_status e) (rj_reason e)
      | inl a =>
          if ar_ignore a
          then (None, mkResponse StatusAccepted [("status", "ignored"); ("reason", ar_ignoreReason a)])
          else
            let signal := signal_of signal_id now route a body in
            let published := Some (Subject route, signal) in
            if publish (Subject route) signal
            then (published, mkResponse StatusAccepted
                               [("status", "accepted"); ("signal_id", signal_id); ("subject", Subject route)])
            else (published, mkResponse StatusServiceUnavailable [("error", "publish_failed")])
      end
  end.
End Enrich.
End Admit.
