(* ===== verification/DispatchStore.v ===== *)
(** * The dispatcher store

    [internal/dispatcher/store.go]: deliveries, jobs, the recovery checkpoint
    and recovery runs, with the tables of the other dispatcher files, which
    share the database.  Each method is a function on the record of tables. *)

From S2P Require Import Prelude GoText GoSha256 GoJson LedgerModel DispatchPolicy.
Open Scope string_scope.
Open Scope Z_scope.
Open Scope go_scope.

(** ** Rows *)

Record delivery_row := mkDeliveryRow {
  dl_id : string; dl_outcome : string; dl_semantic_key : option string; dl_stream_sequence : Z;
  dl_recorded_at : Z }.

Record job_row := mkJobRow {
  j_id : Z; j_semantic_key : string; j_route_id : string; j_launch_profile : string; j_repository : string;
  j_issue_number : Z; j_source_delivery_id : string; j_broker_run_id : string; j_status : string;
  j_attempts : Z; j_pre_outbox_attempts : Z; j_first_launch_attempt_at : option Z; j_due_at : Z;
  j_last_error : string; j_created_at : Z; j_updated_at : Z }.
#[export] Instance job_row_eta : Eta job_row := fun j =>
  mkJobRow (j_id j) (j_semantic_key j) (j_route_id j) (j_launch_profile j) (j_repository j) (j_issue_number j)
    (j_source_delivery_id j) (j_broker_run_id j) (j_status j) (j_attempts j) (j_pre_outbox_attempts j)
    (j_first_launch_attempt_at j) (j_due_at j) (j_last_error j) (j_created_at j) (j_updated_at j).

Record recovery_row := mkRecoveryRow {
  rr_id : string; rr_durable : string; rr_manifest_sequence : Z; rr_start_sequence : Z;
  rr_restored_job_count : Z; rr_replay_count : Z; rr_status : string; rr_error : string; rr_started_at : Z;
  rr_completed_at : option Z }.
#[export] Instance recovery_row_eta : Eta recovery_row := fun r =>
  mkRecoveryRow (rr_id r) (rr_durable r) (rr_manifest_sequence r) (rr_start_sequence r)
    (rr_restored_job_count r) (rr_replay_count r) (rr_status r) (rr_error r) (rr_started_at r) (rr_completed_at r).

(** [recovery_jobs]: the frozen columns are those of the [Job]. *)
Record recovery_job_row := mkRecoveryJobRow { rj_recovery_id : string; rj_job : Job }.

Record reconciliation_row := mkReconciliationRow {
  rc_recovery_id : string; rc_job_id : Z; rc_broker_run_id : string; rc_prior_status : string;
  rc_broker_status : string; rc_reconciled_status : string; rc_reconciled_at : Z }.

(** terminal_results; [result_json] is [""] when the result is nil. *)
Record terminal_row := mkTerminalRow {
  tm_job_id : Z; tm_version : string; tm_run_id : string; tm_profile : string; tm_repository : string;
  tm_branch : string; tm_status : string; tm_outcome : string; tm_finalize_reason : string;
  tm_terminal_source : string; tm_idempotency_key_digest : string; tm_request_fingerprint : string;
  tm_launch_config_version : string; tm_result_json : string; tm_final_summary : string;
  tm_failure_stage : string; tm_failure_reason : string; tm_recorded_at : Z }.

Record outbox_row := mkOutboxRow {
  ob_id : Z; ob_job_id : Z; ob_version : string; ob_body : string; ob_idempotency_key : string;
  ob_status : string; ob_attempts : Z; ob_due_at : Z; ob_comment_id : option Z; ob_comment_url : string;
  ob_delivered_at : option Z; ob_last_error : string; ob_created_at : Z; ob_updated_at : Z }.
#[export] Instance outbox_row_eta : Eta outbox_row := fun o =>
  mkOutboxRow (ob_id o) (ob_job_id o) (ob_version o) (ob_body o) (ob_idempotency_key o) (ob_status o)
    (ob_attempts o) (ob_due_at o) (ob_comment_id o) (ob_comment_url o) (ob_delivered_at o) (ob_last_error o)
    (ob_created_at o) (ob_updated_at o).

(** repository_run_external_waits. *)
Record wait_row := mkWaitRow {
  wr_job_id : Z; wr_broker_run_id : string; wr_service : string; wr_phase : string; wr_operation : string;
  wr_reason : string; wr_generation : Z; wr_since : Z; wr_resume_key : string; wr_max_runtime_seconds : Z;
  wr_state : string; wr_created_at : Z; wr_updated_at : Z }.
#[export] Instance wait_row_eta : Eta wait_row := fun w =>
  mkWaitRow (wr_job_id w) (wr_broker_run_id w) (wr_service w) (wr_phase w) (wr_operation w) (wr_reason w)
    (wr_generation w) (wr_since w) (wr_resume_key w) (wr_max_runtime_seconds w) (wr_state w) (wr_created_at w)
    (wr_updated_at w).

Record ci_task_row := mkCITaskRow {
  ct_job_id : Z; ct_repository : string; ct_issue_number : Z; ct_pull_number : Z; ct_branch : string;
  ct_current_head_sha : string; ct_agent_model : string; ct_state : string; ct_repair_attempts : Z;
  ct_deadline_at : Z; ct_initial_result_json : string; ct_last_ci_state : string; ct_last_ci_json : string;
  ct_created_at : Z; ct_updated_at : Z; ct_terminal_at : option Z }.
#[export] Instance ci_task_row_eta : Eta ci_task_row := fun t =>
  mkCITaskRow (ct_job_id t) (ct_repository t) (ct_issue_number t) (ct_pull_number t) (ct_branch t)
    (ct_current_head_sha t) (ct_agent_model t) (ct_state t) (ct_repair_attempts t) (ct_deadline_at t)
    (ct_initial_result_json t) (ct_last_ci_state t) (ct_last_ci_json t) (ct_created_at t) (ct_updated_at t)
    (ct_terminal_at t).

Record ci_event_row := mkCIEventRow {
  ce_delivery_id : string; ce_repository : string; ce_pull_number : Z; ce_head_sha : string;
  ce_event_kind : string; ce_action : string; ce_semantic_identity : string; ce_payload_digest : string;
  ce_received_at : Z; ce_recorded_at : Z }.

Record ci_reconciliation_row := mkCIReconciliationRow {
  cr_operation_key : string; cr_job_id : Z; cr_head_sha : string; cr_state : string; cr_deadline_wake : bool;
  cr_dirty : bool; cr_operation_attempts : Z; cr_last_error : string; cr_due_at : Z; cr_result_digest : string;
  cr_created_at : Z; cr_updated_at : Z }.
#[export] Instance ci_reconciliation_row_eta : Eta ci_reconciliation_row := fun r =>
  mkCIReconciliationRow (cr_operation_key r) (cr_job_id r) (cr_head_sha r) (cr_state r) (cr_deadline_wake r)
    (cr_dirty r) (cr_operation_attempts r) (cr_last_error r) (cr_due_at r) (cr_result_digest r)
    (cr_created_at r) (cr_updated_at r).

Record ci_attempt_row := mkCIAttemptRow {
  ca_attempt_key : string; ca_job_id : Z; ca_attempt_number : Z; ca_failed_head_sha : string;
  ca_agent_model : string; ca_state : string; ca_charged : bool; ca_broker_run_id : string;
  ca_max_runtime_seconds : Z; ca_wait_service : string; ca_wait_phase : string; ca_wait_operation : string;
  ca_wait_reason : string; ca_wait_generation : Z; ca_wait_since : option Z; ca_resume_key : string;
  ca_resumed_generation : Z; ca_expected_old_head_sha : string; ca_candidate_head_sha : string;
  ca_validated_tree_sha : string; ca_delivered_head_sha : string; ca_delivered_tree_sha : string;
  ca_failure_class : string; ca_operation_attempts : Z; ca_last_error : string; ca_due_at : Z;
  ca_created_at : Z; ca_updated_at : Z }.
#[export] Instance ci_attempt_row_eta : Eta ci_attempt_row := fun a =>
  mkCIAttemptRow (ca_attempt_key a) (ca_job_id a) (ca_attempt_number a) (ca_failed_head_sha a)
    (ca_agent_model a) (ca_state a) (ca_charged a) (ca_broker_run_id a) (ca_max_runtime_seconds a)
    (ca_wait_service a) (ca_wait_phase a) (ca_wait_operation a) (ca_wait_reason a) (ca_wait_generation a)
    (ca_wait_since a) (ca_resume_key a) (ca_resumed_generation a) (ca_expected_old_head_sha a)
    (ca_candidate_head_sha a) (ca_validated_tree_sha a) (ca_delivered_head_sha a) (ca_delivered_tree_sha a)
    (ca_failure_class a) (ca_operation_attempts a) (ca_last_error a) (ca_due_at a) (ca_created_at a)
    (ca_updated_at a).

Record escalation_row := mkEscalationRow {
  es_job_id : Z; es_operation_key : string; es_body : string; es_state : string; es_attempts : Z;
  es_comment_id : option Z; es_comment_url : string; es_last_error : string; es_due_at : Z;
  es_created_at : Z; es_updated_at : Z }.
#[export] Instance escalation_row_eta : Eta escalation_row := fun e =>
  mkEscalationRow (es_job_id e) (es_operation_key e) (es_body e) (es_state e) (es_attempts e) (es_comment_id e)
    (es_comment_url e) (es_last_error e) (es_due_at e) (es_created_at e) (es_updated_at e).

(** [checkpoint] is the one row of dispatcher_metadata. *)
Record DB := mkDB {
  deliveries : list delivery_row; jobs : list job_row; checkpoint : Z; recovery_runs : list recovery_row;
  recovery_jobs : list recovery_job_row; recovery_reconciliations : list reconciliation_row;
  recovery_replayed_messages : list (string * Z); terminal_results : list terminal_row;
  notification_outbox : list outbox_row; external_waits : list wait_row; ci_tasks : list ci_task_row;
  ci_events : list ci_event_row; ci_reconciliations : list ci_reconciliation_row;
  ci_attempts : list ci_attempt_row; ci_escalations : list escalation_row }.
#[export] Instance DB_eta : Eta DB := fun d =>
  mkDB (deliveries d) (jobs d) (checkpoint d) (recovery_runs d) (recovery_jobs d) (recovery_reconciliations d)
    (recovery_replayed_messages d) (terminal_results d) (notification_outbox d) (external_waits d) (ci_tasks d)
    (ci_events d) (ci_reconciliations d) (ci_attempts d) (ci_escalations d).

Definition empty_db : DB := mkDB [] [] 0 [] [] [] [] [] [] [] [] [] [] [] [].

(** The rowid SQLite gives to a new row of a table with integer primary keys. *)
Definition next_rowid {R} (id : R -> Z) (t : list R) : Z := 1 + fold_right (fun r m => Z.max (id r) m) 0 t.

Definition has_terminal (db : DB) (id : Z) : bool := exists_where (fun t => tm_job_id t =? id) (terminal_results db).
Definition has_outbox (db : DB) (id : Z) : bool := exists_where (fun o => ob_job_id o =? id) (notification_outbox db).

(** [expectOne]: the statement must have updated exactly one row. *)
Definition expectOne (rows : Z) (operation : string) : res unit :=
  guard_err (negb (rows =? 1)) (operation ++ ": expected one lifecycle row").

(** A single UPDATE of jobs outside a transaction, with its row count. *)
Definition exec_jobs (p : job_row -> bool) (f : job_row -> job_row) (operation : string) (db : DB) : DB * res unit :=
  (db <| jobs ::= update_where p f |>, expectOne (count_where p (jobs db)) operation).

(** The driver refuses unsigned values with the high bit set. *)
Definition high_bit (n : Z) : bool := 2 ^ 63 <=? n.
Definition ErrHighBit : string := "uint64 values with high bit set are not supported".

(** ** Opening the store *)

Definition set_status (s : string) (j : job_row) : job_row := j <| j_status := s |>.
Definition requeue_report (j : job_row) : job_row :=
  j <| j_status := StateReportPending |> <| j_due_at := j_updated_at j |>.

(** The statements of the lifecycle initialisation, run at every start. *)
Definition migrate_pending (db : DB) : DB :=
  db <| jobs ::= update_where (fun j => j_status j == "pending") (set_status StatePendingLaunch) |>.
Definition migrate_retry (db : DB) : DB :=
  db <| jobs ::= update_where (fun j => one_of (j_status j) ["retry"; "running"]) (set_status StateLaunchRetry) |>.
Definition migrate_succeeded (db : DB) : DB :=
  db <| jobs ::= update_where (fun j => (j_status j == "succeeded") && (j_broker_run_id j != ""))
                   (set_status StateLaunched) |>.
Definition migrate_terminal (db : DB) : DB :=
  db <| jobs ::= update_where (fun j => one_of (j_status j) ["succeeded"; "terminal"]) (set_status JobFailed) |>.
Definition migrate_unreported (db : DB) : DB :=
  db <| jobs ::= update_where (fun j => (j_broker_run_id j != "")
                   && one_of (j_status j) [JobCompleted; JobFailed; StateTimedOut]
                   && negb (has_terminal db (j_id j))) requeue_report |>.
Definition migrate_blocked (db : DB) : DB :=
  db <| jobs ::= update_where (fun j => (j_broker_run_id j != "") && (j_status j == StateReportBlocked)
                   && negb (has_terminal db (j_id j)) && negb (has_outbox db (j_id j))) requeue_report |>.
(** The checkpoint is at least every recorded stream sequence. *)
Definition migrate_checkpoint (db : DB) : DB :=
  db <| checkpoint ::= fun v => Z.max v (fold_right (fun d m => Z.max (dl_stream_sequence d) m) 0 (deliveries db)) |>.

(** [OpenStore] on an existing database of the current schema. *)
Definition OpenStore (db : DB) : DB :=
  migrate_checkpoint (migrate_blocked (migrate_unreported (migrate_terminal
    (migrate_succeeded (migrate_retry (migrate_pending db)))))).

(** ** Recording deliveries *)

Definition nullable (value : string) : option string := if value == "" then None else Some value.

Definition advance (seq : Z) (db : DB) : DB := db <| checkpoint ::= fun v => Z.max v seq |>.

Definition incomplete_run (id : string) (r : recovery_row) : bool :=
  (rr_id r == id) && (rr_status r == RecoveryIncomplete).

(** The INSERT ... SELECT ... WHERE EXISTS ... ON CONFLICT DO NOTHING with the
    check made when it inserted nothing. *)
Definition record_replayed (recoveryID : string) (seq : Z) (db : DB) : res DB :=
  let open := exists_where (incomplete_run recoveryID) (recovery_runs db) in
  if open && negb (exists_where (fun m => (fst m == recoveryID) && (snd m =? seq)) (recovery_replayed_messages db))
  then Ok (db <| recovery_replayed_messages := (recovery_replayed_messages db ++ [(recoveryID, seq)])%list |>)
  else
    _ ← guard_err (negb (count_where (incomplete_run recoveryID) (recovery_runs db) =? 1)) "recovery is not incomplete";
    Ok db.

Definition new_job_row (db : DB) (c : Candidate) (now : Z) : job_row :=
  mkJobRow (next_rowid j_id (jobs db)) (SemanticKey c) (cd_RouteID c) (cd_Profile c) (cd_Repository c)
    (cd_IssueNumber c) (cd_DeliveryID c) "" StatePendingLaunch 0 0 None (UnixMilli now) "" (UnixMilli now)
    (UnixMilli now).

(** INSERT INTO jobs ... ON CONFLICT(semantic_key) DO NOTHING. *)
Definition insert_job (c : Candidate) (now : Z) (db : DB) : DB :=
  if exists_where (fun j => j_semantic_key j == SemanticKey c) (jobs db) then db
  else db <| jobs := (jobs db ++ [new_job_row db c now])%list |>.

Definition record (recoveryID deliveryID outcome : string) (streamSequence : Z) (candidate : option Candidate)
    (now : Z) (db0 : DB) : DB * res unit :=
  transact (fun db =>
    _ ← guard_err (streamSequence =? 0) "positive JetStream stream sequence is required";
    _ ← guard_err (match candidate with
                   | Some c => (deliveryID == "") || (cd_DeliveryID c != deliveryID)
                   | None => false
                   end) "selected job requires matching nonempty delivery id";
    _ ← guard_err (high_bit streamSequence) ErrHighBit;
    db ← if recoveryID != "" then record_replayed recoveryID streamSequence db else Ok db;
    let semantic := match candidate with Some c => SemanticKey c | None => "" end in
    if (deliveryID != "") && exists_where (fun d => dl_id d == deliveryID) (deliveries db)
    then Ok (tt, advance streamSequence db)
    else
      let db := if deliveryID != ""
                then db <| deliveries := (deliveries db ++ [mkDeliveryRow deliveryID outcome (nullable semantic)
                             streamSequence (UnixMilli now)])%list |>
                else db in
      let db := match candidate with Some c => insert_job c now db | None => db end in
      Ok (tt, advance streamSequence db)) db0.

Definition Record_ (deliveryID outcome : string) (seq : Z) (candidate : option Candidate) (now : Z) (db : DB) :=
  record "" deliveryID outcome seq candidate now db.

Definition RecordRecovery (recoveryID deliveryID outcome : string) (seq : Z) (candidate : option Candidate)
    (now : Z) (db : DB) : DB * res unit :=
  if recoveryID == "" then (db, Err "recovery id is required")
  else record recoveryID deliveryID outcome seq candidate now db.

(** ** Recovery runs *)

(** Statements outside any transaction: the inserted row stays when a later
    check fails. *)
Definition BeginRecovery (id durable : string) (manifestSequence now : Z) (db : DB) : DB * res unit :=
  if (id == "") || (durable == "") then (db, Err "recovery id and durable are required")
  else if negb (checkpoint db =? manifestSequence)
  then (db, Err "manifest sequence does not match restored SQLite checkpoint")
  else
    let start := (manifestSequence + 1) mod 2 ^ 64 in
    if high_bit manifestSequence || high_bit start then (db, Err ErrHighBit)
    else
      let fresh := negb (exists_where (fun r => rr_id r == id) (recovery_runs db)) in
      let db := if fresh
                then db <| recovery_runs := (recovery_runs db ++ [mkRecoveryRow id durable manifestSequence start
                             (-1) 0 RecoveryIncomplete "" (UnixMilli now) None])%list |>
                else db in
      (db,
       run ← of_option ErrNoRows (first_where (fun r => rr_id r == id) (recovery_runs db));
       _ ← guard_err ((rr_durable run != durable) || negb (rr_manifest_sequence run =? manifestSequence)
             || negb (rr_start_sequence run =? start) || ((rr_status run == RecoveryCompleted) && negb fresh))
             "recovery id already exists with different or completed parameters";
       guard_err (negb (count_where (fun r => (rr_status r == RecoveryIncomplete) && (rr_id r != id))
                    (recovery_runs db) =? 0)) "another recovery is incomplete").

Definition FailRecovery (id message : string) (db : DB) : DB * res unit :=
  (db <| recovery_runs ::= update_where (incomplete_run id) (fun r => r <| rr_error := message |>) |>, Ok tt).

Definition optionalMilliTime (ms : option Z) : Z := match ms with Some t => OfUnixMilli t | None => ZeroTime end.

(** The columns most queries read into a [Job]. *)
Definition job_of (pre_outbox : bool) (j : job_row) : Job :=
  mkJob (j_id j) (j_semantic_key j) (j_route_id j) (j_launch_profile j) (j_repository j) (j_issue_number j)
    (j_source_delivery_id j) (j_broker_run_id j) (j_status j) (j_attempts j)
    (if pre_outbox then j_pre_outbox_attempts j else 0) (optionalMilliTime (j_first_launch_attempt_at j)).

Definition nonterminal (j : job_row) : bool :=
  one_of (j_status j) [StatePendingLaunch; StateLaunchRetry; StateLaunched; StateExternalWaiting].

(** ORDER BY id: rows are appended with increasing ids. *)
Definition RecoveryJobs (db : DB) : list Job := map (job_of false) (rows_where nonterminal (jobs db)).

Definition PrepareRecoveryJobs (recoveryID : string) (db0 : DB) : DB * res (list Job) :=
  transact (fun db =>
    run ← of_option ErrNoRows (first_where (incomplete_run recoveryID) (recovery_runs db));
    db ← if rr_restored_job_count run <? 0 then
           _ ← guard_err (exists_where (fun r => (rj_recovery_id r == recoveryID)
                  && exists_where (fun j => nonterminal j && (j_id j =? jb_ID (rj_job r))) (jobs db)) (recovery_jobs db))
                 ErrConstraint;
           let db := db <| recovery_jobs := (recovery_jobs db ++
                       map (fun j => mkRecoveryJobRow recoveryID (job_of false j)) (rows_where nonterminal (jobs db)))%list |> in
           let expected := count_where (fun r => rj_recovery_id r == recoveryID) (recovery_jobs db) in
           Ok (db <| recovery_runs ::= update_where
                      (fun r => (rr_id r == recoveryID) && (rr_restored_job_count r =? -1))
                      (fun r => r <| rr_restored_job_count := expected |>) |>)
         else Ok db;
    Ok (map rj_job (rows_where (fun r => rj_recovery_id r == recoveryID) (recovery_jobs db)), db)) db0.

Definition RecordReconciliation (recoveryID : string) (job : Job) (brokerStatus reconciledStatus : string)
    (now : Z) (db0 : DB) : DB * res unit :=
  transact (fun db =>
    _ ← guard_err (((jb_Status job != StateLaunched) && (jb_Status job != StateExternalWaiting))
          || (jb_BrokerRunID job == "")) "restored nonterminal job has no reconcilable broker run";
    _ ← guard_err (negb (one_of reconciledStatus [StateLaunched; StateExternalWaiting; StateReportPending]))
          "invalid reconciled status";
    if count_where (fun r => (rc_recovery_id r == recoveryID) && (rc_job_id r =? jb_ID job))
         (recovery_reconciliations db) =? 1
    then Ok (tt, db)
    else
      db ←
        if reconciledStatus == StateLaunched then
          let p := fun j => (j_id j =? jb_ID job) && one_of (j_status j) [StateLaunched; StateReportPending]
                            && (j_broker_run_id j == jb_BrokerRunID job) && negb (has_terminal db (j_id j)) in
          _ ← expectOne (count_where p (jobs db)) "reconcile nonterminal job";
          Ok (db <| jobs ::= update_where p (fun j =>
                j <| j_status := StateLaunched |> <| j_due_at := UnixMilli (now + StatusPollInterval) |>
                  <| j_updated_at := UnixMilli now |>) |>)
        else if reconciledStatus == StateReportPending then
          _ ← guard_err (negb (count_where (fun t => tm_job_id t =? jb_ID job) (terminal_results db) =? 1)
                || negb (count_where (fun o => ob_job_id o =? jb_ID job) (notification_outbox db) =? 1))
                "terminal recovery reconciliation requires result and outbox";
          Ok db
        else Ok db;
      _ ← guard_err (exists_where (fun r => (rc_recovery_id r == recoveryID) && (rc_job_id r =? jb_ID job))
                       (recovery_reconciliations db)
            || negb (exists_where (fun r => rr_id r == recoveryID) (recovery_runs db))) ErrConstraint;
      Ok (tt, db <| recovery_reconciliations := (recovery_reconciliations db ++
                [mkReconciliationRow recoveryID (jb_ID job) (jb_BrokerRunID job) (jb_Status job) brokerStatus
                   reconciledStatus (UnixMilli now)])%list |>)) db0.

Definition reconciliations_of (id : string) (db : DB) : list reconciliation_row :=
  rows_where (fun r => rc_recovery_id r == id) (recovery_reconciliations db).

Record RecoveryRun := mkRecoveryRun {
  rn_ID : string; rn_Durable : string; rn_ManifestSequence : Z; rn_StartSequence : Z; rn_ReplayCount : Z;
  rn_Status : string; rn_Error : string }.

Record Reconciliation := mkReconciliation {
  rl_JobID : Z; rl_BrokerRunID : string; rl_PriorStatus : string; rl_BrokerStatus : string; rl_ReconciledStatus : string }.

(** ORDER BY job_id. *)
Fixpoint insert_by_job (r : reconciliation_row) (rows : list reconciliation_row) : list reconciliation_row :=
  match rows with
  | [] => [r]
  | x :: rest => if rc_job_id r <? rc_job_id x then r :: rows else x :: insert_by_job r rest
  end.

Definition reconciliation_of (r : reconciliation_row) : Reconciliation :=
  mkReconciliation (rc_job_id r) (rc_broker_run_id r) (rc_prior_status r) (rc_broker_status r) (rc_reconciled_status r).

Definition RecoveryEvidence (id : string) (db : DB) : res (RecoveryRun * list Reconciliation) :=
  r ← of_option ErrNoRows (first_where (fun r => rr_id r == id) (recovery_runs db));
  Ok (mkRecoveryRun (rr_id r) (rr_durable r) (rr_manifest_sequence r) (rr_start_sequence r) (rr_replay_count r)
        (rr_status r) (rr_error r),
      map reconciliation_of (fold_left (fun rows r => insert_by_job r rows) (reconciliations_of id db) [])).

Definition CompleteRecovery (id : string) (expected now : Z) (db : DB) : DB * res (RecoveryRun * list Reconciliation) :=
  if negb (Z.of_nat (length (reconciliations_of id db)) =? expected)
  then (db, Err "recorded reconciliations for restored nonterminal jobs")
  else
    let replays := count_where (fun m => fst m == id) (recovery_replayed_messages db) in
    let db' := db <| recovery_runs ::= update_where (incomplete_run id) (fun r =>
                 r <| rr_replay_count := replays |> <| rr_status := RecoveryCompleted |> <| rr_error := "" |>
                   <| rr_completed_at := Some (UnixMilli now) |>) |> in
    (db',
     _ ← expectOne (count_where (incomplete_run id) (recovery_runs db)) "complete recovery";
     RecoveryEvidence id db').

Definition AssertRecoveryComplete (durable : string) (startSequence : Z) (db : DB) : res unit :=
  _ ← guard_err (negb (count_where (fun r => rr_status r == RecoveryIncomplete) (recovery_runs db) =? 0))
        "dispatcher recovery is incomplete; launches are blocked";
  if startSequence =? 0 then Ok tt
  else guard_err (negb (count_where (fun r => (rr_durable r == durable) && (rr_start_sequence r =? startSequence)
                    && (rr_status r == RecoveryCompleted)) (recovery_runs db) =? 1))
         "dispatcher recovery configuration has no matching completed recovery".

Definition RecoverySequence (db : DB) : Z := (checkpoint db + 1) mod 2 ^ 64.

Definition SchemaVersion : Z := 22.

(** The schema version of an opened database, its checkpoint and the sequence after it. *)
Definition RecoveryMetadata (db : DB) : Z * Z * Z := (SchemaVersion, checkpoint db, (checkpoint db + 1) mod 2 ^ 64).

(** ** Claiming *)

Inductive WorkKind := WorkLaunch | WorkStatus.
Record Work := mkWork { wk_Kind : WorkKind; wk_Job : Job }.

(** The oldest job that blocks the queue. *)
Definition blocking (db : DB) (j : job_row) : bool :=
  one_of (j_status j) [StatePendingLaunch; StateLaunchRetry; StateLaunched; StateExternalWaiting; StateReportPending]
  && ((j_status j != StateReportPending) || negb (has_terminal db (j_id j))).

Definition queue_order (j : job_row) : list Z := [j_created_at j; j_id j].

Definition launchable (s : string) : bool := one_of s [StatePendingLaunch; StateLaunchRetry].

Definition ClaimDue (now : Z) (db0 : DB) : DB * res (option Work) :=
  transact (fun db =>
    match best_where queue_order (blocking db) (jobs db) with
    | None => Ok (None, db)
    | Some j =>
        let job := job_of true j in
        if UnixMilli now <? j_due_at j then Ok (None, db)
        else if one_of (j_status j) [StateLaunched; StateExternalWaiting; StateReportPending]
        then Ok (Some (mkWork WorkStatus job), db)
        else
          let p := fun x => (j_id x =? j_id j) && launchable (j_status x) in
          if negb (count_where p (jobs db) =? 1) then Ok (None, db)
          else Ok (Some (mkWork WorkLaunch (job <| jb_Attempts ::= Z.succ |>
                          <| jb_FirstAttemptAt := match j_first_launch_attempt_at j with
                                                  | Some t => OfUnixMilli t | None => now end |>)),
                   db <| jobs ::= update_where p (fun x =>
                     x <| j_attempts ::= Z.succ |>
                       <| j_first_launch_attempt_at ::= fun f => match f with Some _ => f | None => Some (UnixMilli now) end |>
                       <| j_updated_at := UnixMilli now |>) |>)
    end) db0.

(** ** Lifecycle updates *)

Definition MarkLaunched (id : Z) (brokerRunID : string) (due now : Z) (db : DB) : DB * res unit :=
  if brokerRunID == "" then (db, Err "broker run id is required")
  else exec_jobs (fun j => (j_id j =? id) && launchable (j_status j))
         (fun j => j <| j_status := StateLaunched |> <| j_broker_run_id := brokerRunID |>
                     <| j_due_at := UnixMilli due |> <| j_updated_at := UnixMilli now |> <| j_last_error := "" |>)
         "mark launched" db.

Definition MarkLaunchFailure (id : Z) (retry : bool) (due : Z) (message : string) (now : Z) (db : DB)
    : DB * res unit :=
  exec_jobs (fun j => (j_id j =? id) && launchable (j_status j))
    (fun j => j <| j_status := if retry then StateLaunchRetry else JobFailed |> <| j_due_at := UnixMilli due |>
                <| j_last_error := message |> <| j_updated_at := UnixMilli now |>)
    "mark launch failure" db.

Definition pollable (s : string) : bool := one_of s [StateLaunched; StateReportPending].

Definition MarkStatus (id : Z) (status : string) (due : Z) (message : string) (now : Z) (db : DB) : DB * res unit :=
  exec_jobs (fun j => (j_id j =? id) && pollable (j_status j))
    (fun j => j <| j_status := status |> <| j_due_at := UnixMilli due |> <| j_last_error := message |>
                <| j_updated_at := UnixMilli now |>
                <| j_pre_outbox_attempts ::= fun n => if message == "" then 0 else n |>)
    "mark status" db.

(** Returns the new attempt count. *)
Definition MarkPreOutboxFailure (id : Z) (status : string) (due : Z) (message : string) (now : Z) (db : DB)
    : DB * res Z :=
  if negb (pollable status) then (db, Err "invalid pre-outbox recovery state")
  else
    let '(db', r) := exec_jobs (fun j => (j_id j =? id) && pollable (j_status j) && negb (has_terminal db (j_id j)))
      (fun j => j <| j_status := status |> <| j_pre_outbox_attempts ::= Z.succ |> <| j_due_at := UnixMilli due |>
                  <| j_last_error := message |> <| j_updated_at := UnixMilli now |>)
      "mark pre-outbox failure" db in
    (db', _ ← r;
          j ← of_option ErrNoRows (first_where (fun j => j_id j =? id) (jobs db'));
          Ok (j_pre_outbox_attempts j)).

Definition DeferReportPending (id due now : Z) (db : DB) : DB * res unit :=
  exec_jobs (fun j => (j_id j =? id) && (j_status j == StateReportPending) && negb (has_terminal db (j_id j)))
    (fun j => j <| j_due_at := UnixMilli due |>
                <| j_last_error := "terminal reporting deferred: reporter broker is not configured" |>
                <| j_updated_at := UnixMilli now |>)
    "defer report pending" db.

(** ** Statistics *)

(** ** Statistics: the count of every lifecycle state and the age of the oldest active job. *)

Definition status_count (state : string) (db : DB) : Z := count_where (fun j => j_status j == state) (jobs db).

Definition oldest_active (db : DB) : option Z :=
  match map j_created_at (rows_where nonterminal (jobs db)) with
  | [] => None
  | t :: ts => Some (fold_right Z.min t ts)
  end.

Definition OldestAge (now : Z) (db : DB) : Z :=
  match oldest_active db with
  | Some t => if OfUnixMilli t <? now then now - OfUnixMilli t else 0
  | None => 0
  end.

Record StoreStats := mkStoreStats { ss_Counts : list (string * Z); ss_OldestAge : Z }.

Definition Stats (now : Z) (db : DB) : StoreStats :=
  mkStoreStats (map (fun state => (state, status_count state db)) lifecycleStates) (OldestAge now db).

Definition Counts (db : DB) : Z * Z := (Z.of_nat (length (deliveries db)), Z.of_nat (length (jobs db))).
