(* ===== verification/Terminal.v ===== *)
(** * Terminal results and their outbox

    [internal/dispatcher/terminal.go]: validation of a broker projection
    against its job, the rendered issue comment, and the durable result and
    notification outbox with its delivery, retry and reconciliation. *)

From S2P Require Import Prelude GoText GoSha256 GoJson GoNet LedgerModel DispatchPolicy DispatchStore.
From Stdlib Require Import Ascii.
Open Scope string_scope.
Open Scope Z_scope.
Open Scope go_scope.

Definition terminalResultVersion : string := "repository-task-terminal-result/v1".
Definition workerResultVersion : string := "repository-task-worker-result/v1".
Definition maxTerminalTextBytes : Z := 32768.
Definition maxCommentBytes : Z := 65536.

(** A [map[string]any] is represented by the members of the object it is
    marshalled to; [None] is the nil map. *)
Record TerminalResult := mkTerminalResult {
  tr_Version : string; tr_RunID : string; tr_ResultProfile : string; tr_Repo : string; tr_Branch : string;
  tr_Status : string; tr_Outcome : string; tr_FinalizeReason : string; tr_TerminalSource : string;
  tr_IdempotencyKeyDigest : string; tr_RequestFingerprint : string; tr_LaunchConfigVersion : string;
  tr_Result : option (list (string * json)); tr_FinalSummary : string; tr_FailureStage : string;
  tr_FailureReason : string; tr_ModelExecutionStarted : bool; tr_FailureClass : string }.
#[export] Instance TerminalResult_eta : Eta TerminalResult := fun r =>
  mkTerminalResult (tr_Version r) (tr_RunID r) (tr_ResultProfile r) (tr_Repo r) (tr_Branch r) (tr_Status r)
    (tr_Outcome r) (tr_FinalizeReason r) (tr_TerminalSource r) (tr_IdempotencyKeyDigest r)
    (tr_RequestFingerprint r) (tr_LaunchConfigVersion r) (tr_Result r) (tr_FinalSummary r) (tr_FailureStage r)
    (tr_FailureReason r) (tr_ModelExecutionStarted r) (tr_FailureClass r).

(** ** The worker's result *)

Record pull_request := mkPullRequest { pr_Number : Z; pr_HTMLURL : string; pr_URL : string }.
#[export] Instance pull_request_eta : Eta pull_request := fun p =>
  mkPullRequest (pr_Number p) (pr_HTMLURL p) (pr_URL p).

Record workerTerminalResult := mkWorker {
  wt_Version : string; wt_Outcome : string; wt_Detail : string; wt_Stage : string; wt_RunID : string;
  wt_Repository : string; wt_BaseBranch : string; wt_Branch : string; wt_VerifyTask : string;
  wt_VerificationStatus : string; wt_ExpectedOldHeadSHA : string; wt_CandidateHeadSHA : string;
  wt_DeliveredHeadSHA : string; wt_ValidatedTreeSHA : string; wt_DeliveredTreeSHA : string;
  wt_PullRequest : option pull_request }.
#[export] Instance workerTerminalResult_eta : Eta workerTerminalResult := fun w =>
  mkWorker (wt_Version w) (wt_Outcome w) (wt_Detail w) (wt_Stage w) (wt_RunID w) (wt_Repository w)
    (wt_BaseBranch w) (wt_Branch w) (wt_VerifyTask w) (wt_VerificationStatus w) (wt_ExpectedOldHeadSHA w)
    (wt_CandidateHeadSHA w) (wt_DeliveredHeadSHA w) (wt_ValidatedTreeSHA w) (wt_DeliveredTreeSHA w)
    (wt_PullRequest w).
Definition zero_worker : workerTerminalResult := mkWorker "" "" "" "" "" "" "" "" "" "" "" "" "" "" "" None.

Definition set_pull (n : string) (v : json) (p : pull_request) : option pull_request :=
  if n == "number" then x ← decode_int v (pr_Number p); Some (p <| pr_Number := x |>)
  else if n == "html_url" then x ← decode_string v (pr_HTMLURL p); Some (p <| pr_HTMLURL := x |>)
  else x ← decode_string v (pr_URL p); Some (p <| pr_URL := x |>).

(** A pointer to a struct: [null] makes it nil, a value fills what it points to. *)
Definition decode_pull (v : json) (old : option pull_request) : option (option pull_request) :=
  match v with
  | JNull => Some None
  | _ => x ← decode_struct ["number"; "html_url"; "url"] false set_pull v (default (mkPullRequest 0 "" "") old);
         Some (Some x)
  end.

Definition set_worker (n : string) (v : json) (w : workerTerminalResult) : option workerTerminalResult :=
  if n == "version" then x ← decode_string v (wt_Version w); Some (w <| wt_Version := x |>)
  else if n == "outcome" then x ← decode_string v (wt_Outcome w); Some (w <| wt_Outcome := x |>)
  else if n == "detail" then x ← decode_string v (wt_Detail w); Some (w <| wt_Detail := x |>)
  else if n == "stage" then x ← decode_string v (wt_Stage w); Some (w <| wt_Stage := x |>)
  else if n == "run_id" then x ← decode_string v (wt_RunID w); Some (w <| wt_RunID := x |>)
  else if n == "repository" then x ← decode_string v (wt_Repository w); Some (w <| wt_Repository := x |>)
  else if n == "base_branch" then x ← decode_string v (wt_BaseBranch w); Some (w <| wt_BaseBranch := x |>)
  else if n == "branch" then x ← decode_string v (wt_Branch w); Some (w <| wt_Branch := x |>)
  else if n == "verify_task" then x ← decode_string v (wt_VerifyTask w); Some (w <| wt_VerifyTask := x |>)
  else if n == "verification" then
    x ← decode_struct ["status"] false (fun _ v s => decode_string v s) v (wt_VerificationStatus w);
    Some (w <| wt_VerificationStatus := x |>)
  else if n == "expected_old_head_sha" then x ← decode_string v (wt_ExpectedOldHeadSHA w); Some (w <| wt_ExpectedOldHeadSHA := x |>)
  else if n == "candidate_head_sha" then x ← decode_string v (wt_CandidateHeadSHA w); Some (w <| wt_CandidateHeadSHA := x |>)
  else if n == "delivered_head_sha" then x ← decode_string v (wt_DeliveredHeadSHA w); Some (w <| wt_DeliveredHeadSHA := x |>)
  else if n == "validated_tree_sha" then x ← decode_string v (wt_ValidatedTreeSHA w); Some (w <| wt_ValidatedTreeSHA := x |>)
  else if n == "delivered_tree_sha" then x ← decode_string v (wt_DeliveredTreeSHA w); Some (w <| wt_DeliveredTreeSHA := x |>)
  else x ← decode_pull v (wt_PullRequest w); Some (w <| wt_PullRequest := x |>).

Definition worker_fields : list string :=
  ["version"; "outcome"; "detail"; "stage"; "run_id"; "repository"; "base_branch"; "branch"; "verify_task";
   "verification"; "expected_old_head_sha"; "candidate_head_sha"; "delivered_head_sha"; "validated_tree_sha";
   "delivered_tree_sha"; "pull_request"].

(** [json.Unmarshal(json.Marshal(r.Result), &worker)]. *)
Definition marshal_result (fields : list (string * json)) : string := marshal (JObj fields).

Definition decode_worker (fields : list (string * json)) : option workerTerminalResult :=
  parse_json (marshal_result fields) ≫= fun v => decode_struct worker_fields false set_worker v zero_worker.

(** ** URLs *)

Section WithURL.
Context `{NetURL}.

Definition validHTTPSURL (raw : string) : bool :=
  if (len raw =? 0) || (2048 <? len raw) then false
  else match url_Parse raw with
       | Some u => (pu_Scheme u == "https") && (pu_Host u != "") && negb (pu_HasUser u)
       | None => false
       end.

(** ** Validation *)

Definition prelaunchFailure (r : TerminalResult) : bool :=
  (tr_RunID r == "") && (tr_TerminalSource r == "signal_plane") && (tr_Status r == JobFailed)
  && (tr_Outcome r == JobFailed) && (tr_FailureStage r == "broker_launch").

Definition terminal_texts (r : TerminalResult) : list string :=
  [tr_Branch r; tr_Status r; tr_Outcome r; tr_FinalizeReason r; tr_TerminalSource r; tr_IdempotencyKeyDigest r;
   tr_RequestFingerprint r; tr_LaunchConfigVersion r; tr_FinalSummary r; tr_FailureStage r; tr_FailureReason r].

Definition terminal_outcomes : list string :=
  ["no_change_required"; "ready_for_review"; "failed"; "timed_out"; "stopped"; "cancelled"].

Definition validate_worker (r : TerminalResult) (worker : workerTerminalResult) : res unit :=
  _ ← guard_err ((wt_Version worker != workerResultVersion) || (wt_Outcome worker != tr_Outcome r)
        || (wt_RunID worker != tr_RunID r) || (wt_Repository worker != tr_Repo r) || (wt_Branch worker != tr_Branch r))
        "invalid worker result correlation";
  _ ← guard_err (negb (one_of (wt_VerificationStatus worker) ["passed"; "failed"; "not_run"]))
        "invalid worker verification status";
  _ ← guard_err (tr_FinalSummary r == "") "worker result is missing final summary";
  if wt_Outcome worker == "ready_for_review" then
    guard_err (match wt_PullRequest worker with
               | None => true
               | Some p => (pr_Number p <? 1) || negb (validHTTPSURL (pr_HTMLURL p)) || negb (validHTTPSURL (pr_URL p))
                           || negb (githubSHA (wt_DeliveredHeadSHA worker)) || negb (githubSHA (wt_ValidatedTreeSHA worker))
               end) "ready worker result is missing pull request identity"
  else guard_err (match wt_PullRequest worker with Some _ => true | None => false end)
         "non-review worker result contains pull request identity".

Definition ValidateTerminalResult (job : Job) (r : TerminalResult) : res unit :=
  _ ← guard_err ((tr_Version r != terminalResultVersion) || (tr_RunID r != jb_BrokerRunID job)
        || (tr_ResultProfile r != jb_Profile job) || (tr_Repo r != jb_Repository job))
        "invalid terminal result correlation";
  _ ← guard_err ((tr_RunID r == "") && negb (prelaunchFailure r))
        "terminal result is missing broker run correlation";
  _ ← guard_err (exists_where (fun v => negb (ValidString v) || (maxTerminalTextBytes <? len v)) (terminal_texts r))
        "invalid terminal result text";
  _ ← guard_err ((tr_Status r == "") || (tr_Outcome r == "") || (tr_IdempotencyKeyDigest r == "")
        || (tr_RequestFingerprint r == "") || (tr_LaunchConfigVersion r == ""))
        "terminal result is missing correlation fields";
  _ ← guard_err (maxTerminalTextBytes <? len (tr_FinalSummary r)) "invalid terminal result final summary";
  _ ← guard_err (negb (one_of (tr_Outcome r) terminal_outcomes)) "invalid terminal result outcome";
  _ ← guard_err (negb (terminalOutcomeMatchesStatus (tr_Status r) (tr_Outcome r) (tr_FailureStage r)))
        "terminal result outcome does not match broker status";
  match tr_Result r with
  | None =>
      guard_err ((tr_FailureStage r == "") || (tr_FailureReason r == "") || (tr_FinalSummary r != ""))
        "terminal result fallback is incomplete"
  | Some fields =>
      _ ← guard_err (maxTerminalTextBytes <? len (marshal_result fields)) "invalid bounded worker result";
      worker ← of_option "invalid worker result" (decode_worker fields);
      validate_worker r worker
  end.

(** ** The comment *)

Definition displayBrokerRun (runID : string) : string := if runID == "" then "not acknowledged" else runID.

Definition newline : string := String (byte_of 10) "".
Definition code_item (label value : string) : string := "- " ++ label ++ ": `" ++ value ++ "`".
Definition line_if (c : bool) (line : string) : list string := if c then [line] else [].

Definition comment_lines (job : Job) (r : TerminalResult) : list string :=
  let '(worker, verification) :=
    match tr_Result r with
    | None => (zero_worker, "not_run")
    | Some fields => let w := default zero_worker (decode_worker fields) in (w, wt_VerificationStatus w)
    end in
  (["## Repository task terminal result"; "";
    code_item "Outcome" (tr_Outcome r); code_item "Semantic job" (fmt_d (jb_ID job));
    code_item "Semantic key" (jb_SemanticKey job); code_item "Broker run" (displayBrokerRun (tr_RunID r));
    code_item "Result version" (tr_Version r); code_item "Launch config" (tr_LaunchConfigVersion r);
    code_item "Launch idempotency digest" (tr_IdempotencyKeyDigest r);
    code_item "Request fingerprint" (tr_RequestFingerprint r); code_item "Verification" verification]
   ++ line_if (tr_Branch r != "") (code_item "Branch" (tr_Branch r))
   ++ (if tr_Outcome r == "failed"
       then line_if (wt_Stage worker != "") (code_item "Failure stage" (wt_Stage worker))
            ++ line_if (wt_Detail worker != "") ("- Diagnostic: " ++ wt_Detail worker)
       else line_if (wt_Detail worker != "") ("- Detail: " ++ wt_Detail worker)
            ++ line_if (wt_Stage worker != "") (code_item "Worker stage" (wt_Stage worker)))
   ++ line_if (tr_Outcome r == "no_change_required")
        (if verification == "passed"
         then "- Result: the task and verification succeeded; the repository already satisfied the request."
         else "- Result: the task succeeded; no verification task ran, and the repository already satisfied the request.")
   ++ match wt_PullRequest worker with
      | Some p => [("- Pull request: [#" ++ fmt_d (pr_Number p) ++ "](" ++ pr_HTMLURL p ++ ")")%string]
      | None => []
      end
   ++ line_if ((tr_FailureStage r != "") && (wt_Stage worker == "")) (code_item "Failure stage" (tr_FailureStage r))
   ++ line_if ((tr_FailureReason r != "") && (wt_Detail worker == "")) ("- Diagnostic: " ++ tr_FailureReason r)
   ++ (if tr_FinalSummary r == ""
       then [""; "The worker did not produce a valid final summary; this harness-generated terminal result is reported instead."]
       else [""; "---"; ""; tr_FinalSummary r]))%list.

(** A worker result that fails to decode leaves what was decoded before the
    error; validation, which runs first on every path, excludes that case. *)
Definition RenderTerminalComment (job : Job) (r : TerminalResult) : res string :=
  let body := Join (comment_lines job r) newline ++ newline in
  _ ← guard_err (negb (ValidString body) || (maxCommentBytes <? len body)) "terminal comment exceeds GitHub comment limit";
  Ok body.

Definition reportKey (job : Job) (version : string) : string :=
  "repository-task-terminal:v1:" ++ sha256_hex (jb_SemanticKey job ++ nul ++ version).

(** ** Durable result and outbox *)

Definition result_json (r : TerminalResult) : string :=
  match tr_Result r with Some fields => marshal_result fields | None => "" end.

Definition terminal_row_of (job : Job) (r : TerminalResult) (now : Z) : terminal_row :=
  mkTerminalRow (jb_ID job) (tr_Version r) (tr_RunID r) (tr_ResultProfile r) (tr_Repo r) (tr_Branch r) (tr_Status r)
    (tr_Outcome r) (tr_FinalizeReason r) (tr_TerminalSource r) (tr_IdempotencyKeyDigest r)
    (tr_RequestFingerprint r) (tr_LaunchConfigVersion r) (result_json r) (tr_FinalSummary r) (tr_FailureStage r)
    (tr_FailureReason r) (UnixMilli now).

(** [sameStoredTerminalResult] and the comparison of the stored JSON: all
    columns but the time. *)
Definition sameStoredTerminalResult (t : terminal_row) (r : TerminalResult) : bool :=
  (tm_version t == tr_Version r) && (tm_run_id t == tr_RunID r) && (tm_profile t == tr_ResultProfile r)
  && (tm_repository t == tr_Repo r) && (tm_branch t == tr_Branch r) && (tm_status t == tr_Status r)
  && (tm_outcome t == tr_Outcome r) && (tm_finalize_reason t == tr_FinalizeReason r)
  && (tm_terminal_source t == tr_TerminalSource r) && (tm_idempotency_key_digest t == tr_IdempotencyKeyDigest r)
  && (tm_request_fingerprint t == tr_RequestFingerprint r)
  && (tm_launch_config_version t == tr_LaunchConfigVersion r) && (tm_final_summary t == tr_FinalSummary r)
  && (tm_failure_stage t == tr_FailureStage r) && (tm_failure_reason t == tr_FailureReason r).

Definition insert_terminal (row : terminal_row) (db : DB) : res DB :=
  if has_terminal db (tm_job_id row) then Ok db
  else
    _ ← guard_err (negb (exists_where (fun j => j_id j =? tm_job_id row) (jobs db))) ErrConstraint;
    Ok (db <| terminal_results := (terminal_results db ++ [row])%list |>).

(** INSERT INTO notification_outbox ... ON CONFLICT(job_id) DO NOTHING; the
    other unique column is the idempotency key. *)
Definition insert_outbox (job_id : Z) (version body key : string) (now : Z) (db : DB) : res DB :=
  if has_outbox db job_id then Ok db
  else
    _ ← guard_err (exists_where (fun o => ob_idempotency_key o == key) (notification_outbox db)) ErrConstraint;
    Ok (db <| notification_outbox := (notification_outbox db ++
          [mkOutboxRow (next_rowid ob_id (notification_outbox db)) job_id version body key "pending" 0
             (UnixMilli now) None "" None "" (UnixMilli now) (UnixMilli now)])%list |>).

Definition reportable (s : string) : bool :=
  one_of s [StateLaunched; StateReportPending; StateReportRetry; JobFailed; StatePendingLaunch; StateLaunchRetry].

Definition QueueTerminalResult (job : Job) (r : TerminalResult) (now : Z) (db0 : DB) : DB * res unit :=
  transact (fun db =>
    _ ← ValidateTerminalResult job r;
    body ← RenderTerminalComment job r;
    let key := reportKey job (tr_Version r) in
    db ← insert_terminal (terminal_row_of job r now) db;
    stored ← of_option ErrNoRows (first_where (fun t => tm_job_id t =? jb_ID job) (terminal_results db));
    _ ← guard_err (negb (sameStoredTerminalResult stored r) || (tm_result_json stored != result_json r))
          "terminal result conflicts with durable job result";
    db ← insert_outbox (jb_ID job) (tr_Version r) body key now db;
    out ← of_option ErrNoRows (first_where (fun o => ob_job_id o =? jb_ID job) (notification_outbox db));
    _ ← guard_err ((ob_version out != tr_Version r) || (ob_body out != body) || (ob_idempotency_key out != key))
          "notification outbox conflicts with durable terminal result";
    let p := fun j => (j_id j =? jb_ID job) && reportable (j_status j) in
    _ ← guard_err (negb (count_where p (jobs db) =? 1)) "terminal result job state changed concurrently";
    Ok (tt, db <| jobs ::= update_where p (fun j =>
              j <| j_status := StateReportPending |> <| j_due_at := UnixMilli now |>
                <| j_updated_at := UnixMilli now |> <| j_last_error := "" |> <| j_pre_outbox_attempts := 0 |>) |>)) db0.

(** The harness-generated results of a launch, or a projection, that failed. *)
Definition harness_result (job : Job) (runID finalize unavailable stage reason : string) : TerminalResult :=
  mkTerminalResult terminalResultVersion runID (jb_Profile job) (jb_Repository job) "" JobFailed JobFailed finalize
    "signal_plane" unavailable (brokerSourceID job) unavailable None "" stage reason false "".

Definition QueueLaunchFailure (job : Job) (reason : string) (now : Z) (db : DB) : DB * res unit :=
  let reason := TrimSpace reason in
  let reason := if reason == "" then "broker launch failed before a run was acknowledged" else reason in
  let reason := if 512 <? len reason then take_str 512 reason else reason in
  QueueTerminalResult job (harness_result job "" "broker_launch_failed" "unavailable-before-broker-acknowledgement"
    "broker_launch" reason) now db.

Definition QueuePreOutboxFailure (job : Job) (stage reason : string) (now : Z) (db : DB) : DB * res unit :=
  let reason := safe_text (TrimSpace reason) in
  let reason := if reason == "" then "terminal projection failed before durable reporting state was created" else reason in
  QueueTerminalResult job (harness_result job (jb_BrokerRunID job) "signal_plane_terminal_projection_failed"
    "unavailable-after-broker-acknowledgement" stage reason) now db.

(** ** Delivery of reports *)

Record Report := mkReport {
  rp_ID : Z; rp_JobID : Z; rp_Job : Job; rp_Version : string; rp_Body : string; rp_IdempotencyKey : string;
  rp_Attempts : Z }.

Definition sendable (s : string) : bool := one_of s ["pending"; "retry"].

(** The join with jobs: every outbox row has its job. *)
Definition ClaimReportDue (now : Z) (db : DB) : option Report :=
  match best_where (fun o => [ob_id o])
          (fun o => sendable (ob_status o) && (ob_due_at o <=? UnixMilli now)
                    && exists_where (fun j => j_id j =? ob_job_id o) (jobs db)) (notification_outbox db) with
  | None => None
  | Some o =>
      match first_where (fun j => j_id j =? ob_job_id o) (jobs db) with
      | None => None
      | Some j =>
          Some (mkReport (ob_id o) (ob_job_id o) ((job_of false j) <| jb_FirstAttemptAt := ZeroTime |>) (ob_version o)
                  (ob_body o) (ob_idempotency_key o) (ob_attempts o))
      end
  end.

Definition reported_state (outcome : string) : string :=
  if one_of outcome ["no_change_required"; "ready_for_review"] then JobCompleted
  else if outcome == "timed_out" then StateTimedOut
  else if outcome == "stopped" then StateStopped
  else if outcome == "cancelled" then StateCancelled
  else JobFailed.

Definition reporting (s : string) : bool := one_of s [StateReportPending; StateReportRetry].

Definition MarkReportDelivered (r : Report) (id : Z) (url : string) (now : Z) (db0 : DB) : DB * res unit :=
  transact (fun db =>
    let po := fun o => (ob_id o =? rp_ID r) && sendable (ob_status o) in
    _ ← guard_err (negb (count_where po (notification_outbox db) =? 1))
          "notification outbox delivery changed concurrently";
    let db := db <| notification_outbox ::= update_where po (fun o =>
                o <| ob_status := "delivered" |> <| ob_attempts ::= Z.succ |> <| ob_comment_id := Some id |>
                  <| ob_comment_url := url |> <| ob_delivered_at := Some (UnixMilli now) |> <| ob_last_error := "" |>
                  <| ob_updated_at := UnixMilli now |>) |> in
    t ← of_option ErrNoRows (first_where (fun t => tm_job_id t =? rp_JobID r) (terminal_results db));
    let pj := fun j => (j_id j =? rp_JobID r) && reporting (j_status j) in
    _ ← guard_err (negb (count_where pj (jobs db) =? 1)) "reported job state changed concurrently";
    Ok (tt, db <| jobs ::= update_where pj (fun j =>
              j <| j_status := reported_state (tm_outcome t) |> <| j_last_error := "" |>
                <| j_updated_at := UnixMilli now |>) |>)) db0.

Definition MarkReportFailure (r : Report) (retry : bool) (safe : string) (now : Z) (db0 : DB) : DB * res unit :=
  let due := if retry then now + ReportRetryDelay (rp_Attempts r + 1) else now in
  transact (fun db =>
    let po := fun o => (ob_id o =? rp_ID r) && sendable (ob_status o) in
    _ ← guard_err (negb (count_where po (notification_outbox db) =? 1))
          "notification outbox failure changed concurrently";
    let db := db <| notification_outbox ::= update_where po (fun o =>
                o <| ob_status := if retry then "retry" else "blocked" |> <| ob_attempts ::= Z.succ |>
                  <| ob_due_at := UnixMilli due |> <| ob_last_error := safe |> <| ob_updated_at := UnixMilli now |>) |> in
    let pj := fun j => (j_id j =? rp_JobID r) && reporting (j_status j) in
    _ ← guard_err (negb (count_where pj (jobs db) =? 1)) "report failure job state changed concurrently";
    Ok (tt, db <| jobs ::= update_where pj (fun j =>
              j <| j_status := if retry then StateReportRetry else StateReportBlocked |>
                <| j_due_at := UnixMilli due |> <| j_last_error := safe |> <| j_updated_at := UnixMilli now |>) |>)) db0.

(** ** Operator reconciliation *)

(** [ReconcileBlockedReport]; the report it returns is the outbox row it read. *)
Definition ReconcileBlockedReport (jobID : Z) (brokerRunID idempotencyKey : string) (execute : bool) (now : Z)
    (db0 : DB) : DB * res outbox_row :=
  transact (fun db =>
    _ ← guard_err ((jobID <? 1) || (brokerRunID == "") || (idempotencyKey == ""))
          "job id, broker run id, and idempotency key are required";
    '(j, t, o) ← match first_where (fun j => j_id j =? jobID) (jobs db),
                       first_where (fun t => tm_job_id t =? jobID) (terminal_results db),
                       first_where (fun o => ob_job_id o =? jobID) (notification_outbox db) with
                 | Some j, Some t, Some o => Ok (j, t, o)
                 | _, _, _ => Err "blocked report does not exist"
                 end;
    _ ← guard_err ((j_broker_run_id j != brokerRunID) || (tm_run_id t != brokerRunID))
          "broker run correlation does not match";
    _ ← guard_err (ob_idempotency_key o != idempotencyKey) "outbox idempotency key does not match";
    _ ← guard_err (ob_version o != tm_version t) "terminal result version does not match outbox";
    _ ← guard_err ((j_status j != StateReportBlocked) || (ob_status o != "blocked")) "report is not durably blocked";
    _ ← guard_err ((ob_comment_id o != None) || (ob_comment_url o != "") || (ob_delivered_at o != None))
          "blocked report already has delivery identity";
    _ ← guard_err ((j_last_error j == "") || (ob_last_error o == "") || (j_last_error j != ob_last_error o))
          "blocked report failure evidence is incomplete";
    if negb execute then Ok (o, db)
    else
      let po := fun x => (ob_id x =? ob_id o) && (ob_status x == "blocked") && (ob_comment_id x == None)
                         && (ob_comment_url x == "") && (ob_delivered_at x == None) in
      _ ← guard_err (negb (count_where po (notification_outbox db) =? 1)) "blocked outbox changed concurrently";
      let pj := fun x => (j_id x =? jobID) && (j_status x == StateReportBlocked) in
      _ ← guard_err (negb (count_where pj (jobs db) =? 1)) "blocked job changed concurrently";
      Ok (o, db <| notification_outbox ::= update_where po (fun x =>
                     x <| ob_status := "retry" |> <| ob_due_at := UnixMilli now |> <| ob_updated_at := UnixMilli now |>) |>
                <| jobs ::= update_where pj (fun x =>
                     x <| j_status := StateReportRetry |> <| j_due_at := UnixMilli now |>
                       <| j_updated_at := UnixMilli now |>) |>)) db0.

(** [ReconcileFailedLaunch]; the report it returns is the job it read. *)
Definition ReconcileFailedLaunch (jobID : Z) (brokerRunID : string) (terminal : TerminalResult) (execute : bool)
    (now : Z) (db0 : DB) : DB * res Job :=
  transact (fun db =>
    _ ← guard_err ((jobID <? 1) || (brokerRunID == "")) "job id and broker run id are required";
    j ← of_option "failed launch job does not exist" (first_where (fun j => j_id j =? jobID) (jobs db));
    _ ← guard_err ((j_status j != JobFailed) || (j_broker_run_id j != "")) "job is not an unreported failed launch";
    _ ← guard_err (has_terminal db jobID || has_outbox db jobID) "failed launch already has terminal reporting state";
    let job := (job_of false j) <| jb_BrokerRunID := brokerRunID |> <| jb_FirstAttemptAt := ZeroTime |> in
    _ ← ValidateTerminalResult job terminal;
    _ ← RenderTerminalComment job terminal;
    if negb execute then Ok (job, db)
    else
      let p := fun x => (j_id x =? jobID) && (j_status x == JobFailed) && (j_broker_run_id x == "") in
      _ ← guard_err (negb (count_where p (jobs db) =? 1)) "failed launch job changed concurrently";
      Ok (job, db <| jobs ::= update_where p (fun x =>
                 x <| j_broker_run_id := brokerRunID |> <| j_status := StateLaunched |>
                   <| j_due_at := UnixMilli now |> <| j_updated_at := UnixMilli now |>) |>)) db0.

End WithURL.
