(* ===== verification/ExternalWait.v ===== *)
(** * External waits of repository runs

    [internal/dispatcher/external_wait.go]: a broker run blocked on GitHub is
    recorded with its wait generation before it can be resumed, a webhook for
    the originating issue makes it resumable, and each generation is resumed
    once. *)

From S2P Require Import Prelude GoText GoSha256 GoJson GoScan LedgerModel DispatchPolicy DispatchStore.
Open Scope string_scope.
Open Scope Z_scope.
Open Scope go_scope.

Record RepositoryRunExternalWait := mkRunWait {
  rw_JobID : Z; rw_BrokerRunID : string; rw_Wait : CIExternalWait; rw_ResumeKey : string;
  rw_MaxRuntimeSeconds : Z; rw_State : string }.

(** The stored row as it is read back; the version is not stored. *)
Definition stored_wait (w : wait_row) : RepositoryRunExternalWait :=
  mkRunWait (wr_job_id w) (wr_broker_run_id w)
    (mkCIExternalWait "" (wr_service w) (wr_phase w) (wr_operation w) (wr_reason w) (wr_generation w)
       (OfUnixMilli (wr_since w)))
    (wr_resume_key w) (wr_max_runtime_seconds w) (wr_state w).

(** The UNIQUE and CHECK constraints on a written row. *)
Definition wait_constraints (job_id : Z) (key : string) (seconds : Z) (db : DB) : res unit :=
  guard_err ((seconds <=? 0)
    || exists_where (fun w => (wr_resume_key w == key) && negb (wr_job_id w =? job_id)) (external_waits db)) ErrConstraint.

(** Replay of a generation must repeat the durable wait; times are compared at
    the resolution of the column. *)
Definition same_wait (job : Job) (wait : CIExternalWait) (key : string) (w : wait_row) : bool :=
  (wr_broker_run_id w == jb_BrokerRunID job) && (wr_service w == ew_Service wait) && (wr_phase w == ew_Phase wait)
  && (wr_operation w == ew_Operation wait) && (wr_reason w == ew_Reason wait)
  && (OfUnixMilli (wr_since w) =? OfUnixMilli (UnixMilli (ew_Since wait))) && (wr_resume_key w == key).

Definition RecordRepositoryRunExternalWait (policy : CIRepairPolicy) (job : Job) (wait : CIExternalWait) (now : Z)
    (db0 : DB) : DB * res RepositoryRunExternalWait :=
  transact (fun db =>
    _ ← guard_err ((jb_ID job <? 1) || (jb_BrokerRunID job == ""))
          "repository run wait requires durable job and broker run identities";
    _ ← CIExternalWait_Validate wait;
    let key := repositoryRunResumeKey job (ew_Generation wait) in
    let seconds := durationSeconds (ActiveTimeout policy) in
    let fresh := mkRunWait (jb_ID job) (jb_BrokerRunID job) wait key seconds "waiting" in
    '(stored, db) ←
      match first_where (fun w => wr_job_id w =? jb_ID job) (external_waits db) with
      | None =>
          _ ← wait_constraints (jb_ID job) key seconds db;
          _ ← guard_err (negb (exists_where (fun j => j_id j =? jb_ID job) (jobs db))) ErrConstraint;
          Ok (fresh, db <| external_waits := (external_waits db ++
                [mkWaitRow (jb_ID job) (jb_BrokerRunID job) (ew_Service wait) (ew_Phase wait) (ew_Operation wait)
                   (ew_Reason wait) (ew_Generation wait) (UnixMilli (ew_Since wait)) key seconds "waiting"
                   (UnixMilli now) (UnixMilli now)])%list |>)
      | Some w =>
          _ ← guard_err (ew_Generation wait <? wr_generation w) "repository run external wait generation is stale";
          if ew_Generation wait =? wr_generation w then
            _ ← guard_err (negb (same_wait job wait key w))
                  "repository run external wait replay conflicts with durable state";
            Ok (stored_wait w, db)
          else
            let p := fun x => (wr_job_id x =? jb_ID job) && (wr_broker_run_id x == jb_BrokerRunID job) in
            _ ← if exists_where p (external_waits db) then wait_constraints (jb_ID job) key seconds db else Ok tt;
            Ok (fresh, db <| external_waits ::= update_where p (fun x =>
                  x <| wr_service := ew_Service wait |> <| wr_phase := ew_Phase wait |>
                    <| wr_operation := ew_Operation wait |> <| wr_reason := ew_Reason wait |>
                    <| wr_generation := ew_Generation wait |> <| wr_since := UnixMilli (ew_Since wait) |>
                    <| wr_resume_key := key |> <| wr_max_runtime_seconds := seconds |> <| wr_state := "waiting" |>
                    <| wr_updated_at := UnixMilli now |>) |>)
      end;
    Ok (stored, db <| jobs ::= update_where
          (fun j => (j_id j =? jb_ID job) && (j_broker_run_id j == jb_BrokerRunID job))
          (fun j => j <| j_status := StateExternalWaiting |>
                      <| j_due_at := UnixMilli (now + ReconciliationWake policy) |>
                      <| j_updated_at := UnixMilli now |>) |>)) db0.

(** [RecordRepositoryRunExternalWake]: whether a waiting run was woken. *)
Definition wakeable (repository : string) (issue : Z) (j : job_row) : bool :=
  (j_repository j == repository) && (j_issue_number j =? issue) && (j_status j == StateExternalWaiting).

Definition wake_issue (signal : Signal) : option Z :=
  let meta := sg_Meta signal in
  if (m_Source meta != "github") || negb (Verified (m_Authentication meta)) || (m_Namespace meta == "")
     || (m_ObjectKind meta != "issue")
  then None
  else match Sscan_int64 (m_ObjectID meta) with
       | Some n => if n <? 1 then None else Some n
       | None => None
       end.

Definition RecordRepositoryRunExternalWake (signal : Signal) (now : Z) (db : DB) : DB * res bool :=
  match wake_issue signal with
  | None => (db, Ok false)
  | Some issue =>
      let repository := m_Namespace (sg_Meta signal) in
      let ids := map j_id (rows_where (wakeable repository issue) (jobs db)) in
      let p := fun w => one_of (wr_state w) ["waiting"; "resume_ready"] && bool_decide (wr_job_id w ∈ ids) in
      if count_where p (external_waits db) =? 0 then (db, Ok false)
      else
        (db <| external_waits ::= update_where p (fun w =>
                 w <| wr_state := "resume_ready" |> <| wr_updated_at := UnixMilli now |>) |>
            <| jobs ::= update_where (wakeable repository issue) (fun j =>
                 j <| j_due_at := UnixMilli now |> <| j_updated_at := UnixMilli now |>) |>, Ok true)
  end.

Definition waiting_id (id : Z) (run : string) (j : job_row) : bool :=
  (j_id j =? id) && (j_broker_run_id j == run) && (j_status j == StateExternalWaiting).

Definition DeferRepositoryRunExternalResume (job : Job) (due : Z) (failure : option goerror) (now : Z) (db : DB)
    : DB * res unit :=
  let message := match failure with
                 | Some e => safeBrokerError e
                 | None => "repository run external resume deferred"
                 end in
  exec_jobs (waiting_id (jb_ID job) (jb_BrokerRunID job))
    (fun j => j <| j_due_at := UnixMilli due |> <| j_last_error := message |>
                <| j_pre_outbox_attempts ::= Z.succ |> <| j_updated_at := UnixMilli now |>)
    "defer repository run external resume" db.

Definition resume_wait (now : Z) (w : wait_row) : wait_row :=
  w <| wr_state := "resumed" |> <| wr_updated_at := UnixMilli now |>.

Definition relaunch (due now : Z) (j : job_row) : job_row :=
  j <| j_status := StateLaunched |> <| j_due_at := UnixMilli due |> <| j_last_error := "" |>
    <| j_pre_outbox_attempts := 0 |> <| j_updated_at := UnixMilli now |>.

Definition MarkRepositoryRunExternalResumed (wait : RepositoryRunExternalWait) (now : Z) (db0 : DB) : DB * res unit :=
  transact (fun db =>
    let pw := fun w => (wr_job_id w =? rw_JobID wait) && (wr_broker_run_id w == rw_BrokerRunID wait)
                       && (wr_generation w =? ew_Generation (rw_Wait wait)) && (wr_resume_key w == rw_ResumeKey wait)
                       && (wr_state w == "resume_ready") in
    _ ← expectOne (count_where pw (external_waits db)) "mark repository run external resume";
    let pj := waiting_id (rw_JobID wait) (rw_BrokerRunID wait) in
    _ ← expectOne (count_where pj (jobs db)) "schedule resumed repository run";
    Ok (tt, db <| external_waits ::= update_where pw (resume_wait now) |>
               <| jobs ::= update_where pj (relaunch (now + StatusPollInterval) now) |>)) db0.

Definition ReconcileRepositoryRunExternalResume (job : Job) (now : Z) (db0 : DB) : DB * res unit :=
  transact (fun db =>
    let pw := fun w => (wr_job_id w =? jb_ID job) && (wr_broker_run_id w == jb_BrokerRunID job)
                       && (wr_state w == "resume_ready") in
    _ ← expectOne (count_where pw (external_waits db)) "reconcile repository run external resume";
    let pj := waiting_id (jb_ID job) (jb_BrokerRunID job) in
    _ ← expectOne (count_where pj (jobs db)) "restore reconciled repository run";
    Ok (tt, db <| external_waits ::= update_where pw (resume_wait now) |>
               <| jobs ::= update_where pj (relaunch now now) |>)) db0.
