(* ===== verification/CIRepair.v ===== *)
(** * CI repair

    [internal/dispatcher/ci_repair.go]: a ready-for-review run waits for the
    authoritative CI state of its pull request head, failed code is repaired by
    at most two charged model executions, and everything else is escalated to
    the issue through an outbox.  [policy] is the store's [ciPolicy]. *)

From S2P Require Import Prelude GoText GoSha256 GoJson GoNet GoScan LedgerModel DispatchPolicy DispatchStore Terminal.
From Stdlib Require Import Ascii.
Open Scope string_scope.
Open Scope Z_scope.
Open Scope go_scope.

Definition CIWaiting : string := "waiting_ci".
Definition CIRepairReady : string := "repair_ready".
Definition CIRepairRunning : string := "repair_running".
Definition CICompleted : string := "completed".
Definition CIEscalationPending : string := "escalation_pending".
Definition CIEscalationBlocked : string := "escalation_blocked".
Definition CIEscalated : string := "escalated".
Definition CIStatePending : string := "pending".
Definition CIStateSuccess : string := "success".
Definition CIStateCodeFailure : string := "code_failure".
Definition CIStateInfrastructure : string := "infrastructure_failure".

Record CIRepairTask := mkCIRepairTask {
  tk_JobID : Z; tk_Repository : string; tk_IssueNumber : Z; tk_PullNumber : Z; tk_Branch : string;
  tk_CurrentHeadSHA : string; tk_AgentModel : string; tk_State : string; tk_RepairAttempts : Z;
  tk_ReconcileAt : Z; tk_LastCIState : string }.

Record CIReconciliation := mkCIReconciliation {
  rn_OperationKey : string; rn_Task : CIRepairTask; rn_HeadSHA : string; rn_DeadlineWake : bool;
  rn_Operations : Z }.

Record FailedCheck := mkFailedCheck {
  fc_Name : string; fc_Conclusion : string; fc_Summary : string; fc_Evidence : string }.
#[export] Instance FailedCheck_eta : Eta FailedCheck := fun c =>
  mkFailedCheck (fc_Name c) (fc_Conclusion c) (fc_Summary c) (fc_Evidence c).

Record CIObservation := mkCIObservation {
  ob_Repository : string; ob_PullNumber : Z; ob_HeadSHA : string; ob_State : string;
  ob_FailedChecks : slice FailedCheck; ob_Truncated : bool; ob_ObservedBytes : Z }.
#[export] Instance CIObservation_eta : Eta CIObservation := fun o =>
  mkCIObservation (ob_Repository o) (ob_PullNumber o) (ob_HeadSHA o) (ob_State o) (ob_FailedChecks o)
    (ob_Truncated o) (ob_ObservedBytes o).

Record CIRepairAttempt := mkCIRepairAttempt {
  ra_AttemptKey : string; ra_JobID : Z; ra_AttemptNumber : Z; ra_FailedHeadSHA : string; ra_AgentModel : string;
  ra_State : string; ra_Charged : bool; ra_BrokerRunID : string; ra_MaxRuntimeSeconds : Z;
  ra_ExternalWait : option CIExternalWait; ra_ExternalResumeKey : string; ra_ResumedGeneration : Z;
  ra_Operations : Z }.

Record CIRepairDelivery := mkCIRepairDelivery {
  dv_ExpectedOldHeadSHA : string; dv_CandidateHeadSHA : string; dv_ValidatedTreeSHA : string;
  dv_DeliveredHeadSHA : string; dv_DeliveredTreeSHA : string }.

Record CIEscalationReport := mkCIEscalationReport {
  er_Job : Job; er_OperationKey : string; er_Body : string; er_Attempts : Z }.

Record CommentResult := mkCommentResult { cm_ID : Z; cm_URL : string }.

(** ** JSON of an observation *)

Definition omit_empty (name value : string) : list (string * json) :=
  if value == "" then [] else [(name, JStr value)].

Definition check_json (c : FailedCheck) : json :=
  JObj ([("name", JStr (fc_Name c)); ("conclusion", JStr (fc_Conclusion c))]
        ++ omit_empty "summary" (fc_Summary c) ++ omit_empty "evidence" (fc_Evidence c))%list.

Definition observation_json (o : CIObservation) : json :=
  JObj ([("repository", JStr (ob_Repository o)); ("pull_number", JNum (fmt_d (ob_PullNumber o)));
         ("head_sha", JStr (ob_HeadSHA o)); ("state", JStr (ob_State o))]
        ++ match elems (ob_FailedChecks o) with [] => [] | l => [("failed_checks", JArr (map check_json l))] end
        ++ (if ob_Truncated o then [("truncated", JBool true)] else [])
        ++ (if ob_ObservedBytes o =? 0 then [] else [("observed_bytes", JNum (fmt_d (ob_ObservedBytes o)))]))%list.

Definition Marshal_observation (o : CIObservation) : string := marshal (observation_json o).

Definition set_check (n : string) (v : json) (c : FailedCheck) : option FailedCheck :=
  if n == "name" then x ← decode_string v (fc_Name c); Some (c <| fc_Name := x |>)
  else if n == "conclusion" then x ← decode_string v (fc_Conclusion c); Some (c <| fc_Conclusion := x |>)
  else if n == "summary" then x ← decode_string v (fc_Summary c); Some (c <| fc_Summary := x |>)
  else x ← decode_string v (fc_Evidence c); Some (c <| fc_Evidence := x |>).

Definition set_observation (n : string) (v : json) (o : CIObservation) : option CIObservation :=
  if n == "repository" then x ← decode_string v (ob_Repository o); Some (o <| ob_Repository := x |>)
  else if n == "pull_number" then x ← decode_int v (ob_PullNumber o); Some (o <| ob_PullNumber := x |>)
  else if n == "head_sha" then x ← decode_string v (ob_HeadSHA o); Some (o <| ob_HeadSHA := x |>)
  else if n == "state" then x ← decode_string v (ob_State o); Some (o <| ob_State := x |>)
  else if n == "failed_checks" then
    x ← decode_slice (decode_struct ["name"; "conclusion"; "summary"; "evidence"] false set_check)
          (mkFailedCheck "" "" "" "") v (ob_FailedChecks o); Some (o <| ob_FailedChecks := x |>)
  else if n == "truncated" then x ← decode_bool v (ob_Truncated o); Some (o <| ob_Truncated := x |>)
  else x ← decode_int v (ob_ObservedBytes o); Some (o <| ob_ObservedBytes := x |>).

(** [_ = json.Unmarshal(lastJSON, &observation)]: the stored text is one this
    package marshalled, so the decode succeeds and overwrites. *)
Definition Unmarshal_observation (data : string) (o : CIObservation) : CIObservation :=
  default o (parse_json data ≫= fun v =>
    decode_struct ["repository"; "pull_number"; "head_sha"; "state"; "failed_checks"; "truncated"; "observed_bytes"]
      false set_observation v o).

(** ** Reading rows *)

Definition task_of (t : ci_task_row) (reconcile_at : Z) : CIRepairTask :=
  mkCIRepairTask (ct_job_id t) (ct_repository t) (ct_issue_number t) (ct_pull_number t) (ct_branch t)
    (ct_current_head_sha t) (ct_agent_model t) (ct_state t) (ct_repair_attempts t) reconcile_at (ct_last_ci_state t).

Definition find_task (id : Z) (db : DB) : res ci_task_row :=
  of_option ErrNoRows (first_where (fun t => ct_job_id t =? id) (ci_tasks db)).
Definition find_attempt (key : string) (db : DB) : res ci_attempt_row :=
  of_option ErrNoRows (first_where (fun a => ca_attempt_key a == key) (ci_attempts db)).

Definition update_task (id : Z) (f : ci_task_row -> ci_task_row) (db : DB) : DB :=
  db <| ci_tasks ::= update_where (fun t => ct_job_id t =? id) f |>.
Definition update_job (id : Z) (f : job_row -> job_row) (db : DB) : DB :=
  db <| jobs ::= update_where (fun j => j_id j =? id) f |>.
Definition update_attempt (key : string) (f : ci_attempt_row -> ci_attempt_row) (db : DB) : DB :=
  db <| ci_attempts ::= update_where (fun a => ca_attempt_key a == key) f |>.

(** ** Beginning the wait *)

Definition new_reconciliation (id : Z) (head : string) (wake : bool) (due created now : Z) : ci_reconciliation_row :=
  mkCIReconciliationRow (ciReconcileKey id head) id head "queued" wake false 0 "" due "" created now.

Definition same_operation (id : Z) (head : string) (r : ci_reconciliation_row) : bool :=
  (cr_job_id r =? id) && (cr_head_sha r == head).

Definition BeginCIWait (job : Job) (pullNumber : Z) (branch headSHA agentModel : string) (deadline now : Z)
    (initialResult : string) (db0 : DB) : DB * res unit :=
  transact (fun db =>
    _ ← guard_err ((jb_ID job <? 1) || (jb_Repository job == "") || (jb_IssueNumber job <? 1) || (pullNumber <? 1)
          || (branch == "") || negb (githubSHA headSHA) || (agentModel == "") || negb (now <? deadline)
          || (len initialResult =? 0) || (64 * 1024 <? len initialResult)
          || match parse_json initialResult with Some _ => false | None => true end)
          "CI wait requires durable job, PR, branch, exact head, agent/model, and future reconciliation wake";
    db ← if exists_where (fun t => ct_job_id t =? jb_ID job) (ci_tasks db) then Ok db
         else
           _ ← guard_err (negb (exists_where (fun j => j_id j =? jb_ID job) (jobs db))) ErrConstraint;
           Ok (db <| ci_tasks := (ci_tasks db ++
                 [mkCITaskRow (jb_ID job) (jb_Repository job) (jb_IssueNumber job) pullNumber branch headSHA agentModel
                    CIWaiting 0 (UnixMilli deadline) initialResult "" "" (UnixMilli now) (UnixMilli now) None])%list |>);
    t ← find_task (jb_ID job) db;
    _ ← guard_err ((ct_repository t != jb_Repository job) || negb (ct_issue_number t =? jb_IssueNumber job)
          || negb (ct_pull_number t =? pullNumber) || (ct_branch t != branch) || (ct_current_head_sha t != headSHA)
          || (ct_agent_model t != agentModel) || negb (OfUnixMilli (ct_deadline_at t) =? deadline)
          || (ct_initial_result_json t != initialResult))
          "ready-for-review replay conflicts with durable CI coordinates";
    let db := db <| jobs ::= update_where
                (fun j => (j_id j =? jb_ID job) && one_of (j_status j) [StateLaunched; StateCIWaiting])
                (fun j => j <| j_status := StateCIWaiting |> <| j_due_at := UnixMilli deadline |>
                            <| j_updated_at := UnixMilli now |> <| j_last_error := "" |>) |> in
    let db := if exists_where (same_operation (jb_ID job) headSHA) (ci_reconciliations db) then db
              else db <| ci_reconciliations := (ci_reconciliations db ++
                     [new_reconciliation (jb_ID job) headSHA false (UnixMilli now) (UnixMilli now) (UnixMilli now)])%list |> in
    Ok (tt, db)) db0.

(** ** Wake events *)

Definition ci_wake_kind (event : string) : bool :=
  one_of event ["check_run"; "check_suite"; "status"; "pull_request"].

(** The pull number of the event, 0 when it names none. *)
Definition event_pull (meta : Meta) : res Z :=
  if m_ObjectKind meta == "pull_request" then
    match Sscan_int64 (m_ObjectID meta) with
    | Some n => if n <? 1 then Err "CI event has invalid pull request identity" else Ok n
    | None => Err "CI event has invalid pull request identity"
    end
  else Ok 0.

Definition ci_semantic_identity (meta : Meta) (pull : Z) (digest : string) : string :=
  Join ["github-ci-event/v1"; m_Namespace meta; m_SourceEvent meta; m_SourceAction meta; fmt_d pull;
        m_SourceRevision meta; digest] ":".

(** The upsert of a queued reconciliation; an event that finds it running marks
    it dirty. *)
Definition requeue (now : Z) (r : ci_reconciliation_row) : ci_reconciliation_row :=
  r <| cr_state := if cr_state r == "running" then "running" else "queued" |>
    <| cr_dirty ::= fun d => if cr_state r == "running" then true else d |>
    <| cr_due_at := UnixMilli now |> <| cr_updated_at := UnixMilli now |>.

Definition queue_reconciliation (id : Z) (head : string) (now : Z) (db : DB) : DB :=
  if exists_where (same_operation id head) (ci_reconciliations db)
  then db <| ci_reconciliations ::= update_where (same_operation id head) (requeue now) |>
  else db <| ci_reconciliations := (ci_reconciliations db ++
         [new_reconciliation id head false (UnixMilli now) (UnixMilli now) (UnixMilli now)])%list |>.

(** One row of the left join of a task with its running attempts. *)
Definition wake_task (head : string) (now : Z) (t : ci_task_row) (db : DB) : DB * bool :=
  if ct_state t == CIRepairRunning then
    let due := fun a => (ca_job_id a =? ct_job_id t) && (ca_state a == "running")
                        && (ca_resumed_generation a <? ca_wait_generation a) && (ca_attempt_key a != "") in
    (db <| ci_attempts ::= update_where due (fun a =>
             a <| ca_due_at ::= Z.min (UnixMilli now) |> <| ca_updated_at := UnixMilli now |>) |>,
     exists_where due (ci_attempts db))
  else (queue_reconciliation (ct_job_id t) head now db, true).

Definition woken (repository head : string) (pull : Z) (t : ci_task_row) : bool :=
  (ct_repository t == repository) && one_of (ct_state t) [CIWaiting; CIRepairRunning]
  && (((0 <? pull) && (ct_pull_number t =? pull)) || (ct_current_head_sha t == head)).

Fixpoint wake_tasks (head : string) (now : Z) (ts : list ci_task_row) (db : DB) : DB * bool :=
  match ts with
  | [] => (db, false)
  | t :: ts' =>
      let '(db1, q1) := wake_task head now t db in
      let '(db2, q2) := wake_tasks head now ts' db1 in (db2, q1 || q2)
  end.

Definition RecordCIEvent (signal : Signal) (now : Z) (db0 : DB) : DB * res bool :=
  let meta := sg_Meta signal in
  if (m_Source meta != "github") || (m_SourceDeliveryID meta == "") || (m_Namespace meta == "")
     || negb (githubSHA (m_SourceRevision meta))
  then (db0, Err "CI event lacks authenticated GitHub delivery, repository, or exact head identity")
  else if negb (ci_wake_kind (m_SourceEvent meta)) then (db0, Ok false)
  else
    transact (fun db =>
      pull ← event_pull meta;
      let digest := "sha256:" ++ sha256_hex (sg_Payload signal) in
      let semantic := ci_semantic_identity meta pull digest in
      if exists_where (fun e => (ce_delivery_id e == m_SourceDeliveryID meta)
                                || (ce_semantic_identity e == semantic)) (ci_events db)
      then Ok (false, db)
      else
        let db := db <| ci_events := (ci_events db ++
                    [mkCIEventRow (m_SourceDeliveryID meta) (m_Namespace meta) pull (m_SourceRevision meta)
                       (m_SourceEvent meta) (m_SourceAction meta) semantic digest (UnixMilli (m_ReceivedAt meta))
                       (UnixMilli now)])%list |> in
        let '(db, queued) := wake_tasks (m_SourceRevision meta) now
          (rows_where (woken (m_Namespace meta) (m_SourceRevision meta) pull) (ci_tasks db)) db in
        Ok (queued, db)) db0.

(** ** Reconciliation *)

(** A passed deadline is a durable wake of the current head's reconciliation. *)
Definition deadline_wake (now : Z) (t : ci_task_row) (db : DB) : DB :=
  let id := ct_job_id t in let head := ct_current_head_sha t in
  if exists_where (same_operation id head) (ci_reconciliations db)
  then db <| ci_reconciliations ::= update_where (same_operation id head) (fun r =>
         r <| cr_state := if cr_state r == "completed" then "queued" else cr_state r |>
           <| cr_deadline_wake := true |> <| cr_dirty ::= fun d => if cr_state r == "running" then true else d |>
           <| cr_due_at ::= Z.min (ct_deadline_at t) |> <| cr_updated_at := UnixMilli now |>) |>
  else db <| ci_reconciliations := (ci_reconciliations db ++
         [new_reconciliation id head true (ct_deadline_at t) (ct_deadline_at t) (UnixMilli now)])%list |>.

Definition overdue (now : Z) (t : ci_task_row) : bool :=
  (ct_state t == CIWaiting) && (ct_deadline_at t <=? UnixMilli now).

Definition waiting_task (id : Z) (t : ci_task_row) : bool := (ct_job_id t =? id) && (ct_state t == CIWaiting).

Definition reconcilable (db : DB) (now : Z) (r : ci_reconciliation_row) : bool :=
  one_of (cr_state r) ["queued"; "running"] && (cr_due_at r <=? UnixMilli now)
  && exists_where (waiting_task (cr_job_id r)) (ci_tasks db).

Definition reconcile_order (r : ci_reconciliation_row) : list Z :=
  [if cr_deadline_wake r then 0 else 1; cr_due_at r; cr_job_id r].

Definition ClaimCIReconciliation (now : Z) (db : DB) : DB * option CIReconciliation :=
  let db := fold_left (fun d t => deadline_wake now t d) (rows_where (overdue now) (ci_tasks db)) db in
  match best_where reconcile_order (reconcilable db now) (ci_reconciliations db) with
  | None => (db, None)
  | Some r =>
      match first_where (waiting_task (cr_job_id r)) (ci_tasks db) with
      | None => (db, None)
      | Some t =>
          (db <| ci_reconciliations ::= update_where (fun x => cr_operation_key x == cr_operation_key r) (fun x =>
                   x <| cr_state := "running" |> <| cr_dirty := false |>
                     <| cr_due_at := UnixMilli (now + ciReconcileLease) |> <| cr_updated_at := UnixMilli now |>) |>,
           Some (mkCIReconciliation (cr_operation_key r) (task_of t (OfUnixMilli (ct_deadline_at t))) (cr_head_sha r)
                   (cr_deadline_wake r) (cr_operation_attempts r)))
      end
  end.

(** ** Escalation *)

(** [checks] sorted by name; the order of equal names is unspecified. *)
Fixpoint insert_check (c : FailedCheck) (l : list FailedCheck) : list FailedCheck :=
  match l with
  | [] => [c]
  | d :: l' => if String.ltb (fc_Name d) (fc_Name c) then d :: insert_check c l' else c :: l
  end.
Definition sort_checks (l : list FailedCheck) : list FailedCheck := fold_right insert_check [] l.

Definition check_line (c : FailedCheck) : string :=
  let summary := TrimSpace (fc_Summary c) in
  let summary := if 160 <? len summary then take_str 160 summary else summary in
  "- " ++ fc_Name c ++ " (" ++ fc_Conclusion c ++ ")" ++ (if summary == "" then "" else ": " ++ summary).

Definition check_lines (checks : list FailedCheck) : list string :=
  match checks with
  | [] => []
  | _ => ("Failed required checks:" :: map check_line (take 5 checks)
          ++ (if (5 <? Z.of_nat (length checks))
              then ["- Additional failures were omitted; inspect the bounded broker evidence."] else []))%list
  end.

Definition history_line (a : ci_attempt_row) : string :=
  let detail := if ca_failure_class a != "" then ca_failure_class a
                else if githubSHA (ca_delivered_head_sha a) then "delivered " ++ take_str 12 (ca_delivered_head_sha a)
                else ca_state a in
  let failed := if githubSHA (ca_failed_head_sha a) then take_str 12 (ca_failed_head_sha a) else ca_failed_head_sha a in
  "- Attempt " ++ fmt_d (ca_attempt_number a) ++ " for `" ++ failed ++ "`: " ++ detail.

(** ORDER BY attempt_number, which is 1 or 2. *)
Definition history_lines (id : Z) (db : DB) : list string :=
  match (rows_where (fun a => (ca_job_id a =? id) && (ca_attempt_number a =? 1)) (ci_attempts db)
         ++ rows_where (fun a => (ca_job_id a =? id) && negb (ca_attempt_number a =? 1)) (ci_attempts db))%list with
  | [] => []
  | l => ("Repair history:" :: map history_line l)%list
  end.

Definition escalation_head (o : CIObservation) (attempts maxAttempts : Z) (reason : string) : string :=
  if reason == "observation_invalid"
  then "The authoritative CI observation could not be validated; no speculative code repair was launched."
  else if ob_State o == CIStateInfrastructure
  then "CI reported an infrastructure or runner failure; no speculative code repair was launched."
  else "CI repair stopped after " ++ fmt_d attempts ++ " of " ++ fmt_d maxAttempts ++ " coding attempts.".

(** The slice [HeadSHA[:12]] panics on a shorter text. *)
Definition escalation_body (id : Z) (o : CIObservation) (attempts maxAttempts : Z) (reason : string) (db : DB)
    : res string :=
  if len (ob_HeadSHA o) <? 12 then Panic
  else Ok (Join ([escalation_head o attempts maxAttempts reason;
                  ("Pull request #" ++ fmt_d (ob_PullNumber o) ++ " remains open at `" ++ take_str 12 (ob_HeadSHA o) ++ "`.")%string]
                 ++ check_lines (sort_checks (elems (ob_FailedChecks o))) ++ history_lines id db
                 ++ ["A human or stronger model should inspect the failed-check evidence, prior repair results, and current branch before continuing."])%list
             newline).

Definition escalationKey (id : Z) : string := "ci-escalation:v1:" ++ fmt_d id.

Definition queueCIEscalation (id : Z) (o : CIObservation) (attempts maxAttempts : Z) (reason : string) (now : Z)
    (db : DB) : res DB :=
  body ← escalation_body id o attempts maxAttempts reason db;
  db ← if exists_where (fun e => es_job_id e =? id) (ci_escalations db) then Ok db
       else
         _ ← guard_err (exists_where (fun e => es_operation_key e == escalationKey id) (ci_escalations db)
               || negb (exists_where (fun t => ct_job_id t =? id) (ci_tasks db))) ErrConstraint;
         Ok (db <| ci_escalations := (ci_escalations db ++
               [mkEscalationRow id (escalationKey id) body "pending" 0 None "" "" (UnixMilli now) (UnixMilli now)
                  (UnixMilli now)])%list |>);
  let db := update_task id (fun t => t <| ct_state := CIEscalationPending |> <| ct_updated_at := UnixMilli now |>) db in
  Ok (update_job id (fun j => j <| j_status := StateCIEscalation |> <| j_updated_at := UnixMilli now |>) db).

Definition running_operation (key : string) (r : ci_reconciliation_row) : bool :=
  (cr_operation_key r == key) && (cr_state r == "running").

Definition unavailable_observation (task : CIRepairTask) (failure : goerror) : CIObservation :=
  mkCIObservation (tk_Repository task) (tk_PullNumber task) (tk_CurrentHeadSHA task) CIStateInfrastructure
    (Some [mkFailedCheck "CI observation" "unavailable" (safeBrokerError failure) ""]) false 0.

Definition FailCIReconciliation (policy : CIRepairPolicy) (work : CIReconciliation) (failure : goerror) (retry : bool)
    (now : Z) (db0 : DB) : DB * res unit :=
  let p := running_operation (rn_OperationKey work) in
  if rn_OperationKey work == "" then (db0, Err "CI reconciliation failure requires operation identity and error")
  else if retry then
    let due := now + PreOutboxRetryDelay (rn_Operations work + 1) in
    (db0 <| ci_reconciliations ::= update_where p (fun r =>
              r <| cr_state := "queued" |> <| cr_operation_attempts ::= Z.succ |>
                <| cr_last_error := safeBrokerError failure |> <| cr_due_at := UnixMilli due |>
                <| cr_updated_at := UnixMilli now |>) |>,
     expectOne (count_where p (ci_reconciliations db0)) "defer CI reconciliation")
  else
    transact (fun db =>
      _ ← expectOne (count_where p (ci_reconciliations db)) "complete failed CI reconciliation";
      let db := db <| ci_reconciliations ::= update_where p (fun r =>
                  r <| cr_state := "completed" |> <| cr_operation_attempts ::= Z.succ |>
                    <| cr_last_error := safeBrokerError failure |> <| cr_updated_at := UnixMilli now |>) |> in
      let id := tk_JobID (rn_Task work) in
      if isStalePullHead failure then
        let wake := UnixMilli (now + ReconciliationWake policy) in
        let db := db <| ci_tasks ::= update_where (waiting_task id) (fun t =>
                    t <| ct_deadline_at := wake |> <| ct_updated_at := UnixMilli now |>) |> in
        Ok (tt, db <| jobs ::= update_where (fun j => (j_id j =? id) && (j_status j == StateCIWaiting)) (fun j =>
                  j <| j_due_at := wake |> <| j_updated_at := UnixMilli now |>) |>)
      else
        db ← queueCIEscalation id (unavailable_observation (rn_Task work) failure) (tk_RepairAttempts (rn_Task work))
               (CIMaxAttempts policy) "observation_invalid" now db;
        Ok (tt, db)) db0.

(** INSERT INTO repository_ci_attempts, with its constraints. *)
Definition new_attempt (policy : CIRepairPolicy) (id : Z) (number : Z) (head model : string) (now : Z)
    : ci_attempt_row :=
  mkCIAttemptRow (ciAttemptKey id model head number) id number head model "ready" false ""
    (durationSeconds (ActiveTimeout policy)) "" "" "" "" 0 None "" 0 head "" "" "" "" "" 0 "" (UnixMilli now)
    (UnixMilli now) (UnixMilli now).

Definition insert_ci_attempt (a : ci_attempt_row) (db : DB) : res DB :=
  _ ← guard_err (exists_where (fun x => (ca_attempt_key x == ca_attempt_key a)
                   || ((ca_job_id x =? ca_job_id a) && (ca_attempt_number x =? ca_attempt_number a))) (ci_attempts db)
        || (ca_attempt_number a <? 1) || (2 <? ca_attempt_number a) || (ca_max_runtime_seconds a <? 0)
        || negb (exists_where (fun t => ct_job_id t =? ca_job_id a) (ci_tasks db))) ErrConstraint;
  Ok (db <| ci_attempts := (ci_attempts db ++ [a])%list |>).

Definition settled (state : string) : bool :=
  one_of state [CICompleted; CIEscalated; CIEscalationPending; CIEscalationBlocked].

(** The reconciliation is closed, or requeued when events arrived during an
    observation that found CI still pending. *)
Definition close_reconciliation (key : string) (o : CIObservation) (now : Z) (db : DB) : DB :=
  let preserve := ob_State o == CIStatePending in
  db <| ci_reconciliations ::= update_where (fun r => cr_operation_key r == key) (fun r =>
          r <| cr_state := if cr_dirty r && preserve then "queued" else "completed" |>
            <| cr_due_at ::= fun d => if cr_dirty r && preserve then UnixMilli now else d |>
            <| cr_result_digest := "sha256:" ++ sha256_hex (Marshal_observation o) |>
            <| cr_updated_at := UnixMilli now |>) |>.

Definition schedule_repair (policy : CIRepairPolicy) (id number : Z) (head model : string) (now : Z) (db : DB)
    : res DB :=
  let a := new_attempt policy id number head model now in
  db ← if exists_where (fun x => ca_attempt_key x == ca_attempt_key a) (ci_attempts db) then Ok db
       else insert_ci_attempt a db;
  let db := update_task id (fun t => t <| ct_state := CIRepairReady |> <| ct_updated_at := UnixMilli now |>) db in
  Ok (update_job id (fun j => j <| j_status := StateCIRepair |> <| j_due_at := UnixMilli now |>
                                <| j_updated_at := UnixMilli now |>) db).

Definition ApplyCIObservation (policy : CIRepairPolicy) (work : CIReconciliation) (o : CIObservation)
    (maxAttempts now : Z) (db0 : DB) : DB * res unit :=
  let id := tk_JobID (rn_Task work) in
  transact (fun db =>
    _ ← guard_err ((maxAttempts <? 1) || (2 <? maxAttempts)) "CI repair attempts must be between one and two";
    _ ← guard_err ((ob_Repository o != tk_Repository (rn_Task work))
          || negb (ob_PullNumber o =? tk_PullNumber (rn_Task work)) || negb (githubSHA (ob_HeadSHA o)))
          "authoritative CI observation does not match durable PR coordinates";
    _ ← guard_err (negb (one_of (ob_State o) [CIStatePending; CIStateSuccess; CIStateCodeFailure; CIStateInfrastructure]))
          "authoritative CI observation has unknown state";
    let encoded := Marshal_observation o in
    _ ← guard_err (64 * 1024 <? len encoded) "authoritative CI observation exceeds the durable bound";
    t ← find_task id db;
    if settled (ct_state t) then Ok (tt, db)
    else
      let db := close_reconciliation (rn_OperationKey work) o now db in
      let db := if ct_current_head_sha t != ob_HeadSHA o
                then update_task id (fun t => t <| ct_current_head_sha := ob_HeadSHA o |> <| ct_state := CIWaiting |>
                                                <| ct_updated_at := UnixMilli now |>) db
                else db in
      let db := update_task id (fun t => t <| ct_last_ci_state := ob_State o |> <| ct_last_ci_json := encoded |>
                                           <| ct_updated_at := UnixMilli now |>) db in
      let attempts := ct_repair_attempts t in
      if ob_State o == CIStateSuccess then
        let db := update_task id (fun t => t <| ct_state := CICompleted |> <| ct_terminal_at := Some (UnixMilli now) |>
                                             <| ct_updated_at := UnixMilli now |>) db in
        Ok (tt, update_job id (fun j => j <| j_status := JobCompleted |> <| j_updated_at := UnixMilli now |>) db)
      else if ob_State o == CIStateInfrastructure then
        db ← queueCIEscalation id o attempts maxAttempts "infrastructure_failure" now db; Ok (tt, db)
      else if (ob_State o == CIStateCodeFailure) && (maxAttempts <=? attempts) then
        db ← queueCIEscalation id o attempts maxAttempts "attempts_exhausted" now db; Ok (tt, db)
      else if ob_State o != CIStateCodeFailure then
        let wake := UnixMilli (now + ReconciliationWake policy) in
        let db := update_task id (fun t => t <| ct_state := CIWaiting |> <| ct_deadline_at := wake |>
                                             <| ct_updated_at := UnixMilli now |>) db in
        Ok (tt, update_job id (fun j => j <| j_status := StateCIWaiting |> <| j_due_at := wake |>
                                          <| j_updated_at := UnixMilli now |>) db)
      else
        db ← schedule_repair policy id (attempts + 1) (ob_HeadSHA o) (ct_agent_model t) now db; Ok (tt, db)) db0.

(** ** Repair attempts *)

Definition attempt_of (a : ci_attempt_row) (seconds : Z) (wait : option CIExternalWait) (resume : string)
    (resumed : Z) : CIRepairAttempt :=
  mkCIRepairAttempt (ca_attempt_key a) (ca_job_id a) (ca_attempt_number a) (ca_failed_head_sha a) (ca_agent_model a)
    (ca_state a) (ca_charged a) (ca_broker_run_id a) seconds wait resume resumed (ca_operation_attempts a).

Definition repair_order (a : ci_attempt_row) : list Z := [ca_due_at a; ca_job_id a].

Definition task_in (state : string) (db : DB) (a : ci_attempt_row) : bool :=
  exists_where (fun t => (ct_job_id t =? ca_job_id a) && (ct_state t == state)) (ci_tasks db).

(** The active runtime of an attempt recorded before it was stored. *)
Definition attempt_seconds (policy : CIRepairPolicy) (a : ci_attempt_row) : Z :=
  if ca_max_runtime_seconds a =? 0 then durationSeconds (ActiveTimeout policy) else ca_max_runtime_seconds a.

Definition store_seconds (policy : CIRepairPolicy) (a : ci_attempt_row) (now : Z) (db : DB) : DB :=
  if ca_max_runtime_seconds a =? 0
  then db <| ci_attempts ::= update_where
              (fun x => (ca_attempt_key x == ca_attempt_key a) && (ca_max_runtime_seconds x =? 0))
              (fun x => x <| ca_max_runtime_seconds := attempt_seconds policy a |> <| ca_updated_at := UnixMilli now |>) |>
  else db.

Definition ClaimCIRepair (policy : CIRepairPolicy) (now : Z) (db : DB)
    : DB * option (CIRepairTask * CIRepairAttempt) :=
  match best_where repair_order (fun a => (ca_state a == "ready") && (ca_due_at a <=? UnixMilli now)
                                          && task_in CIRepairReady db a) (ci_attempts db) with
  | None => (db, None)
  | Some a =>
      match first_where (fun t => (ct_job_id t =? ca_job_id a) && (ct_state t == CIRepairReady)) (ci_tasks db) with
      | None => (db, None)
      | Some t => (store_seconds policy a now db,
                   Some (task_of t ZeroTime, attempt_of a (attempt_seconds policy a) None "" 0))
      end
  end.

Definition BindCIRepairRun (attempt : CIRepairAttempt) (brokerRunID : string) (now : Z) (db0 : DB) : DB * res unit :=
  transact (fun db =>
    _ ← guard_err ((ra_AttemptKey attempt == "") || (brokerRunID == ""))
          "repair attempt and broker run identities are required";
    a ← find_attempt (ra_AttemptKey attempt) db;
    _ ← guard_err ((ca_broker_run_id a != "") && (ca_broker_run_id a != brokerRunID))
          "repair attempt replay conflicts with broker run";
    let db := db <| ci_attempts ::= update_where
                (fun x => (ca_attempt_key x == ra_AttemptKey attempt) && one_of (ca_state x) ["ready"; "running"])
                (fun x => x <| ca_state := "running" |> <| ca_broker_run_id := brokerRunID |>
                            <| ca_operation_attempts ::= Z.succ |> <| ca_last_error := "" |>
                            <| ca_due_at := UnixMilli (now + StatusPollInterval) |> <| ca_updated_at := UnixMilli now |>) |> in
    Ok (tt, db <| ci_tasks ::= update_where
              (fun t => (ct_job_id t =? ra_JobID attempt) && one_of (ct_state t) [CIRepairReady; CIRepairRunning])
              (fun t => t <| ct_state := CIRepairRunning |> <| ct_updated_at := UnixMilli now |>) |>)) db0.

(** Single UPDATEs of one attempt in a given state. *)
Definition exec_attempt (key state : string) (f : ci_attempt_row -> ci_attempt_row) (operation : string) (db : DB)
    : DB * res unit :=
  let p := fun a => (ca_attempt_key a == key) && (ca_state a == state) in
  (db <| ci_attempts ::= update_where p f |>, expectOne (count_where p (ci_attempts db)) operation).

Definition defer_attempt (failure : goerror) (due now : Z) (a : ci_attempt_row) : ci_attempt_row :=
  a <| ca_operation_attempts ::= Z.succ |> <| ca_last_error := safeBrokerError failure |>
    <| ca_due_at := UnixMilli due |> <| ca_updated_at := UnixMilli now |>.

Definition DeferCIRepairLaunch (key : string) (due : Z) (failure : goerror) (now : Z) (db : DB) : DB * res unit :=
  if (key == "") || negb (now <? due) then (db, Err "repair launch retry requires attempt identity and future due time")
  else exec_attempt key "ready" (defer_attempt failure due now) "defer CI repair launch" db.

Definition DeferCIRepairStatus (key : string) (due : Z) (failure : goerror) (now : Z) (db : DB) : DB * res unit :=
  if (key == "") || negb (now <? due) then (db, Err "repair status retry requires attempt identity and future due time")
  else exec_attempt key "running" (defer_attempt failure due now) "defer CI repair status" db.

Definition ScheduleCIRepairStatus (key : string) (due now : Z) (db : DB) : DB * res unit :=
  if (key == "") || negb (now <? due)
  then (db, Err "repair status schedule requires attempt identity and future due time")
  else exec_attempt key "running"
         (fun a => a <| ca_last_error := "" |> <| ca_due_at := UnixMilli due |> <| ca_updated_at := UnixMilli now |>)
         "schedule CI repair status" db.

Definition stored_attempt_wait (a : ci_attempt_row) : option CIExternalWait :=
  if 0 <? ca_wait_generation a
  then Some (mkCIExternalWait "" (ca_wait_service a) (ca_wait_phase a) (ca_wait_operation a) (ca_wait_reason a)
               (ca_wait_generation a) (optionalMilliTime (ca_wait_since a)))
  else None.

Definition ClaimCIRepairStatus (policy : CIRepairPolicy) (now : Z) (db : DB)
    : DB * option (CIRepairTask * CIRepairAttempt) :=
  match best_where repair_order (fun a => (ca_state a == "running") && (ca_due_at a <=? UnixMilli now)
                                          && task_in CIRepairRunning db a) (ci_attempts db) with
  | None => (db, None)
  | Some a =>
      match first_where (fun t => (ct_job_id t =? ca_job_id a) && (ct_state t == CIRepairRunning)) (ci_tasks db) with
      | None => (db, None)
      | Some t =>
          let db := store_seconds policy a now db in
          (db <| ci_attempts ::= update_where
                   (fun x => (ca_attempt_key x == ca_attempt_key a) && (ca_state x == "running"))
                   (fun x => x <| ca_due_at := UnixMilli (now + ciReconcileLease) |> <| ca_updated_at := UnixMilli now |>) |>,
           Some (task_of t ZeroTime, attempt_of a (attempt_seconds policy a) (stored_attempt_wait a) (ca_resume_key a)
                                       (ca_resumed_generation a)))
      end
  end.

Definition RecordCIRepairExternalWait (attempt : CIRepairAttempt) (wait : CIExternalWait) (now : Z) (db0 : DB)
    : DB * res string :=
  let key := ciResumeKey (ra_AttemptKey attempt) (ew_Generation wait) in
  transact (fun db =>
    _ ← guard_err ((ra_AttemptKey attempt == "") || (ra_BrokerRunID attempt == ""))
          "external wait requires durable attempt and broker run identities";
    _ ← CIExternalWait_Validate wait;
    a ← find_attempt (ra_AttemptKey attempt) db;
    _ ← guard_err ((ca_state a != "running") || (ca_broker_run_id a != ra_BrokerRunID attempt))
          "external wait does not match the running repair attempt";
    _ ← guard_err ((ew_Generation wait <? ca_wait_generation a) || (ew_Generation wait <=? ca_resumed_generation a))
          "external wait generation is stale";
    if ew_Generation wait =? ca_wait_generation a then
      _ ← guard_err ((ca_wait_service a != ew_Service wait) || (ca_wait_phase a != ew_Phase wait)
            || (ca_wait_operation a != ew_Operation wait) || (ca_wait_reason a != ew_Reason wait)
            || (ca_wait_since a != Some (UnixMilli (ew_Since wait))) || (ca_resume_key a != key))
            "external wait replay conflicts with durable state";
      Ok (key, db)
    else
      Ok (key, db <| ci_attempts ::= update_where
                (fun x => (ca_attempt_key x == ra_AttemptKey attempt) && (ca_state x == "running"))
                (fun x => x <| ca_wait_service := ew_Service wait |> <| ca_wait_phase := ew_Phase wait |>
                            <| ca_wait_operation := ew_Operation wait |> <| ca_wait_reason := ew_Reason wait |>
                            <| ca_wait_generation := ew_Generation wait |>
                            <| ca_wait_since := Some (UnixMilli (ew_Since wait)) |> <| ca_resume_key := key |>
                            <| ca_last_error := "" |> <| ca_updated_at := UnixMilli now |>) |>)) db0.

(** The UPDATE, and when it changed nothing the check that the generation was
    already resumed. *)
Definition MarkCIRepairExternalResumed (attemptKey resumeKey : string) (generation due now : Z) (db : DB)
    : DB * res unit :=
  if (attemptKey == "") || (resumeKey == "") || (generation <? 1) || negb (now <? due)
  then (db, Err "external resume requires durable identity, generation, and future status wake")
  else
    let p := fun a => (ca_attempt_key a == attemptKey) && (ca_state a == "running")
                      && (ca_wait_generation a =? generation) && (ca_resume_key a == resumeKey)
                      && (ca_resumed_generation a <? generation) in
    let db' := db <| ci_attempts ::= update_where p (fun a =>
                 a <| ca_resumed_generation := generation |> <| ca_last_error := "" |> <| ca_due_at := UnixMilli due |>
                   <| ca_updated_at := UnixMilli now |>) |> in
    (db', if count_where p (ci_attempts db) =? 1 then Ok tt
          else
            a ← find_attempt attemptKey db';
            guard_err (ca_resumed_generation a <? generation) "external resume no longer matches the running wait").

(** ** Outcomes of a repair *)

Definition failure_classes : list string := ["infrastructure"; "model_or_code"; "delivery_or_lease"].

(** Charge the attempt to the task when the model ran. *)
Definition charge_failure (attemptKey : string) (t : ci_task_row) (modelStarted charged : bool) (maxAttempts now : Z)
    (db : DB) : res (Z * DB) :=
  if modelStarted && negb charged then
    let attempts := ct_repair_attempts t + 1 in
    _ ← guard_err (maxAttempts <? attempts) "repair attempt charge exceeds policy";
    _ ← guard_err (2 <? attempts) ErrConstraint;
    let db := update_attempt attemptKey (fun a => a <| ca_charged := true |>) db in
    Ok (attempts, update_task (ct_job_id t) (fun t => t <| ct_repair_attempts := attempts |>
                                                        <| ct_updated_at := UnixMilli now |>) db)
  else Ok (ct_repair_attempts t, db).

Definition FinishCIRepairFailure (policy : CIRepairPolicy) (attempt : CIRepairAttempt) (failureClass : string)
    (modelStarted : bool) (detail : string) (maxAttempts now : Z) (db0 : DB) : DB * res unit :=
  let key := ra_AttemptKey attempt in
  transact (fun db =>
    _ ← guard_err ((key == "") || (maxAttempts <? 1) || (2 <? maxAttempts))
          "repair failure requires attempt identity and valid attempt policy";
    _ ← guard_err (negb (one_of failureClass failure_classes)) "repair terminal has invalid failure_class";
    a ← find_attempt key db;
    t ← find_task (ca_job_id a) db;
    if ca_state a == "failed" then
      _ ← guard_err ((ca_failure_class a != failureClass) || negb (Bool.eqb (ca_charged a) modelStarted))
            "repair failure replay conflicts with durable terminal";
      Ok (tt, db)
    else
      _ ← guard_err ((ca_state a != "running") && negb ((ca_state a == "ready") && negb modelStarted))
            "repair failure is not active";
      '(attempts, db) ← charge_failure key t modelStarted (ca_charged a) maxAttempts now db;
      let db := update_attempt key (fun a => a <| ca_state := "failed" |> <| ca_failure_class := failureClass |>
                                               <| ca_last_error := safe_text detail |> <| ca_updated_at := UnixMilli now |>) db in
      let id := ct_job_id t in
      if negb modelStarted || (failureClass == "delivery_or_lease") || (maxAttempts <=? attempts)
         || (maxAttempts <=? ra_AttemptNumber attempt)
      then
        let o := mkCIObservation (ct_repository t) (ct_pull_number t) (ct_current_head_sha t) CIStateCodeFailure None false 0 in
        let o := if ct_last_ci_json t != "" then Unmarshal_observation (ct_last_ci_json t) o else o in
        let '(reason, o) := if negb modelStarted then ("infrastructure_failure", o <| ob_State := CIStateInfrastructure |>)
                            else ("attempts_exhausted", o) in
        db ← queueCIEscalation id o attempts maxAttempts reason now db; Ok (tt, db)
      else
        db ← insert_ci_attempt (new_attempt policy id (ra_AttemptNumber attempt + 1) (ct_current_head_sha t)
               (ct_agent_model t) now) db;
        let db := update_task id (fun t => t <| ct_state := CIRepairReady |> <| ct_updated_at := UnixMilli now |>) db in
        Ok (tt, update_job id (fun j => j <| j_status := StateCIRepair |> <| j_updated_at := UnixMilli now |>) db)) db0.

Definition ChargeCIRepairAttempt (key : string) (now : Z) (db0 : DB) : DB * res unit :=
  transact (fun db =>
    a ← find_attempt key db;
    _ ← guard_err (negb (one_of (ca_state a) ["running"; "candidate_delivered"; "failed"])) "repair attempt is not chargeable";
    if ca_charged a then Ok (tt, db)
    else
      let db := db <| ci_attempts ::= update_where (fun x => (ca_attempt_key x == key) && negb (ca_charged x))
                  (fun x => x <| ca_charged := true |> <| ca_updated_at := UnixMilli now |>) |> in
      let p := fun t => (ct_job_id t =? ca_job_id a) && (ct_repair_attempts t <? ca_attempt_number a) in
      _ ← guard_err (exists_where (fun t => p t && (2 <? ct_repair_attempts t + 1)) (ci_tasks db)) ErrConstraint;
      _ ← expectOne (count_where p (ci_tasks db)) "charge CI repair attempt";
      Ok (tt, db <| ci_tasks ::= update_where p (fun t =>
                t <| ct_repair_attempts ::= Z.succ |> <| ct_updated_at := UnixMilli now |>) |>)) db0.

Definition delivery_shas (d : CIRepairDelivery) : list string :=
  [dv_ExpectedOldHeadSHA d; dv_CandidateHeadSHA d; dv_ValidatedTreeSHA d; dv_DeliveredHeadSHA d; dv_DeliveredTreeSHA d].

Definition CompleteCIRepairDelivery (policy : CIRepairPolicy) (key : string) (d : CIRepairDelivery) (now : Z)
    (db0 : DB) : DB * res unit :=
  transact (fun db =>
    _ ← guard_err (exists_where (fun s => negb (githubSHA s)) (delivery_shas d))
          "repair delivery requires exact commit and tree identities";
    _ ← guard_err (dv_ValidatedTreeSHA d != dv_DeliveredTreeSHA d)
          "delivered commit tree does not match the validated tree";
    a ← find_attempt key db;
    _ ← guard_err (negb (ca_charged a)) "successful repair delivery lacks a charged model execution";
    if ca_state a == "candidate_delivered" then
      _ ← guard_err ((ca_candidate_head_sha a != dv_CandidateHeadSHA d) || (ca_validated_tree_sha a != dv_ValidatedTreeSHA d)
            || (ca_delivered_head_sha a != dv_DeliveredHeadSHA d) || (ca_delivered_tree_sha a != dv_DeliveredTreeSHA d))
            "repair delivery replay conflicts with durable result";
      Ok (tt, db)
    else
      _ ← guard_err (ca_state a != "running") "repair delivery is not active";
      let db := update_attempt key (fun a =>
                  a <| ca_state := "candidate_delivered" |> <| ca_expected_old_head_sha := dv_ExpectedOldHeadSHA d |>
                    <| ca_candidate_head_sha := dv_CandidateHeadSHA d |> <| ca_validated_tree_sha := dv_ValidatedTreeSHA d |>
                    <| ca_delivered_head_sha := dv_DeliveredHeadSHA d |> <| ca_delivered_tree_sha := dv_DeliveredTreeSHA d |>
                    <| ca_updated_at := UnixMilli now |>) db in
      let wake := UnixMilli (now + ReconciliationWake policy) in
      let db := update_task (ca_job_id a) (fun t =>
                  t <| ct_state := CIWaiting |> <| ct_current_head_sha := dv_DeliveredHeadSHA d |> <| ct_last_ci_state := "" |>
                    <| ct_deadline_at := wake |> <| ct_updated_at := UnixMilli now |>) db in
      Ok (tt, update_job (ca_job_id a) (fun j =>
                j <| j_status := StateCIWaiting |> <| j_due_at := wake |> <| j_updated_at := UnixMilli now |>) db)) db0.

(** ** Delivery of escalations *)

Definition ClaimCIEscalation (now : Z) (db : DB) : option CIEscalationReport :=
  match best_where (fun e => [es_due_at e; es_job_id e])
          (fun e => (es_state e == "pending") && (es_due_at e <=? UnixMilli now)
                    && exists_where (fun j => j_id j =? es_job_id e) (jobs db)) (ci_escalations db) with
  | None => None
  | Some e =>
      match first_where (fun j => j_id j =? es_job_id e) (jobs db) with
      | None => None
      | Some j => Some (mkCIEscalationReport ((job_of true j) <| jb_FirstAttemptAt := ZeroTime |>) (es_operation_key e)
                          (es_body e) (es_attempts e))
      end
  end.

Definition pending_escalation (r : CIEscalationReport) (e : escalation_row) : bool :=
  (es_job_id e =? jb_ID (er_Job r)) && (es_operation_key e == er_OperationKey r) && (es_state e == "pending").

Section WithURL.
Context `{NetURL}.

Definition MarkCIEscalationDelivered (r : CIEscalationReport) (result : CommentResult) (now : Z) (db0 : DB)
    : DB * res unit :=
  let id := jb_ID (er_Job r) in
  transact (fun db =>
    _ ← guard_err ((cm_ID result <? 1) || negb (validHTTPSURL (cm_URL result)))
          "CI escalation delivery lacks GitHub comment identity";
    _ ← expectOne (count_where (pending_escalation r) (ci_escalations db)) "deliver CI escalation";
    let db := db <| ci_escalations ::= update_where (pending_escalation r) (fun e =>
                e <| es_state := "delivered" |> <| es_comment_id := Some (cm_ID result) |>
                  <| es_comment_url := cm_URL result |> <| es_attempts ::= Z.succ |> <| es_updated_at := UnixMilli now |>) |> in
    let db := db <| ci_tasks ::= update_where (fun t => (ct_job_id t =? id) && (ct_state t == CIEscalationPending)) (fun t =>
                t <| ct_state := CIEscalated |> <| ct_terminal_at := Some (UnixMilli now) |>
                  <| ct_updated_at := UnixMilli now |>) |> in
    Ok (tt, update_job id (fun j => j <| j_status := JobFailed |> <| j_updated_at := UnixMilli now |>) db)) db0.
End WithURL.

Definition MarkCIEscalationFailure (r : CIEscalationReport) (retry : bool) (message : string) (now : Z) (db0 : DB)
    : DB * res unit :=
  let id := jb_ID (er_Job r) in
  let again := retry && (er_Attempts r + 1 <? ReportRetryMaxAttempts) in
  let due := if again then now + ReportRetryDelay (er_Attempts r + 1) else now in
  transact (fun db =>
    _ ← expectOne (count_where (pending_escalation r) (ci_escalations db)) "record CI escalation failure";
    let db := db <| ci_escalations ::= update_where (pending_escalation r) (fun e =>
                e <| es_state := if again then "pending" else "blocked" |> <| es_attempts ::= Z.succ |>
                  <| es_last_error := safe_text message |> <| es_due_at := UnixMilli due |>
                  <| es_updated_at := UnixMilli now |>) |> in
    if again then Ok (tt, db)
    else
      let db := db <| ci_tasks ::= update_where (fun t => (ct_job_id t =? id) && (ct_state t == CIEscalationPending)) (fun t =>
                  t <| ct_state := CIEscalationBlocked |> <| ct_updated_at := UnixMilli now |>) |> in
      Ok (tt, update_job id (fun j =>
                j <| j_status := StateReportBlocked |> <| j_last_error := "CI escalation delivery blocked: " ++ safe_text message |>
                  <| j_updated_at := UnixMilli now |>) db)) db0.
