(* ===== verification/DispatchLoop.v ===== *)
(** * The dispatcher loop

    [internal/dispatcher/dispatcher.go]: one step of the worker ([RunOne]) with
    its status reconciliation and CI repair polling, and the processing of a
    delivered signal.  A program transforms a world, the database and the
    broker calls made so far; what the broker answers is a parameter. *)

From S2P Require Import Prelude GoText GoSha256 GoJson GoNet LedgerModel Envelope DispatchPolicy DispatchStore Terminal ExternalWait CIRepair.
Open Scope string_scope.
Open Scope Z_scope.
Open Scope go_scope.

(** ** Programs *)

Inductive call :=
  | CLaunch (job : Job)
  | CStatus (run : string)
  | CTerminal (run : string)
  | CComment (job : Job) (body key : string)
  | CObserve (task : CIRepairTask) (head : string)
  | CLaunchRepair (task : CIRepairTask) (attempt : CIRepairAttempt)
  | CResume (run key : string) (seconds : Z).

(** Each call is kept with the database at the moment it was made. *)
Record world := mkWorld { w_db : DB; w_trace : list (DB * call) }.
#[export] Instance world_eta : Eta world := fun w => mkWorld (w_db w) (w_trace w).
Definition w_calls (w : world) : list call := map snd (w_trace w).

Definition prog (A : Type) : Type := world -> world * res A.

#[export] Instance prog_ret : MRet prog := fun A a w => (w, Ok a).
#[export] Instance prog_bind : MBind prog := fun A B f m w =>
  match m w with
  | (w', Ok a) => f a w'
  | (w', Err e) => (w', Err e)
  | (w', Panic) => (w', Panic)
  end.

Definition lift {A} (r : res A) : prog A := fun w => (w, r).

(** A method of the store. *)
Definition store {A} (f : DB -> DB * res A) : prog A := fun w =>
  let '(db, r) := f (w_db w) in (w <| w_db := db |>, r).

(** A method of the store that cannot fail. *)
Definition claim {A} (f : DB -> DB * A) : prog A := fun w =>
  let '(db, a) := f (w_db w) in (w <| w_db := db |>, Ok a).

(** A broker call: the answer is a value of the program, error or not. *)
Definition ask {A} (c : call) (answer : bres A) : prog (bres A) := fun w =>
  (w <| w_trace := (w_trace w ++ [(w_db w, c)])%list |>, Ok answer).

(** What the loop knows of a broker: the dynamic interfaces it implements and
    the answers it gives.  [b_reports]: a [*Broker] with a reporter URL. *)
Record BrokerClient := mkBrokerClient {
  b_reports : bool; b_repairs : bool; b_resumes : bool; b_projects : bool;
  Launch : Job -> bres string;
  Status : string -> bres RunStatus;
  Projection : string -> bres TerminalResult;
  Comment : Job -> string -> string -> bres CommentResult;
  ObserveCI : CIRepairTask -> string -> bres CIObservation;
  LaunchRepair : CIRepairTask -> CIRepairAttempt -> bres string;
  ResumeRun : string -> string -> Z -> bres RunStatus }.

(** ** JSON of a terminal result *)

Definition terminal_json (r : TerminalResult) : json :=
  JObj ([("version", JStr (tr_Version r)); ("run_id", JStr (tr_RunID r)); ("profile", JStr (tr_ResultProfile r));
         ("repo", JStr (tr_Repo r))]
        ++ omit_empty "branch" (tr_Branch r)
        ++ [("status", JStr (tr_Status r)); ("outcome", JStr (tr_Outcome r))]
        ++ omit_empty "finalize_reason" (tr_FinalizeReason r) ++ omit_empty "terminal_source" (tr_TerminalSource r)
        ++ omit_empty "idempotency_key_digest" (tr_IdempotencyKeyDigest r)
        ++ omit_empty "request_fingerprint" (tr_RequestFingerprint r)
        ++ omit_empty "launch_config_version" (tr_LaunchConfigVersion r)
        ++ match tr_Result r with Some ((_ :: _) as fields) => [("result", JObj fields)] | _ => [] end
        ++ [("final_summary", JStr (tr_FinalSummary r))]
        ++ omit_empty "failure_stage" (tr_FailureStage r) ++ omit_empty "failure_reason" (tr_FailureReason r)
        ++ [("model_execution_started", JBool (tr_ModelExecutionStarted r))]
        ++ omit_empty "failure_class" (tr_FailureClass r))%list.

Definition Marshal_terminal (r : TerminalResult) : string := marshal (terminal_json r).

(** A nil result is marshalled to [null], which decodes to the zero worker. *)
Definition worker_of (r : TerminalResult) : option workerTerminalResult :=
  match tr_Result r with Some fields => decode_worker fields | None => Some zero_worker end.

Section Loop.
Context `{NetURL} (policy : CIRepairPolicy) (broker : BrokerClient).

Definition ci_enabled : bool := is_ok (CIRepairPolicy_Validate policy).

(** ** Reconciliation of broker status *)

Definition reconcilePreOutboxFailure (job : Job) (recoverableState stage : string) (failure : goerror)
    (retryable : bool) (now : Z) : prog string :=
  let safe := safeBrokerError failure in
  attempts ← store (MarkPreOutboxFailure (jb_ID job) recoverableState
                      (now + PreOutboxRetryDelay (jb_PreOutboxAttempts job + 1)) safe now);
  if retryable && (attempts <? PreOutboxMaxAttempts) then mret recoverableState
  else
    let safe := if retryable then "pre-outbox terminal reconciliation retry limit exhausted: " ++ safe else safe in
    _ ← store (QueuePreOutboxFailure job stage safe now);
    mret StateReportPending.

Definition ReconcileStatusFailure (job : Job) (failure : goerror) (now : Z) : prog string :=
  if jb_Status job == StateExternalWaiting then
    _ ← store (DeferRepositoryRunExternalResume job (now + ExternalRecoveryWake) (Some failure) now);
    mret StateExternalWaiting
  else reconcilePreOutboxFailure job StateLaunched "broker_status" failure (IsRetryable failure) now.

(** The terminal branch: the projection is validated and rendered before
    anything is stored. *)
Definition project_terminal (job : Job) (now : Z) : prog string :=
  let fail := fun stage failure retryable => reconcilePreOutboxFailure job StateReportPending stage failure retryable now in
  if negb (b_projects broker)
  then fail "terminal_projection" (PlainErr "broker does not provide terminal projection") false
  else
    answer ← ask (CTerminal (jb_BrokerRunID job)) (Projection broker (jb_BrokerRunID job));
    match answer with
    | inr failure => fail "terminal_projection" failure (IsRetryable failure)
    | inl projected =>
        match ValidateTerminalResult job projected with
        | Panic => lift Panic
        | Err e => fail "terminal_correlation" (PlainErr e) false
        | Ok _ =>
            match RenderTerminalComment job projected with
            | Panic => lift Panic
            | Err e => fail "terminal_rendering" (PlainErr e) false
            | Ok _ =>
                if (tr_Outcome projected == "ready_for_review") && ci_enabled then
                  match worker_of projected with
                  | Some worker =>
                      match wt_PullRequest worker with
                      | Some pull =>
                          _ ← store (BeginCIWait job (pr_Number pull) (tr_Branch projected) (wt_DeliveredHeadSHA worker)
                                (tr_ResultProfile projected) (now + ReconciliationWake policy) now (Marshal_terminal projected));
                          mret StateCIWaiting
                      | None => fail "ci_wait_correlation" (PlainErr "ready result lacks durable pull request coordinates") false
                      end
                  | None => fail "ci_wait_correlation" (PlainErr "ready result lacks durable pull request coordinates") false
                  end
                else
                  _ ← store (QueueTerminalResult job projected now);
                  mret StateReportPending
            end
        end
    end.

Definition ReconcileStatusResult (job : Job) (result : RunStatus) (now : Z) : prog string :=
  let fail := fun failure => reconcilePreOutboxFailure job StateReportPending "broker_status" failure false now in
  if (st_RunID result == "") || (st_RunID result != jb_BrokerRunID job)
  then fail (PlainErr "broker status response has invalid run correlation")
  else if st_Status result == "waiting_external" then
    match st_ExternalWait result with
    | None => fail (PlainErr "broker waiting_external status lacks structured external_wait")
    | Some wait =>
        _ ← store (RecordRepositoryRunExternalWait policy job wait now);
        mret StateExternalWaiting
    end
  else
    job ← if jb_Status job == StateExternalWaiting
          then _ ← store (ReconcileRepositoryRunExternalResume job now); mret (job <| jb_Status := StateLaunched |>)
          else mret job;
    match ReconciledStatus (st_Status result) with
    | inr failure => reconcilePreOutboxFailure job StateReportPending "broker_status" failure false now
    | inl state =>
        if state == StateLaunched then
          _ ← store (MarkStatus (jb_ID job) state (now + StatusPollInterval) "" now); mret state
        else project_terminal job now
    end.

(** Resume of a run whose wait is ready. *)
Definition resume_run (job : Job) (wait : RepositoryRunExternalWait) (now : Z) : prog unit :=
  let defer := fun due failure => store (DeferRepositoryRunExternalResume job due (Some failure) now) in
  if negb (b_resumes broker)
  then defer (now + ExternalRecoveryWake) (PlainErr "broker does not support external wait resume")
  else
    resumed ← ask (CResume (rw_BrokerRunID wait) (rw_ResumeKey wait) (rw_MaxRuntimeSeconds wait))
                (ResumeRun broker (rw_BrokerRunID wait) (rw_ResumeKey wait) (rw_MaxRuntimeSeconds wait));
    match resumed with
    | inr failure => defer (now + PreOutboxRetryDelay (jb_PreOutboxAttempts job + 1)) failure
    | inl status =>
        if st_RunID status != rw_BrokerRunID wait
        then defer (now + ExternalRecoveryWake) (PlainErr "broker external resume run correlation is invalid")
        else match ReconciledStatus (st_Status status) with
             | inr failure =>
                 if st_Status status != "waiting_external" then defer (now + ExternalRecoveryWake) failure
                 else store (MarkRepositoryRunExternalResumed wait now)
             | inl _ => store (MarkRepositoryRunExternalResumed wait now)
             end
    end.

Definition runStatus (job : Job) (now : Z) : prog unit :=
  answer ← ask (CStatus (jb_BrokerRunID job)) (Status broker (jb_BrokerRunID job));
  match answer with
  | inr failure =>
      if jb_Status job == StateExternalWaiting
      then store (DeferRepositoryRunExternalResume job (now + ExternalRecoveryWake) (Some failure) now)
      else _ ← ReconcileStatusFailure job failure now; mret tt
  | inl result =>
      if (st_RunID result == "") || (st_RunID result != jb_BrokerRunID job)
      then lift (Err "broker status response has invalid run correlation")
      else if st_Status result == "waiting_external" then
        let fail := fun failure =>
          _ ← reconcilePreOutboxFailure job StateReportPending "broker_status" failure false now; mret tt in
        match st_ExternalWait result with
        | None => fail (PlainErr "broker waiting_external status lacks structured external_wait")
        | Some wait =>
            match CIExternalWait_Validate wait with
            | Panic => lift Panic
            | Err e => fail (PlainErr e)
            | Ok _ =>
                stored ← store (RecordRepositoryRunExternalWait policy job wait now);
                if rw_State stored != "resume_ready" then mret tt else resume_run job stored now
            end
        end
      else _ ← ReconcileStatusResult job result now; mret tt
  end.

(** ** CI repair runs *)

Definition validateCIRepairTerminal (task : CIRepairTask) (attempt : CIRepairAttempt) (terminal : TerminalResult)
    : res unit :=
  _ ← guard_err ((tr_Version terminal != terminalResultVersion) || (tr_RunID terminal != ra_BrokerRunID attempt)
        || (tr_ResultProfile terminal != ra_AgentModel attempt) || (tr_Repo terminal != tk_Repository task)
        || negb (terminalOutcomeMatchesStatus (tr_Status terminal) (tr_Outcome terminal) (tr_FailureStage terminal)))
        "repair terminal result correlation is invalid";
  if tr_Outcome terminal == "ready_for_review" then
    guard_err (match worker_of terminal with
               | Some worker =>
                   match wt_PullRequest worker with
                   | Some pull =>
                       negb (pr_Number pull =? tk_PullNumber task) || (wt_Branch worker != tk_Branch task)
                       || negb (githubSHA (wt_ExpectedOldHeadSHA worker)) || negb (githubSHA (wt_CandidateHeadSHA worker))
                       || negb (githubSHA (wt_DeliveredHeadSHA worker)) || negb (githubSHA (wt_ValidatedTreeSHA worker))
                       || negb (githubSHA (wt_DeliveredTreeSHA worker))
                       || (wt_DeliveredTreeSHA worker != wt_ValidatedTreeSHA worker)
                   | None => true
                   end
               | None => true
               end) "repair terminal lacks exact delivery provenance"
  else if tr_Outcome terminal == "no_change_required" then Ok tt
  else guard_err (negb (one_of (tr_FailureClass terminal) ["infrastructure"; "model_or_code"; "delivery_or_lease"]))
         "repair terminal failure_class is invalid".

Definition finish_failure (attempt : CIRepairAttempt) (class : string) (started : bool) (detail : string) (now : Z)
    : prog unit :=
  store (FinishCIRepairFailure policy attempt class started detail (CIMaxAttempts policy) now).

Definition deferOrFailCIRepairStatus (attempt : CIRepairAttempt) (failure : goerror) (now : Z) : prog unit :=
  if IsRetryable failure
  then store (DeferCIRepairStatus (ra_AttemptKey attempt) (now + PreOutboxRetryDelay (ra_Operations attempt + 1)) failure now)
  else finish_failure attempt "infrastructure" false (safeBrokerError failure) now.

Definition resume_statuses : list string :=
  ["running"; "pending"; "waiting_external"; "completed"; "failed"; "timed_out"; "stopped"; "cancelled"].

(** A repair that waits on GitHub: the wait is durable before the head is
    observed and the run resumed. *)
Definition repair_waiting (task : CIRepairTask) (attempt : CIRepairAttempt) (wait : CIExternalWait) (now : Z)
    : prog unit :=
  resumeKey ← store (RecordCIRepairExternalWait attempt wait now);
  observed ← ask (CObserve task (ra_FailedHeadSHA attempt)) (ObserveCI broker task (ra_FailedHeadSHA attempt));
  let resume :=
    resumed ← ask (CResume (ra_BrokerRunID attempt) resumeKey (ra_MaxRuntimeSeconds attempt))
                (ResumeRun broker (ra_BrokerRunID attempt) resumeKey (ra_MaxRuntimeSeconds attempt));
    match resumed with
    | inr failure =>
        store (DeferCIRepairStatus (ra_AttemptKey attempt) (now + PreOutboxRetryDelay (ra_Operations attempt + 1)) failure now)
    | inl status =>
        _ ← lift (guard_err (st_RunID status != ra_BrokerRunID attempt) "broker repair resume run correlation is invalid");
        _ ← lift (guard_err (negb (one_of (st_Status status) resume_statuses)) "broker repair resume status is invalid");
        store (MarkCIRepairExternalResumed (ra_AttemptKey attempt) resumeKey (ew_Generation wait)
                 (now + StatusPollInterval) now)
    end in
  match observed with
  | inr failure =>
      if isStalePullHead failure then resume
      else store (DeferCIRepairStatus (ra_AttemptKey attempt) (now + ExternalRecoveryWake) failure now)
  | inl _ => resume
  end.

(** A repair run that ended. *)
Definition repair_terminal (task : CIRepairTask) (attempt : CIRepairAttempt) (now : Z) : prog unit :=
  answer ← ask (CTerminal (ra_BrokerRunID attempt)) (Projection broker (ra_BrokerRunID attempt));
  match answer with
  | inr failure => deferOrFailCIRepairStatus attempt failure now
  | inl terminal =>
      match validateCIRepairTerminal task attempt terminal with
      | Panic => lift Panic
      | Err e => finish_failure attempt "infrastructure" false e now
      | Ok _ =>
          if tr_Outcome terminal != "ready_for_review" then
            if tr_Outcome terminal == "no_change_required"
            then finish_failure attempt "model_or_code" (tr_ModelExecutionStarted terminal)
                   "repair execution produced no candidate head" now
            else
              let detail := TrimSpace (tr_FailureReason terminal) in
              let detail := if detail == "" then "repair execution failed" else detail in
              finish_failure attempt (tr_FailureClass terminal) (tr_ModelExecutionStarted terminal) detail now
          else if negb (tr_ModelExecutionStarted terminal)
          then finish_failure attempt "infrastructure" false "successful repair terminal lacks model execution proof" now
          else match worker_of terminal with
               | None => finish_failure attempt "infrastructure" false "repair terminal result is malformed" now
               | Some worker =>
                   _ ← store (ChargeCIRepairAttempt (ra_AttemptKey attempt) now);
                   store (CompleteCIRepairDelivery policy (ra_AttemptKey attempt)
                     (mkCIRepairDelivery (wt_ExpectedOldHeadSHA worker) (wt_CandidateHeadSHA worker)
                        (wt_ValidatedTreeSHA worker) (wt_DeliveredHeadSHA worker) (wt_DeliveredTreeSHA worker)) now)
               end
      end
  end.

Definition runCIRepairStatus (task : CIRepairTask) (attempt : CIRepairAttempt) (now : Z) : prog unit :=
  answer ← ask (CStatus (ra_BrokerRunID attempt)) (Status broker (ra_BrokerRunID attempt));
  match answer with
  | inr failure => deferOrFailCIRepairStatus attempt failure now
  | inl status =>
      if st_RunID status != ra_BrokerRunID attempt
      then finish_failure attempt "infrastructure" false "broker repair status run correlation is invalid" now
      else if st_Status status == "waiting_external" then
        match st_ExternalWait status with
        | None => lift (Err "broker waiting_external status lacks structured external_wait")
        | Some wait => repair_waiting task attempt wait now
        end
      else
        _ ← match ra_ExternalWait attempt with
            | Some wait =>
                if ra_ResumedGeneration attempt <? ew_Generation wait
                then store (MarkCIRepairExternalResumed (ra_AttemptKey attempt) (ra_ExternalResumeKey attempt)
                              (ew_Generation wait) (now + StatusPollInterval) now)
                else mret tt
            | None => mret tt
            end;
        match ReconciledStatus (st_Status status) with
        | inr failure => finish_failure attempt "infrastructure" false (safeBrokerError failure) now
        | inl state =>
            if state == StateLaunched
            then store (ScheduleCIRepairStatus (ra_AttemptKey attempt) (now + StatusPollInterval) now)
            else repair_terminal task attempt now
        end
  end.

(** ** One step of the worker

    The [bool] is whether there was work; the phases are tried in order. *)

Definition worked (m : prog unit) : prog bool := _ ← m; mret true.

Definition deliver_escalation (report : CIEscalationReport) (now : Z) : prog unit :=
  answer ← ask (CComment (er_Job report) (er_Body report) (er_OperationKey report))
             (Comment broker (er_Job report) (er_Body report) (er_OperationKey report));
  match answer with
  | inl result => store (MarkCIEscalationDelivered report result now)
  | inr failure => store (MarkCIEscalationFailure report (IsRetryable failure) (safeBrokerError failure) now)
  end.

Definition observe_reconciliation (work : CIReconciliation) (now : Z) : prog unit :=
  answer ← ask (CObserve (rn_Task work) (rn_HeadSHA work)) (ObserveCI broker (rn_Task work) (rn_HeadSHA work));
  match answer with
  | inr failure => store (FailCIReconciliation policy work failure (IsRetryable failure) now)
  | inl observation => store (ApplyCIObservation policy work observation (CIMaxAttempts policy) now)
  end.

Definition launch_repair (task : CIRepairTask) (attempt : CIRepairAttempt) (now : Z) : prog unit :=
  answer ← ask (CLaunchRepair task attempt) (LaunchRepair broker task attempt);
  match answer with
  | inl runID => store (BindCIRepairRun attempt runID now)
  | inr failure =>
      if IsRetryable failure
      then store (DeferCIRepairLaunch (ra_AttemptKey attempt) (now + LaunchRetryDelay (ra_Operations attempt + 1)) failure now)
      else finish_failure attempt "infrastructure" false (safeBrokerError failure) now
  end.

Definition deliver_report (report : Report) (now : Z) : prog unit :=
  answer ← ask (CComment (rp_Job report) (rp_Body report) (rp_IdempotencyKey report))
             (Comment broker (rp_Job report) (rp_Body report) (rp_IdempotencyKey report));
  match answer with
  | inl result => store (MarkReportDelivered report (cm_ID result) (cm_URL result) now)
  | inr failure =>
      let retry := IsRetryable failure in
      let exhausted := retry && (ReportRetryMaxAttempts <=? rp_Attempts report + 1) in
      store (MarkReportFailure report (retry && negb exhausted)
        (if exhausted then "terminal issue comment delivery retry limit exhausted: " ++ safeBrokerError failure
         else safeBrokerError failure) now)
  end.

Definition launch_job (job : Job) (now : Z) : prog unit :=
  let window := jb_FirstAttemptAt job + LaunchRetryWindow in
  if negb (jb_FirstAttemptAt job =? ZeroTime) && negb (now <? window)
  then store (QueueLaunchFailure job "launch retry window exhausted" now)
  else
    answer ← ask (CLaunch job) (Launch broker job);
    match answer with
    | inl runID => store (MarkLaunched (jb_ID job) runID (now + StatusPollInterval) now)
    | inr failure =>
        let due := now + LaunchRetryDelay (jb_Attempts job) in
        let due := if IsRetryable failure && negb (due <? window) then window else due in
        if IsRetryable failure
        then store (MarkLaunchFailure (jb_ID job) true due (safeBrokerError failure) now)
        else store (QueueLaunchFailure job (safeLaunchFailureReason failure) now)
    end.

Definition run_escalation (now : Z) (next : prog bool) : prog bool :=
  if b_reports broker && ci_enabled then
    due ← claim (fun db => (db, ClaimCIEscalation now db));
    match due with Some report => worked (deliver_escalation report now) | None => next end
  else next.

Definition run_repairs (now : Z) (next : prog bool) : prog bool :=
  if b_repairs broker && ci_enabled then
    reconcile ← claim (ClaimCIReconciliation now);
    match reconcile with
    | Some work => worked (observe_reconciliation work now)
    | None =>
        launch ← claim (ClaimCIRepair policy now);
        match launch with
        | Some (task, attempt) => worked (launch_repair task attempt now)
        | None =>
            status ← claim (ClaimCIRepairStatus policy now);
            match status with
            | Some (task, attempt) => worked (runCIRepairStatus task attempt now)
            | None => next
            end
        end
    end
  else next.

Definition run_report (now : Z) (next : prog bool) : prog bool :=
  if b_reports broker then
    due ← claim (fun db => (db, ClaimReportDue now db));
    match due with Some report => worked (deliver_report report now) | None => next end
  else next.

Definition run_job (now : Z) : prog bool :=
  work ← store (ClaimDue now);
  match work with
  | None => mret false
  | Some w =>
      let job := wk_Job w in
      match wk_Kind w with
      | WorkStatus =>
          if (jb_Status job == StateReportPending) && negb (b_reports broker)
          then worked (store (DeferReportPending (jb_ID job) (now + ReporterUnavailableDelay) now))
          else worked (runStatus job now)
      | WorkLaunch => worked (launch_job job now)
      end
  end.

Definition RunOne (now : Z) : prog bool :=
  run_escalation now (run_repairs now (run_report now (run_job now))).

End Loop.

(** ** Deliveries *)

(** A JetStream delivery: its stream sequence, its data, and what
    acknowledging it returns. *)
Record Delivery := mkDelivery { d_StreamSequence : res Z; d_Data : string; d_AckSync : res unit }.

Inductive ack := AckSync | Term.

(** The database, what was done to the delivery, and the error. *)
Definition process (routes : list RepositoryTaskRoute) (delivery : Delivery) (now : Z) (recoveryID : string)
    (terminateMalformed : bool) (db : DB) : DB * list ack * res unit :=
  match d_StreamSequence delivery with
  | Panic => (db, [], Panic)
  | Err e => (db, [], Err ("read JetStream delivery metadata: " ++ e))
  | Ok seq =>
      if seq =? 0 then (db, [], Err "read JetStream delivery metadata: stream sequence is zero")
      else match Unmarshal_signal (d_Data delivery) with
      | None => (db, if terminateMalformed then [Term] else [], Err "decode replayed signal")
      | Some signal =>
          let owned := routeOwnsRepository routes (m_Namespace (sg_Meta signal)) in
          let '(db, r) := if isCIWakeEvent (m_SourceEvent (sg_Meta signal)) && owned
                          then RecordCIEvent signal now db else (db, Ok false) in
          match r with
          | Panic => (db, [], Panic)
          | Err e => (db, [], Err ("persist CI wake-up: " ++ e))
          | Ok _ =>
              let '(db, r) := if owned then RecordRepositoryRunExternalWake signal now db else (db, Ok false) in
              match r with
              | Panic => (db, [], Panic)
              | Err e => (db, [], Err ("persist repository run external wake-up: " ++ e))
              | Ok _ =>
                  let '(selected, outcome) := Select signal routes in
                  let id := m_SourceDeliveryID (sg_Meta signal) in
                  let '(db, r) := if recoveryID == "" then Record_ id outcome seq selected now db
                                  else RecordRecovery recoveryID id outcome seq selected now db in
                  match r with
                  | Panic => (db, [], Panic)
                  | Err e => (db, [], Err ("persist delivery: " ++ e))
                  | Ok _ =>
                      match d_AckSync delivery with
                      | Err e => (db, [AckSync], Err ("acknowledge delivery: " ++ e))
                      | r => (db, [AckSync], r)
                      end
                  end
              end
          end
      end
  end.

Definition Process (routes : list RepositoryTaskRoute) (delivery : Delivery) (now : Z) (db : DB)
    : DB * list ack * bool :=
  let '(db, acks, r) := process routes delivery now "" true db in (db, acks, is_ok r).

Definition ProcessRecovery (routes : list RepositoryTaskRoute) (recoveryID : string) (delivery : Delivery) (now : Z)
    (db : DB) : DB * list ack * res unit :=
  if recoveryID == "" then (db, [], Err "recovery id is required")
  else process routes delivery now recoveryID false db.
