(* ===== verification/Broker.v ===== *)
(** * The broker client

    [internal/dispatcher/broker.go]: the HTTP requests of the dispatcher to the
    sandbox broker and the checks on its answers.  The HTTP transport, the URL
    library and the error texts of the decoder are parameters; a request URL is
    kept as the parsed base with the path, the encoded path and the query the
    client sets on it. *)

From S2P Require Import Prelude GoText GoSha256 GoJson GoNet LedgerModel Envelope DispatchPolicy DispatchStore Terminal CIRepair DispatchLoop.
From Stdlib Require Import Ascii.
Open Scope string_scope.
Open Scope Z_scope.
Open Scope go_scope.

Definition maxBrokerResponseBytes : Z := 2 ^ 20.
Definition maxCIObservationBytes : Z := 16 * 2 ^ 20.
Definition terminalReporterAgentID : string := "repository-task-terminal-reporter".
Definition brokerCIObservationVersion : string := "broker-ci-observation/v1".
Definition brokerRunLaunchVersion : string := "broker-run-launch/v1".
Definition brokerRunStatusVersion : string := "broker-run-status/v1".
Definition brokerExternalWaitVersion : string := "broker-external-wait/v1".

(** ** Requests and replies *)

(** A request URL: scheme, host and user of [tg_Base], no fragment. *)
Record target := mkTarget {
  tg_Base : parsed_url; tg_Path : string; tg_RawPath : string; tg_RawQuery : string }.

Record HttpRequest := mkHttpRequest {
  hq_Method : string; hq_URL : target; hq_Header : list (string * string); hq_Body : string }.

(** The libraries under the client.  [http_request_error] is the error of
    [http.NewRequest]; [http_query_Set] is [Query], [Set] and [Encode] on a raw
    query; [json_error] is the error of decoding a text into a
    type. *)
Class HttpClient := {
  http_url_error : string -> string;
  http_query_Set : string -> string -> string -> string;
  http_request_error : target -> option string;
  http_Do : HttpRequest -> http_reply;
  json_error : string -> string -> string }.

(** ** Errors *)

Definition permanentMalformed {A} (message : string) (cause : option string) : bres A :=
  inr (BrokerErr (mkBrokerError 0 "" (match cause with Some c => message ++ ": " ++ c | None => message end) false true)).

#[export] Instance bres_ret : MRet bres := fun A a => inl a.
#[export] Instance bres_bind : MBind bres := fun A B f m =>
  match m with inl a => f a | inr e => inr e end.

(** The early return [if c { return permanentMalformed(message, nil) }]. *)
Definition refuse (c : bool) (message : string) : bres unit :=
  if c then permanentMalformed message None else inl tt.

(** ** Decoding *)

Record LaunchResult := mkLaunchResult {
  lr_Version : string; lr_RunID : string }.
#[export] Instance LaunchResult_eta : Eta LaunchResult := fun r =>
  mkLaunchResult (lr_Version r) (lr_RunID r).

Record raw_status := mkRawStatus {
  rs_Context : string; rs_State : string; rs_Description : string }.
#[export] Instance raw_status_eta : Eta raw_status := fun r =>
  mkRawStatus (rs_Context r) (rs_State r) (rs_Description r).

Record raw_output := mkRawOutput {
  ro_Title : string; ro_Summary : string }.
#[export] Instance raw_output_eta : Eta raw_output := fun r =>
  mkRawOutput (ro_Title r) (ro_Summary r).

Record raw_check := mkRawCheck {
  rc_Name : string; rc_Conclusion : string; rc_Output : option raw_output }.
#[export] Instance raw_check_eta : Eta raw_check := fun r =>
  mkRawCheck (rc_Name r) (rc_Conclusion r) (rc_Output r).

Record raw_job := mkRawJob {
  rj_Name : string; rj_Conclusion : string }.
#[export] Instance raw_job_eta : Eta raw_job := fun r =>
  mkRawJob (rj_Name r) (rj_Conclusion r).

Record brokerCIObservation := mkBrokerObservation {
  bo_Version : string; bo_RequestedHeadSHA : string; bo_PullNumber : Z; bo_PullHeadSHA : string;
  bo_Statuses : slice raw_status; bo_CheckRuns : slice raw_check; bo_WorkflowJobs : slice raw_job;
  bo_AggregateState : string }.
#[export] Instance brokerCIObservation_eta : Eta brokerCIObservation := fun r =>
  mkBrokerObservation (bo_Version r) (bo_RequestedHeadSHA r) (bo_PullNumber r) (bo_PullHeadSHA r)
    (bo_Statuses r) (bo_CheckRuns r) (bo_WorkflowJobs r) (bo_AggregateState r).

Section Client.
Context `{HttpClient} `{GoFloat} `{GoUnicode}.

(** *** Launches *)


Definition decode_launch (raw : string) : option LaunchResult :=
  parse_json raw ≫= fun v => decode_struct ["version"; "run_id"] false (fun n v r =>
    if n == "version" then x ← decode_string v (lr_Version r); Some (r <| lr_Version := x |>)
    else x ← decode_string v (lr_RunID r); Some (r <| lr_RunID := x |>)) v (mkLaunchResult "" "").

(** *** Run status *)

Definition raw_int (raw : string) (old : Z) : option Z := parse_json raw ≫= fun v => decode_int v old.
Definition raw_bool (raw : string) (old : bool) : option bool := parse_json raw ≫= fun v => decode_bool v old.

Definition zero_wait : CIExternalWait := mkCIExternalWait "" "" "" "" "" 0 ZeroTime.

Definition set_wait (n raw : string) (w : CIExternalWait) : option CIExternalWait :=
  if n == "version" then x ← raw_string raw (ew_Version w); Some (w <| ew_Version := x |>)
  else if n == "service" then x ← raw_string raw (ew_Service w); Some (w <| ew_Service := x |>)
  else if n == "phase" then x ← raw_string raw (ew_Phase w); Some (w <| ew_Phase := x |>)
  else if n == "operation" then x ← raw_string raw (ew_Operation w); Some (w <| ew_Operation := x |>)
  else if n == "reason" then x ← raw_string raw (ew_Reason w); Some (w <| ew_Reason := x |>)
  else if n == "generation" then x ← raw_int raw (ew_Generation w); Some (w <| ew_Generation := x |>)
  else x ← Time_UnmarshalJSON raw (ew_Since w); Some (w <| ew_Since := x |>).

Definition decode_wait (raw : string) (old : option CIExternalWait) : option (option CIExternalWait) :=
  if raw == "null" then Some None
  else option_map Some (decode_raw_struct ["version"; "service"; "phase"; "operation"; "reason"; "generation"; "since"]
                          set_wait raw (default zero_wait old)).

Definition set_status (n raw : string) (s : RunStatus) : option RunStatus :=
  if n == "version" then x ← raw_string raw (st_Version s); Some (s <| st_Version := x |>)
  else if n == "run_id" then x ← raw_string raw (st_RunID s); Some (s <| st_RunID := x |>)
  else if n == "status" then x ← raw_string raw (st_Status s); Some (s <| st_Status := x |>)
  else if n == "external_wait" then x ← decode_wait raw (st_ExternalWait s); Some (s <| st_ExternalWait := x |>)
  else x ← raw_bool raw (st_Replay s); Some (s <| st_Replay := x |>).

Definition decode_status (raw : string) : option RunStatus :=
  decode_raw_struct ["version"; "run_id"; "status"; "external_wait"; "replay"] set_status raw
    (mkRunStatus "" "" "" None false).

(** *** Comments and terminal results *)

Definition set_comment (n : string) (v : json) (c : CommentResult) : option CommentResult :=
  if n == "id" then x ← decode_int v (cm_ID c); Some (mkCommentResult x (cm_URL c))
  else x ← decode_string v (cm_URL c); Some (mkCommentResult (cm_ID c) x).

Definition decode_comment (raw : string) : option CommentResult :=
  parse_json raw ≫= fun v => decode_struct ["id"; "html_url"] false set_comment v (mkCommentResult 0 "").

Definition zero_terminal : TerminalResult := mkTerminalResult "" "" "" "" "" "" "" "" "" "" "" "" None "" "" "" false "".

Definition terminal_fields : list string :=
  ["version"; "run_id"; "profile"; "repo"; "branch"; "status"; "outcome"; "finalize_reason"; "terminal_source";
   "idempotency_key_digest"; "request_fingerprint"; "launch_config_version"; "result"; "final_summary";
   "failure_stage"; "failure_reason"; "model_execution_started"; "failure_class"].

Definition set_terminal (n : string) (v : json) (r : TerminalResult) : option TerminalResult :=
  if n == "version" then x ← decode_string v (tr_Version r); Some (r <| tr_Version := x |>)
  else if n == "run_id" then x ← decode_string v (tr_RunID r); Some (r <| tr_RunID := x |>)
  else if n == "profile" then x ← decode_string v (tr_ResultProfile r); Some (r <| tr_ResultProfile := x |>)
  else if n == "repo" then x ← decode_string v (tr_Repo r); Some (r <| tr_Repo := x |>)
  else if n == "branch" then x ← decode_string v (tr_Branch r); Some (r <| tr_Branch := x |>)
  else if n == "status" then x ← decode_string v (tr_Status r); Some (r <| tr_Status := x |>)
  else if n == "outcome" then x ← decode_string v (tr_Outcome r); Some (r <| tr_Outcome := x |>)
  else if n == "finalize_reason" then x ← decode_string v (tr_FinalizeReason r); Some (r <| tr_FinalizeReason := x |>)
  else if n == "terminal_source" then x ← decode_string v (tr_TerminalSource r); Some (r <| tr_TerminalSource := x |>)
  else if n == "idempotency_key_digest" then x ← decode_string v (tr_IdempotencyKeyDigest r); Some (r <| tr_IdempotencyKeyDigest := x |>)
  else if n == "request_fingerprint" then x ← decode_string v (tr_RequestFingerprint r); Some (r <| tr_RequestFingerprint := x |>)
  else if n == "launch_config_version" then x ← decode_string v (tr_LaunchConfigVersion r); Some (r <| tr_LaunchConfigVersion := x |>)
  else if n == "result" then x ← decode_map v (tr_Result r); Some (r <| tr_Result := x |>)
  else if n == "final_summary" then x ← decode_string v (tr_FinalSummary r); Some (r <| tr_FinalSummary := x |>)
  else if n == "failure_stage" then x ← decode_string v (tr_FailureStage r); Some (r <| tr_FailureStage := x |>)
  else if n == "failure_reason" then x ← decode_string v (tr_FailureReason r); Some (r <| tr_FailureReason := x |>)
  else if n == "model_execution_started" then x ← decode_bool v (tr_ModelExecutionStarted r); Some (r <| tr_ModelExecutionStarted := x |>)
  else x ← decode_string v (tr_FailureClass r); Some (r <| tr_FailureClass := x |>).

Definition decode_terminal (raw : string) : option TerminalResult :=
  parse_json raw ≫= fun v => decode_struct terminal_fields false set_terminal v zero_terminal.

(** *** CI observations *)


Definition set_raw_status (n : string) (v : json) (s : raw_status) : option raw_status :=
  if n == "context" then x ← decode_string v (rs_Context s); Some (s <| rs_Context := x |>)
  else if n == "state" then x ← decode_string v (rs_State s); Some (s <| rs_State := x |>)
  else x ← decode_string v (rs_Description s); Some (s <| rs_Description := x |>).

Definition set_output (n : string) (v : json) (o : raw_output) : option raw_output :=
  if n == "title" then x ← decode_string v (ro_Title o); Some (o <| ro_Title := x |>)
  else x ← decode_string v (ro_Summary o); Some (o <| ro_Summary := x |>).

Definition set_raw_check (n : string) (v : json) (c : raw_check) : option raw_check :=
  if n == "name" then x ← decode_string v (rc_Name c); Some (c <| rc_Name := x |>)
  else if n == "conclusion" then x ← decode_string v (rc_Conclusion c); Some (c <| rc_Conclusion := x |>)
  else x ← decode_pointer (decode_struct ["title"; "summary"] false set_output) (mkRawOutput "" "") v (rc_Output c);
       Some (c <| rc_Output := x |>).

Definition set_job (n : string) (v : json) (j : raw_job) : option raw_job :=
  if n == "name" then x ← decode_string v (rj_Name j); Some (j <| rj_Name := x |>)
  else x ← decode_string v (rj_Conclusion j); Some (j <| rj_Conclusion := x |>).

Definition set_broker_observation (n : string) (v : json) (o : brokerCIObservation) : option brokerCIObservation :=
  if n == "version" then x ← decode_string v (bo_Version o); Some (o <| bo_Version := x |>)
  else if n == "requested_head_sha" then
    x ← decode_string v (bo_RequestedHeadSHA o); Some (o <| bo_RequestedHeadSHA := x |>)
  else if n == "pull" then
    decode_struct ["number"; "head_sha"] false (fun n v o =>
      if n == "number" then x ← decode_int v (bo_PullNumber o); Some (o <| bo_PullNumber := x |>)
      else x ← decode_string v (bo_PullHeadSHA o); Some (o <| bo_PullHeadSHA := x |>)) v o
  else if n == "commit_status" then
    decode_struct ["statuses"] false (fun _ v o =>
      x ← decode_slice (decode_struct ["context"; "state"; "description"] false set_raw_status) (mkRawStatus "" "" "")
            v (bo_Statuses o); Some (o <| bo_Statuses := x |>)) v o
  else if n == "check_runs" then
    decode_struct ["check_runs"] false (fun _ v o =>
      x ← decode_slice (decode_struct ["name"; "conclusion"; "output"] false set_raw_check) (mkRawCheck "" "" None)
            v (bo_CheckRuns o); Some (o <| bo_CheckRuns := x |>)) v o
  else if n == "workflow_jobs" then
    x ← decode_slice (decode_struct ["name"; "conclusion"] false set_job) (mkRawJob "" "") v (bo_WorkflowJobs o);
    Some (o <| bo_WorkflowJobs := x |>)
  else x ← decode_string v (bo_AggregateState o); Some (o <| bo_AggregateState := x |>).

Definition decode_broker_observation (raw : string) : option brokerCIObservation :=
  parse_json raw ≫= fun v =>
    decode_struct ["version"; "requested_head_sha"; "pull"; "commit_status"; "check_runs"; "workflow_jobs";
                   "aggregate_state"] false set_broker_observation v (mkBrokerObservation "" "" 0 "" None None None "").

(** *** Broker errors *)

Definition set_error (n : string) (v : json) (e : string * string) : option (string * string) :=
  if n == "code" then x ← decode_string v (fst e); Some (x, snd e)
  else x ← decode_string v (snd e); Some (fst e, x).

(** The code and message of the top level and, when present, of the nested error. *)
Definition decode_error (raw : string) : option ((string * string) * option (string * string)) :=
  parse_json raw ≫= fun v =>
    decode_struct ["code"; "message"; "error"] false (fun n v b =>
      if n == "error" then
        x ← decode_pointer (decode_struct ["code"; "message"] false set_error) ("", "") v (snd b); Some (fst b, x)
      else x ← set_error n v (fst b); Some (x, snd b)) v (("", ""), None).

Definition structuredBrokerError (raw : string) : string * string :=
  let normal (e : string * string) := (ToLower unicode_lower (TrimSpace (fst e)), TrimSpace (snd e)) in
  match decode_error raw with
  | None => ("", "")
  | Some (_, Some e) => normal e
  | Some (b, None) => normal b
  end.

(** ** One exchange *)

Definition doJSONLimit {A} (req : HttpRequest) (destination : string) (decode : string -> option A) (limit : Z) : bres A :=
  match http_Do req with
  | TransportError e => inr (BrokerErr (mkBrokerError 0 "" ("broker transport failure: " ++ e) true false))
  | Reply status body read_error =>
      match ReadAll_limit (limit + 1) body read_error with
      | inr e => inr (BrokerErr (mkBrokerError 0 "" ("read broker response: " ++ e) true false))
      | inl raw =>
          if limit <? len raw then permanentMalformed ("broker response exceeds " ++ fmt_d limit ++ " bytes") None
          else if (status <? 200) || (300 <=? status) then
            let '(code, message) := structuredBrokerError raw in
            let message := if message == "" then "broker returned HTTP " ++ fmt_d status else message in
            inr (BrokerErr (mkBrokerError status code message false false))
          else match decode raw with
               | Some a => inl a
               | None => permanentMalformed "decode broker success response" (Some (json_error destination raw))
               end
      end
  end.

Definition doJSON {A} (req : HttpRequest) (destination : string) (decode : string -> option A) : bres A :=
  doJSONLimit req destination decode maxBrokerResponseBytes.

(** ** The client *)

Record Broker := mkBroker { bk_URL : string; bk_Token : string; bk_ReporterURL : string; bk_ReporterToken : string }.

Definition authorize (b : Broker) : list (string * string) :=
  if bk_Token b != "" then [("Authorization", "Bearer " ++ bk_Token b)] else [].

Definition authorizeReporter (b : Broker) : list (string * string) :=
  if bk_ReporterToken b != "" then [("X-Agent-ID", terminalReporterAgentID); ("X-Agent-Secret", bk_ReporterToken b)]
  else [].

Definition json_headers (key : string) : list (string * string) :=
  [("Content-Type", "application/json"); ("Idempotency-Key", key)].

Context `{NetURL}.

(** [url.Parse] of a configured base, with the message of its failure. *)
Definition parse_base (raw message : string) : bres parsed_url :=
  match url_Parse raw with
  | Some u => inl u
  | None => permanentMalformed message (Some (http_url_error raw))
  end.

(** [http.NewRequest]. *)
Definition new_request (method : string) (url : target) (headers : list (string * string)) (body message : string)
    : bres HttpRequest :=
  match http_request_error url with
  | Some e => permanentMalformed message (Some e)
  | None => inl (mkHttpRequest method url headers body)
  end.

Definition runEndpoint (raw runID suffix : string) : bres target :=
  base ← parse_base raw "parse broker URL";
  inl (mkTarget base ("/v1/runs/" ++ runID ++ "/" ++ suffix) ("/v1/runs/" ++ PathEscape runID ++ "/" ++ suffix) "").

Definition launchURL (b : Broker) (profile : string) : bres target :=
  _ ← refuse (TrimSpace profile == "") "launch profile is required";
  base ← parse_base (bk_URL b) "parse broker URL";
  inl (mkTarget base ("/v1/launch-profiles/" ++ profile ++ "/launch")
         ("/v1/launch-profiles/" ++ PathEscape profile ++ "/launch") "").

Definition Broker_TerminalResult (b : Broker) (runID : string) : bres TerminalResult :=
  endpoint ← runEndpoint (bk_URL b) runID "terminal-result";
  req ← new_request "GET" endpoint (authorize b) "" "create terminal result request";
  doJSON req "TerminalResult" decode_terminal.

(** The owner and name of a repository. *)
Definition owner_name (repository : string) : option (string * string) :=
  match Split "/" repository with
  | [owner; name] => if (owner == "") || (name == "") then None else Some (owner, name)
  | _ => None
  end.

Definition repos_path (owner name tail : string) : string := "/v1/repos/" ++ owner ++ "/" ++ name ++ tail.

Definition comment_body (job : Job) (body : string) : string :=
  marshal (JObj [("body", JStr body);
                 ("metadata", JObj [("Broker-Run", JStr (jb_BrokerRunID job)); ("Semantic-Job", JStr (fmt_d (jb_ID job)))])]).

Definition Broker_Comment (b : Broker) (job : Job) (body key : string) : bres CommentResult :=
  _ ← refuse (bk_ReporterURL b == "") "reporter broker URL is required";
  match owner_name (jb_Repository job) with
  | None => permanentMalformed "invalid repository" None
  | Some (owner, name) =>
      u ← parse_base (bk_ReporterURL b) "parse reporter broker URL";
      let tail := "/issues/" ++ fmt_d (jb_IssueNumber job) ++ "/comments" in
      let url := mkTarget u (repos_path owner name tail) (repos_path (PathEscape owner) (PathEscape name) tail) "" in
      req ← new_request "POST" url (json_headers key ++ authorizeReporter b) (comment_body job body)
              "create issue comment request";
      out ← doJSON req "CommentResult" decode_comment;
      _ ← refuse (cm_ID out <? 1) "comment response missing id";
      _ ← refuse (negb (validHTTPSURL (cm_URL out))) "comment response missing valid html_url";
      inl out
  end.

Definition failedCIConclusion (value : string) : bool :=
  one_of (ToLower unicode_lower (TrimSpace value))
    ["failure"; "failed"; "timed_out"; "cancelled"; "startup_failure"; "stale"].

(** [s[:n]] of a longer text. *)
Definition cut_to (n : Z) (s : string) : string := if n <? len s then take_str (Z.to_nat n) s else s.

Definition appendFailure (name conclusion summary : string) (checks : slice FailedCheck) : slice FailedCheck :=
  if 32 <=? Z.of_nat (length (elems checks)) then checks
  else if TrimSpace name == "" then checks
  else Some (elems checks ++ [mkFailedCheck (cut_to 160 (TrimSpace name)) (cut_to 64 (TrimSpace conclusion))
                                (cut_to 512 (TrimSpace summary)) ""])%list.

Definition check_summary (c : raw_check) : string :=
  match rc_Output c with Some o => TrimSpace (ro_Title o ++ ": " ++ ro_Summary o) | None => "" end.

Definition failed_checks (raw : brokerCIObservation) : slice FailedCheck :=
  let checks := fold_left (fun acc c => if failedCIConclusion (rc_Conclusion c)
                                        then appendFailure (rc_Name c) (rc_Conclusion c) (check_summary c) acc else acc)
                  (elems (bo_CheckRuns raw)) None in
  let checks := fold_left (fun acc s => if (rs_State s == "failure") || (rs_State s == "error")
                                        then appendFailure (rs_Context s) (rs_State s) (rs_Description s) acc else acc)
                  (elems (bo_Statuses raw)) checks in
  fold_left (fun acc j => if failedCIConclusion (rj_Conclusion j)
                          then appendFailure (rj_Name j) (rj_Conclusion j) "Actions job" acc else acc)
    (elems (bo_WorkflowJobs raw)) checks.

Definition ci_states : list string := [CIStatePending; CIStateSuccess; CIStateCodeFailure; CIStateInfrastructure].

(** The checks on the decoded observation. *)
Definition check_observation (task : CIRepairTask) (requestedHead : string) (raw : brokerCIObservation) : bres CIObservation :=
  _ ← refuse (bo_Version raw != brokerCIObservationVersion) "CI observation has unsupported response version";
  _ ← refuse ((bo_RequestedHeadSHA raw != requestedHead) || negb (bo_PullNumber raw =? tk_PullNumber task)
              || (bo_PullHeadSHA raw != requestedHead))
        "CI observation does not match requested and authoritative PR head";
  _ ← refuse (negb (one_of (bo_AggregateState raw) ci_states)) "CI observation has invalid aggregate_state";
  inl (mkCIObservation (tk_Repository task) (bo_PullNumber raw) (bo_PullHeadSHA raw) (bo_AggregateState raw)
         (failed_checks raw) false 0).

Definition Broker_ObserveCI (b : Broker) (task : CIRepairTask) (requestedHead : string) : bres CIObservation :=
  match owner_name (tk_Repository task) with
  | None => permanentMalformed "invalid CI observation coordinates" None
  | Some (owner, name) =>
      _ ← refuse ((tk_PullNumber task <? 1) || negb (githubSHA requestedHead)) "invalid CI observation coordinates";
      base ← parse_base (bk_ReporterURL b) "parse CI broker URL";
      _ ← refuse (bk_ReporterURL b == "") "parse CI broker URL";
      let tail := "/pulls/" ++ fmt_d (tk_PullNumber task) ++ "/ci-observation" in
      let url := mkTarget base (repos_path owner name tail) (repos_path (PathEscape owner) (PathEscape name) tail)
                   (http_query_Set (pu_RawQuery base) "head_sha" requestedHead) in
      req ← new_request "GET" url (authorizeReporter b) "" "create CI observation request";
      raw ← doJSONLimit req "brokerCIObservation" decode_broker_observation maxCIObservationBytes;
      check_observation task requestedHead raw
  end.

(** The checks on a launch response. *)
Definition check_launch (message : string) (result : LaunchResult) : bres LaunchResult :=
  _ ← refuse (lr_Version result != brokerRunLaunchVersion) (message ++ " has unsupported version");
  let result := result <| lr_RunID := TrimSpace (lr_RunID result) |> in
  _ ← refuse (lr_RunID result == "") (message ++ " is missing run_id");
  inl result.

Definition repair_body (task : CIRepairTask) (attempt : CIRepairAttempt) : string :=
  marshal (JObj [("max_runtime_seconds", JNum (fmt_d (ra_MaxRuntimeSeconds attempt)));
    ("parameters", JObj [("expected_head_sha", JStr (ra_FailedHeadSHA attempt));
                         ("issue_number", JNum (fmt_d (tk_IssueNumber task)));
                         ("repair_pr_number", JNum (fmt_d (tk_PullNumber task)));
                         ("source_delivery_id", JStr (repairSourceID (ra_AttemptKey attempt)))])]).

Definition Broker_LaunchRepair (b : Broker) (task : CIRepairTask) (attempt : CIRepairAttempt) : bres LaunchResult :=
  _ ← refuse (ra_MaxRuntimeSeconds attempt <? 1) "repair active runtime is missing";
  endpoint ← launchURL b (ra_AgentModel attempt);
  req ← new_request "POST" endpoint (json_headers (ra_AttemptKey attempt) ++ authorize b) (repair_body task attempt)
          "create repair launch request";
  result ← doJSON req "LaunchResult" decode_launch;
  check_launch "repair launch response" result.

Definition validateBrokerRunStatus (result : RunStatus) (expectedVersion response : string) : bres unit :=
  _ ← refuse (st_Version result != expectedVersion) (response ++ " has unsupported version");
  refuse (match st_ExternalWait result with Some w => ew_Version w != brokerExternalWaitVersion | None => false end)
    (response ++ " has unsupported external_wait version").

(** The normalisation of a status. *)
Definition normal_status (result : RunStatus) : RunStatus :=
  result <| st_RunID := TrimSpace (st_RunID result) |>
         <| st_Status := ToLower unicode_lower (TrimSpace (st_Status result)) |>.

Definition Broker_ResumeRun (b : Broker) (runID idempotencyKey : string) (maxRuntimeSeconds : Z) : bres RunStatus :=
  _ ← refuse ((runID == "") || (idempotencyKey == "") || (maxRuntimeSeconds <? 1))
        "run resume requires run, idempotency, and active runtime identities";
  endpoint ← runEndpoint (bk_URL b) runID "resume";
  req ← new_request "POST" endpoint (json_headers idempotencyKey ++ authorize b)
          (marshal (JObj [("max_runtime_seconds", JNum (fmt_d maxRuntimeSeconds))])) "create run resume request";
  result ← doJSON req "RunStatus" decode_status;
  _ ← validateBrokerRunStatus result brokerRunLaunchVersion "run resume response";
  let result := normal_status result in
  _ ← refuse ((st_RunID result != runID) || (st_Status result == "")) "run resume response has invalid run_id or status";
  inl result.

Definition work_item_body (workItemID uploadID : string) : string :=
  marshal (JObj [("parameters", JObj [("upload_ids", JArr [JStr uploadID]); ("work_item_id", JStr workItemID)])]).

Definition Broker_LaunchWorkItem (b : Broker) (profile workItemID uploadID idempotencyKey : string) : bres LaunchResult :=
  _ ← refuse ((TrimSpace workItemID == "") || (64 <? len workItemID)) "authoritative work_item_id is required and bounded";
  _ ← refuse ((TrimSpace uploadID == "") || (80 <? len uploadID)) "authoritative upload_id is required and bounded";
  _ ← refuse ((TrimSpace idempotencyKey == "") || (255 <? len idempotencyKey))
        "work item launch idempotency key is required and bounded";
  endpoint ← launchURL b profile;
  req ← new_request "POST" endpoint (json_headers idempotencyKey ++ authorize b) (work_item_body workItemID uploadID)
          "create WorkItem broker launch request";
  result ← doJSON req "LaunchResult" decode_launch;
  _ ← refuse ((lr_Version result != brokerRunLaunchVersion) || (TrimSpace (lr_RunID result) == ""))
        "WorkItem broker launch response is invalid";
  inl (result <| lr_RunID := TrimSpace (lr_RunID result) |>).

Definition launch_body (job : Job) : string :=
  marshal (JObj [("parameters", JObj [("issue_number", JNum (fmt_d (jb_IssueNumber job)));
                                      ("source_delivery_id", JStr (brokerSourceID job))])]).

Definition launch_key (job : Job) : string :=
  "repository-task-dispatcher:v1:" ++ jb_RouteID job ++ ":" ++ jb_Repository job ++ ":issue:"
  ++ fmt_d (jb_IssueNumber job) ++ ":" ++ jb_Profile job.

Definition launch_request (b : Broker) (job : Job) : bres HttpRequest :=
  endpoint ← launchURL b (jb_Profile job);
  new_request "POST" endpoint (json_headers (launch_key job) ++ authorize b) (launch_body job)
    "create broker launch request".

Definition Broker_Launch (b : Broker) (job : Job) : bres LaunchResult :=
  req ← launch_request b job;
  result ← doJSON req "LaunchResult" decode_launch;
  check_launch "broker launch response" result.

Definition Broker_Status (b : Broker) (runID : string) : bres RunStatus :=
  base ← parse_base (bk_URL b) "parse broker URL";
  req ← new_request "GET" (mkTarget base ("/v1/runs/" ++ runID) ("/v1/runs/" ++ PathEscape runID) "") (authorize b) ""
          "create broker status request";
  result ← doJSON req "RunStatus" decode_status;
  _ ← validateBrokerRunStatus result brokerRunStatusVersion "broker status response";
  let result := normal_status result in
  _ ← refuse ((st_RunID result == "") || (st_RunID result != runID) || (st_Status result == ""))
        "broker status response has invalid run_id or status";
  inl result.

(** The client as the loop uses it: a [*Broker] has every method; it reports
    when its reporter URL is set. *)
Definition broker_client (b : Broker) : BrokerClient :=
  {| b_reports := bk_ReporterURL b != ""; b_repairs := true; b_resumes := true; b_projects := true;
     Launch := fun job => r ← Broker_Launch b job; inl (lr_RunID r);
     Status := Broker_Status b; Projection := Broker_TerminalResult b; Comment := Broker_Comment b;
     ObserveCI := Broker_ObserveCI b;
     LaunchRepair := fun task attempt => r ← Broker_LaunchRepair b task attempt; inl (lr_RunID r);
     ResumeRun := Broker_ResumeRun b |}.
End Client.
