(* ===== verification/Release.v ===== *)
(** * Release evidence and upload

    [internal/resumeupload/github.go] and [youknowme.go]: the reading of a
    release from the GitHub API into a release operation, its verified download,
    and the upload of its content to the YouKnowMe service.  HTTP transport, JWT
    signing and the redirect policy of the transport are parameters. *)

From S2P Require Import Prelude GoText GoSha256 GoJson GoNet LedgerModel DispatchPolicy.
From Stdlib Require Import Ascii.
Open Scope string_scope.
Open Scope Z_scope.
Open Scope go_scope.

Definition AppID : Z := 4300339.
Definition InstallationID : Z := 146625575.
Definition Repository : string := "grubbyhacker/resume-builder".
Definition MaxAssetBytes : Z := 20 * 1024.

(** ** Decoding a stream *)

Definition scalar (v : json) : bool := match v with JObj _ | JArr _ => false | _ => true end.

(** [json.NewDecoder(io.LimitReader(body, n)).Decode]: the first value of the
    first [n] bytes.  A value without a closing bracket ends only at the next
    byte or at the end of the stream, not at a read error. *)
Definition decode_stream (n : Z) (body : string) (read_error : option string) : option json :=
  let data := take_str (Z.to_nat n) body in
  match parse_first data with
  | Some (v, rest) =>
      if (rest == "") && (len body <? n) && negb (bool_decide (read_error = None)) && scalar v then None else Some v
  | None => None
  end.

(** ** The GitHub API *)

(** [http.NewRequest] gives a nil request for an invalid URL, on which the
    client panics. *)
Record gh_request := mkGhRequest { gq_Method : string; gq_URL : string; gq_Bearer : string; gq_Accept : string }.

Class GitHubTransport := { gh_jwt : res string; gh_url_ok : string -> bool; gh_Do : gh_request -> http_reply }.

Record asset := mkAsset {
  as_ID : Z; as_Size : Z; as_Name : string; as_ContentType : string; as_Digest : string }.
#[export] Instance asset_eta : Eta asset := fun r =>
  mkAsset (as_ID r) (as_Size r) (as_Name r) (as_ContentType r) (as_Digest r).

Record release := mkRelease {
  rl_ID : Z; rl_Tag : string; rl_Target : string; rl_Draft : bool; rl_Prerelease : bool;
  rl_PublishedAt : string; rl_Assets : slice asset }.
#[export] Instance release_eta : Eta release := fun r =>
  mkRelease (rl_ID r) (rl_Tag r) (rl_Target r) (rl_Draft r) (rl_Prerelease r) (rl_PublishedAt r)
    (rl_Assets r).


Definition set_asset (n : string) (v : json) (a : asset) : option asset :=
  if n == "id" then x ← decode_int v (as_ID a); Some (a <| as_ID := x |>)
  else if n == "size" then x ← decode_int v (as_Size a); Some (a <| as_Size := x |>)
  else if n == "name" then x ← decode_string v (as_Name a); Some (a <| as_Name := x |>)
  else if n == "content_type" then x ← decode_string v (as_ContentType a); Some (a <| as_ContentType := x |>)
  else x ← decode_string v (as_Digest a); Some (a <| as_Digest := x |>).

Definition set_gh_release (n : string) (v : json) (r : release) : option release :=
  if n == "id" then x ← decode_int v (rl_ID r); Some (r <| rl_ID := x |>)
  else if n == "tag_name" then x ← decode_string v (rl_Tag r); Some (r <| rl_Tag := x |>)
  else if n == "target_commitish" then x ← decode_string v (rl_Target r); Some (r <| rl_Target := x |>)
  else if n == "draft" then x ← decode_bool v (rl_Draft r); Some (r <| rl_Draft := x |>)
  else if n == "prerelease" then x ← decode_bool v (rl_Prerelease r); Some (r <| rl_Prerelease := x |>)
  else if n == "published_at" then x ← decode_string v (rl_PublishedAt r); Some (r <| rl_PublishedAt := x |>)
  else x ← decode_slice (decode_struct ["id"; "size"; "name"; "content_type"; "digest"] false set_asset)
             (mkAsset 0 0 "" "" "") v (rl_Assets r); Some (r <| rl_Assets := x |>).

Definition decode_release (v : json) : option release :=
  decode_struct ["id"; "tag_name"; "target_commitish"; "draft"; "prerelease"; "published_at"; "assets"] false
    set_gh_release v (mkRelease 0 "" "" false false "" None).

(** The repository's id and full name. *)
Definition decode_repo (v : json) : option (Z * string) :=
  decode_struct ["id"; "full_name"] false (fun n v r =>
    if n == "id" then x ← decode_int v (fst r); Some (x, snd r)
    else x ← decode_string v (snd r); Some (fst r, x)) v (0, "").

(** The type and SHA of the object of a reference. *)
Definition decode_ref (v : json) : option (string * string) :=
  decode_struct ["Object"] false (fun _ v r =>
    decode_struct ["Type"; "SHA"] false (fun n v r =>
      if n == "Type" then x ← decode_string v (fst r); Some (x, snd r)
      else x ← decode_string v (snd r); Some (fst r, x)) v r) v ("", "").

Definition decode_token (v : json) : option string :=
  decode_struct ["Token"] false (fun _ v t => decode_string v t) v "".

(** [strings.TrimSuffix(s, "/")]. *)
Definition trim_slash (s : string) : string :=
  let n := (String.length s - 1)%nat in
  if drop_str n s == "/" then take_str n s else s.

Section GitHub.
Context `{GitHubTransport} (APIBase : string).

Definition gh_base : string := if APIBase != "" then trim_slash APIBase else "https://api.github.com".

(** A request is sent, and a status other than 2xx is an error. *)
Definition gh_exchange (req : gh_request) (refused : Z -> string) : res (string * option string) :=
  if negb (gh_url_ok (gq_URL req)) then Panic
  else match gh_Do req with
       | TransportError e => Err e
       | Reply status body read_error =>
           if negb (Z.quot status 100 =? 2) then Err (refused status) else Ok (body, read_error)
       end.

Definition getJSON {A} (token path : string) (decode : json -> option A) : res A :=
  '(body, read_error) ← gh_exchange (mkGhRequest "GET" (gh_base ++ path) token "application/vnd.github+json")
                          (fun status => "github " ++ path ++ " returned " ++ fmt_d status);
  of_option "decode GitHub response" (decode_stream (2 ^ 20) body read_error ≫= decode).

Definition download (token : string) (id : Z) : res string :=
  '(body, read_error) ← gh_exchange
      (mkGhRequest "GET" (gh_base ++ "/repos/" ++ Repository ++ "/releases/assets/" ++ fmt_d id) token "application/octet-stream")
      (fun status => "asset download returned " ++ fmt_d status);
  match ReadAll_limit (MaxAssetBytes + 1) body read_error with inl data => Ok data | inr e => Err e end.

Definition installationToken : res string :=
  jwt ← gh_jwt;
  '(body, read_error) ← gh_exchange
      (mkGhRequest "POST" (gh_base ++ "/app/installations/" ++ fmt_d InstallationID ++ "/access_tokens") jwt
         "application/vnd.github+json")
      (fun status => "installation token returned " ++ fmt_d status);
  match decode_stream (2 ^ 16) body read_error ≫= decode_token with
  | Some token => if token == "" then Err "installation token response is invalid" else Ok token
  | None => Err "installation token response is invalid"
  end.

Definition resolveCommit (token tag : string) : res string :=
  '(kind, sha) ← getJSON token ("/repos/" ++ Repository ++ "/git/ref/tags/" ++ PathEscape tag) decode_ref;
  if kind == "commit" then Ok sha
  else if kind == "tag" then
    '(kind, sha) ← getJSON token ("/repos/" ++ Repository ++ "/git/tags/" ++ sha) decode_ref;
    if kind == "commit" then Ok sha else Err "release tag does not resolve to a commit"
  else Err "release tag does not resolve to a commit".

(** The date digits of a tag that names the commit. *)
Definition validateTag (tag commit : string) : res string :=
  if negb (tagPattern tag) || negb (githubSHA commit) || (drop_str (String.length tag - 7) tag != take_str 7 commit)
  then Err "release tag does not identify the resolved full commit"
  else Ok (remove_char "." (take_str 10 (drop_str 1 tag))).

Definition candidate_asset (date : string) (a : asset) : bool :=
  assetPattern date (as_Name a) && (as_ContentType a == "text/markdown") && (0 <? as_Size a) && (as_Size a <=? MaxAssetBytes).

Definition select_asset (date : string) (assets : list asset) : res asset :=
  match rows_where (candidate_asset date) assets with
  | [] => Err "release contains no canonical structured Markdown asset"
  | [a] => Ok a
  | _ => Err "release contains ambiguous structured Markdown assets"
  end.

Definition Hydrate (repositoryID installationID releaseID : Z) : res ReleaseOperation :=
  _ ← guard_err ((repositoryID <=? 0) || negb (installationID =? InstallationID) || (releaseID <=? 0))
        "webhook repository, installation, or release identity is invalid";
  token ← installationToken;
  repo ← getJSON token ("/repos/" ++ Repository) decode_repo;
  _ ← guard_err (negb (fst repo =? repositoryID) || (snd repo != Repository))
        "repository identity does not match the fixed source";
  rel ← getJSON token ("/repos/" ++ Repository ++ "/releases/" ++ fmt_d releaseID) decode_release;
  _ ← guard_err (negb (rl_ID rel =? releaseID) || rl_Draft rel || rl_Prerelease rel || (rl_PublishedAt rel == ""))
        "release is not an exact published production release";
  commit ← resolveCommit token (rl_Tag rel);
  _ ← guard_err (rl_Target rel != commit) "release target_commitish is not the resolved full commit";
  date ← validateTag (rl_Tag rel) commit;
  selected ← select_asset date (elems (rl_Assets rel));
  _ ← guard_err (negb (sha256_format (as_Digest selected))) "asset lacks a provider sha256 digest";
  body ← download token (as_ID selected);
  _ ← guard_err (negb (len body =? as_Size selected) || negb (ValidString body) || (MaxAssetBytes <? len body))
        "downloaded asset size or text content is invalid";
  let computed := "sha256:" ++ sha256_hex body in
  _ ← guard_err (computed != as_Digest selected) "provider and computed asset digests differ";
  let op := mkReleaseOperation repositoryID installationID releaseID Repository (rl_Tag rel) (rl_PublishedAt rel)
              (rl_Target rel) commit (as_ID selected) (as_Size selected) (as_Name selected) (as_ContentType selected)
              (as_Digest selected) computed in
  _ ← ReleaseOperation_Validate op;
  Ok op.

Definition DownloadVerified (operation : ReleaseOperation) : res string :=
  _ ← ReleaseOperation_Validate operation;
  current ← Hydrate (ro_RepositoryID operation) (ro_InstallationID operation) (ro_ReleaseID operation);
  _ ← guard_err (current != operation) "release provenance changed after admission";
  token ← installationToken;
  body ← download token (ro_AssetID operation);
  _ ← guard_err (negb (len body =? ro_AssetSize operation) || ("sha256:" ++ sha256_hex body != ro_ComputedDigest operation))
        "release asset changed after admission";
  Ok body.
End GitHub.

(** ** YouKnowMe *)

Definition YKMAuthCloudflare : string := "cloudflare_access".
Definition YKMAuthLocal : string := "local_secret".

Record YKMConfig := mkYKMConfig {
  yk_BaseURL : string; yk_AuthMode : string; yk_ClientID : string; yk_ClientSecret : string; yk_LocalSecret : string }.

(** A request and its reply: status, session header, content type and body. *)
Record ykm_request := mkYkmRequest { yq_URL : string; yq_Header : list (string * string); yq_Body : string }.
Inductive ykm_reply :=
  | YkmTransportError (text : string)
  | YkmReply (status : Z) (session contentType body : string) (read_error : option string).

Class YKMTransport := { ykm_url_ok : string -> bool; ykm_Do : ykm_request -> ykm_reply }.

Record uploadResponse := mkUploadResponse {
  ur_UploadID : string; ur_Accepted : bool; ur_Status : string; ur_FileCount : Z; ur_TotalBytes : Z;
  ur_Warnings : slice string; ur_StagedPath : string; ur_Replayed : bool }.
#[export] Instance uploadResponse_eta : Eta uploadResponse := fun r =>
  mkUploadResponse (ur_UploadID r) (ur_Accepted r) (ur_Status r) (ur_FileCount r) (ur_TotalBytes r)
    (ur_Warnings r) (ur_StagedPath r) (ur_Replayed r).


Definition set_upload (n : string) (v : json) (r : uploadResponse) : option uploadResponse :=
  if n == "upload_id" then x ← decode_string v (ur_UploadID r); Some (r <| ur_UploadID := x |>)
  else if n == "accepted" then x ← decode_bool v (ur_Accepted r); Some (r <| ur_Accepted := x |>)
  else if n == "status" then x ← decode_string v (ur_Status r); Some (r <| ur_Status := x |>)
  else if n == "file_count" then x ← decode_int v (ur_FileCount r); Some (r <| ur_FileCount := x |>)
  else if n == "total_bytes" then x ← decode_int v (ur_TotalBytes r); Some (r <| ur_TotalBytes := x |>)
  else if n == "warnings" then x ← decode_slice decode_string "" v (ur_Warnings r); Some (r <| ur_Warnings := x |>)
  else if n == "staged_path" then x ← decode_string v (ur_StagedPath r); Some (r <| ur_StagedPath := x |>)
  else x ← decode_bool v (ur_Replayed r); Some (r <| ur_Replayed := x |>).

(** One value and nothing after it; unknown members are refused. *)
Definition decode_upload (raw : string) : option uploadResponse :=
  parse_json raw ≫= fun v =>
    decode_struct ["upload_id"; "accepted"; "status"; "file_count"; "total_bytes"; "warnings"; "staged_path"; "replayed"]
      true set_upload v (mkUploadResponse "" false "" 0 0 None "" false).

(** [^upl_[A-Za-z0-9_]{1,76}$] *)
Definition uploadPattern (s : string) : bool :=
  match strip_prefix "upl_" s with
  | Some rest => all_chars (fun c => is_alnum c || is_char "_" c) rest && (1 <=? len rest) && (len rest <=? 76)
  | None => false
  end.

Definition upload_arguments (filename content idempotency : string) : json :=
  JObj [("files", JArr [JObj [("content", JStr content); ("filename", JStr filename)]]);
        ("idempotency_key", JStr idempotency);
        ("purpose", JStr "Import the reviewed Resume Builder structured Markdown release.");
        ("suggested_related", JArr []);
        ("suggested_tags", JArr [JStr "resume"; JStr "career"; JStr "profile"]);
        ("suggested_type", JStr "profile")].

(** The data of the first event of an event stream: the scanner reads lines of
    less than 64 KiB and stops at a longer one. *)
Fixpoint sse_data (lines : list string) : option string :=
  match lines with
  | [] => None
  | line :: rest =>
      if 65536 <=? len line then None
      else if HasPrefix line "data:" then Some (TrimSpace (TrimPrefix line "data:"))
      else sse_data rest
  end.

(** The result of a tool call: the error, the error flag and the texts. *)
Record tool_result := mkToolResult { to_Error : json; to_IsError : bool; to_Content : slice string }.

Section YKM.
Context `{YKMTransport} `{NetURL} `{GoFloat} (config : YKMConfig).

Definition YKMConfig_Validate : res unit :=
  _ ← guard_err (match url_Parse (yk_BaseURL config) with
                 | Some u => pu_HasUser u || (pu_RawQuery u != "") || (pu_Fragment u != "") || (pu_Path u != "/mcp")
                             || (pu_Host u == "")
                 | None => true end) "YouKnowMe base URL must be a fixed MCP endpoint";
  if yk_AuthMode config == YKMAuthCloudflare then
    guard_err ((yk_BaseURL config != "https://mcp.fleiglabs.cc/mcp") || (yk_ClientID config == "")
               || (yk_ClientSecret config == "") || (yk_LocalSecret config != ""))
      "cloudflare_access requires HTTPS client ID/secret only"
  else if yk_AuthMode config == YKMAuthLocal then
    guard_err ((yk_BaseURL config != "http://youknowme-mcp:8765/mcp") || (yk_LocalSecret config == "")
               || (yk_ClientID config != "") || (yk_ClientSecret config != ""))
      "local_secret requires a loopback/private service MCP URL and local secret only"
  else Err "unsupported YouKnowMe auth mode".

Definition ykm_headers (session : string) : list (string * string) :=
  ([("content-type", "application/json"); ("accept", "application/json, text/event-stream")]
   ++ (if session != "" then [("Mcp-Session-Id", session)] else [])
   ++ (if yk_AuthMode config == YKMAuthCloudflare
       then [("CF-Access-Client-Id", yk_ClientID config); ("CF-Access-Client-Secret", yk_ClientSecret config)]
       else [("X-YKM-Local-Secret", yk_LocalSecret config)]))%list.

(** The session of the reply and its data. *)
Definition post (session : string) (payload : json) : res (string * string) :=
  if negb (ykm_url_ok (yk_BaseURL config)) then Panic
  else match ykm_Do (mkYkmRequest (yk_BaseURL config) (ykm_headers session) (marshal payload)) with
       | YkmTransportError e => Err e
       | YkmReply status session' contentType body read_error =>
           if negb (Z.quot status 100 =? 2) then Err ("YouKnowMe MCP returned " ++ fmt_d status)
           else match ReadAll_limit (2 ^ 20) body read_error with
                | inr e => Err e
                | inl data =>
                    Ok (session', if HasPrefix contentType "text/event-stream"
                                  then default data (sse_data (Split (byte_of 10) data)) else data)
                end
       end.

Definition decode_content (v : json) (old : string) : option string :=
  decode_struct ["text"] false (fun _ v t => decode_string v t) v old.

Definition decode_tool (raw : string) : option tool_result :=
  parse_json raw ≫= fun v =>
    decode_struct ["error"; "result"] false (fun n v r =>
      if n == "error" then x ← decode_any v; Some (mkToolResult x (to_IsError r) (to_Content r))
      else decode_struct ["isError"; "content"] false (fun n v r =>
             if n == "isError" then x ← decode_bool v (to_IsError r); Some (mkToolResult (to_Error r) x (to_Content r))
             else x ← decode_slice decode_content "" v (to_Content r);
                  Some (mkToolResult (to_Error r) (to_IsError r) x)) v r) v (mkToolResult JNull false None).

Definition rpc (id : option Z) (method : string) (params : list (string * json)) : json :=
  JObj (match id with Some n => [("id", JNum (fmt_d n))] | None => [] end
        ++ [("jsonrpc", JStr "2.0"); ("method", JStr method)] ++ params)%list.

Definition initialize_params : json :=
  JObj [("capabilities", JObj []); ("clientInfo", JObj [("name", JStr "signal-plane"); ("version", JStr "v1")]);
        ("protocolVersion", JStr "2025-03-26")].

Definition ykm_call (tool : string) (args : json) : res string :=
  '(session, _) ← post "" (rpc (Some 1) "initialize" [("params", initialize_params)]);
  _ ← post session (rpc None "notifications/initialized" []);
  '(_, result) ← post session (rpc (Some 2) "tools/call" [("params", JObj [("arguments", args); ("name", JStr tool)])]);
  match decode_tool result with
  | Some (mkToolResult JNull false content) =>
      match elems content with [text] => Ok text | _ => Err "YouKnowMe MCP tool result is invalid" end
  | _ => Err "YouKnowMe MCP tool result is invalid"
  end.

Definition Upload (filename content idempotency : string) : res uploadResponse :=
  _ ← YKMConfig_Validate;
  result ← ykm_call "upload" (upload_arguments filename content idempotency);
  match decode_upload result with
  | Some r =>
      if negb (ur_Accepted r) || negb (uploadPattern (ur_UploadID r)) || (ur_Status r != "pending")
         || negb (ur_FileCount r =? 1) || negb (ur_TotalBytes r =? len content)
         || (ur_StagedPath r != "uploads/pending/" ++ ur_UploadID r) || (20 <? Z.of_nat (length (elems (ur_Warnings r))))
      then Err "YouKnowMe upload response is invalid" else Ok r
  | None => Err "YouKnowMe upload response is invalid"
  end.
End YKM.
