(* ===== verification/WorkRouter.v ===== *)
(** * The work router

    [internal/resumeupload/router.go] and [executor.go] with
    [internal/workitemlaunch/executor.go]: release webhooks are admitted into the
    work ledger, and claimed work items are run by the executor their route
    names.  An action transforms the ledger, the recovery flag of the router and
    the trace of what was done outside the process. *)

From S2P Require Import Prelude GoText GoSha256 GoJson LedgerModel LedgerStore Envelope DispatchPolicy Config Broker Release.
From stdpp Require Import gmap.
Open Scope string_scope.
Open Scope Z_scope.
Open Scope go_scope.

(** ** Actions *)

Inductive effect :=
  | EAck
  | ETerm
  | EDownload (operation : ReleaseOperation)
  | EUpload (filename content key : string)
  | ELaunch (profile workItemID uploadID key : string).

(** Each effect is kept with the ledger at the moment it happened. *)
Record router_state := mkRouterState { rt_db : Ledger; rt_needsRecovery : bool; rt_trace : list (Ledger * effect) }.
#[export] Instance router_state_eta : Eta router_state := fun s =>
  mkRouterState (rt_db s) (rt_needsRecovery s) (rt_trace s).
Definition rt_effects (s : router_state) : list effect := map snd (rt_trace s).

Definition action (A : Type) : Type := router_state -> router_state * res A.

#[export] Instance action_ret : MRet action := fun A a s => (s, Ok a).
#[export] Instance action_bind : MBind action := fun A B f m s =>
  match m s with
  | (s', Ok a) => f a s'
  | (s', Err e) => (s', Err e)
  | (s', Panic) => (s', Panic)
  end.

Definition pure_res {A} (r : res A) : action A := fun s => (s, r).
Definition fail {A} (e : string) : action A := pure_res (Err e).
Definition reading {A} (f : Ledger -> A) : action A := fun s => (s, Ok (f (rt_db s))).
Definition on_ledger {A} (f : Ledger -> Ledger * res A) : action A := fun s =>
  let '(db, r) := f (rt_db s) in (s <| rt_db := db |>, r).
Definition emit (e : effect) : action unit := fun s => (s <| rt_trace := (rt_trace s ++ [(rt_db s, e)])%list |>, Ok tt).
Definition set_recovery (b : bool) : action unit := fun s => (s <| rt_needsRecovery := b |>, Ok tt).

(** The error of a call as a value. *)
Definition try {A} (m : action A) : action (A + string) := fun s =>
  match m s with
  | (s', Ok a) => (s', Ok (inl a))
  | (s', Err e) => (s', Ok (inr e))
  | (s', Panic) => (s', Panic)
  end.

(** ** Executors *)

(** [workledger.Executor]: a descriptor and a run on a claimed item. *)
Class RunnableExecutor (E : Type) `{Executor E} :=
  Execute : E -> WorkItem -> ExecutorAttempt -> action ExecutorResult.

Definition result_of (outcome classification external sanitized digest : string) : ExecutorResult :=
  mkExecutorResult outcome classification external sanitized digest None None.
Definition permanent (message : string) : ExecutorResult := result_of OutcomePermanentFailure "" "" message "".

(** *** Release upload *)

Definition UploadExecutorID : string := "youknowme_upload_v1".

(** The interfaces [AssetReader] and [Uploader], and the clock. *)
Record upload_executor := mkUploadExecutor {
  ux_DownloadVerified : ReleaseOperation -> res string;
  ux_Upload : string -> string -> string -> res uploadResponse;
  ux_now : Z }.

Definition content_digest (operation : ReleaseOperation) : string := TrimPrefix (ro_ComputedDigest operation) "sha256:".

Definition upload_Execute (x : upload_executor) (item : WorkItem) (attempt : ExecutorAttempt) : action ExecutorResult :=
  found ← try (s ← reading (loadReleaseOperation (wi_ID item)); pure_res s);
  match found with
  | inr _ => mret (permanent "release operation is unavailable")
  | inl operation =>
      stored ← reading (ContentResult (ro_ComputedDigest operation));
      let '(external, result, ok) := stored in
      if (ok : bool) then mret (result_of OutcomeCompleted "" external "" result)
      else
        _ ← emit (EDownload operation);
        content ← try (pure_res (ux_DownloadVerified x operation));
        match content with
        | inr _ => mret (result_of OutcomeRetryableFailure "github_release_read" "" "verified release asset retrieval failed" "")
        | inl content =>
            let key := "signal-plane:resume:v1:" ++ content_digest operation in
            if (at_ID attempt != "") && ((at_OperationIdempotencyKey attempt != key)
                                         || (at_RequestedOperationDigest attempt != ro_ComputedDigest operation))
            then mret (permanent "attempt operation evidence does not match durable release")
            else
              let filename := "resume_" ++ content_digest operation ++ ".structured.md" in
              _ ← emit (EUpload filename content key);
              response ← try (pure_res (ux_Upload x filename content key));
              match response with
              | inr _ =>
                  mret (result_of OutcomeRetryableFailure "youknowme_ambiguous" ""
                          "YouKnowMe upload did not return a durable result" "")
              | inl response =>
                  let result := "sha256:" ++ sha256_hex (ur_UploadID response ++ ":" ++ ro_ComputedDigest operation) in
                  _ ← on_ledger (RecordContentResult (ro_ComputedDigest operation) (ur_UploadID response) result (ux_now x));
                  mret (result_of OutcomeCompleted "" (ur_UploadID response) "" result)
              end
        end
  end.

(** *** Work-item launch *)

(** The interface [Broker] of the launcher; [None] is a nil broker. *)
Record launch_executor := mkLaunchExecutor {
  lx_Config : WorkItemLauncherConfig;
  lx_Broker : option (string -> string -> string -> string -> bres LaunchResult) }.

Definition profile_for (cfg : WorkItemLauncherConfig) (mode : string) : string :=
  match first_where (fun mp => fst mp == mode) (wl_Profiles cfg) with Some (_, profile) => profile | None => "" end.

Definition launch_Descriptor (x : launch_executor) : ExecutorDescriptor :=
  mkExecutorDescriptor (wl_ExecutorID (lx_Config x))
    (if wl_ExecutorKind (lx_Config x) == "" then ExecutorDeterministicTool else wl_ExecutorKind (lx_Config x))
    (wl_ExecutorVersion (lx_Config x)).

Definition launch_Execute (x : launch_executor) (item : WorkItem) (attempt : ExecutorAttempt) : action ExecutorResult :=
  match lx_Broker x with
  | None => mret (permanent "launcher broker is unavailable")
  | Some launch =>
      if wi_AgentType item != wl_AgentType (lx_Config x)
      then mret (permanent "work item agent type is not authorized by this launcher")
      else if (wi_ObjectKind item != "upload") || (wi_ObjectID item == "")
      then mret (permanent "work item is not an authoritative upload")
      else
        let profile := profile_for (lx_Config x) (wi_AgentMode item) in
        if profile == "" then mret (permanent "work item mode has no deployment-owned launch profile")
        else
          _ ← emit (ELaunch profile (wi_ID item) (wi_ObjectID item) (at_IdempotencyKey attempt));
          mret (match launch profile (wi_ID item) (wi_ObjectID item) (at_IdempotencyKey attempt) with
                | inr e =>
                    if IsRetryable e
                    then result_of OutcomeRetryableFailure "broker_launch_transient" ""
                           "broker launch is temporarily unavailable" ""
                    else permanent "broker launch was denied"
                | inl r => result_of OutcomeCompleted "" (lr_RunID r) "" ("sha256:" ++ sha256_hex (lr_RunID r))
                end)
  end.

(** *** The executors of a process *)

Inductive executor :=
  | UploadExecutor (x : upload_executor)
  | LaunchExecutor (x : launch_executor)
  | DescriptorExecutor (d : ExecutorDescriptor).

#[export] Instance executor_descriptor : Executor executor := fun e =>
  match e with
  | UploadExecutor _ => mkExecutorDescriptor UploadExecutorID ExecutorDeterministicTool "v1"
  | LaunchExecutor x => launch_Descriptor x
  | DescriptorExecutor d => d
  end.

#[export] Instance executor_run : RunnableExecutor executor := fun e item attempt =>
  match e with
  | UploadExecutor x => upload_Execute x item attempt
  | LaunchExecutor x => launch_Execute x item attempt
  | DescriptorExecutor _ => fail "route-activate executor is descriptor-only and must never run"
  end.

(** ** The worker *)

Section Worker.
Context {E : Type} `{RunnableExecutor E} (registry : gmap string E).

Definition router_finish (attemptID : string) (result : ExecutorResult) (now : Z) : action unit :=
  completed ← try (on_ledger (Complete attemptID result now));
  match completed with
  | inl _ => mret tt
  | inr e =>
      _ ← set_recovery true;
      recovered ← try (on_ledger (RecoverInterrupted now));
      match recovered with
      | inr e' => fail ("complete attempt: " ++ e ++ "; reconcile: " ++ e')
      | inl _ =>
          _ ← set_recovery false;
          fail ("complete attempt after durable reconciliation: " ++ e)
      end
  end.

(** The run of a claimed item by the executor its attempt names. *)
Definition run_claimed (item : WorkItem) (attempt : ExecutorAttempt) (now : Z) : action bool :=
  match Resolve registry (at_ExecutorID attempt) with
  | Err _ | Panic =>
      _ ← router_finish (at_ID attempt) (permanent "claimed executor is not registered") now; mret true
  | Ok x =>
      if (ed_Version (Descriptor x) != at_ExecutorVersion attempt) || (ed_Kind (Descriptor x) != at_ExecutorKind attempt)
      then _ ← router_finish (at_ID attempt) (permanent "claimed executor version is not registered") now; mret true
      else
        answer ← try (Execute x item attempt);
        let result := match answer with
                      | inl r => r
                      | inr _ => result_of OutcomeRetryableFailure "executor_internal" ""
                                   "executor returned an internal error" ""
                      end in
        _ ← router_finish (at_ID attempt) result now; mret true
  end.

Definition claim_and_run (now : Z) (attempt_id : string) : action bool :=
  claimed ← on_ledger (Claim now attempt_id);
  match claimed with
  | None => mret false
  | Some (item, attempt) => run_claimed item attempt now
  end.

(** [WorkOne]: whether there was work. *)
Definition WorkOne (now : Z) (attempt_id : string) : action bool := fun s =>
  (_ ← if rt_needsRecovery s then _ ← on_ledger (RecoverInterrupted now); set_recovery false else mret tt;
   claim_and_run now attempt_id) s.
End Worker.

(** ** Ingress *)

(** A delivery of the stream: its bytes, its sequence, and how its
    acknowledgements end. *)
Record release_delivery := mkReleaseDelivery {
  dl_Data : string; dl_Sequence : res Z; dl_AckSync : res unit; dl_Term : res unit; dl_NumDelivered : Z }.

Definition ack (d : release_delivery) : action unit := _ ← emit EAck; pure_res (dl_AckSync d).
(** [_ = delivery.Term(); return err]. *)
Definition terminate {A} (e : string) : action A := _ ← emit ETerm; fail e.

(** The ids of the repository, the installation and the release, and the name
    of the repository. *)
Record release_payload := mkReleasePayload { py_Repository : Z; py_FullName : string; py_Installation : Z; py_Release : Z }.
#[export] Instance release_payload_eta : Eta release_payload := fun p =>
  mkReleasePayload (py_Repository p) (py_FullName p) (py_Installation p) (py_Release p).

Definition set_release_payload (n : string) (v : json) (p : release_payload) : option release_payload :=
  if n == "repository" then
    decode_struct ["id"; "full_name"] false (fun n v p =>
      if n == "id" then x ← decode_int v (py_Repository p); Some (p <| py_Repository := x |>)
      else x ← decode_string v (py_FullName p); Some (p <| py_FullName := x |>)) v p
  else if n == "installation" then
    decode_struct ["id"] false (fun _ v p => x ← decode_int v (py_Installation p); Some (p <| py_Installation := x |>)) v p
  else decode_struct ["id"] false (fun _ v p => x ← decode_int v (py_Release p); Some (p <| py_Release := x |>)) v p.

Definition decode_release_payload (raw : string) : option release_payload :=
  parse_json raw ≫= fun v =>
    decode_struct ["repository"; "installation"; "release"] false set_release_payload v (mkReleasePayload 0 "" 0 0).

Definition release_admission (e : Event) : bool :=
  (Source e == "github") && (Namespace e == Release.Repository) && (ObjectKind e == "release")
  && (EventKind e == "release") && (Action e == "published").

Definition AdapterFor (source : string) : res unit :=
  if source == "github" then Ok tt else Err "no authenticated adapter registered for source".

Definition retryOrDeadLetter (d : release_delivery) (event : Event) (classification cause : string) (now : Z) : action unit :=
  if dl_NumDelivered d <? 5 then fail cause
  else
    recorded ← try (on_ledger (RecordIngressFailure event classification (dl_NumDelivered d) now));
    match recorded with
    | inr e => fail ("record ingress dead letter: " ++ e)
    | inl _ => _ ← emit ETerm; _ ← pure_res (dl_Term d); fail cause
    end.

(** [Process], with the hydrator as the interface it is. *)
Definition Process (hydrate : Z -> Z -> Z -> res ReleaseOperation) (stream : string) (d : release_delivery) (now : Z)
    (work_id event_id : string) : action unit :=
  match Unmarshal_signal (dl_Data d) with
  | None => terminate "invalid signal"
  | Some signal =>
      sequence ← pure_res (dl_Sequence d);
      match (_ ← AdapterFor (m_Source (sg_Meta signal)); GitHubAdapter_Normalize signal stream sequence) with
      | Err e => terminate e
      | Panic => pure_res Panic
      | Ok event =>
          if negb (release_admission event)
          then terminate "event does not match the exact Resume Builder release admission"
          else
            recorded ← reading (DeliveryRecorded event);
            recorded ← pure_res recorded;
            if (recorded : bool) then ack d
            else match decode_release_payload (sg_Payload signal) with
                 | None => terminate "release webhook identity is invalid"
                 | Some payload =>
                     if (py_FullName payload != Release.Repository) || (ObjectID event != fmt_d (py_Release payload))
                     then terminate "release webhook identity is invalid"
                     else
                       hydrated ← try (pure_res (hydrate (py_Repository payload) (py_Installation payload) (py_Release payload)));
                       match hydrated with
                       | inr cause => retryOrDeadLetter d event "release_hydration" cause now
                       | inl operation =>
                           matched ← reading (MatchRoute event);
                           snapshot ← pure_res matched;
                           if rs_ExecutorID snapshot != UploadExecutorID
                           then fail "matched route selected an unsupported executor"
                           else
                             _ ← on_ledger (AdmitRelease (rs_ID snapshot) event operation now work_id event_id);
                             ack d
                       end
                 end
      end
  end.

Definition Recover (now : Z) : action unit := _ ← on_ledger (RecoverInterrupted now); mret tt.
