(* ===== verification/DispatchFacts.v ===== *)
(** * Facts about the dispatcher's pure decisions

    Valid text through sanitising and truncation, the retry schedules, and the
    selection of a task. *)

From S2P Require Import Prelude GoText GoSha256 GoJson LedgerModel DispatchPolicy.
From Stdlib Require Import Ascii.
Open Scope string_scope.
Open Scope Z_scope.
Open Scope go_scope.

(** Membership in a list of names, and its consequences by computation. *)
Lemma one_of_elem s l : one_of s l = true <-> s ∈ l.
Proof.
  unfold one_of. rewrite exists_where_spec. split.
  - intros (x & Hx & E%bool_decide_eq_true). by subst.
  - intros Hs. exists s. split; [done|by apply bool_decide_eq_true].
Qed.

Lemma one_of_forall (q : string -> bool) s l : one_of s l = true -> forallb q l = true -> q s = true.
Proof. rewrite one_of_elem, forallb_forall. intros Hs Hl. apply Hl. by apply list_elem_of_In. Qed.

(** ** UTF-8 *)

Create HintDb utf8 discriminated.

Lemma Utf8_ValidString s : Utf8 s -> ValidString s = true.
Proof. induction 1; simpl; repeat case_match; try congruence; done. Qed.

Lemma ValidString_app a b : ValidString a = true -> ValidString (a ++ b) = ValidString b.
Proof. intros H%ValidString_Utf8. induction H; simpl; repeat case_match; try congruence; done. Qed.

Lemma ValidString_app_true a b :
  ValidString a = true -> ValidString b = true -> ValidString (a ++ b) = true.
Proof. intros Ha Hb. by rewrite ValidString_app. Qed.

Lemma ValidString_ascii s : all_chars is_ascii s = true -> ValidString s = true.
Proof. induction s as [|a s IH]; simpl; [done|]. intros [Ha Hs]%andb_true_iff. rewrite Ha. auto. Qed.

#[export] Hint Resolve ValidString_app_true : utf8.

(** Induction on the length of a text. *)
Lemma string_length_ind (P : string -> Prop) :
  (forall s, (forall t, (String.length t < String.length s)%nat -> P t) -> P s) -> forall s, P s.
Proof.
  intros H s. remember (String.length s) as n eqn:E. assert (L : (String.length s <= n)%nat) by lia.
  clear E. revert s L. induction n as [|n IH]; intros s L; apply H; intros t Ht; [lia|]. apply IH. lia.
Qed.

Lemma ToValidUTF8_go_valid bad s : ValidString (ToValidUTF8_go bad s) = true.
Proof.
  revert bad. induction s as [s IH] using string_length_ind. intros bad.
  destruct s as [|a s]; [done|]. cbn [ToValidUTF8_go].
  assert (Hinv : ValidString ((if bad then "" else replacement) ++ ToValidUTF8_go true s) = true).
  { apply ValidString_app_true; [by destruct bad|]. apply IH. simpl. lia. }
  destruct (is_ascii a) eqn:Ea; [simpl; rewrite Ea; apply IH; simpl; lia|].
  destruct s as [|b s]; [done|].
  destruct (utf8_2 a b) eqn:E2; [simpl; rewrite Ea, E2; apply IH; simpl; lia|].
  destruct s as [|c s]; [done|].
  destruct (utf8_3 a b c) eqn:E3; [simpl; rewrite Ea, E2, E3; apply IH; simpl; lia|].
  destruct s as [|d s]; [done|].
  destruct (utf8_4 a b c d) eqn:E4; [simpl; rewrite Ea, E2, E3, E4; apply IH; simpl; lia|done].
Qed.

Lemma ToValidUTF8_id s : ValidString s = true -> ToValidUTF8 s = s.
Proof.
  intros H%ValidString_Utf8. unfold ToValidUTF8.
  induction H; cbn [ToValidUTF8_go]; repeat case_match; try congruence; simplify_eq; by rewrite IHUtf8.
Qed.

(** ** Prefixes *)

Lemma take_str_length n s : String.length (take_str n s) = Nat.min n (String.length s).
Proof.
  revert s. induction n as [|n IH]; intros [|a s]; simpl; try done. f_equal. apply IH.
Qed.

Lemma take_str_cons n a s : take_str (S n) (String a s) = String a (take_str n s).
Proof. done. Qed.

Lemma take_str_all n s : (String.length s <= n)%nat -> take_str n s = s.
Proof.
  revert s. induction n as [|n IH]; intros [|a s] L; simpl in L; try done; try lia.
  rewrite take_str_cons. f_equal. apply IH. lia.
Qed.

Lemma take_str_take m n s : take_str m (take_str n s) = take_str (Nat.min m n) s.
Proof.
  revert n s. induction m as [|m IH]; intros [|n] [|a s]; try done.
  simpl Nat.min. rewrite !take_str_cons. f_equal. apply IH.
Qed.

(** The loop ends at the longest valid prefix. *)
Lemma drop_invalid_tail_spec fuel s :
  (String.length s <= fuel)%nat ->
  exists n, drop_invalid_tail fuel s = take_str n s /\ (n <= String.length s)%nat /\
    ValidString (take_str n s) = true /\
    forall k, (k <= String.length s)%nat -> ValidString (take_str k s) = true -> (k <= n)%nat.
Proof.
  revert s. induction fuel as [|fuel IH]; intros s L; cbn [drop_invalid_tail].
  - destruct s; simpl in L; [|lia]. exists 0%nat. split_and!; try done.
  - destruct (ValidString s) eqn:V.
    { exists (String.length s). rewrite take_str_all by lia. split_and!; auto with lia. }
    assert (Hpos : (0 < String.length s)%nat) by (destruct s; [done|simpl; lia]).
    assert (Hl : String.length (take_str (String.length s - 1) s) = (String.length s - 1)%nat)
      by (rewrite take_str_length; lia).
    destruct (IH (take_str (String.length s - 1) s)) as (n & E & Hn & Hv & Hmax); [lia|].
    exists n. rewrite take_str_take, Nat.min_l in E, Hv by lia. split_and!; try done; try lia.
    intros k Hk Vk. destruct (decide (k = String.length s)) as [->|Hne].
    + rewrite take_str_all in Vk by lia. congruence.
    + apply Hmax; [lia|]. rewrite take_str_take, Nat.min_l by lia. done.
Qed.

(** The error text the dispatcher stores is always valid UTF-8 of at most
    512 bytes, and it is as much of the (repaired) message as fits: it is a
    prefix of it, no valid prefix within the limit is longer, and a valid
    message within the limit is stored unchanged. *)
Theorem safe_text_bounded (text : string) :
  ValidString (safe_text text) = true /\ len (safe_text text) <= 512 /\
  (exists n, safe_text text = take_str n (ToValidUTF8 text)) /\
  (forall k, (k <= 512)%nat -> ValidString (take_str k (ToValidUTF8 text)) = true ->
     len (take_str k (ToValidUTF8 text)) <= len (safe_text text)) /\
  (ValidString text = true -> len text <= 512 -> safe_text text = text).
Proof.
  assert (Hid : ValidString text = true -> len text <= 512 -> safe_text text = text).
  { intros V L. unfold safe_text. rewrite ToValidUTF8_id by done.
    rewrite (proj2 (Z.ltb_ge _ _)) by lia. done. }
  unfold safe_text in *. pose proof (ToValidUTF8_go_valid false text) as V. fold (ToValidUTF8 text) in V.
  generalize dependent (ToValidUTF8 text). intros s Hid V. revert Hid. destruct (Z.ltb_spec 512 (len s)) as [L|L]; intros Hid.
  - unfold len in *.
    destruct (drop_invalid_tail_spec 513 (take_str 512 s)) as (n & E & Hn & Hv & Hmax);
      [rewrite take_str_length; lia|].
    rewrite take_str_length in Hn, Hmax. rewrite take_str_take, Nat.min_l in E, Hv by lia.
    rewrite E in Hid |- *. rewrite take_str_length. split_and!; try done; try lia; eauto.
    intros k Hk Vk. rewrite !take_str_length. enough (k <= n)%nat by lia.
    apply Hmax; [lia|]. by rewrite take_str_take, Nat.min_l by lia.
  - split_and!; try done.
    + exists (String.length s). by rewrite take_str_all by lia.
    + intros k Hk _. unfold len in *. rewrite take_str_length. lia.
Qed.

(** ** Retry schedules *)

Lemma shiftl_range k n : 0 <= k <= n -> 1 <= Z.shiftl 1 k <= 2 ^ n.
Proof.
  intros Hk. rewrite Z.shiftl_1_l. split.
  - change 1 with (2 ^ 0). apply Z.pow_le_mono_r; lia.
  - apply Z.pow_le_mono_r; lia.
Qed.

Lemma backoff_range base shift cap attempt :
  0 < base <= cap -> 0 <= shift -> base <= backoff base shift cap attempt <= cap.
Proof.
  intros Hb Hs. unfold backoff. destruct (attempt <? 1) eqn:E; split_bools;
    match goal with |- context [Z.shiftl 1 ?k] => pose proof (shiftl_range k k ltac:(lia)) as [Hl _] end;
    case_match; split_bools; nia.
Qed.

Lemma backoff_mono base shift cap a b :
  0 < base -> 0 <= shift -> a <= b -> backoff base shift cap a <= backoff base shift cap b.
Proof.
  intros Hb Hs Hab. unfold backoff.
  assert (Hm : Z.shiftl 1 (Z.min ((if a <? 1 then 1 else a) - 1) shift)
               <= Z.shiftl 1 (Z.min ((if b <? 1 then 1 else b) - 1) shift)).
  { rewrite !Z.shiftl_1_l. apply Z.pow_le_mono_r; [lia|].
    destruct (Z.ltb_spec a 1), (Z.ltb_spec b 1); lia. }
  repeat case_match; split_bools; nia.
Qed.

Lemma backoff_doubles base shift cap n :
  0 <= n < shift -> 2 * (base * 2 ^ n) <= cap -> 0 < base ->
  backoff base shift cap (n + 2) = 2 * backoff base shift cap (n + 1).
Proof.
  intros Hn Hc Hb. unfold backoff. rewrite !(proj2 (Z.ltb_ge _ 1)) by lia. rewrite !Z.min_l by lia.
  replace (n + 2 - 1) with (Z.succ n) by lia. replace (n + 1 - 1) with n by lia.
  rewrite !Z.shiftl_1_l, Z.pow_succ_r by lia. rewrite !(proj2 (Z.ltb_ge _ _)); nia.
Qed.

(** The waits between the attempts of one report. *)
Definition report_waits : list Z :=
  map (fun n => ReportRetryDelay (Z.of_nat n)) (seq 1 (Z.to_nat ReportRetryMaxAttempts - 1)).

(** C19: the retry schedules never spin and never stall: for every attempt
    number a launch retry waits between 2 and 20 seconds, a report retry between
    30 seconds and one hour, a projection retry between 2 seconds and one
    minute; the waits never decrease and double until they reach their cap; and
    the retries of one report span 61,410 seconds, the documented 17 hours. *)
Theorem retry_delays (attempt later : Z) :
  attempt <= later ->
  2 * Second <= LaunchRetryDelay attempt <= 20 * Second /\
  30 * Second <= ReportRetryDelay attempt <= Hour /\
  2 * Second <= PreOutboxRetryDelay attempt <= Minute /\
  LaunchRetryDelay attempt <= LaunchRetryDelay later /\
  ReportRetryDelay attempt <= ReportRetryDelay later /\
  PreOutboxRetryDelay attempt <= PreOutboxRetryDelay later /\
  (1 <= attempt <= 6 -> ReportRetryDelay (attempt + 1) = 2 * ReportRetryDelay attempt) /\
  (1 <= attempt <= 4 -> PreOutboxRetryDelay (attempt + 1) = 2 * PreOutboxRetryDelay attempt) /\
  fold_right Z.add 0 report_waits = 61410 * Second.
Proof.
  intros Hl. unfold LaunchRetryDelay, ReportRetryDelay, PreOutboxRetryDelay, StatusPollInterval.
  pose proof (backoff_range (2 * Second) 4 (20 * Second) attempt) as H1.
  pose proof (backoff_range (30 * Second) 7 Hour attempt) as H2.
  pose proof (backoff_range (2 * Second) 5 Minute attempt) as H3.
  split_and!; try (apply backoff_mono; unfold Second; lia); try (apply H1); try (apply H2); try (apply H3);
    unfold Hour, Minute, Second in *; try lia.
  - intros Ha. replace (attempt + 1) with ((attempt - 1) + 2) by lia.
    replace (backoff _ 7 _ attempt) with (backoff (30 * 1000000000) 7 (60 * (60 * 1000000000)) ((attempt - 1) + 1))
      by (f_equal; lia).
    apply backoff_doubles; try lia. assert (2 ^ (attempt - 1) <= 2 ^ 5) by (apply Z.pow_le_mono_r; lia). lia.
  - intros Ha. replace (attempt + 1) with ((attempt - 1) + 2) by lia.
    replace (backoff _ 5 _ attempt) with (backoff (2 * 1000000000) 5 (60 * 1000000000) ((attempt - 1) + 1))
      by (f_equal; lia).
    apply backoff_doubles; try lia. assert (2 ^ (attempt - 1) <= 2 ^ 3) by (apply Z.pow_le_mono_r; lia). lia.
  - vm_compute. reflexivity.
Qed.

Lemma retry_delays_witness : LaunchRetryDelay 3 <= LaunchRetryDelay 9.
Proof. apply (retry_delays 3 9). lia. Defined.

(** ** Selection *)

(** The conditions of [Select], one by one. *)
Definition selects (signal : Signal) (routes : list RepositoryTaskRoute) (c : Candidate) : Prop :=
  let meta := sg_Meta signal in
  m_Source meta = "github" /\ m_SourceEvent meta = "issues" /\ m_SourceAction meta = "labeled" /\
  m_SourceDeliveryID meta <> "" /\
  exists event route,
    parse_json (sg_Payload signal) ≫= decode_issue_event = Some event /\
    0 < ie_Number event /\ ie_State event = "open" /\ ie_PullRequest event = None /\ ie_Login event <> "" /\
    rows_where (route_matches signal event) routes = [route] /\
    c = mkCandidate (ie_FullName event) (ie_Number event) (m_SourceDeliveryID meta) (tr_ID route) (tr_Profile route).

(** [Select] accepts a signal exactly when it is a GitHub
    [issues/labeled] event with a delivery id, on an open issue (not a pull
    request) with a positive number and a sender, that exactly one configured
    route matches; the candidate then carries that issue, delivery and route,
    and the recorded outcome is [accepted] in this case only. *)
Theorem select_exact signal routes :
  (forall c, fst (Select signal routes) = Some c <-> selects signal routes c) /\
  (snd (Select signal routes) = "accepted" <-> is_Some (fst (Select signal routes))).
Proof.
  unfold selects, Select. split; [intros c|].
  - destruct ((m_Source (sg_Meta signal) != "github") || _ || _) eqn:E1.
    { split; [done|]. intros (Hs & He & Ha & _). rewrite Hs, He, Ha in E1. done. }
    split_bools. case_bool_decide as E2; [split; [done|naive_solver]|].
    destruct (parse_json _ ≫= _) as [event|]; [|split; [done|naive_solver]].
    destruct ((ie_Number event <=? 0) || _ || _ || _) eqn:E3.
    { split; [done|]. intros (_ & _ & _ & _ & ev & rt & Hev & Hn & Hst & Hp & Hl & _). simplify_eq.
      rewrite Hst, Hp in E3. rewrite (proj2 (Z.leb_gt _ _)) in E3 by lia. simpl in E3. split_bools. done. }
    split_bools. destruct (ie_PullRequest event) eqn:E4; [done|].
    destruct (rows_where _ routes) as [|route [|]] eqn:E5; simpl.
    1,3: split; [done|]; intros (_ & _ & _ & _ & ev & rt & Hev & _ & _ & _ & _ & Hr & _); simplify_eq; congruence.
    split.
    + intros Hc. injection Hc as <-. split_and!; try done. by exists event, route.
    + intros (_ & _ & _ & _ & ev & rt & Hev & _ & _ & _ & _ & Hr & ->). simplify_eq. rewrite E5 in Hr. by simplify_eq.
  - repeat case_match; simpl; split; try done; try (intros []; done).
Qed.
