(* ===== verification/ConfigFacts.v ===== *)
(** * What a validated configuration establishes

    The checks of [Config.Validate] as facts about the parts of the program
    that rely on them: the repair policy of the dispatcher, the routes of its
    task selection, and the paths and tuples of the gateway. *)

From S2P Require Import Prelude GoText GoJson GoNet LedgerModel DispatchPolicy Config DispatchFacts.
From Stdlib Require Import Ascii.
Open Scope string_scope.
Open Scope Z_scope.
Open Scope go_scope.

#[local] Arguments one_of : simpl never.

(** ** Loops with a set of seen keys *)

Lemma check_each_app {A K} (check : list K -> A -> res unit) key seen l :
  check_each check key seen l = Ok tt ->
  forall pre x post, l = (pre ++ x :: post)%list -> check (rev (map key pre) ++ seen)%list x = Ok tt.
Proof.
  revert seen. induction l as [|y l IH]; intros seen H pre x post E; [by destruct pre|].
  cbn [check_each] in H. apply bind_unit_ok in H as [Hy Hl].
  destruct pre as [|z pre]; simplify_eq/=; [done|].
  specialize (IH _ Hl pre x post eq_refl). by rewrite <- app_assoc.
Qed.

Lemma check_each_elem {A K} (check : list K -> A -> res unit) key l x :
  check_each check key [] l = Ok tt -> x ∈ l -> exists seen, check seen x = Ok tt.
Proof.
  intros H (pre & post & E)%list_elem_of_split. eexists. by eapply check_each_app.
Qed.

(** A check that refuses a seen part of the key makes these parts distinct. *)
Lemma check_each_NoDup {A K J} (part : K -> J) (check : list K -> A -> res unit) key l :
  (forall seen x, check seen x = Ok tt -> part (key x) ∉ map part seen) ->
  check_each check key [] l = Ok tt -> NoDup (map (fun x => part (key x)) l).
Proof.
  intros Hc H. pose proof (check_each_app _ _ _ _ H) as Hsplit. clear H.
  induction l as [|y l IH] using rev_ind; [constructor|].
  apply (NoDup_snoc_key (fun x => part (key x))).
  - apply IH. intros pre x post ->. apply (Hsplit pre x (post ++ [y])%list). by rewrite <- app_assoc.
  - intros x Hx E. eapply (Hc _ y); [by apply (Hsplit l y [])|].
    rewrite app_nil_r, map_rev, map_map, list_elem_of_In, <- in_rev, <- E.
    apply (in_map (fun x => part (key x))). by apply list_elem_of_In.
Qed.

(** ** Task routes *)

Lemma task_routes_distinct routes :
  validateRepositoryTaskRoutes routes = Ok tt ->
  NoDup (map tr_ID routes) /\ NoDup (map admission_key routes).
Proof.
  unfold validateRepositoryTaskRoutes. intros H. open_guards H.
  split; [apply (check_each_NoDup fst) in H|apply (check_each_NoDup snd) in H]; try done.
  all: clear H; intros seen r Hr; unfold validate_task_route in Hr; open_guards Hr; split_bools;
       rewrite <- one_of_elem; cbn [fst snd]; congruence.
Qed.

(** Two routes that match the same event have the same admission key. *)
Lemma matching_routes_key signal event a b :
  route_matches signal event a = true -> route_matches signal event b = true ->
  admission_key a = admission_key b.
Proof. unfold route_matches, admission_key. intros Ha Hb. split_bools. congruence. Qed.

Lemma task_routes_unambiguous routes signal event :
  NoDup (map admission_key routes) ->
  (length (rows_where (route_matches signal event) routes) <= 1)%nat.
Proof.
  intros Hn. induction routes as [|a l IH]; [simpl; lia|]. inversion Hn as [|? ? Ha Hl]; subst.
  change (rows_where (route_matches signal event) (a :: l)) with
    (if route_matches signal event a then a :: rows_where (route_matches signal event) l
     else rows_where (route_matches signal event) l).
  destruct (route_matches signal event a) eqn:Ea; [|auto].
  destruct (rows_where _ l) as [|b rest] eqn:Er; [simpl; lia|]. exfalso. apply Ha.
  assert (Hb : b ∈ rows_where (route_matches signal event) l) by (rewrite Er; left).
  apply rows_where_spec in Hb as [Hb Mb]. rewrite (matching_routes_key _ _ _ _ Ea Mb).
  apply list_elem_of_In, in_map. by apply list_elem_of_In.
Qed.

Lemma select_unambiguous routes signal :
  NoDup (map admission_key routes) -> snd (Select signal routes) <> "ambiguous_route".
Proof.
  intros Hn. unfold Select. repeat case_match; try done.
  all: pose proof (task_routes_unambiguous routes signal i Hn) as Hl;
       match goal with E : rows_where _ _ = _ |- _ => rewrite E in Hl end; simpl in Hl; lia.
Qed.

(** ** The repair policy *)

Lemma repair_policy_valid `{NetURL} d :
  validate_dispatcher d = Ok tt -> ConfigureCIRepair (repair_policy d) = Ok (repair_policy d).
Proof.
  unfold validate_dispatcher. intros H'. open_guards H'. split_bools.
  unfold ConfigureCIRepair, CIRepairPolicy_Validate, default_wake, repair_policy. cbn.
  assert (CIRepairReconciliationWake d <> 0) by (unfold Minute, Second in *; lia).
  rewrite (proj2 (Z.eqb_neq _ _)) by done. cbn. rewrite (proj2 (Z.eqb_neq _ _)) by done.
  repeat match goal with
  | |- context [guard_err ?c _] => rewrite (proj2 (guard_err_ok c _)) by (cbn; lia); cbn
  end. done.
Qed.

(** ** Gateway routes *)

Lemma route_named route : Route_Validate route = Ok tt -> gr_ID route <> "".
Proof.
  unfold Route_Validate. intros H. open_guards H. intros E. rewrite E in G. done.
Qed.

Lemma gateway_paths_distinct routes :
  check_each validate_gateway_route (fun r => (gr_Path r, gr_ID r)) [] routes = Ok tt ->
  Forall (fun r => Route_Validate r = Ok tt) routes /\ NoDup (map gr_Path routes).
Proof.
  intros H. pose proof (check_each_app _ _ _ _ H) as Hsplit. clear H.
  induction routes as [|y l IH] using rev_ind; [split; constructor|].
  destruct IH as [HF HN].
  { intros pre x post ->. apply (Hsplit pre x (post ++ [y])%list). by rewrite <- app_assoc. }
  pose proof (Hsplit l y [] eq_refl) as Hy. unfold validate_gateway_route in Hy. open_guards Hy.
  split; [by apply Forall_app; split; [|constructor]|].
  apply NoDup_snoc_key; [done|]. intros x Hx E.
  destruct (first_where _ _) as [[p id]|] eqn:Ef.
  - apply first_where_Some in Ef as [Hi Hp]. split_bools. subst id.
    rewrite app_nil_r, list_elem_of_In, <- in_rev, in_map_iff in Hi.
    destruct Hi as (z & [= _ Hz] & Hin). rewrite Forall_forall in HF.
    apply (route_named z); [|done]. by apply HF.
  - rewrite first_where_None in Ef. specialize (Ef (gr_Path x, gr_ID x)).
    cbn [fst] in Ef. rewrite E, bool_decide_eq_false in Ef. apply Ef; [|done].
    rewrite app_nil_r, list_elem_of_In, <- in_rev. apply in_map_iff. exists x. rewrite E. split; [done|].
    by apply list_elem_of_In.
Qed.

(** C22: a configuration that passes [Validate] establishes what the processes
    rely on.  An enabled dispatcher gets a repair policy the store accepts
    unchanged, one worker, and task routes with distinct ids among which no
    signal is ambiguous; the gateway gets valid routes at distinct paths; an
    enabled launcher runs beside both execution loops, has an activation of
    its executor, and matches the descriptor of every such activation. *)
Theorem validated_config `{NetURL} `{GoDuration} cfg :
  Config_Validate cfg = Ok tt ->
  (dc_Enabled (cf_Dispatcher cfg) = true ->
     let d := cf_Dispatcher cfg in
     ConfigureCIRepair (repair_policy d) = Ok (repair_policy d) /\ dc_Workers d = 1 /\
     NoDup (map tr_ID (dc_RepositoryTaskRoutes d)) /\
     forall signal, snd (Select signal (dc_RepositoryTaskRoutes d)) <> "ambiguous_route") /\
  (Forall (fun r => Route_Validate r = Ok tt) (cf_Routes cfg) /\ NoDup (map gr_Path (cf_Routes cfg))) /\
  (wl_Enabled (sc_Launcher (cf_ShadowAdmission cfg)) = true ->
     dc_Enabled (cf_Dispatcher cfg) = true /\ wr_Enabled (cf_WorkRouter cfg) = true /\
     (exists a, a ∈ sc_RouteActivations (cf_ShadowAdmission cfg) /\
       ra_ExecutorID a = wl_ExecutorID (sc_Launcher (cf_ShadowAdmission cfg))) /\
     forall a, a ∈ sc_RouteActivations (cf_ShadowAdmission cfg) ->
       ra_ExecutorID a = wl_ExecutorID (sc_Launcher (cf_ShadowAdmission cfg)) ->
       ra_ExecutorVersion a = wl_ExecutorVersion (sc_Launcher (cf_ShadowAdmission cfg)) /\
       executor_kind (ra_ExecutorKind a) = executor_kind (wl_ExecutorKind (sc_Launcher (cf_ShadowAdmission cfg)))).
Proof.
  unfold Config_Validate. intros V. open_guards V. split_and!.
  - intros He. rewrite He in G4. cbv zeta. split_and!.
    + by apply repair_policy_valid.
    + unfold validate_dispatcher in G4. open_guards G4. split_bools. done.
    + unfold validate_dispatcher in G4. open_guards G4. by apply task_routes_distinct.
    + unfold validate_dispatcher in G4. open_guards G4. intros s. apply select_unambiguous.
      by apply task_routes_distinct.
  - by apply gateway_paths_distinct.
  - by apply gateway_paths_distinct.
  - intros Hw. rewrite Hw in G8. unfold validate_launcher in G8. open_guards G8. split_bools.
    split_and!; [done|done| |].
    { destruct (rows_where _ _) as [|a l] eqn:Er; [done|]. exists a.
      assert (Ha : a ∈ rows_where (fun a => ra_ExecutorID a == wl_ExecutorID (sc_Launcher (cf_ShadowAdmission cfg)))
                         (sc_RouteActivations (cf_ShadowAdmission cfg))) by (rewrite Er; left).
      by rewrite rows_where_spec, bool_decide_eq_true in Ha. }
    intros a Ha Hid.
    match goal with X : exists_where _ _ = false |- _ => rewrite exists_where_false in X; specialize (X a); rename X into Hm end.
    rewrite rows_where_spec, bool_decide_eq_true in Hm. specialize (Hm (conj Ha Hid)). by split_bools.
Qed.

(** A configuration in the style of [configs/example.yaml]. *)
Definition sample_config_url : NetURL := fun raw =>
  if raw == "http://youknowme-mcp:8765/mcp" then Some (mkParsedURL "http" "youknowme-mcp:8765" false "/mcp" "/mcp" "" "") else
  match strip_prefix "https://" raw with
  | Some host => Some (mkParsedURL "https" host false "" "" "" "")
  | None => None
  end.
Definition sample_duration : GoDuration := fun _ => Some Second.

Definition sample_task_route (id label : string) : RepositoryTaskRoute :=
  mkRepositoryTaskRoute id "octo/repo" "issues" "labeled" label "profile-1".

Definition sample_dispatcher : DispatcherConfig :=
  mkDispatcherConfig true ":8082" "signals.github.>" "github-task-dispatcher" "jobs.db" "https://broker" "BROKER_TOKEN" "" "" 1 0
    0 Hour (30 * Minute) 2 [sample_task_route "build" "agent"; sample_task_route "docs" "agent-docs"].

Definition sample_route : Route :=
  mkRoute "github" "/webhooks/github" "github" DefaultMaxBody "signals.github.webhook" "" ""
    (mkGitHubConfig "GITHUB_SECRET" false ["refs/heads/main"])
    (mkAdmissionSet [] [] [] [mkAdmissionTuple "octo/repo" "issues" ["labeled"; "opened"];
                              mkAdmissionTuple "octo/repo" "push" []]).

Definition sample_config : Config :=
  mkConfig (mkGatewayConfig ":8080") (mkNATSConfig "nats://n" "SIGNALS" ["signals.>"]) sample_dispatcher
    (mkWorkRouterConfig false "" "" "" "" "" "" "" "" "" "")
    (mkPushScannerConfig false "" "" "" "" "" "" "" "" "" [] [] "" 0 (mkCanaryAttribution "" "" "" "" 0) "" "" ""
       (mkPushScannerBounds 0 0 0 0 0 0))
    (mkShadowAdmissionConfig false "" (mkShadowIngressConfig false "" [] "") []
       (mkWorkItemLauncherConfig false "" "" "" "" [])) [sample_route].

(** The same with the release router and the launcher enabled. *)
Definition launching_config : Config :=
  mkConfig (cf_Gateway sample_config) (cf_NATS sample_config) sample_dispatcher
    (mkWorkRouterConfig true "" "signals.github.>" "resume" "ledger.db" "http://youknowme-mcp:8765/mcp" "local_secret" "app.pem" ""
       "" "YKM_SECRET")
    (cf_PushScanner sample_config)
    (mkShadowAdmissionConfig false "" (mkShadowIngressConfig false "" [] "")
       [mkRouteActivation "/etc/routes/task.json" "work-item-launcher" "" "v1" false]
       (mkWorkItemLauncherConfig true "repository-task" "work-item-launcher" "deterministic_tool" "v1" [("execute", "profile-1")]))
    [sample_route].

Lemma validated_config_witness :
  @Config_Validate sample_config_url sample_duration launching_config = Ok tt /\
  ConfigureCIRepair (mkCIRepairPolicy Hour (30 * Minute) 2) = Ok (mkCIRepairPolicy Hour (30 * Minute) 2) /\
  exists a, a ∈ sc_RouteActivations (cf_ShadowAdmission launching_config) /\ ra_ExecutorID a = "work-item-launcher".
Proof.
  assert (V : @Config_Validate sample_config_url sample_duration launching_config = Ok tt)
    by (vm_compute; reflexivity).
  split; [exact V|].
  destruct (@validated_config sample_config_url sample_duration launching_config V) as (Hd & _ & Hl).
  split; [exact (proj1 (Hd eq_refl))|]. destruct (Hl eq_refl) as (_ & _ & Ha & _). exact Ha.
Defined.
