(* ===== verification/GatewayFacts.v ===== *)
(** * What the gateway lets through

    The webhook signature, the exact set of requests a route publishes, and
    the composition with the ledger's adapter: only a signed request becomes an
    event. *)

From S2P Require Import Prelude GoText GoSha256 GoJson GoNet LedgerModel Envelope DispatchPolicy Config Gateway DispatchFacts ConfigFacts.
From Stdlib Require Import Ascii.
Open Scope string_scope.
Open Scope Z_scope.
Open Scope go_scope.

#[local] Arguments one_of : simpl never.
#[local] Arguments Sum256 : simpl never.
#[local] Arguments hmac_sha256 : simpl never.
#[local] Arguments sha256_hex : simpl never.
#[local] Arguments readJSONBody : simpl never.
#[local] Arguments decode_payload : simpl never.

(** ** Prefixes and hexadecimal *)

Lemma strip_prefix_iff p s rest : strip_prefix p s = Some rest <-> s = p ++ rest.
Proof.
  revert s. induction p as [|c p IH]; intros s; simpl; [split; intros; congruence|].
  destruct s as [|d s]; [done|]. destruct (Ascii.eqb_spec c d) as [->|Hne].
  - rewrite IH. split; intros; [by subst|congruence].
  - split; congruence.
Qed.

Lemma HasPrefix_iff s p : HasPrefix s p = true <-> exists rest, s = p ++ rest.
Proof.
  unfold HasPrefix. rewrite negb_true_iff, bool_decide_eq_false.
  destruct (strip_prefix p s) as [rest|] eqn:E.
  - apply strip_prefix_iff in E. split; [eauto|done].
  - split; [done|]. intros (rest & E2). apply strip_prefix_iff in E2. congruence.
Qed.

Lemma TrimPrefix_app p rest : TrimPrefix (p ++ rest) p = rest.
Proof. unfold TrimPrefix. by rewrite (proj2 (strip_prefix_iff p (p ++ rest) rest)). Qed.

Lemma hex_value_digit d : 0 <= d < 16 -> hex_value (hex_digit d) = Some d.
Proof.
  intros Hd. assert (E : d ∈ [0;1;2;3;4;5;6;7;8;9;10;11;12;13;14;15]).
  { apply list_elem_of_In. simpl. lia. }
  clear Hd. apply list_elem_of_In in E. simpl in E. repeat destruct E as [<-|E]; try done.
Qed.

Lemma hex_decode_encode bs : Forall (fun b => 0 <= b < 256) bs -> hex_DecodeString (hex bs) = Some bs.
Proof.
  induction 1 as [|b bs Hb _ IH]; [done|].
  change (hex (b :: bs)) with (String (hex_digit (b / 16)) (String (hex_digit (b mod 16)) (hex bs))).
  cbn [hex_DecodeString]. pose proof (Z.mod_pos_bound b 16 eq_refl).
  assert (0 <= b / 16 < 16) by (split; [apply Z.div_pos|apply Z.div_lt_upper_bound]; lia).
  rewrite !hex_value_digit, IH by lia.
  rewrite <- Z.div_mod by done. done.
Qed.

Lemma hmac_bytes key message : Forall (fun b => 0 <= b < 256) (hmac_sha256 key message).
Proof. apply Sum256_shape. Qed.

(** A signature verifies exactly when the secret is set and the header is
    [sha256=] followed by hexadecimal digits, in either case, of the HMAC of
    the body under the secret; the digest GitHub sends is such a header. *)
Theorem signature_exact secret body header :
  let mac := hmac_sha256 (bytes_of secret) (bytes_of body) in
  (VerifySignature secret body header = true <->
     secret <> "" /\ exists digits, header = "sha256=" ++ digits /\ hex_DecodeString digits = Some mac) /\
  (secret <> "" -> VerifySignature secret body ("sha256=" ++ hex mac) = true).
Proof.
  cbv zeta. assert (E : VerifySignature secret body header = true <->
     secret <> "" /\ exists digits, header = "sha256=" ++ digits /\
       hex_DecodeString digits = Some (hmac_sha256 (bytes_of secret) (bytes_of body))).
  { unfold VerifySignature. case_bool_decide as Es; simpl; [split; [done|intros [? _]; done]|].
    destruct (HasPrefix header "sha256=") eqn:Ep; simpl.
    - apply HasPrefix_iff in Ep as (digits & ->). rewrite TrimPrefix_app. split.
      + intros Hv. split; [done|]. exists digits. split; [done|]. case_match; split_bools; by subst.
      + intros (_ & d & Ed & Hd). simpl in Ed. injection Ed as ->. rewrite Hd. by apply bool_decide_eq_true.
    - split; [done|]. intros (_ & d & -> & _). rewrite (proj2 (HasPrefix_iff _ _)) in Ep by eauto. done. }
  split; [exact E|]. clear E header. intros Hs. unfold VerifySignature.
  rewrite bool_decide_eq_false_2 by done. rewrite (proj2 (HasPrefix_iff _ _)) by eauto.
  cbn [orb negb]. rewrite TrimPrefix_app, hex_decode_encode by apply hmac_bytes. by apply bool_decide_eq_true.
Qed.

(** ** Admission *)

Definition allowed (values : list string) (value : string) : Prop := values = [] \/ value ∈ values.

Lemma ContainsAllowed_iff values value : ContainsAllowed values value = true <-> allowed values value.
Proof.
  unfold ContainsAllowed, allowed. destruct values as [|v l].
  - split; [by left|done].
  - rewrite one_of_elem. split; [by right|intros [?|?]; done].
Qed.

(** A tuple that admits an event of a repository. *)
Definition tuple_admits (event action repository : string) (t : AdmissionTuple) : Prop :=
  tu_Repository t = repository /\ tu_Event t = event /\ (actionless event = true \/ action ∈ tu_Actions t).

(** What a route is configured to publish. *)
Definition route_allows (route : Route) (event action repository : string) : Prop :=
  let a := gr_Admission route in
  (event = "ping" -> gh_PublishPing (gr_GitHub route) = true) /\
  match as_Tuples a with
  | [] => allowed (as_Repositories a) repository /\ allowed (as_Events a) event /\ allowed (as_Actions a) action
  | tuples => exists t, t ∈ tuples /\ tuple_admits event action repository t
  end.

(** An admission that is published. *)
Definition accepted (x : admission) (a : admissionResult) : Prop := x = inl a /\ ar_ignore a = false.

Lemma route_tuples route :
  Route_Validate route = Ok tt -> as_Tuples (gr_Admission route) <> [] ->
  NoDup (map tuple_key (as_Tuples (gr_Admission route))) /\
  Forall (fun t => actionless (tu_Event t) = false -> tu_Actions t <> []) (as_Tuples (gr_Admission route)).
Proof.
  unfold Route_Validate. intros H Hne. open_guards H. destruct (as_Tuples _) as [|t ts] eqn:Et; [done|].
  open_guards H. split.
  - apply (check_each_NoDup id) in H; [done|]. intros seen x Hx. unfold validate_tuple in Hx. open_guards Hx.
    rewrite map_id, <- one_of_elem. cbn [id]. congruence.
  - apply Forall_forall. intros x Hx. apply (check_each_elem _ _ _ x) in H as (seen & Hx'); [|by apply list_elem_of_In].
    unfold validate_tuple in Hx'. open_guards Hx'. intros E. rewrite E in G8. simpl in G8. by split_bools.
Qed.

Lemma tuple_key_same t u :
  tu_Repository t = tu_Repository u -> tu_Event t = tu_Event u -> tuple_key t = tuple_key u.
Proof. unfold tuple_key. congruence. Qed.

Lemma admit_tuples_accepts ping event delivery action repository matched tuples :
  NoDup (map tuple_key tuples) ->
  Forall (fun t => actionless (tu_Event t) = false -> tu_Actions t <> []) tuples ->
  (exists a, accepted (admit_tuples ping event delivery action repository matched tuples) a) <->
  (event = "ping" -> ping = true) /\ exists t, t ∈ tuples /\ tuple_admits event action repository t.
Proof.
  intros Hn Hf. revert matched. induction tuples as [|t ts IH]; intros matched; cbn [admit_tuples].
  { unfold accepted, reject. split; [intros (? & ? & _)|intros (_ & ? & ?%elem_of_nil & _)]; done. }
  inversion Hn as [|? ? Ht Hn']; inversion Hf as [|? ? Ha Hf']; subst. specialize (IH Hn' Hf').
  assert (Hskip : forall m, ~ (tu_Repository t = repository /\ tu_Event t = event) ->
     ((exists a, accepted (admit_tuples ping event delivery action repository m ts) a) <->
      (event = "ping" -> ping = true) /\ exists u, u ∈ t :: ts /\ tuple_admits event action repository u)).
  { intros m Hno. rewrite IH. f_equiv. split; intros (u & Hu & Hadm); exists u; [by split; [right|]|].
    split; [|done]. apply elem_of_cons in Hu as [->|Hu]; [|done]. destruct Hadm as (? & ? & _). tauto. }
  case_bool_decide as Er; cbn [negb]; [|apply Hskip; tauto].
  case_bool_decide as Ee; cbn [negb]; [|apply Hskip; tauto].
  assert (Honly : forall u, u ∈ t :: ts -> tuple_admits event action repository u -> u = t).
  { intros u [->|Hu]%elem_of_cons (Hr & He & _); [done|]. exfalso. apply Ht.
    rewrite (tuple_key_same t u) by congruence. apply list_elem_of_In, in_map. by apply list_elem_of_In. }
  destruct ((event == "ping") && negb ping) eqn:Ep.
  { split_bools. split; [intros (a & [= <-] & Hi); done|]. intros (Hp & _). rewrite Hp in * by done. done. }
  assert (Hping : event = "ping" -> ping = true) by (intros ->; destruct ping; done).
  destruct ((event == "push") || (event == "status")) eqn:Eact.
  { split; [intros _|intros _; by eexists]. split; [done|]. exists t. split; [left|]. split_and!; [done..|by left]. }
  assert (Hact : actionless event = false) by exact Eact.
  destruct (ContainsAllowed (tu_Actions t) action) eqn:Ec.
  - split; [intros _|intros _; by eexists]. split; [done|]. exists t. split; [left|]. split_and!; [done..|]. right.
    apply ContainsAllowed_iff in Ec as [Ec|]; [|done]. exfalso. apply Ha; congruence.
  - split; [intros (a & [= <-] & Hi); done|]. intros (_ & u & Hu & Hadm). exfalso.
    pose proof (Honly u Hu Hadm) as ->. destruct Hadm as (_ & _ & [?|Hin]); [congruence|].
    rewrite (proj2 (ContainsAllowed_iff _ _)) in Ec by (by right). done.
Qed.

Section Admission.
Context `{Environ} (unicode_lower : string -> string).

(** The steps of the enrichment set the object only. *)
Definition same_admission (a b : admissionResult) : Prop :=
  ar_ignore b = ar_ignore a /\ ar_namespace b = ar_namespace a /\ ar_authVerified b = ar_authVerified a /\
  ar_authMethod b = ar_authMethod a /\ ar_event b = ar_event a /\ ar_action b = ar_action a /\
  ar_deliveryID b = ar_deliveryID a.

#[local] Instance same_admission_preorder : PreOrder same_admission.
Proof. split; [by intros a|]. unfold same_admission. intros a b c. intuition congruence. Qed.

Lemma if_present_same {A} (f : A -> admissionResult -> admissionResult) o a :
  (forall x b, same_admission b (f x b)) -> same_admission a (if_present f o a).
Proof. intros Hf. destruct o; simpl; [auto|reflexivity]. Qed.

Lemma enrich_check_same c a : same_admission a (enrich_check c a).
Proof. unfold enrich_check. repeat case_match; repeat split. Qed.

Lemma enrich_same result event p pushed :
  same_admission (result <| ar_namespace := gy_FullName p |> <| ar_authMethod := "github_hmac_sha256" |>
                         <| ar_authVerified := true |>)
    (enrichGitHubAdmission unicode_lower result event p pushed).
Proof.
  unfold enrichGitHubAdmission. cbv zeta.
  match goal with |- same_admission _ (if ?c then ?x <| ar_objectKind := _ |> <| ar_objectID := _ |> <| ar_sourceRevision := _ |> else _) =>
    transitivity x; [|destruct c; repeat split] end.
  do 2 (etransitivity; [|apply if_present_same; apply enrich_check_same]).
  do 3 (etransitivity; [|apply if_present_same; repeat split]).
  unfold enrich_push. case_match; repeat split.
Qed.

Lemma enrich_ignore result event p pushed :
  ar_ignore (enrichGitHubAdmission unicode_lower result event p pushed) = ar_ignore result.
Proof. apply (enrich_same result event p pushed). Qed.

(** A body signed with the secret of its route. *)
Definition signed (r : Request) (route : Route) (body : string) : Prop :=
  VerifySignature (os_Getenv (gh_WebhookSecretEnv (gr_GitHub route))) body (rq_Header r SignatureHeader) = true.

Lemma signed_secret r route body : signed r route body -> os_Getenv (gh_WebhookSecretEnv (gr_GitHub route)) <> "".
Proof. unfold signed, VerifySignature. intros Hs E. rewrite E in Hs. done. Qed.

Lemma admitGitHub_accepts r route body :
  Route_Validate route = Ok tt ->
  (exists a, accepted (admitGitHub unicode_lower r route body) a) <->
  signed r route body /\
  exists p pushed, decode_payload body = Some p /\
    push_identity route (rq_Header r "X-GitHub-Event") p = inl pushed /\
    ci_identity (rq_Header r "X-GitHub-Event") p = true /\
    route_allows route (rq_Header r "X-GitHub-Event") (gy_Action p) (gy_FullName p).
Proof.
  intros HV. pose proof (signed_secret r route body) as Hsec. unfold signed in *.
  set (event := rq_Header r "X-GitHub-Event"). unfold admitGitHub, accepted, reject. cbv zeta. fold event.
  case_bool_decide as Es; [split; [naive_solver|intros (Hs & _); naive_solver]|]. clear Hsec.
  destruct (VerifySignature _ _ _) eqn:Ev; cbn [negb]; [|split; naive_solver].
  destruct (decode_payload body) as [p|] eqn:Ed; [|split; naive_solver].
  destruct (push_identity route event p) as [pushed|e] eqn:Ep; [|split; [by intros (? & ? & _)|intros (_ & q & pq & [= <-] & ? & ? & _); congruence]].
  destruct (ci_identity event p) eqn:Ei; cbn [negb]; [|split; [by intros (? & ? & _)|intros (_ & q & pq & [= <-] & ? & ? & _); congruence]].
  assert (Hex : forall P, (true = true /\ exists q pq, Some p = Some q /\ push_identity route event q = inl pq /\
      ci_identity event q = true /\ P q) <-> P p).
  { intros P. split; [intros (_ & q & pq & [= <-] & _ & _ & ?); done|]. intros HP. split; [done|]. exists p, pushed. done. }
  rewrite (Hex (fun q => route_allows route event (gy_Action q) (gy_FullName q))). clear Hex.
  unfold route_allows. cbv zeta. destruct (as_Tuples (gr_Admission route)) as [|t ts] eqn:Et.
  - rewrite <- !ContainsAllowed_iff.
    destruct (ContainsAllowed (as_Repositories _) _); cbn [negb]; [|split; [by intros (? & ? & _)|by intros (_ & ? & _)]].
    destruct (ContainsAllowed (as_Events _) _); cbn [negb]; [|split; [by intros (? & ? & _)|by intros (_ & _ & ? & _)]].
    destruct ((event == "ping") && _) eqn:Epg.
    { split_bools. split; [intros (a & [= <-] & Hi); done|]. intros (Hp & _). rewrite Hp in * by done. done. }
    assert (event = "ping" -> gh_PublishPing (gr_GitHub route) = true).
    { intros E. destruct (gh_PublishPing _); [done|]. rewrite bool_decide_eq_true_2 in Epg by done. done. }
    destruct (ContainsAllowed (as_Actions _) _); cbn [negb].
    + split; [done|]. intros _. eexists. split; [reflexivity|]. by rewrite enrich_ignore.
    + split; [intros (a & [= <-] & Hi); done|intros (_ & _ & _ & ?); done].
  - destruct (route_tuples route HV) as [Hn Hf]; [by rewrite Et|]. rewrite Et in Hn, Hf.
    rewrite <- (admit_tuples_accepts (gh_PublishPing (gr_GitHub route)) event (rq_Header r "X-GitHub-Delivery")
                  (gy_Action p) (gy_FullName p) false (t :: ts)) by done.
    unfold admitGitHubTuple. rewrite Et. destruct (admit_tuples _ _ _ _ _ _ _) as [x|e]; unfold accepted.
    + split; intros (a & [= <-] & Hi); eexists; (split; [reflexivity|]); by rewrite ?enrich_ignore in *.
    + split; intros (? & ? & _); done.
Qed.

Lemma admit_tuples_fields ping event delivery action repository matched tuples a :
  accepted (admit_tuples ping event delivery action repository matched tuples) a ->
  ar_event a = event /\ ar_deliveryID a = delivery.
Proof.
  unfold accepted, reject. revert matched. induction tuples as [|t ts IH]; intros matched; cbn [admit_tuples]; [naive_solver|].
  repeat case_match; [apply IH|apply IH|intros [[= <-] ?]; done..].
Qed.

Lemma admitGitHub_payload r route body a :
  admitGitHub unicode_lower r route body = inl a -> ar_ignore a = false ->
  signed r route body /\ exists p, decode_payload body = Some p /\ ar_namespace a = gy_FullName p /\
    ar_event a = rq_Header r "X-GitHub-Event" /\ ar_deliveryID a = rq_Header r "X-GitHub-Delivery".
Proof.
  unfold admitGitHub, reject, signed, admitGitHubTuple. cbv zeta. intros Ha Hi.
  case_bool_decide; [done|]. destruct (VerifySignature _ _ _); cbn [negb] in Ha; [|done]. split; [done|].
  destruct (decode_payload body) as [p|]; [|done]. exists p. split; [done|].
  destruct (push_identity _ _ _) as [pushed|]; [|done]. destruct (ci_identity _ _); cbn [negb] in Ha; [|done].
  destruct (as_Tuples _) as [|t ts].
  - repeat case_match; simplify_eq; try done.
    match goal with |- context [enrichGitHubAdmission _ ?x ?e ?q ?t] => destruct (enrich_same x e q t) as (_ & -> & _ & _ & -> & _ & ->) end.
    done.
  - destruct (admit_tuples _ _ _ _ _ _ _) as [x|] eqn:Et; [|done]. simplify_eq.
    destruct (enrich_same x (rq_Header r "X-GitHub-Event") p pushed) as (Hig & -> & _ & _ & -> & _ & ->).
    rewrite enrich_ignore in Hi. split; [done|]. exact (admit_tuples_fields _ _ _ _ _ _ _ x (conj Et Hi)).
Qed.

Lemma handle_published publish id now r route subject signal :
  fst (handleRoute unicode_lower publish id now r route) = Some (subject, signal) <->
  exists body a, readJSONBody r (gr_MaxBodyBytes route) = Some body /\
    accepted (admit_request unicode_lower r route body) a /\
    subject = Subject route /\ signal = signal_of id now route a body.
Proof.
  unfold handleRoute, accepted. cbv zeta.
  destruct (readJSONBody r _) as [body|]; [|split; [done|by intros (? & ? & ? & _)]].
  destruct (admit_request _ _ _ _) as [a|e] eqn:Ea.
  2: { split; [done|]. intros (b & c & [= <-] & [? _] & _). congruence. }
  destruct (ar_ignore a) eqn:Ei.
  { split; [done|]. intros (b & c & [= <-] & [? ?] & _). congruence. }
  destruct (publish _ _); cbn [fst]; (split; [intros [= <- <-]; by exists body, a|]);
    intros (b & c & [= <-] & [? _] & -> & ->); congruence.
Qed.

(** C20: a GitHub route publishes exactly the requests it should: those whose
    body is a JSON object within the bound, signed with the secret of the
    route, carrying the identity its kind of event requires, for a repository,
    event and action the validated route admits; it then publishes the body
    itself, on the subject of the route, under the delivery id of the request. *)
Theorem gateway_publishes_exactly publish id now r route :
  Route_Validate route = Ok tt -> gr_Source route = "github" ->
  (fst (handleRoute unicode_lower publish id now r route) <> None <->
   exists body p pushed,
     readJSONBody r (gr_MaxBodyBytes route) = Some body /\ signed r route body /\
     decode_payload body = Some p /\ push_identity route (rq_Header r "X-GitHub-Event") p = inl pushed /\
     ci_identity (rq_Header r "X-GitHub-Event") p = true /\
     route_allows route (rq_Header r "X-GitHub-Event") (gy_Action p) (gy_FullName p)) /\
  (forall subject signal, fst (handleRoute unicode_lower publish id now r route) = Some (subject, signal) ->
     subject = Subject route /\ Some (sg_Payload signal) = readJSONBody r (gr_MaxBodyBytes route) /\
     len (sg_Payload signal) <= gr_MaxBodyBytes route).
Proof.
  intros HV HS. split.
  - transitivity (exists body, readJSONBody r (gr_MaxBodyBytes route) = Some body /\
                   exists a, accepted (admitGitHub unicode_lower r route body) a).
    + split.
      * destruct (fst (handleRoute _ _ _ _ _ _)) as [[s g]|] eqn:E; [|done]. intros _.
        apply handle_published in E as (body & a & Hb & Ha & _). exists body. split; [done|].
        unfold admit_request in Ha. rewrite HS in Ha. by exists a.
      * intros (body & Hb & a & Ha) Hn.
        assert (E : fst (handleRoute unicode_lower publish id now r route)
                    = Some (Subject route, signal_of id now route a body)); [|congruence].
        apply handle_published. exists body, a. unfold admit_request. rewrite HS. done.
    + setoid_rewrite (admitGitHub_accepts r route _ HV). naive_solver.
  - intros subject signal (body & a & Hb & _ & -> & ->)%handle_published. cbn [sg_Payload signal_of].
    split_and!; [done..|]. unfold readJSONBody in Hb. destruct (rq_Body r); [|done].
    destruct (Z.max 0 _ <? _) eqn:El; [done|]. apply Z.ltb_ge in El.
    assert (0 < gr_MaxBodyBytes route) by (unfold Route_Validate in HV; open_guards HV; split_bools; lia).
    repeat case_match; simplify_eq; lia.
Qed.
End Admission.

(** A signed webhook of a labelled issue. *)
Definition sample_environ : Environ := fun name => if name == "GITHUB_SECRET" then "secret" else "".
Definition sample_body : string :=
  quoted "{'action':'labeled','repository':{'full_name':'octo/repo'},'issue':{'number':7,'updated_at':'2026-07-01T12:30:15Z'},'sender':{'type':'User'}}".
Definition sample_request : Request :=
  mkRequest (fun name =>
    if name == SignatureHeader
    then "sha256=" ++ hex (hmac_sha256 (bytes_of "secret") (bytes_of sample_body))
    else if name == "X-GitHub-Event" then "issues"
    else if name == "X-GitHub-Delivery" then "delivery-1" else "") (Some sample_body).
Abbreviation sample_outcome :=
  (@handleRoute sample_environ id (fun _ _ => true) "signal-1" 0 sample_request sample_route).

Lemma sample_published :
  rp_Status (snd sample_outcome) = StatusAccepted /\
  match fst sample_outcome return Prop with Some (_, s) => sg_Payload s = sample_body | None => False end.
Proof. vm_compute. auto. Qed.

Lemma gateway_publishes_exactly_witness :
  rp_Status (snd sample_outcome) = StatusAccepted /\ @signed sample_environ sample_request sample_route sample_body.
Proof.
  assert (V : Route_Validate sample_route = Ok tt) by (vm_compute; reflexivity).
  pose proof sample_published as [S P]. split; [exact S|]. clear S.
  destruct (@gateway_publishes_exactly sample_environ id (fun _ _ => true) "signal-1" 0 sample_request sample_route V eq_refl)
    as [[Hex _] Hpay].
  destruct (fst sample_outcome) as [[subject signal]|]; [|contradiction P].
  destruct Hex as (body & _ & _ & Hb & Hs & _); [discriminate|].
  destruct (Hpay subject signal eq_refl) as (_ & Hr & _). rewrite Hb in Hr. injection Hr as Hr. rewrite P in Hr.
  rewrite Hr. exact Hs.
Defined.

