(* ===== verification/DispatchInv.v ===== *)
(** * How the dispatcher database evolves

    Every operation of the store only appends rows and rewrites the mutable
    columns of rows it selected.  [db_le] says so table by table: the identity
    columns of a row never change, rows are never removed, unique columns stay
    unique, and what is final (a terminal result, a delivered report, the broker
    run of a job) stays as it is. *)

From S2P Require Import Prelude GoText GoSha256 GoJson GoScan LedgerModel DispatchPolicy DispatchStore Terminal ExternalWait CIRepair.
Open Scope string_scope.
Open Scope Z_scope.
Open Scope go_scope.

(** ** Evolution of one table *)

(** A row property that evolution keeps. *)
Class Keeps {R} (ok : R -> Prop) (le : R -> R -> Prop) : Prop := keeps : forall a b, le a b -> ok a -> ok b.

Section TableLe.
Context {R I : Type} (imm : R -> I) (distinct : I -> I -> Prop) (ok : R -> Prop) (le : R -> R -> Prop)
        `{!PreOrder le} `{!Keeps ok le}.
Implicit Types (t : list R) (r : R).

Definition unique_rows t : Prop := ForallOrdPairs distinct (map imm t).

Definition table_le t t' : Prop :=
  unique_rows t ->
  unique_rows t' /\ exists u new, Forall2 (fun a b => le a b /\ imm a = imm b) t u /\ t' = (u ++ new)%list /\
                  List.Forall ok new.

Lemma Forall2_same t : Forall2 (fun a b => le a b /\ imm a = imm b) t t.
Proof. induction t; constructor; [split; done|done]. Qed.

Lemma table_le_refl t : table_le t t.
Proof. intros U. split; [done|]. exists t, []. rewrite app_nil_r. split_and!; [apply Forall2_same|done|constructor]. Qed.

Lemma Forall2_imm t u : Forall2 (fun a b => le a b /\ imm a = imm b) t u -> map imm u = map imm t.
Proof. induction 1 as [|a b t u [_ E] _ IH]; simpl; congruence. Qed.

Lemma table_le_trans t1 t2 t3 : table_le t1 t2 -> table_le t2 t3 -> table_le t1 t3.
Proof.
  intros H1 H2 U. destruct (H1 U) as [U1 (u & new & F & -> & O1)], (H2 U1) as [U2 (v & new' & G & -> & O2)].
  split; [done|].
  clear H1 H2 U.
  apply Forall2_app_inv_l in G as (v1 & v2 & G1 & G2 & ->).
  exists v1, (v2 ++ new')%list. split_and!; [|by rewrite app_assoc|].
  2: { apply List.Forall_app. split; [|done]. clear -O1 G2 Keeps0. revert O1.
       induction G2 as [|a b t u [Hab _] _ IH]; intros O1; [done|]. inversion O1; subst.
       constructor; [by eapply keeps|auto]. }
  clear U1 U2 G2 O1 O2. revert v1 G1. induction F as [|a b t u [Hab Ei] F IH]; intros v1 G1; inversion G1; subst; constructor.
  - destruct H1. split; [by etrans|congruence].
  - auto.
Qed.

Lemma unique_snoc t r :
  unique_rows t -> (forall x, x ∈ t -> distinct (imm x) (imm r)) -> unique_rows (t ++ [r]).
Proof.
  unfold unique_rows. rewrite map_app. induction t as [|x t IH]; simpl; intros U D.
  - repeat constructor.
  - inversion U as [|? ? Hx Ht]; subst. constructor.
    + apply List.Forall_app. split; [done|]. constructor; [|done]. apply D. left.
    + apply IH; [done|]. intros y Hy. apply D. by right.
Qed.

(** The two ways a statement changes a table. *)
Lemma table_le_update t0 t p f :
  table_le t0 t ->
  (forall r, unique_rows t -> r ∈ t -> p r = true -> imm (f r) = imm r /\ le r (f r)) ->
  table_le t0 (update_where p f t).
Proof.
  intros H Hf. apply (table_le_trans _ _ _ H). intros U. pose proof (fun r => Hf r U) as Hr. clear Hf H. split.
  - unfold unique_rows in *. enough (map imm (update_where p f t) = map imm t) as -> by done.
    unfold update_where. rewrite map_map. apply map_ext_in. intros r Hin%list_elem_of_In.
    destruct (p r) eqn:E; [|done]. by apply Hr.
  - exists (update_where p f t), []. rewrite app_nil_r. split_and!; [|done|constructor]. unfold update_where. clear U.
    induction t as [|r t IH]; simpl; constructor.
    + destruct (p r) eqn:E; [|split; done]. destruct (Hr r ltac:(left) E) as [E1 E2]. split; done.
    + apply IH. intros x Hx. apply Hr. by right.
Qed.

Lemma table_le_insert t0 t r :
  table_le t0 t -> (forall x, x ∈ t -> distinct (imm x) (imm r)) -> ok r -> table_le t0 (t ++ [r]).
Proof.
  intros H D O. apply (table_le_trans _ _ _ H). intros U. split; [by apply unique_snoc|].
  exists t, [r]. split_and!; [apply Forall2_same|done|by constructor].
Qed.

Lemma unique_nil : unique_rows [].
Proof. constructor. Qed.

(** What a client learns: a row is still there, further along. *)
Lemma table_le_row t t' r : table_le t t' -> unique_rows t -> r ∈ t -> exists r', r' ∈ t' /\ imm r' = imm r /\ le r r'.
Proof.
  intros H U Hr. destruct (H U) as [_ (u & new & F & -> & _)]. apply list_elem_of_lookup in Hr as [i Hi].
  destruct (Forall2_lookup_l _ _ _ _ _ F Hi) as (r' & Hr' & Hle & Ei).
  exists r'. split; [|done]. apply elem_of_app. left. by eapply list_elem_of_lookup_2.
Qed.

Lemma table_le_ok t t' : table_le t t' -> unique_rows t -> Forall ok t -> Forall ok t'.
Proof.
  intros H U O. destruct (H U) as [_ (u & new & F & -> & On)]. apply list.Forall_app. split; [|done].
  clear -F O Keeps0. revert O. induction F as [|a b t u [Hab _] _ IH]; intros O; [done|]. inversion O; subst.
  constructor; [by eapply keeps|auto].
Qed.

Lemma unique_rows_spec t r1 r2 :
  Symmetric distinct -> unique_rows t -> r1 ∈ t -> r2 ∈ t -> ~ distinct (imm r1) (imm r2) -> r1 = r2.
Proof.
  intros Sym U. unfold unique_rows in U. induction t as [|x t IH]; intros H1 H2 N; [by apply elem_of_nil in H1|].
  inversion U as [|? ? Hx Ht]; subst. rewrite List.Forall_forall in Hx.
  assert (Hd : forall y, y ∈ t -> distinct (imm x) (imm y)).
  { intros y Hy. apply Hx. apply in_map. by apply list_elem_of_In. }
  apply elem_of_cons in H1 as [->|H1]; apply elem_of_cons in H2 as [->|H2]; try done.
  - exfalso. auto.
  - exfalso. apply N, Sym, Hd, H1.
  - auto.
Qed.

(** A predicate that only one unique row can satisfy counts it once. *)
Lemma count_where_one t p r :
  unique_rows t -> r ∈ t -> p r = true ->
  (forall x y, p x = true -> p y = true -> ~ distinct (imm x) (imm y)) -> count_where p t = 1.
Proof.
  intros U Hr Hp Hd. unfold unique_rows in U. induction t as [|x t IH]; [by apply elem_of_nil in Hr|].
  inversion U as [|? ? Hx Ht]; subst. rewrite List.Forall_forall in Hx. unfold count_where, rows_where in *. simpl.
  destruct (p x) eqn:E.
  - simpl. enough (List.filter p t = []) as -> by done. destruct (List.filter p t) as [|y l] eqn:F; [done|].
    assert (Hy : In y (List.filter p t)) by (rewrite F; by left). apply filter_In in Hy as [Hy Ey].
    exfalso. apply (Hd x y E Ey). apply Hx. by apply in_map.
  - apply IH; [done|]. apply elem_of_cons in Hr as [->|Hr]; [congruence|done].
Qed.
End TableLe.

(** A table that is only appended to. *)
Definition same_row {R} (a b : R) : Prop := a = b.
#[export] Instance same_row_preorder {R} : PreOrder (@same_row R).
Proof. split; [done|]. intros ? ? ? -> ->. done. Qed.

(** The identity columns of a row are a pair of its unique columns and the
    others; two rows differ in every unique column. *)
Definition differ {K I} (a b : K * I) : Prop := a.1 <> b.1.
Definition differ2 {K L I} (a b : K * L * I) : Prop := a.1.1 <> b.1.1 /\ a.1.2 <> b.1.2.
Definition differ3 {K L M I} (a b : K * L * M * I) : Prop :=
  a.1.1.1 <> b.1.1.1 /\ a.1.1.2 <> b.1.1.2 /\ a.1.2 <> b.1.2.
#[export] Instance differ_sym {K I} : Symmetric (@differ K I).
Proof. unfold differ. intros [] [] H. by apply not_eq_sym. Qed.
#[export] Instance differ2_sym {K L I} : Symmetric (@differ2 K L I).
Proof. unfold differ2. intros [[] ?] [[] ?] [H1 H2]. simpl in *. split; by apply not_eq_sym. Qed.
#[export] Instance differ3_sym {K L M I} : Symmetric (@differ3 K L M I).
Proof. unfold differ3. intros [[[] ?] ?] [[[] ?] ?] (H1 & H2 & H3). simpl in *. split_and!; by apply not_eq_sym. Qed.

(** ** Rows *)

(** A job that was not yet launched has no broker run, and a broker run is
    never replaced.  The last three statuses are those of older versions. *)
Definition prelaunch (s : string) : bool :=
  one_of s [StatePendingLaunch; StateLaunchRetry; "pending"; "retry"; "running"].
Definition job_ok (j : job_row) : Prop := prelaunch (j_status j) = true -> j_broker_run_id j = "".
Definition job_imm (j : job_row) :=
  (j_id j, j_semantic_key j, (j_route_id j, j_launch_profile j, j_repository j, j_issue_number j,
                              j_source_delivery_id j, j_created_at j)).
Definition job_le (a b : job_row) : Prop :=
  job_ok a -> job_ok b /\ (j_broker_run_id a <> "" -> j_broker_run_id b = j_broker_run_id a).

Definition delivery_imm (d : delivery_row) := (dl_id d, d).
Definition terminal_imm (t : terminal_row) := (tm_job_id t, t).
Definition outbox_imm (o : outbox_row) :=
  (ob_id o, ob_job_id o, ob_idempotency_key o, (ob_version o, ob_body o, ob_created_at o)).
(** A delivered report is final, and attempts are never forgotten. *)
Definition outbox_le (a b : outbox_row) : Prop :=
  ob_attempts a <= ob_attempts b /\ (ob_status a = "delivered" -> b = a).

Definition run_imm (r : recovery_row) :=
  (rr_id r, (rr_durable r, rr_manifest_sequence r, rr_start_sequence r, rr_started_at r)).

(** A wait moves to a later generation, or forward within its generation. *)
Definition wait_rank (s : string) : Z := if s == "waiting" then 0 else if s == "resume_ready" then 1 else 2.
Definition wait_imm (w : wait_row) := (wr_job_id w, (wr_broker_run_id w, wr_created_at w)).
Definition wait_le (a b : wait_row) : Prop :=
  wr_generation a < wr_generation b \/
  (wr_generation a = wr_generation b /\ wait_rank (wr_state a) <= wait_rank (wr_state b) /\
   wr_resume_key b = wr_resume_key a).

Definition task_imm (t : ci_task_row) :=
  (ct_job_id t, (ct_repository t, ct_issue_number t, ct_pull_number t, ct_branch t, ct_agent_model t,
                 ct_initial_result_json t, ct_created_at t)).
Definition task_le (a b : ci_task_row) : Prop := ct_repair_attempts a <= ct_repair_attempts b.
Definition event_imm (e : ci_event_row) := (ce_delivery_id e, ce_semantic_identity e, e).
Definition operation_imm (r : ci_reconciliation_row) :=
  ((cr_job_id r, cr_head_sha r), (cr_operation_key r, cr_created_at r)).
Definition attempt_imm (a : ci_attempt_row) :=
  (ca_attempt_key a, (ca_job_id a, ca_attempt_number a), (ca_failed_head_sha a, ca_agent_model a, ca_created_at a)).
(** An attempt is charged for good, keeps its broker run, and its wait
    generations only grow. *)
Definition attempt_le (a b : ci_attempt_row) : Prop :=
  (ca_charged a = true -> ca_charged b = true) /\
  (ca_broker_run_id a <> "" -> ca_broker_run_id b = ca_broker_run_id a) /\
  ca_wait_generation a <= ca_wait_generation b /\ ca_resumed_generation a <= ca_resumed_generation b.
Definition escalation_imm (e : escalation_row) := (es_job_id e, es_operation_key e, (es_body e, es_created_at e)).
Definition escalation_le (a b : escalation_row) : Prop :=
  es_attempts a <= es_attempts b /\ (es_state a = "delivered" -> b = a).

#[export] Instance job_le_preorder : PreOrder job_le.
Proof. unfold job_le. split; [intros a; naive_solver|intros a b c H1 H2 Ha]. destruct (H1 Ha) as [Hb E1], (H2 Hb) as [Hc E2]. split; [done|]. intros N. rewrite E2; [auto|]. rewrite E1; auto. Qed.
#[export] Instance outbox_le_preorder : PreOrder outbox_le.
Proof. unfold outbox_le. split; [intros a; split; [lia|done]|intros a b c [? H1] [? H2]]. split; [lia|]. intros Hd. rewrite H2; auto. by rewrite H1. Qed.
#[export] Instance wait_le_preorder : PreOrder wait_le.
Proof. unfold wait_le. split; [intros a; right; split_and!; [done|lia|done]|intros a b c H1 H2]. destruct H1 as [?|(?&?&?)], H2 as [?|(?&?&?)]; try (left; lia). right. split_and!; [congruence|lia|congruence]. Qed.
#[export] Instance task_le_preorder : PreOrder task_le.
Proof. unfold task_le. split; [intros a; lia|intros a b c; lia]. Qed.
#[export] Instance attempt_le_preorder : PreOrder attempt_le.
Proof.
  unfold attempt_le. split; [intros a; split_and!; auto; lia|].
  intros a b c (H1 & H2 & H3 & H4) (K1 & K2 & K3 & K4). split_and!; auto; try lia.
  intros N. rewrite K2; [auto|]. by rewrite H2.
Qed.
#[export] Instance escalation_le_preorder : PreOrder escalation_le.
Proof. unfold escalation_le. split; [intros a; split; [lia|done]|intros a b c [? H1] [? H2]]. split; [lia|]. intros Hd. rewrite H2; auto. by rewrite H1. Qed.

(** A row without further conditions. *)
Definition any_ok {R} (_ : R) : Prop := True.
#[export] Instance any_ok_keeps {R} (le : R -> R -> Prop) : Keeps any_ok le.
Proof. done. Qed.
#[export] Instance job_ok_keeps : Keeps job_ok job_le.
Proof. intros a b H Ha. by apply H. Qed.
Definition outbox_ok (o : outbox_row) : Prop := 0 <= ob_attempts o.
#[export] Instance outbox_ok_keeps : Keeps outbox_ok outbox_le.
Proof. unfold Keeps, outbox_ok, outbox_le. lia. Qed.
Definition wait_ok (w : wait_row) : Prop := 1 <= wr_generation w.
#[export] Instance wait_ok_keeps : Keeps wait_ok wait_le.
Proof. unfold Keeps, wait_ok, wait_le. lia. Qed.

Definition any_le {R} (_ _ : R) : Prop := True.
#[export] Instance any_le_preorder {R} : PreOrder (@any_le R).
Proof. done. Qed.

(** ** The database *)

Record db_le (a b : DB) : Prop := mkDbLe {
  le_deliveries : table_le delivery_imm differ any_ok same_row (deliveries a) (deliveries b);
  le_jobs : table_le job_imm differ2 job_ok job_le (jobs a) (jobs b);
  le_checkpoint : checkpoint a <= checkpoint b;
  le_runs : table_le run_imm differ any_ok any_le (recovery_runs a) (recovery_runs b);
  le_terminals : table_le terminal_imm differ any_ok same_row (terminal_results a) (terminal_results b);
  le_outbox : table_le outbox_imm differ3 outbox_ok outbox_le (notification_outbox a) (notification_outbox b);
  le_waits : table_le wait_imm differ wait_ok wait_le (external_waits a) (external_waits b);
  le_tasks : table_le task_imm differ any_ok task_le (ci_tasks a) (ci_tasks b);
  le_events : table_le event_imm differ2 any_ok same_row (ci_events a) (ci_events b);
  le_operations : table_le operation_imm differ any_ok any_le (ci_reconciliations a) (ci_reconciliations b);
  le_attempts : table_le attempt_imm differ2 any_ok attempt_le (ci_attempts a) (ci_attempts b);
  le_escalations : table_le escalation_imm differ2 any_ok escalation_le (ci_escalations a) (ci_escalations b) }.

Lemma db_le_refl db : db_le db db.
Proof. constructor; try apply table_le_refl; try apply _. lia. Qed.

Lemma db_le_trans a b c : db_le a b -> db_le b c -> db_le a c.
Proof. intros [] []. constructor; try (eapply table_le_trans; [apply _|apply _| |]; eassumption). lia. Qed.

#[export] Instance db_le_preorder : PreOrder db_le.
Proof. split; [exact db_le_refl|exact db_le_trans]. Qed.
