(* ===== verification/DispatchSteps.v ===== *)
(** * Operations of the dispatcher store as steps

    Each operation moves the database up in [db_le]; [store_step] collects them
    and [store_reachable] is what they build from an empty store. *)

From stdpp Require Import relations.
From S2P Require Import Prelude GoText GoSha256 GoJson GoNet GoScan LedgerModel DispatchPolicy DispatchStore Terminal ExternalWait CIRepair DispatchFacts DispatchInv.
Open Scope string_scope.
Open Scope Z_scope.
Open Scope go_scope.

(** ** Automation *)

Create HintDb dle discriminated.

Lemma job_le_keep j j' :
  j_broker_run_id j' = j_broker_run_id j ->
  (prelaunch (j_status j') = true -> prelaunch (j_status j) = true) -> job_le j j'.
Proof. unfold job_le, job_ok. intros -> Hp Hok. split; auto. Qed.

Lemma launchable_prelaunch s : launchable s = true -> prelaunch s = true.
Proof. intros H. by apply (one_of_forall _ _ _ H). Qed.

Lemma job_le_launch j j' :
  launchable (j_status j) = true -> prelaunch (j_status j') = false -> job_le j j'.
Proof.
  unfold job_le, job_ok. intros Hl Hp Hok. rewrite (Hok (launchable_prelaunch _ Hl)). rewrite Hp. done.
Qed.

(** The row condition of an update. *)
Ltac le_row :=
  let r := fresh "r" in let Hp := fresh "Hp" in
  intros r _ _ Hp; split; [reflexivity|];
  first
    [ exact I | reflexivity
    | apply job_le_keep; [reflexivity|simpl; try done; repeat case_match; done]
    | unfold outbox_le, escalation_le, task_le, attempt_le; simpl; split_bools; split_and?; try lia; try done;
      intros; exfalso; unfold sendable, one_of, exists_where in *; naive_solver ].

Ltac le_job :=
  intros; split; [reflexivity|]; apply job_le_keep; [reflexivity|simpl; try done; repeat case_match; done].

Ltac le_task := intros; split; [reflexivity|unfold task_le; simpl; lia].
Ltac le_attempt := intros; split; [reflexivity|unfold attempt_le; simpl; split_and!; auto; lia].

Ltac table_solve :=
  lazymatch goal with
  | |- table_le _ _ _ _ ?t ?t => apply table_le_refl; apply _
  | |- table_le _ _ _ _ _ (update_where _ _ _) => apply table_le_update; [apply _|apply _|table_solve|try le_row]
  | |- table_le _ _ _ _ _ (_ ++ [_])%list => apply table_le_insert; [apply _|apply _|table_solve| |try exact I; try done]
  | |- _ <= _ => simpl; lia
  | |- _ => idtac
  end.

Ltac db_solve := constructor; simpl; table_solve.

Lemma exec_jobs_le p f op db :
  (forall j, p j = true -> job_imm (f j) = job_imm j /\ job_le j (f j)) -> db_le db (exec_jobs p f op db).1.
Proof. intros Hf. unfold exec_jobs. db_solve. auto. Qed.

Lemma exec_attempt_le key state f op db :
  (forall a, attempt_imm (f a) = attempt_imm a /\ attempt_le a (f a)) -> db_le db (exec_attempt key state f op db).1.
Proof. intros Hf. unfold exec_attempt. db_solve. auto. Qed.

Lemma update_job_le id f db db0 :
  db_le db0 db -> (forall j, job_imm (f j) = job_imm j /\ job_le j (f j)) -> db_le db0 (update_job id f db).
Proof. intros H Hf. etrans; [exact H|]. unfold update_job. db_solve. auto. Qed.

Lemma update_task_le id f db db0 :
  db_le db0 db ->
  (forall t, unique_rows task_imm differ (ci_tasks db) -> t ∈ ci_tasks db -> ct_job_id t = id ->
     task_imm (f t) = task_imm t /\ task_le t (f t)) -> db_le db0 (update_task id f db).
Proof. intros H Hf. etrans; [exact H|]. unfold update_task. db_solve. intros r U Hin Hr. split_bools. auto. Qed.

Lemma update_attempt_le key f db db0 :
  db_le db0 db -> (forall a, attempt_imm (f a) = attempt_imm a /\ attempt_le a (f a)) ->
  db_le db0 (update_attempt key f db).
Proof. intros H Hf. etrans; [exact H|]. unfold update_attempt. db_solve. auto. Qed.

Lemma next_rowid_fresh {R} (id : R -> Z) t x : x ∈ t -> id x <> next_rowid id t.
Proof.
  intros Hx. enough (id x < next_rowid id t) by lia. unfold next_rowid.
  induction t as [|y t IH]; [by apply elem_of_nil in Hx|].
  simpl. apply elem_of_cons in Hx as [->|Hx]; [lia|]. specialize (IH Hx). lia.
Qed.

(** Rows without the key [k]. *)
Lemma exists_where_fresh_Z {R} (key : R -> Z) k t :
  exists_where (fun r => key r =? k) t = false -> forall r, r ∈ t -> key r <> k.
Proof. intros H r Hr. by apply Z.eqb_neq, (proj1 (exists_where_false _ _) H r Hr). Qed.

(** ** store.go *)

Lemma OpenStore_le db : db_le db (OpenStore db).
Proof.
  unfold OpenStore, migrate_checkpoint, migrate_blocked, migrate_unreported, migrate_terminal, migrate_succeeded,
    migrate_retry, migrate_pending, requeue_report, set_status. db_solve.
  - intros r _ _ Hp. split; [done|]. apply job_le_keep; [done|intros _]. split_bools. by rewrite Hp.
  - intros r _ _ Hp. split; [done|]. apply job_le_keep; [done|intros _]. by apply (one_of_forall _ _ _ Hp).
Qed.

Lemma insert_job_le c now db db0 : db_le db0 db -> db_le db0 (insert_job c now db).
Proof.
  intros H. etrans; [exact H|]. unfold insert_job. destruct (exists_where _ _) eqn:E; [reflexivity|].
  db_solve. intros x Hx. split; simpl; [by apply next_rowid_fresh|]. by apply (exists_where_fresh _ _ _ E).
Qed.

Lemma record_replayed_le id seq db db' : record_replayed id seq db = Ok db' -> db_le db db'.
Proof.
  unfold record_replayed. case_match; intros HO; open_guards HO; simplify_eq; [db_solve|reflexivity].
Qed.

Lemma record_le rid did o seq c now db : db_le db (record rid did o seq c now db).1.
Proof.
  unfold record. apply transact_preserves; [reflexivity|]. intros [] db' HO. open_guards HO.
  apply bind_ok in HO as (db1 & Hr & HO).
  assert (H1 : db_le db db1).
  { destruct (rid != ""); [by eapply record_replayed_le|]. by simplify_eq. }
  clear Hr. assert (Ha : forall d, db_le db d -> db_le db (advance seq d)).
  { intros d Hd. etrans; [exact Hd|]. unfold advance. db_solve. }
  cbv zeta in HO. destruct (_ && _) eqn:E; simplify_eq; apply Ha; [done|].
  assert (H2 : db_le db (if did != ""
    then db1 <| deliveries := (deliveries db1 ++ [mkDeliveryRow did o (nullable match c with Some c0 => SemanticKey c0 | None => "" end) seq (UnixMilli now)])%list |>
    else db1)).
  { etrans; [exact H1|]. destruct (did != "") eqn:Ed; [|reflexivity]. simpl in E. db_solve.
    intros x Hx. by apply (exists_where_fresh _ _ _ E). }
  destruct c; [by apply insert_job_le|done].
Qed.

Lemma BeginRecovery_le id d m now db : db_le db (BeginRecovery id d m now db).1.
Proof.
  unfold BeginRecovery. repeat case_match; simpl; try reflexivity. db_solve.
  intros x Hx. simpl. match goal with E : negb _ = true |- _ => apply negb_true_iff in E; by apply (exists_where_fresh _ _ _ E) end.
Qed.

Lemma FailRecovery_le id m db : db_le db (FailRecovery id m db).1.
Proof. unfold FailRecovery. db_solve. Qed.

Lemma PrepareRecoveryJobs_le id db : db_le db (PrepareRecoveryJobs id db).1.
Proof.
  unfold PrepareRecoveryJobs. apply transact_preserves; [reflexivity|]. intros l db' HO.
  apply bind_ok in HO as (run & _ & HO). apply bind_ok in HO as (db1 & H1 & HO). simplify_eq.
  case_match; open_guards H1; simplify_eq; [db_solve|reflexivity].
Qed.

Lemma RecordReconciliation_le id job b s now db : db_le db (RecordReconciliation id job b s now db).1.
Proof.
  unfold RecordReconciliation. apply transact_preserves; [reflexivity|]. intros [] db' HO. open_guards HO.
  case_match; [by simplify_eq|]. apply bind_ok in HO as (db1 & H1 & HO). open_guards HO. simplify_eq.
  repeat case_match; open_guards H1; simplify_eq; db_solve.
Qed.

Lemma CompleteRecovery_le id n now db : db_le db (CompleteRecovery id n now db).1.
Proof. unfold CompleteRecovery. case_match; simpl; [reflexivity|]. db_solve. Qed.

Lemma ClaimDue_le now db : db_le db (ClaimDue now db).1.
Proof.
  unfold ClaimDue. apply transact_preserves; [reflexivity|]. intros w db' HO.
  repeat case_match; simplify_eq; try reflexivity; db_solve.
Qed.

Lemma MarkLaunched_le id run due now db : db_le db (MarkLaunched id run due now db).1.
Proof.
  unfold MarkLaunched. case_match; [reflexivity|]. apply exec_jobs_le. intros j Hp. split_bools.
  split; [done|]. by apply job_le_launch.
Qed.

Lemma MarkLaunchFailure_le id retry due m now db : db_le db (MarkLaunchFailure id retry due m now db).1.
Proof.
  unfold MarkLaunchFailure. apply exec_jobs_le. intros j Hp. split_bools. split; [done|].
  apply job_le_keep; [done|intros _]. by apply launchable_prelaunch.
Qed.

Lemma MarkStatus_le id due m now db : db_le db (MarkStatus id StateLaunched due m now db).1.
Proof. unfold MarkStatus. apply exec_jobs_le. le_job. Qed.

Lemma pollable_not_prelaunch s : pollable s = true -> prelaunch s = false.
Proof. intros H. apply negb_true_iff. by apply (one_of_forall (fun x => negb (prelaunch x)) _ _ H). Qed.

Lemma MarkPreOutboxFailure_le id s due m now db : db_le db (MarkPreOutboxFailure id s due m now db).1.
Proof.
  unfold MarkPreOutboxFailure. destruct (pollable s) eqn:E; simpl; [|reflexivity].
  apply exec_jobs_le with (op := "mark pre-outbox failure") (db := db). intros j Hp. split; [done|].
  apply job_le_keep; [done|]. simpl. by rewrite pollable_not_prelaunch.
Qed.

Lemma DeferReportPending_le id due now db : db_le db (DeferReportPending id due now db).1.
Proof. unfold DeferReportPending. apply exec_jobs_le. le_job. Qed.

(** ** terminal.go *)

Lemma insert_terminal_le row db db' : insert_terminal row db = Ok db' -> db_le db db'.
Proof.
  unfold insert_terminal, has_terminal. destruct (exists_where _ (terminal_results db)) eqn:E; intros HO; [by simplify_eq|].
  open_guards HO. simplify_eq. db_solve. intros x Hx. by apply (exists_where_fresh_Z _ _ _ E).
Qed.

Lemma insert_outbox_le id v b k now db db' : insert_outbox id v b k now db = Ok db' -> db_le db db'.
Proof.
  unfold insert_outbox, has_outbox. destruct (exists_where _ (notification_outbox db)) eqn:E; intros HO; [by simplify_eq|].
  open_guards HO. simplify_eq. db_solve. intros x Hx. split; [|split]; simpl.
  - by apply next_rowid_fresh.
  - by apply (exists_where_fresh_Z _ _ _ E).
  - by apply (exists_where_fresh _ _ _ G).
Qed.

Section WithURL.
Context `{NetURL}.

Lemma QueueTerminalResult_le job r now db : db_le db (QueueTerminalResult job r now db).1.
Proof.
  unfold QueueTerminalResult. apply transact_preserves; [reflexivity|]. intros [] db' HO. open_guards HO.
  apply bind_ok in HO as (body & _ & HO). apply bind_ok in HO as (db1 & H1 & HO).
  apply bind_ok in HO as (t & _ & HO). open_guards HO. apply bind_ok in HO as (db2 & H2 & HO).
  apply bind_ok in HO as (o & _ & HO). open_guards HO. simplify_eq.
  etrans; [by eapply insert_terminal_le|]. etrans; [by eapply insert_outbox_le|]. db_solve.
Qed.

Lemma QueueLaunchFailure_le job reason now db : db_le db (QueueLaunchFailure job reason now db).1.
Proof. apply QueueTerminalResult_le. Qed.

Lemma QueuePreOutboxFailure_le job stage reason now db : db_le db (QueuePreOutboxFailure job stage reason now db).1.
Proof. apply QueueTerminalResult_le. Qed.

Lemma ReconcileFailedLaunch_le id run r execute now db : db_le db (ReconcileFailedLaunch id run r execute now db).1.
Proof.
  unfold ReconcileFailedLaunch. apply transact_preserves; [reflexivity|]. intros a db' HO. open_guards HO.
  apply bind_ok in HO as (j & _ & HO). open_guards HO. apply bind_ok in HO as (body & _ & HO).
  case_match; open_guards HO; simplify_eq; [reflexivity|]. db_solve.
Qed.
End WithURL.

Lemma MarkReportDelivered_le r id url now db : db_le db (MarkReportDelivered r id url now db).1.
Proof.
  unfold MarkReportDelivered. apply transact_preserves; [reflexivity|]. intros [] db' HO. cbv zeta in HO. open_guards HO.
  apply bind_ok in HO as (t & _ & HO). open_guards HO. simplify_eq. db_solve.
  - intros j _ _ Hp. split; [done|]. apply job_le_keep; [done|]. simpl. unfold reported_state. by repeat case_match.
  - intros o _ _ Hp. split; [done|]. split; [simpl; lia|]. intros E. split_bools. by rewrite E in *.
Qed.

Lemma MarkReportFailure_le r retry safe now db : db_le db (MarkReportFailure r retry safe now db).1.
Proof.
  unfold MarkReportFailure. apply transact_preserves; [reflexivity|]. intros [] db' HO. cbv zeta in HO. open_guards HO.
  simplify_eq. db_solve.
  intros o _ _ Hp. split; [done|]. split; [simpl; lia|]. intros E. split_bools. by rewrite E in *.
Qed.

Lemma ReconcileBlockedReport_le id run key execute now db : db_le db (ReconcileBlockedReport id run key execute now db).1.
Proof.
  unfold ReconcileBlockedReport. apply transact_preserves; [reflexivity|]. intros a db' HO. open_guards HO.
  apply bind_ok in HO as ([[j t] o] & _ & HO). open_guards HO.
  case_match; open_guards HO; simplify_eq; [reflexivity|]. db_solve.
  intros x _ _ Hp. split; [done|]. split; [simpl; lia|]. intros E. split_bools. congruence.
Qed.

(** ** external_wait.go *)

(** The row found by a unique column is the row of that column. *)
Lemma found_row {R I} (imm : R -> I) (distinct : I -> I -> Prop) `{!Symmetric distinct} (p : R -> bool) t r x :
  unique_rows imm distinct t -> first_where p t = Some r -> x ∈ t -> p x = true ->
  (p x = true -> p r = true -> ~ distinct (imm x) (imm r)) -> x = r.
Proof.
  intros U E Hx Hp D. apply first_where_Some in E as [Hr Hpr].
  eapply unique_rows_spec; eauto.
Qed.

Lemma valid_wait_generation wait u : CIExternalWait_Validate wait = Ok u -> 1 <= ew_Generation wait.
Proof. unfold CIExternalWait_Validate. intros HV. open_guards HV. split_bools. lia. Qed.

Lemma RecordRepositoryRunExternalWait_le policy job wait now db :
  db_le db (RecordRepositoryRunExternalWait policy job wait now db).1.
Proof.
  unfold RecordRepositoryRunExternalWait. apply transact_preserves; [reflexivity|]. intros s db' HO. open_guards HO.
  cbv zeta in HO. apply bind_ok in HO as ([s1 db1] & H1 & HO). simplify_eq.
  enough (db_le db db1) as H2 by (etrans; [exact H2|]; db_solve).
  destruct (first_where _ (external_waits db)) as [w|] eqn:E.
  - open_guards H1. destruct (ew_Generation wait =? wr_generation w) eqn:Eg; open_guards H1; simplify_eq; [reflexivity|].
    db_solve. intros x U Hx Hp. split; [done|]. left. simpl. split_bools.
    assert (x = w) as ->; [|lia]. eapply (found_row wait_imm differ _ _ _ _ U E Hx); simpl; [lia|].
    unfold differ. simpl. lia.
  - open_guards H1. simplify_eq. db_solve; [|by eapply valid_wait_generation].
    intros x Hx. unfold differ. simpl. rewrite first_where_None in E. apply E in Hx. lia.
Qed.

Lemma RecordRepositoryRunExternalWake_le signal now db : db_le db (RecordRepositoryRunExternalWake signal now db).1.
Proof.
  unfold RecordRepositoryRunExternalWake. repeat case_match; simpl; try reflexivity. db_solve.
  intros w _ _ Hp. split; [done|]. right. simpl. split_bools. split_and!; try done.
  unfold wait_rank. by destruct (wr_state w == "waiting"), (wr_state w == "resume_ready").
Qed.

Lemma DeferRepositoryRunExternalResume_le job due failure now db :
  db_le db (DeferRepositoryRunExternalResume job due failure now db).1.
Proof. unfold DeferRepositoryRunExternalResume. apply exec_jobs_le. le_job. Qed.

Lemma resume_wait_le now w : wr_state w = "resume_ready" -> wait_le w (resume_wait now w).
Proof. intros E. right. simpl. by rewrite E. Qed.

Lemma MarkRepositoryRunExternalResumed_le wait now db : db_le db (MarkRepositoryRunExternalResumed wait now db).1.
Proof.
  unfold MarkRepositoryRunExternalResumed. apply transact_preserves; [reflexivity|]. intros [] db' HO.
  cbv zeta in HO. open_guards HO. simplify_eq. db_solve.
  intros w _ _ Hp. split; [done|]. split_bools. by apply resume_wait_le.
Qed.

Lemma ReconcileRepositoryRunExternalResume_le job now db : db_le db (ReconcileRepositoryRunExternalResume job now db).1.
Proof.
  unfold ReconcileRepositoryRunExternalResume. apply transact_preserves; [reflexivity|]. intros [] db' HO.
  cbv zeta in HO. open_guards HO. simplify_eq. db_solve.
  intros w _ _ Hp. split; [done|]. split_bools. by apply resume_wait_le.
Qed.

(** ** ci_repair.go *)

Lemma append_task_le r db db0 :
  db_le db0 db -> exists_where (fun t => ct_job_id t =? ct_job_id r) (ci_tasks db) = false ->
  db_le db0 (db <| ci_tasks := (ci_tasks db ++ [r])%list |>).
Proof. intros H E. etrans; [exact H|]. db_solve. intros x Hx. by apply (exists_where_fresh_Z _ _ _ E). Qed.

Lemma operation_fresh id head w due created now t :
  exists_where (same_operation id head) t = false ->
  forall x, x ∈ t -> differ (operation_imm x) (operation_imm (new_reconciliation id head w due created now)).
Proof.
  intros E x Hx. unfold differ. simpl. intros [= E1 E2].
  rewrite exists_where_false in E. apply E in Hx. unfold same_operation in Hx. rewrite E1, E2, Z.eqb_refl in Hx.
  by rewrite bool_decide_eq_true_2 in Hx.
Qed.

Lemma append_operation_le id head w due created now db :
  exists_where (same_operation id head) (ci_reconciliations db) = false ->
  db_le db (db <| ci_reconciliations := (ci_reconciliations db ++ [new_reconciliation id head w due created now])%list |>).
Proof. intros E. db_solve. by apply operation_fresh. Qed.

Lemma BeginCIWait_le job pull branch head model deadline now initial db :
  db_le db (BeginCIWait job pull branch head model deadline now initial db).1.
Proof.
  unfold BeginCIWait. apply transact_preserves; [reflexivity|]. intros [] db' HO. open_guards HO.
  apply bind_ok in HO as (db1 & H1 & HO). apply bind_ok in HO as (t & _ & HO). open_guards HO. simplify_eq.
  assert (L1 : db_le db db1).
  { destruct (exists_where _ (ci_tasks db)) eqn:E; [by simplify_eq|]. open_guards H1. simplify_eq.
    by apply append_task_le. }
  etrans; [exact L1|]. clear L1 H1 G G0.
  destruct (exists_where _ (ci_reconciliations _)) eqn:E; db_solve. by apply operation_fresh.
Qed.

Lemma queue_reconciliation_le id head now db : db_le db (queue_reconciliation id head now db).
Proof.
  unfold queue_reconciliation. destruct (exists_where _ _) eqn:E; [|by apply append_operation_le]. db_solve.
Qed.

Lemma wake_task_le head now t db : db_le db (wake_task head now t db).1.
Proof.
  unfold wake_task. case_match; simpl; [|apply queue_reconciliation_le]. db_solve.
Qed.

Lemma wake_tasks_le head now ts db : db_le db (wake_tasks head now ts db).1.
Proof.
  revert db. induction ts as [|t ts IH]; intros db; [reflexivity|]. cbn [wake_tasks].
  pose proof (wake_task_le head now t db) as H1. destruct (wake_task head now t db) as [db1 q1].
  specialize (IH db1). destruct (wake_tasks head now ts db1) as [db2 q2]. simpl in *. by etrans.
Qed.

Lemma RecordCIEvent_le signal now db : db_le db (RecordCIEvent signal now db).1.
Proof.
  unfold RecordCIEvent. do 2 (case_match; [reflexivity|]). apply transact_preserves; [reflexivity|]. intros q db' HO.
  apply bind_ok in HO as (pull & _ & HO). cbv zeta in HO. destruct (exists_where _ (ci_events db)) eqn:E; [by simplify_eq|].
  match type of HO with context [wake_tasks ?h ?n ?ts ?d] =>
    pose proof (wake_tasks_le h n ts d) as H1; destruct (wake_tasks h n ts d) as [db2 q2] end.
  simplify_eq. etrans; [|exact H1]. db_solve. rewrite exists_where_false in E.
  intros x Hx. specialize (E x Hx). simpl in E. split_bools. by split.
Qed.

Lemma deadline_wake_le now t db : db_le db (deadline_wake now t db).
Proof. unfold deadline_wake. destruct (exists_where _ _) eqn:E; [db_solve|by apply append_operation_le]. Qed.

Lemma fold_le {A} (f : DB -> A -> DB) (l : list A) db :
  (forall d a, db_le d (f d a)) -> db_le db (fold_left f l db).
Proof. intros Hf. revert db. induction l as [|a l IH]; intros db; simpl; [reflexivity|]. etrans; [apply Hf|apply IH]. Qed.

Lemma ClaimCIReconciliation_le now db : db_le db (ClaimCIReconciliation now db).1.
Proof.
  unfold ClaimCIReconciliation. etrans; [apply (fold_le (fun d t => deadline_wake now t d)); intros; apply deadline_wake_le|].
  repeat case_match; simpl; try reflexivity. db_solve.
Qed.

Lemma queueCIEscalation_le id o n m reason now db db' : queueCIEscalation id o n m reason now db = Ok db' -> db_le db db'.
Proof.
  unfold queueCIEscalation. intros HO. apply bind_ok in HO as (body & _ & HO). apply bind_ok in HO as (db1 & H1 & HO).
  simplify_eq. apply update_job_le; [apply update_task_le|]; [|le_task|le_job].
  destruct (exists_where _ (ci_escalations db)) eqn:E; [by simplify_eq|]. open_guards H1. simplify_eq. db_solve.
  split_bools. intros x Hx. split; simpl; [by apply (exists_where_fresh_Z _ _ _ E)|by eapply exists_where_fresh].
Qed.

Lemma FailCIReconciliation_le policy work failure retry now db :
  db_le db (FailCIReconciliation policy work failure retry now db).1.
Proof.
  unfold FailCIReconciliation. do 2 (case_match; [try reflexivity; db_solve|]).
  apply transact_preserves; [reflexivity|]. intros [] db' HO. open_guards HO.
  case_match; simplify_eq; [db_solve|].
  apply bind_ok in HO as (db1 & Hq & HO). simplify_eq. etrans; [|by eapply queueCIEscalation_le]. db_solve.
Qed.

(** A fresh attempt is unique by key and by number. *)
Lemma insert_ci_attempt_le a db db' : insert_ci_attempt a db = Ok db' -> db_le db db'.
Proof.
  unfold insert_ci_attempt. intros HO. open_guards HO. simplify_eq. db_solve. split_bools.
  match goal with E : exists_where _ _ = false |- _ => rewrite exists_where_false in E; intros x Hx; specialize (E x Hx) end.
  simpl in *. split_bools. split; simpl; [done|]. intros [= E1 E2]. rewrite E1, E2, !Z.eqb_refl in *. done.
Qed.

Lemma schedule_repair_le policy id n head model now db db' :
  schedule_repair policy id n head model now db = Ok db' -> db_le db db'.
Proof.
  unfold schedule_repair. intros HO. apply bind_ok in HO as (db1 & H1 & HO). simplify_eq.
  apply update_job_le; [apply update_task_le|]; [|le_task|le_job].
  case_match; [by simplify_eq|by eapply insert_ci_attempt_le].
Qed.

Lemma ApplyCIObservation_le policy work o m now db : db_le db (ApplyCIObservation policy work o m now db).1.
Proof.
  unfold ApplyCIObservation. apply transact_preserves; [reflexivity|]. intros [] db' HO. open_guards HO.
  apply bind_ok in HO as (t & _ & HO). destruct (settled _); [by simplify_eq|].
  match type of HO with context [update_task _ (fun t => t <| ct_last_ci_state := _ |> <| _ := _ |> <| _ := _ |>) ?d] =>
    assert (L1 : db_le db d) end.
  { destruct (ct_current_head_sha t != ob_HeadSHA o); [apply update_task_le; [|le_task]|];
      unfold close_reconciliation; db_solve. }
  match type of L1 with db_le _ ?d => generalize dependent d; intros db1 HO L1 end.
  match type of HO with context [update_task ?i ?f db1] =>
    assert (L2 : db_le db (update_task i f db1)) by (apply update_task_le; [done|le_task]);
    generalize dependent (update_task i f db1); intros db2 HO L2 end.
  cbv zeta in HO. repeat case_match; try (apply bind_ok in HO as (db3 & H3 & HO)); simplify_eq.
  all: try (etrans; [exact L2|]; first [by eapply queueCIEscalation_le | by eapply schedule_repair_le]).
  all: apply update_job_le; [apply update_task_le|]; [done|le_task|le_job].
Qed.

Lemma store_seconds_le policy a now db : db_le db (store_seconds policy a now db).
Proof. unfold store_seconds. case_match; [|reflexivity]. db_solve. Qed.

Lemma ClaimCIRepair_le policy now db : db_le db (ClaimCIRepair policy now db).1.
Proof. unfold ClaimCIRepair. repeat case_match; try reflexivity. apply store_seconds_le. Qed.

Lemma ClaimCIRepairStatus_le policy now db : db_le db (ClaimCIRepairStatus policy now db).1.
Proof.
  unfold ClaimCIRepairStatus. repeat case_match; try reflexivity.
  match goal with |- context [store_seconds policy ?a now db] =>
    etrans; [apply (store_seconds_le policy a now db)|]; generalize (store_seconds policy a now db) end.
  intros db1. db_solve.
Qed.

(** The attempt a key finds. *)
Lemma found_attempt key db a x :
  unique_rows attempt_imm differ2 (ci_attempts db) -> find_attempt key db = Ok a -> x ∈ ci_attempts db ->
  ca_attempt_key x = key -> x = a.
Proof.
  unfold find_attempt, of_option. intros U E Hx Hk. case_match eqn:F; simplify_eq.
  eapply (found_row attempt_imm differ2 _ _ _ _ U F Hx); [by apply bool_decide_eq_true|].
  intros E1 E2. split_bools. intros [N _]. simpl in N. congruence.
Qed.

Lemma BindCIRepairRun_le attempt run now db : db_le db (BindCIRepairRun attempt run now db).1.
Proof.
  unfold BindCIRepairRun. apply transact_preserves; [reflexivity|]. intros [] db' HO. open_guards HO.
  apply bind_ok in HO as (a & Ha & HO). open_guards HO. simplify_eq. db_solve.
  intros x U Hx Hp. split; [done|]. simpl in Hp. apply andb_true_iff in Hp as [Hk _]. split_bools.
  pose proof (found_attempt _ _ _ _ U Ha Hx Hk) as ->. unfold attempt_le. simpl. split_and!; auto; try lia.
  intros N. apply andb_false_iff in G0 as [G0|G0]; split_bools; congruence.
Qed.

Lemma DeferCIRepairLaunch_le key due failure now db : db_le db (DeferCIRepairLaunch key due failure now db).1.
Proof. unfold DeferCIRepairLaunch. case_match; [reflexivity|]. apply exec_attempt_le. le_attempt. Qed.

Lemma DeferCIRepairStatus_le key due failure now db : db_le db (DeferCIRepairStatus key due failure now db).1.
Proof. unfold DeferCIRepairStatus. case_match; [reflexivity|]. apply exec_attempt_le. le_attempt. Qed.

Lemma ScheduleCIRepairStatus_le key due now db : db_le db (ScheduleCIRepairStatus key due now db).1.
Proof. unfold ScheduleCIRepairStatus. case_match; [reflexivity|]. apply exec_attempt_le. le_attempt. Qed.

Lemma RecordCIRepairExternalWait_le attempt wait now db : db_le db (RecordCIRepairExternalWait attempt wait now db).1.
Proof.
  unfold RecordCIRepairExternalWait. apply transact_preserves; [reflexivity|]. intros k db' HO. open_guards HO.
  apply bind_ok in HO as (a & Ha & HO). open_guards HO. case_match; open_guards HO; simplify_eq; [reflexivity|]. db_solve.
  intros x U Hx Hp. split; [done|]. simpl in Hp. apply andb_true_iff in Hp as [Hk _]. split_bools.
  pose proof (found_attempt _ _ _ _ U Ha Hx Hk) as ->. unfold attempt_le. simpl. split_and!; auto; lia.
Qed.

Lemma MarkCIRepairExternalResumed_le key resume gen due now db :
  db_le db (MarkCIRepairExternalResumed key resume gen due now db).1.
Proof.
  unfold MarkCIRepairExternalResumed. case_match; simpl; [reflexivity|]. db_solve.
Qed.

Lemma found_task id db t x :
  unique_rows task_imm differ (ci_tasks db) -> find_task id db = Ok t -> x ∈ ci_tasks db -> ct_job_id x = id -> x = t.
Proof.
  unfold find_task, of_option. intros U E Hx Hk. case_match eqn:F; simplify_eq.
  eapply (found_row task_imm differ _ _ _ _ U F Hx); [lia|]. unfold differ. simpl. lia.
Qed.

Lemma charge_failure_le key id t started charged m now db n db' :
  find_task id db = Ok t -> charge_failure key t started charged m now db = Ok (n, db') -> db_le db db'.
Proof.
  intros Ht. unfold charge_failure. case_match; intros HO; open_guards HO; simplify_eq; [|reflexivity].
  apply update_task_le; [apply update_attempt_le; [reflexivity|le_attempt]|].
  intros x U Hx Hid. split; [done|]. unfold task_le. simpl. simpl in U, Hx.
  assert (Hi : ct_job_id t = id).
  { unfold find_task, of_option in Ht. case_match eqn:F; simplify_eq. apply first_where_Some in F as [_ F]. lia. }
  rewrite Hi in Hid. pose proof (found_task _ _ _ _ U Ht Hx Hid) as ->. lia.
Qed.

Lemma FinishCIRepairFailure_le policy attempt class started detail m now db :
  db_le db (FinishCIRepairFailure policy attempt class started detail m now db).1.
Proof.
  unfold FinishCIRepairFailure. apply transact_preserves; [reflexivity|]. intros [] db' HO. open_guards HO.
  apply bind_ok in HO as (a & Ha & HO). apply bind_ok in HO as (t & Ht & HO).
  case_match; open_guards HO; [by simplify_eq|]. apply bind_ok in HO as ([n db1] & Hc & HO).
  apply charge_failure_le with (id := ca_job_id a) in Hc; [|done]. cbv zeta in HO.
  match type of HO with context [update_attempt ?k ?f db1] =>
    assert (L1 : db_le db (update_attempt k f db1)) by (apply update_attempt_le; [done|le_attempt]);
    generalize dependent (update_attempt k f db1); intros db2 HO L1 end.
  etrans; [exact L1|]. destruct (_ || _ || _ || _).
  - destruct (negb started); apply bind_ok in HO as (db3 & Hq & HO); simplify_eq; by eapply queueCIEscalation_le.
  - apply bind_ok in HO as (db3 & Hi & HO). simplify_eq.
    apply update_job_le; [apply update_task_le|]; [by eapply insert_ci_attempt_le|le_task|le_job].
Qed.

Lemma ChargeCIRepairAttempt_le key now db : db_le db (ChargeCIRepairAttempt key now db).1.
Proof.
  unfold ChargeCIRepairAttempt. apply transact_preserves; [reflexivity|]. intros [] db' HO.
  apply bind_ok in HO as (a & Ha & HO). open_guards HO. case_match; [by simplify_eq|]. open_guards HO. simplify_eq.
  db_solve.
Qed.

Lemma CompleteCIRepairDelivery_le policy key d now db : db_le db (CompleteCIRepairDelivery policy key d now db).1.
Proof.
  unfold CompleteCIRepairDelivery. apply transact_preserves; [reflexivity|]. intros [] db' HO. open_guards HO.
  apply bind_ok in HO as (a & Ha & HO). open_guards HO. case_match; open_guards HO; simplify_eq; [reflexivity|].
  apply update_job_le; [apply update_task_le; [apply update_attempt_le; [reflexivity|le_attempt]|le_task]|le_job].
Qed.

Lemma MarkCIEscalationDelivered_le `{NetURL} r result now db : db_le db (MarkCIEscalationDelivered r result now db).1.
Proof.
  unfold MarkCIEscalationDelivered. apply transact_preserves; [reflexivity|]. intros [] db' HO. open_guards HO. simplify_eq.
  apply update_job_le; [db_solve|le_job].
  intros e _ _ Hp. split; [done|]. split; [simpl; lia|]. intros E. unfold pending_escalation in Hp. split_bools. congruence.
Qed.

Lemma MarkCIEscalationFailure_le r retry message now db : db_le db (MarkCIEscalationFailure r retry message now db).1.
Proof.
  unfold MarkCIEscalationFailure. apply transact_preserves; [reflexivity|]. intros [] db' HO. open_guards HO.
  assert (Hrow : forall f e, pending_escalation r e = true -> es_attempts e <= es_attempts (f e) -> escalation_le e (f e)).
  { intros f e Hp La. split; [done|]. intros E. unfold pending_escalation in Hp. split_bools. congruence. }
  destruct (retry && _); simplify_eq; [db_solve|apply update_job_le; [db_solve|le_job]];
    intros e _ _ Hp; (split; [done|]); eapply (Hrow (fun _ => _)); [done|simpl; lia|done|simpl; lia].
Qed.

(** ** Steps

    One constructor per operation of the store, with any arguments; the only
    status the program passes to [MarkStatus] is [launched]. *)

Section Steps.
Context `{NetURL}.

Inductive store_step : DB -> DB -> Prop :=
  | step_open db : store_step db (OpenStore db)
  | step_record rid did o seq c now db : store_step db (record rid did o seq c now db).1
  | step_begin_recovery id d m now db : store_step db (BeginRecovery id d m now db).1
  | step_fail_recovery id m db : store_step db (FailRecovery id m db).1
  | step_prepare_recovery id db : store_step db (PrepareRecoveryJobs id db).1
  | step_record_reconciliation id job b s now db : store_step db (RecordReconciliation id job b s now db).1
  | step_complete_recovery id n now db : store_step db (CompleteRecovery id n now db).1
  | step_claim_due now db : store_step db (ClaimDue now db).1
  | step_launched id run due now db : store_step db (MarkLaunched id run due now db).1
  | step_launch_failure id retry due m now db : store_step db (MarkLaunchFailure id retry due m now db).1
  | step_status id due m now db : store_step db (MarkStatus id StateLaunched due m now db).1
  | step_pre_outbox id s due m now db : store_step db (MarkPreOutboxFailure id s due m now db).1
  | step_defer_report id due now db : store_step db (DeferReportPending id due now db).1
  | step_terminal job r now db : store_step db (QueueTerminalResult job r now db).1
  | step_launch_failed job reason now db : store_step db (QueueLaunchFailure job reason now db).1
  | step_projection_failed job stage reason now db : store_step db (QueuePreOutboxFailure job stage reason now db).1
  | step_report_delivered r id url now db : store_step db (MarkReportDelivered r id url now db).1
  | step_report_failure r retry safe now db : store_step db (MarkReportFailure r retry safe now db).1
  | step_unblock_report id run key execute now db : store_step db (ReconcileBlockedReport id run key execute now db).1
  | step_adopt_launch id run r execute now db : store_step db (ReconcileFailedLaunch id run r execute now db).1
  | step_external_wait policy job wait now db : store_step db (RecordRepositoryRunExternalWait policy job wait now db).1
  | step_external_wake signal now db : store_step db (RecordRepositoryRunExternalWake signal now db).1
  | step_defer_resume job due failure now db : store_step db (DeferRepositoryRunExternalResume job due failure now db).1
  | step_resumed wait now db : store_step db (MarkRepositoryRunExternalResumed wait now db).1
  | step_reconcile_resume job now db : store_step db (ReconcileRepositoryRunExternalResume job now db).1
  | step_begin_ci job pull branch head model deadline now initial db : store_step db (BeginCIWait job pull branch head model deadline now initial db).1
  | step_ci_event signal now db : store_step db (RecordCIEvent signal now db).1
  | step_claim_reconciliation now db : store_step db (ClaimCIReconciliation now db).1
  | step_fail_reconciliation policy work failure retry now db : store_step db (FailCIReconciliation policy work failure retry now db).1
  | step_observation policy work o m now db : store_step db (ApplyCIObservation policy work o m now db).1
  | step_claim_repair policy now db : store_step db (ClaimCIRepair policy now db).1
  | step_bind_repair attempt run now db : store_step db (BindCIRepairRun attempt run now db).1
  | step_defer_repair key due failure now db : store_step db (DeferCIRepairLaunch key due failure now db).1
  | step_claim_repair_status policy now db : store_step db (ClaimCIRepairStatus policy now db).1
  | step_repair_wait attempt wait now db : store_step db (RecordCIRepairExternalWait attempt wait now db).1
  | step_repair_resumed key resume gen due now db : store_step db (MarkCIRepairExternalResumed key resume gen due now db).1
  | step_defer_repair_status key due failure now db : store_step db (DeferCIRepairStatus key due failure now db).1
  | step_schedule_repair key due now db : store_step db (ScheduleCIRepairStatus key due now db).1
  | step_repair_failure policy attempt class started detail m now db : store_step db (FinishCIRepairFailure policy attempt class started detail m now db).1
  | step_charge key now db : store_step db (ChargeCIRepairAttempt key now db).1
  | step_repair_delivery policy key d now db : store_step db (CompleteCIRepairDelivery policy key d now db).1
  | step_escalation_delivered r result now db : store_step db (MarkCIEscalationDelivered r result now db).1
  | step_escalation_failure r retry message now db : store_step db (MarkCIEscalationFailure r retry message now db).1.

#[local] Hint Resolve OpenStore_le record_le BeginRecovery_le FailRecovery_le PrepareRecoveryJobs_le RecordReconciliation_le
  CompleteRecovery_le ClaimDue_le MarkLaunched_le MarkLaunchFailure_le MarkStatus_le
  MarkPreOutboxFailure_le DeferReportPending_le QueueTerminalResult_le QueueLaunchFailure_le
  QueuePreOutboxFailure_le MarkReportDelivered_le MarkReportFailure_le ReconcileBlockedReport_le
  ReconcileFailedLaunch_le RecordRepositoryRunExternalWait_le RecordRepositoryRunExternalWake_le
  DeferRepositoryRunExternalResume_le MarkRepositoryRunExternalResumed_le
  ReconcileRepositoryRunExternalResume_le BeginCIWait_le RecordCIEvent_le ClaimCIReconciliation_le
  FailCIReconciliation_le ApplyCIObservation_le ClaimCIRepair_le BindCIRepairRun_le
  DeferCIRepairLaunch_le ClaimCIRepairStatus_le RecordCIRepairExternalWait_le
  MarkCIRepairExternalResumed_le DeferCIRepairStatus_le ScheduleCIRepairStatus_le
  FinishCIRepairFailure_le ChargeCIRepairAttempt_le CompleteCIRepairDelivery_le
  MarkCIEscalationDelivered_le MarkCIEscalationFailure_le : dle.

Lemma store_step_le db db' : store_step db db' -> db_le db db'.
Proof. destruct 1; auto with dle. Qed.

Lemma store_steps_le db db' : rtc store_step db db' -> db_le db db'.
Proof. induction 1 as [|a b c Hs _ IH]; [reflexivity|]. etrans; [by apply store_step_le|done]. Qed.

(** Every database the store can be in. *)
Definition store_reachable (db : DB) : Prop := rtc store_step empty_db db.

Record db_unique (db : DB) : Prop := mkDbUnique {
  unique_deliveries : unique_rows delivery_imm differ (deliveries db);
  unique_jobs : unique_rows job_imm differ2 (jobs db);
  unique_runs : unique_rows run_imm differ (recovery_runs db);
  unique_terminals : unique_rows terminal_imm differ (terminal_results db);
  unique_outbox : unique_rows outbox_imm differ3 (notification_outbox db);
  unique_waits : unique_rows wait_imm differ (external_waits db);
  unique_tasks : unique_rows task_imm differ (ci_tasks db);
  unique_events : unique_rows event_imm differ2 (ci_events db);
  unique_operations : unique_rows operation_imm differ (ci_reconciliations db);
  unique_attempts : unique_rows attempt_imm differ2 (ci_attempts db);
  unique_escalations : unique_rows escalation_imm differ2 (ci_escalations db) }.

Lemma db_le_unique db db' : db_le db db' -> db_unique db -> db_unique db'.
Proof.
  intros [] []. constructor.
  all: match goal with L : table_le ?i ?d _ _ _ ?t' |- unique_rows ?i ?d ?t' => by apply L end.
Qed.

Lemma reachable_unique db : store_reachable db -> db_unique db.
Proof. intros H1%store_steps_le. eapply db_le_unique; [exact H1|]. constructor; constructor. Qed.

Lemma reachable_rows_ok db :
  store_reachable db ->
  Forall job_ok (jobs db) /\ Forall outbox_ok (notification_outbox db) /\ Forall wait_ok (external_waits db).
Proof.
  intros H1%store_steps_le. split_and!.
  - eapply table_le_ok; [apply _|apply H1|constructor|constructor].
  - eapply table_le_ok; [apply _|apply H1|constructor|constructor].
  - eapply table_le_ok; [apply _|apply H1|constructor|constructor].
Qed.

Lemma reachable_steps db db' : store_reachable db -> rtc store_step db db' -> store_reachable db'.
Proof. unfold store_reachable. intros. by etrans. Qed.

End Steps.
