(* ===== verification/LoopFacts.v ===== *)
(** * The loop as steps of the store

    Every program of the loop changes the database only through operations of
    the store, and the calls it makes are accounted for. *)

From stdpp Require Import relations.
From S2P Require Import Prelude GoText GoSha256 GoJson GoNet LedgerModel Envelope DispatchPolicy DispatchStore Terminal ExternalWait CIRepair DispatchLoop DispatchFacts DispatchInv DispatchSteps.
Open Scope string_scope.
Open Scope Z_scope.
Open Scope go_scope.

(** Steps are recognised by the name of their operation. *)
#[local] Opaque OpenStore record BeginRecovery FailRecovery PrepareRecoveryJobs RecordReconciliation CompleteRecovery
  ClaimDue MarkLaunched MarkLaunchFailure MarkStatus MarkPreOutboxFailure DeferReportPending QueueTerminalResult
  QueueLaunchFailure QueuePreOutboxFailure MarkReportDelivered MarkReportFailure ReconcileBlockedReport
  ReconcileFailedLaunch RecordRepositoryRunExternalWait RecordRepositoryRunExternalWake
  DeferRepositoryRunExternalResume MarkRepositoryRunExternalResumed ReconcileRepositoryRunExternalResume BeginCIWait
  RecordCIEvent ClaimCIReconciliation FailCIReconciliation ApplyCIObservation ClaimCIRepair BindCIRepairRun
  DeferCIRepairLaunch ClaimCIRepairStatus RecordCIRepairExternalWait MarkCIRepairExternalResumed DeferCIRepairStatus
  ScheduleCIRepairStatus FinishCIRepairFailure ChargeCIRepairAttempt CompleteCIRepairDelivery
  MarkCIEscalationDelivered MarkCIEscalationFailure.

Section Facts.
Context `{NetURL}.

(** [follows P m]: [m] takes the database along steps of the store and appends
    calls that satisfy [P]. *)
Definition follows {A} (P : call -> Prop) (m : prog A) : Prop :=
  forall w, rtc store_step (w_db w) (w_db (m w).1) /\
            exists cs, w_trace (m w).1 = (w_trace w ++ cs)%list /\ Forall (fun x => P x.2) cs.

Lemma follows_calls {A} P (m : prog A) w : follows P m -> exists cs, w_calls (m w).1 = (w_calls w ++ cs)%list /\ Forall P cs.
Proof.
  intros Hm. destruct (Hm w) as [_ (cs & C & F)]. exists (map snd cs). unfold w_calls. rewrite C, map_app. split; [done|]. by apply Forall_map.
Qed.

Lemma follows_still {A} P (m : prog A) : (forall w, (m w).1 = w) -> follows P m.
Proof. intros Hm w. rewrite Hm. split; [reflexivity|]. exists []. by rewrite app_nil_r. Qed.

Lemma follows_ret {A} P (a : A) : follows P (mret a).
Proof. by apply follows_still. Qed.

Lemma follows_lift {A} P (r : res A) : follows P (lift r).
Proof. by apply follows_still. Qed.

Lemma follows_bind {A B} P (m : prog A) (f : A -> prog B) :
  follows P m -> (forall a, follows P (f a)) -> follows P (m ≫= f).
Proof.
  intros Hm Hf w. unfold mbind, prog_bind. destruct (Hm w) as [S1 (cs & C1 & F1)].
  destruct (m w) as [w1 [a| |]]; simpl in *; [|by eauto..].
  destruct (Hf a w1) as [S2 (cs2 & C2 & F2)]. split; [by etrans|].
  exists (cs ++ cs2)%list. rewrite C2, C1, app_assoc. split; [done|]. by apply Forall_app.
Qed.

Lemma follows_store {A} P (f : DB -> DB * res A) :
  (forall db, rtc store_step db (f db).1) -> follows P (store f).
Proof.
  intros Hf w. specialize (Hf (w_db w)). unfold store. destruct (f (w_db w)) as [db r]. simpl in *.
  split; [done|]. exists []. by rewrite app_nil_r.
Qed.

Lemma follows_claim {A} P (f : DB -> DB * A) : (forall db, rtc store_step db (f db).1) -> follows P (claim f).
Proof.
  intros Hf w. specialize (Hf (w_db w)). unfold claim. destruct (f (w_db w)) as [db r]. simpl in *.
  split; [done|]. exists []. by rewrite app_nil_r.
Qed.

Lemma follows_ask {A} (P : call -> Prop) c (answer : bres A) : P c -> follows P (ask c answer).
Proof. intros Hc w. split; [reflexivity|]. exists [(w_db w, c)]. split; [done|]. by constructor. Qed.

Lemma follows_weaken {A} (P Q : call -> Prop) (m : prog A) : (forall c, P c -> Q c) -> follows P m -> follows Q m.
Proof.
  intros HPQ Hm w. destruct (Hm w) as [S1 (cs & C1 & F1)]. split; [done|]. exists cs. split; [done|].
  rewrite list.Forall_forall in F1 |- *. auto.
Qed.

(** One operation is one step. *)
Lemma one_step db db' : store_step db db' -> rtc store_step db db'.
Proof. apply rtc_once. Qed.

(** Calls that launch nothing, and calls that only read. *)
Definition no_launch (c : call) : Prop := match c with CLaunch _ => False | _ => True end.
Definition reads (c : call) : Prop := match c with CStatus _ | CTerminal _ => True | _ => False end.

Lemma follows_reads {A} (m : prog A) : follows reads m -> follows no_launch m.
Proof. apply follows_weaken. by intros []. Qed.

Ltac follow :=
  repeat first
    [ apply follows_ret | apply follows_lift
    | apply follows_bind; [|intros ?]
    | apply follows_ask; exact I
    | apply follows_store; intros ?; apply one_step; constructor
    | apply follows_claim; intros ?; first [apply one_step; constructor | reflexivity]
    | progress cbv zeta
    | case_bool_decide; [subst|]
    | case_match ].

Context (policy : CIRepairPolicy) (broker : BrokerClient).

Lemma reconcilePreOutboxFailure_reads job s stage failure retryable now :
  follows reads (reconcilePreOutboxFailure job s stage failure retryable now).
Proof. unfold reconcilePreOutboxFailure. follow. Qed.

Lemma project_terminal_reads job now : follows reads (project_terminal policy broker job now).
Proof. unfold project_terminal. follow; apply reconcilePreOutboxFailure_reads. Qed.

Lemma ReconcileStatusResult_reads job result now : follows reads (ReconcileStatusResult policy broker job result now).
Proof.
  unfold ReconcileStatusResult. follow; first [apply reconcilePreOutboxFailure_reads | apply project_terminal_reads].
Qed.

Lemma ReconcileStatusFailure_reads job failure now : follows reads (ReconcileStatusFailure job failure now).
Proof. unfold ReconcileStatusFailure. follow. Qed.

Lemma resume_run_follows job wait now : follows no_launch (resume_run broker job wait now).
Proof. unfold resume_run. follow. Qed.

Lemma runStatus_follows job now : follows no_launch (runStatus policy broker job now).
Proof.
  unfold runStatus. follow; first [apply resume_run_follows | apply follows_reads;
    first [apply reconcilePreOutboxFailure_reads | apply ReconcileStatusFailure_reads | apply ReconcileStatusResult_reads]].
Qed.

Lemma deferOrFailCIRepairStatus_follows attempt failure now :
  follows no_launch (deferOrFailCIRepairStatus policy attempt failure now).
Proof. unfold deferOrFailCIRepairStatus, finish_failure. follow. Qed.

Lemma repair_waiting_follows task attempt wait now : follows no_launch (repair_waiting broker task attempt wait now).
Proof. unfold repair_waiting. follow. Qed.

Lemma repair_terminal_follows task attempt now : follows no_launch (repair_terminal policy broker task attempt now).
Proof. unfold repair_terminal, finish_failure. follow; apply deferOrFailCIRepairStatus_follows. Qed.

Lemma runCIRepairStatus_follows task attempt now :
  follows no_launch (runCIRepairStatus policy broker task attempt now).
Proof.
  unfold runCIRepairStatus, finish_failure. follow; first [apply deferOrFailCIRepairStatus_follows
    | apply repair_waiting_follows | apply repair_terminal_follows].
Qed.

Lemma deliver_escalation_follows report now : follows no_launch (deliver_escalation broker report now).
Proof. unfold deliver_escalation. follow. Qed.

Lemma observe_reconciliation_follows work now : follows no_launch (observe_reconciliation policy broker work now).
Proof. unfold observe_reconciliation. follow. Qed.

Lemma launch_repair_follows task attempt now : follows no_launch (launch_repair policy broker task attempt now).
Proof. unfold launch_repair, finish_failure. follow. Qed.

Lemma deliver_report_follows report now : follows no_launch (deliver_report broker report now).
Proof. unfold deliver_report. follow. Qed.

(** ** Launches

    [launches now m]: [m] follows the store, and a launch is its only call,
    made for the job that the queue handed out. *)

Definition claimed (now : Z) (db db1 : DB) (job : Job) : Prop :=
  exists db0, rtc store_step db db0 /\ ClaimDue now db0 = (db1, Ok (Some (mkWork WorkLaunch job))).

Definition in_window (now : Z) (job : Job) : Prop :=
  jb_FirstAttemptAt job = ZeroTime \/ now < jb_FirstAttemptAt job + LaunchRetryWindow.

(** The calls of a step, when one of them is a launch: the launch alone, on the database as the claim of its job left it. *)
Definition launch_only (now : Z) (db db' : DB) (cs : list (DB * call)) : Prop :=
  forall db1 job, (db1, CLaunch job) ∈ cs ->
    cs = [(db1, CLaunch job)] /\ claimed now db db1 job /\ rtc store_step db1 db' /\ in_window now job.

Definition launches (now : Z) (m : prog bool) : Prop :=
  forall w, rtc store_step (w_db w) (w_db (m w).1) /\
    exists cs, w_trace (m w).1 = (w_trace w ++ cs)%list /\ launch_only now (w_db w) (w_db (m w).1) cs.

Lemma launch_only_none now db db' cs : Forall (fun x => no_launch x.2) cs -> launch_only now db db' cs.
Proof. intros F db1 job Hin. rewrite list.Forall_forall in F. by apply F in Hin. Qed.

Lemma follows_launches now (m : prog bool) : follows no_launch m -> launches now m.
Proof.
  intros Hm w. destruct (Hm w) as [S1 (cs & C1 & F1)]. split; [done|]. exists cs. split; [done|]. by apply launch_only_none.
Qed.

Lemma claimed_steps now db db' db1 job : rtc store_step db db' -> claimed now db' db1 job -> claimed now db db1 job.
Proof. intros S1 (db0 & S2 & E). exists db0. split; [by etrans|done]. Qed.

(** A claim that finds nothing hands over to the next phase. *)
Lemma launches_claim {A} now (f : DB -> DB * A) (k : A -> prog bool) :
  (forall db, rtc store_step db (f db).1) -> (forall a, launches now (k a)) -> launches now (claim f ≫= k).
Proof.
  intros Hf Hk w. specialize (Hf (w_db w)). unfold mbind, prog_bind, claim.
  destruct (f (w_db w)) as [db a]. simpl in *.
  destruct (Hk a (w <| w_db := db |>)) as [S1 (cs & C1 & L1)]. simpl in *. split; [by etrans|]. exists cs. split; [done|].
  intros db1 job Hin. destruct (L1 db1 job Hin) as (E & C & W). split_and!; [done|by eapply claimed_steps|apply W..].
Qed.

Lemma worked_follows P (m : prog unit) : follows P m -> follows P (worked m).
Proof. intros Hm. apply follows_bind; [done|]. intros. apply follows_ret. Qed.

(** The calls of [launch_job]: at most the launch, inside the window, before anything else happens to the database. *)
Lemma launch_job_calls job now w :
  rtc store_step (w_db w) (w_db (launch_job broker job now w).1) /\
  exists cs, w_trace (launch_job broker job now w).1 = (w_trace w ++ cs)%list /\
    (cs = [] \/ cs = [(w_db w, CLaunch job)] /\ in_window now job).
Proof.
  assert (Hs : forall (f : DB -> DB * res unit) v, (forall db, store_step db (f db).1) ->
    rtc store_step (w_db v) (w_db (store f v).1) /\ w_trace (store f v).1 = w_trace v).
  { intros f v Hf. specialize (Hf (w_db v)). unfold store. destruct (f (w_db v)). split; [by apply one_step|done]. }
  unfold launch_job. cbv zeta. destruct (_ && _) eqn:E.
  { destruct (Hs (QueueLaunchFailure job "launch retry window exhausted" now) w) as [S1 T1]; [constructor|].
    split; [exact S1|]. exists []. rewrite app_nil_r. auto. }
  assert (W : in_window now job).
  { apply andb_false_iff in E as [E|E]; split_bools; [by left|right; lia]. }
  unfold mbind, prog_bind, ask. set (v := w <| w_trace := _ |>).
  assert (Hk : forall f : DB -> DB * res unit, (forall db, store_step db (f db).1) ->
    rtc store_step (w_db w) (w_db (store f v).1) /\
    exists cs, w_trace (store f v).1 = (w_trace w ++ cs)%list /\ (cs = [] \/ cs = [(w_db w, CLaunch job)] /\ in_window now job)).
  { intros f Hf. destruct (Hs f v Hf) as [S1 T1]. split; [exact S1|]. exists [(w_db w, CLaunch job)]. rewrite T1. auto. }
  destruct (Launch broker job) as [run|failure]; [|case_match]; apply Hk; constructor.
Qed.

Lemma store_bind {A B} (f : DB -> DB * res A) (k : A -> prog B) w :
  (store f ≫= k) w =
    match (f (w_db w)).2 with
    | Ok a => k a (w <| w_db := (f (w_db w)).1 |>)
    | Err e => (w <| w_db := (f (w_db w)).1 |>, Err e)
    | Panic => (w <| w_db := (f (w_db w)).1 |>, Panic)
    end.
Proof. unfold mbind, prog_bind, store. destruct (f (w_db w)) as [db [a| |]]; done. Qed.

Lemma run_job_launches now : launches now (run_job policy broker now).
Proof.
  intros w. unfold run_job. rewrite store_bind.
  assert (S1 : rtc store_step (w_db w) (ClaimDue now (w_db w)).1) by (apply one_step; constructor).
  destruct (ClaimDue now (w_db w)) as [db1 r] eqn:Ec. cbn [fst snd] in *.
  destruct r as [[[kind job]|]|e|]; simpl.
  2-4: split; [done|]; exists []; rewrite app_nil_r; split; [done|]; by apply launch_only_none.
  set (v := mkWorld _ _).
  assert (Hf : forall m : prog bool, follows no_launch m ->
    rtc store_step (w_db w) (w_db (m v).1) /\ exists cs, w_trace (m v).1 = (w_trace w ++ cs)%list /\ launch_only now (w_db w) (w_db (m v).1) cs).
  { intros m Hm. destruct (Hm v) as [S2 (cs & C & F)]. split; [by etrans|]. exists cs. split; [done|]. by apply launch_only_none. }
  destruct kind; [|case_match; apply Hf, worked_follows; [|apply runStatus_follows]].
  - clear Hf. unfold worked, mbind, prog_bind. destruct (launch_job_calls job now v) as [S2 (cs & C & L)].
    assert (HL : launch_only now (w_db w) (w_db (launch_job broker job now v).1) cs).
    { intros db2 j Hj. destruct L as [->|[-> W]]; [by apply elem_of_nil in Hj|]. apply list_elem_of_singleton in Hj. injection Hj as -> ->.
      split_and!; [done|by exists (w_db w)|exact S2|exact W]. }
    destruct (launch_job broker job now v) as [v' [u| |]]; simpl in *; (split; [by etrans|]); exists cs; done.
  - apply follows_store. intros. apply one_step. constructor.
Qed.

Lemma RunOne_launches now : launches now (RunOne policy broker now).
Proof.
  unfold RunOne, run_escalation, run_repairs, run_report.
  repeat first
    [ apply run_job_launches
    | apply launches_claim; [intros; first [apply one_step; constructor | reflexivity]|intros ?]
    | apply follows_launches, worked_follows;
      first [apply deliver_escalation_follows | apply observe_reconciliation_follows | apply launch_repair_follows
            | apply runCIRepairStatus_follows | apply deliver_report_follows]
    | case_match ].
Qed.

(** Processing a delivery is made of steps as well. *)
Lemma process_steps routes delivery now rid term db :
  rtc store_step db (process routes delivery now rid term db).1.1.
Proof.
  unfold process. destruct (d_StreamSequence delivery) as [seq|e|]; simpl; try reflexivity.
  destruct (seq =? 0); [reflexivity|]. destruct (Unmarshal_signal _) as [signal|]; [|reflexivity].
  set (r1 := if _ && _ then RecordCIEvent signal now db else (db, Ok false)).
  assert (S1 : rtc store_step db r1.1) by (unfold r1; case_match; [apply one_step; constructor|reflexivity]).
  destruct r1 as [db1 [b1|e1|]]; simpl in *; try done.
  set (r2 := if routeOwnsRepository _ _ then RecordRepositoryRunExternalWake signal now db1 else (db1, Ok false)).
  assert (S2 : rtc store_step db r2.1).
  { etrans; [exact S1|]. unfold r2; case_match; [apply one_step; constructor|reflexivity]. }
  destruct r2 as [db2 [b2|e2|]]; simpl in *; try done. destruct (Select signal routes) as [selected outcome].
  set (r3 := if rid == "" then _ else _).
  assert (S3 : rtc store_step db r3.1).
  { etrans; [exact S2|]. unfold r3, Record_, RecordRecovery. repeat case_match; try reflexivity; apply one_step; constructor. }
  destruct r3 as [db3 [b3|e3|]]; simpl in *; try done. by destruct (d_AckSync delivery) as [[]|e|].
Qed.

End Facts.
