(* ===== verification/BrokerFacts.v ===== *)
(** * What the broker client guarantees

    How an exchange with the broker is classified, which answers reach the
    dispatcher, and that a launch is identified by its route, repository, issue
    and profile alone. *)

From S2P Require Import Prelude GoText GoSha256 GoJson GoNet LedgerModel LedgerModelFacts Envelope DispatchPolicy Config DispatchStore Terminal CIRepair DispatchLoop DispatchFacts Broker.
From Stdlib Require Import Ascii.
Open Scope string_scope.
Open Scope Z_scope.
Open Scope go_scope.

#[local] Arguments one_of : simpl never.
#[local] Arguments take_str : simpl never.
#[local] Arguments TrimSpace : simpl never.
#[local] Arguments sha256_hex : simpl never.

(** ** Early returns *)

Lemma refuse_ok c m : refuse c m = inl tt <-> c = false.
Proof. by destruct c. Qed.

Lemma bbind_ok {A B} (m : bres A) (f : A -> bres B) b :
  (m ≫= f) = inl b <-> exists a, m = inl a /\ f a = inl b.
Proof. destruct m; unfold mbind, bres_bind; naive_solver. Qed.

(** Turn an answer [refuse; call; ...; inl x = inl a] into its conditions. *)
Ltac open_answer H :=
  repeat match type of H with
  | (refuse _ _ ≫= _) = inl _ =>
      let G := fresh "G" in let u := fresh "u" in
      apply bbind_ok in H as (u & G & H); destruct u; apply refuse_ok in G
  | refuse _ _ = inl _ => apply refuse_ok in H
  | (let _ := _ in _) = inl _ => progress cbv zeta in H
  | (_ ≫= _) = inl _ =>
      let G := fresh "G" in let x := fresh "x" in apply bbind_ok in H as (x & G & H)
  end.

(** ** Exchanges *)

(** The reply of an exchange within its bound. *)
Definition within (limit : Z) (reply : http_reply) (status : Z) (body : string) : Prop :=
  reply = Reply status body None /\ len body <= limit.

(** The transport, or the body before its bound, failed. *)
Definition transport_failed (limit : Z) (reply : http_reply) : Prop :=
  match reply with
  | TransportError _ => True
  | Reply _ body read_error => len body <= limit /\ read_error <> None
  end.

Section Client.
Context `{HttpClient} `{GoUnicode}.

Lemma len_take n s : 0 <= n <= len s -> len (take_str (Z.to_nat n) s) = n.
Proof. unfold len. intros Hn. rewrite take_str_length. lia. Qed.

(** C24: an exchange succeeds exactly on a 2xx reply whose body is within the
    bound and decodes; every failure is a broker error, and it is retryable
    exactly when the transport failed, or the broker refused with 429, a
    server error or the code [profile_busy]: an oversized or malformed answer
    never is. *)
Theorem exchange_classified {A} req destination (decode : string -> option A) limit :
  0 <= limit ->
  (forall a, doJSONLimit req destination decode limit = inl a <->
     exists status body, within limit (http_Do req) status body /\ 200 <= status < 300 /\ decode body = Some a) /\
  (forall e, doJSONLimit req destination decode limit = inr e ->
     (exists b, e = BrokerErr b) /\
     (IsRetryable e = true <->
        transport_failed limit (http_Do req) \/
        exists status body, within limit (http_Do req) status body /\ (status < 200 \/ 300 <= status) /\
          (status = 429 \/ 500 <= status \/ fst (structuredBrokerError body) = "profile_busy"))).
Proof.
  intros Hl. unfold doJSONLimit, within, transport_failed, ReadAll_limit.
  destruct (http_Do req) as [text|status body err].
  { split; [intros a; split; [done|intros (? & ? & [? _] & _); done]|].
    intros e [= <-]. split; [eauto|]. split; [by left|done]. }
  destruct (limit + 1 <=? len body) eqn:E; split_bools.
  { rewrite len_take by lia. rewrite (proj2 (Z.ltb_lt limit (limit + 1))) by lia. split.
    - intros a. split; [done|]. intros (? & ? & [[= <- <- _] ?] & _). lia.
    - intros e [= <-]. split; [eauto|]. split; [done|].
      intros [[? _]|(? & ? & [[= <- <- _] ?] & _)]; lia. }
  destruct err as [text|].
  { split; [intros a; split; [done|intros (? & ? & [[=] _] & _)]|].
    intros e [= <-]. split; [eauto|]. split; [left; split; [lia|done]|done]. }
  rewrite (proj2 (Z.ltb_ge limit (len body))) by lia.
  destruct ((status <? 200) || (300 <=? status)) eqn:Es.
  { destruct (structuredBrokerError body) as [cd msg] eqn:Ec. split.
    - intros a. split; [done|]. intros (? & ? & [[= <- <-] _] & ? & _).
      apply orb_true_iff in Es as [?|?]; split_bools; lia.
    - intros e [= <-]. split; [eauto|]. unfold IsRetryable, Retryable; cbn [be_Transport be_Status be_Code].
      rewrite !orb_true_iff, Z.eqb_eq, Z.leb_le, bool_decide_eq_true. split.
      + intros Hr. right. exists status, body. rewrite Ec. cbn [fst].
        split_and!; [done|lia|apply orb_true_iff in Es as [?|?]; split_bools; lia|naive_solver].
      + intros [[_ []]|(? & ? & [[= <- <-] _] & _ & Hr)]; [done|]. rewrite Ec in Hr. cbn [fst] in Hr. naive_solver. }
  split_bools. split.
  - intros a. split.
    + destruct (decode body) eqn:Ed; [|done]. intros [= <-]. exists status, body. split_and!; try done; lia.
    + intros (? & ? & [[= <- <-] _] & _ & ->). done.
  - intros e He. destruct (decode body) eqn:Ed; [done|]. injection He as <-. split; [eauto|].
    split; [done|]. intros [[_ []]|(? & ? & [[= <- <-] _] & ? & _)]; [done|lia].
Qed.
End Client.

(** ** The identity of a launch *)

(** A colon cuts off the text after the last one. *)
Lemma last_colon_inj a b p q :
  no_colon p = true -> no_colon q = true -> a ++ ":" ++ p = b ++ ":" ++ q -> a = b /\ p = q.
Proof.
  intros Hp Hq. revert b. induction a as [|c a IH]; intros [|d b] E; cbn [String.append] in E.
  - by simplify_eq.
  - injection E as <- ->. unfold no_colon in Hp. rewrite all_chars_app in Hp. by apply andb_true_iff in Hp as [_ ?].
  - injection E as -> <-. unfold no_colon in Hq. rewrite all_chars_app in Hq. by apply andb_true_iff in Hq as [_ ?].
  - injection E as -> E. destruct (IH b E) as [-> ->]. done.
Qed.

Lemma sapp_inj_r (a b s : string) : a ++ s = b ++ s -> a = b.
Proof. intros E. by apply sapp_inj_len in E as [-> _]. Qed.

Lemma fmt_d_no_colon z : no_colon (fmt_d z) = true.
Proof.
  assert (D : forall n, 0 <= n -> no_colon (dec_nonneg n) = true).
  { intros n Hn. destruct (dec_nonneg_shape n Hn) as [Hd _]. revert Hd. apply all_chars_impl.
    clear. by intros [[] [] [] [] [] [] [] []]. }
  unfold fmt_d. destruct (z <? 0) eqn:E; split_bools; [|by apply D]. cbn. apply D. lia.
Qed.

Lemma validName_no_colon s : validName s = true -> no_colon s = true.
Proof.
  destruct s as [|c s]; [done|]. unfold validName, no_colon. cbn [all_chars]. intros Hv. split_bools.
  apply andb_true_intro. split.
  - match goal with X : is_alnum c = true |- _ => revert X end. clear. by destruct c as [[] [] [] [] [] [] [] []].
  - match goal with X : all_chars _ s = true |- _ => revert X end. apply all_chars_impl. clear.
    by intros [[] [] [] [] [] [] [] []].
Qed.

Lemma key_parts r1 r2 repo1 repo2 n1 n2 p1 p2 :
  validName r1 = true -> validName r2 = true -> validName p1 = true -> validName p2 = true ->
  r1 ++ ":" ++ repo1 ++ ":issue:" ++ fmt_d n1 ++ ":" ++ p1 = r2 ++ ":" ++ repo2 ++ ":issue:" ++ fmt_d n2 ++ ":" ++ p2 ->
  r1 = r2 /\ repo1 = repo2 /\ n1 = n2 /\ p1 = p2.
Proof.
  intros H1 H2 H3 H4 E. apply (f_equal (cut_at ":")) in E.
  assert (C : forall a rest, no_colon a = true -> cut_at ":" (a ++ ":" ++ rest) = Some (a, rest))
    by (intros; by apply cut_at_app).
  rewrite !C in E by (by apply validName_no_colon). injection E as -> E. split; [done|].
  assert (S : forall repo n p, repo ++ ":issue:" ++ fmt_d n ++ ":" ++ p = ((repo ++ ":issue") ++ ":" ++ fmt_d n) ++ ":" ++ p)
    by (intros; by rewrite !sapp_assoc).
  assert (E1 : ((repo1 ++ ":issue") ++ ":" ++ fmt_d n1) ++ ":" ++ p1 = ((repo2 ++ ":issue") ++ ":" ++ fmt_d n2) ++ ":" ++ p2)
    by (rewrite <- !S; exact E).
  clear E S. rename E1 into E. apply last_colon_inj in E as [E ->]; [|by apply validName_no_colon..].
  apply last_colon_inj in E as [E En]; [|apply fmt_d_no_colon..]. apply sapp_inj_r in E as ->.
  by apply fmt_d_inj in En as ->.
Qed.

(** The identity the broker must see: a task on an issue, under a profile. *)
Definition same_task (j1 j2 : Job) : Prop :=
  jb_RouteID j1 = jb_RouteID j2 /\ jb_Repository j1 = jb_Repository j2 /\ jb_IssueNumber j1 = jb_IssueNumber j2 /\
  jb_Profile j1 = jb_Profile j2.

(** Two jobs send the broker the same launch request, header for header and
    byte for byte, when they are the same task, however often it was delivered
    or its job row recreated; and they share the idempotency key only then. *)
Theorem launch_request_identity `{HttpClient} `{GoUnicode} `{NetURL} b j1 j2 :
  validName (jb_RouteID j1) = true -> validName (jb_Profile j1) = true ->
  validName (jb_RouteID j2) = true -> validName (jb_Profile j2) = true ->
  (launch_key j1 = launch_key j2 <-> same_task j1 j2) /\
  (same_task j1 j2 -> launch_request b j1 = launch_request b j2 /\ Broker_Launch b j1 = Broker_Launch b j2).
Proof.
  intros V1 V2 V3 V4. unfold same_task.
  assert (R : same_task j1 j2 -> launch_request b j1 = launch_request b j2).
  { intros (Hr & Hp & Hi & Hf). unfold launch_request, launch_key, launch_body, brokerSourceID.
    by rewrite Hr, Hp, Hi, Hf. }
  split.
  - split.
    + unfold launch_key. intros [= E]. apply key_parts in E; done.
    + intros (Hr & Hp & Hi & Hf). unfold launch_key. by rewrite Hr, Hp, Hi, Hf.
  - intros Hs. split; [by apply R|]. unfold Broker_Launch. by rewrite R.
Qed.

(** ** What a broker promises the loop *)

(** A failed check as it reaches the store. *)
Definition bounded_check (c : FailedCheck) : Prop :=
  0 < len (fc_Name c) <= 160 /\ len (fc_Conclusion c) <= 64 /\ len (fc_Summary c) <= 512 /\ fc_Evidence c = "".

Definition valid_status (run : string) (s : RunStatus) : Prop :=
  st_RunID s = run /\ run <> "" /\ st_Status s <> "" /\
  forall w, st_ExternalWait s = Some w -> ew_Version w = brokerExternalWaitVersion.

(** The interface between the loop and its broker: what every answer that is
    not an error satisfies. *)
Class BrokerContract `{NetURL} (broker : BrokerClient) := {
  launch_runs : forall job run, Launch broker job = inl run -> run <> "";
  repair_runs : forall task attempt run, LaunchRepair broker task attempt = inl run ->
    run <> "" /\ 1 <= ra_MaxRuntimeSeconds attempt;
  status_matches : forall run s, Status broker run = inl s -> valid_status run s;
  resume_matches : forall run key seconds s, ResumeRun broker run key seconds = inl s ->
    valid_status run s /\ key <> "" /\ 1 <= seconds;
  comment_stored : forall job body key c, Comment broker job body key = inl c ->
    1 <= cm_ID c /\ validHTTPSURL (cm_URL c) = true;
  observation_matches : forall task head o, ObserveCI broker task head = inl o ->
    ob_Repository o = tk_Repository task /\ ob_PullNumber o = tk_PullNumber task /\ 1 <= tk_PullNumber task /\
    ob_HeadSHA o = head /\ githubSHA head = true /\ one_of (ob_State o) ci_states = true /\
    (length (elems (ob_FailedChecks o)) <= 32)%nat /\ Forall bounded_check (elems (ob_FailedChecks o)) }.

Section Contract.
Context `{HttpClient} `{GoFloat} `{GoUnicode} `{NetURL}.

Lemma len_cut_to n s : 0 <= n -> len (cut_to n s) <= n.
Proof.
  intros Hn. unfold cut_to. destruct (n <? len s) eqn:E; split_bools; [|done].
  rewrite len_take by lia. done.
Qed.

Lemma len_pos s : s <> "" -> 0 < len s.
Proof. destruct s; unfold len; [done|cbn [String.length]; lia]. Qed.

Lemma cut_to_pos n s : 0 < n -> s <> "" -> 0 < len (cut_to n s).
Proof.
  intros Hn Hs. unfold cut_to. destruct (n <? len s) eqn:E; split_bools; [|by apply len_pos].
  rewrite len_take by lia. done.
Qed.

(** Bounded lists of bounded checks. *)
Definition bounded_checks (checks : slice FailedCheck) : Prop :=
  (length (elems checks) <= 32)%nat /\ Forall bounded_check (elems checks).

Lemma appendFailure_bounded name conclusion summary checks :
  bounded_checks checks -> bounded_checks (appendFailure name conclusion summary checks).
Proof.
  intros [Hn Hc]. unfold appendFailure. destruct (32 <=? _) eqn:E; split_bools; [done|].
  case_bool_decide as En; [done|]. split; change (elems (Some ?l)) with l.
  - rewrite length_app. simpl. lia.
  - apply List.Forall_app. split; [done|]. constructor; [|constructor].
    split_and!; cbn [fc_Name fc_Conclusion fc_Summary fc_Evidence]; try done; try (by apply len_cut_to).
    by apply cut_to_pos.
Qed.

Lemma fold_left_bounded {A} (f : slice FailedCheck -> A -> slice FailedCheck) l checks :
  (forall acc x, bounded_checks acc -> bounded_checks (f acc x)) ->
  bounded_checks checks -> bounded_checks (fold_left f l checks).
Proof. intros Hf. revert checks. induction l as [|x l IH]; simpl; auto. Qed.

Lemma failed_checks_bounded raw : bounded_checks (failed_checks raw).
Proof.
  unfold failed_checks. repeat apply fold_left_bounded;
    try (intros; case_match; [by apply appendFailure_bounded|done]).
  split; [simpl; lia|constructor].
Qed.

Lemma status_checked raw version response run :
  validateBrokerRunStatus raw version response = inl tt -> st_RunID (normal_status raw) = run -> run <> "" ->
  st_Status (normal_status raw) <> "" -> valid_status run (normal_status raw).
Proof.
  unfold validateBrokerRunStatus. intros V Hr Hn Hs. open_answer V. split_and!; try done.
  intros w Hw. change (st_ExternalWait raw = Some w) in Hw. rewrite Hw in V. by split_bools.
Qed.

Lemma check_launch_ok message r r' : check_launch message r = inl r' -> lr_RunID r' <> "".
Proof. unfold check_launch. intros V. open_answer V. by split_bools; simplify_eq. Qed.

Lemma launch_checked b job run : Launch (broker_client b) job = inl run -> run <> "".
Proof.
  cbn [Launch broker_client]. intros V. open_answer V. unfold Broker_Launch in G. open_answer G.
  apply check_launch_ok in G. by simplify_eq.
Qed.

Lemma repair_checked b task attempt run :
  LaunchRepair (broker_client b) task attempt = inl run -> run <> "" /\ 1 <= ra_MaxRuntimeSeconds attempt.
Proof.
  cbn [LaunchRepair broker_client]. intros V. open_answer V. unfold Broker_LaunchRepair in G. open_answer G.
  apply check_launch_ok in G. split_bools. by simplify_eq.
Qed.

Lemma status_answer_checked b run s : Status (broker_client b) run = inl s -> valid_status run s.
Proof.
  cbn [Status broker_client]. unfold Broker_Status. intros V. open_answer V. split_bools. simplify_eq.
  destruct x2. eapply status_checked; [eassumption|congruence..].
Qed.

Lemma resume_answer_checked b run key seconds s :
  ResumeRun (broker_client b) run key seconds = inl s -> valid_status run s /\ key <> "" /\ 1 <= seconds.
Proof.
  cbn [ResumeRun broker_client]. unfold Broker_ResumeRun. intros V. open_answer V. split_bools. simplify_eq.
  split_and!; [|done..]. destruct x2. eapply status_checked; [eassumption|congruence..].
Qed.

Lemma comment_checked b job body key c :
  Comment (broker_client b) job body key = inl c -> 1 <= cm_ID c /\ validHTTPSURL (cm_URL c) = true.
Proof.
  cbn [Comment broker_client]. unfold Broker_Comment. intros V. open_answer V.
  destruct (owner_name _) as [[owner name]|]; [|done]. open_answer V. split_bools. by simplify_eq.
Qed.

Lemma observation_checked b task head o :
  ObserveCI (broker_client b) task head = inl o ->
  ob_Repository o = tk_Repository task /\ ob_PullNumber o = tk_PullNumber task /\ 1 <= tk_PullNumber task /\
  ob_HeadSHA o = head /\ githubSHA head = true /\ one_of (ob_State o) ci_states = true /\
  (length (elems (ob_FailedChecks o)) <= 32)%nat /\ Forall bounded_check (elems (ob_FailedChecks o)).
Proof.
  cbn [ObserveCI broker_client]. unfold Broker_ObserveCI. intros V.
  destruct (owner_name _) as [[owner name]|]; [|done]. open_answer V.
  unfold check_observation in V. open_answer V. split_bools. simplify_eq.
  cbn [ob_Repository ob_PullNumber ob_HeadSHA ob_State ob_FailedChecks].
  split_and!; try done; apply failed_checks_bounded.
Qed.

#[export] Instance client_contract b : BrokerContract (broker_client b).
Proof.
  split; eauto using launch_checked, repair_checked, status_answer_checked, resume_answer_checked, comment_checked,
    observation_checked.
Qed.

(** C23: the HTTP client keeps the contract the loop relies on, whatever the
    transport returns: a launched run has an id, a status or a resume answers
    for the run that was asked, a comment has an id and an https URL, and a CI
    observation is of the requested pull request and head, in a known state,
    with at most 32 checks of bounded text. *)
Theorem broker_client_contract b : BrokerContract (broker_client b).
Proof. apply client_contract. Qed.
End Contract.

(** ** The contract at work *)

Section Loop.
Context `{NetURL} (broker : BrokerClient) `{!BrokerContract broker}.

Definition bound_error : string := "authoritative CI observation exceeds the durable bound".

(** The errors of the statements of a transaction. *)
Definition store_failure {A} (r : res A) : Prop := r <> Panic /\ forall e, r = Err e -> e = ErrNoRows \/ e = ErrConstraint.

Lemma store_failure_bind {A B} (m : res A) (f : A -> res B) :
  store_failure m -> (forall a, store_failure (f a)) -> store_failure (m ≫= f).
Proof. intros [Hp He] Hf. destruct m; [apply Hf| |done]. split; [done|]. intros e' [= <-]. by apply He. Qed.

Lemma store_failure_ok {A} (a : A) : store_failure (Ok a).
Proof. by split. Qed.

Lemma store_failure_constraint c : store_failure (guard_err c ErrConstraint).
Proof. destruct c; split; try done. intros e [= <-]. by right. Qed.

Lemma find_task_failure id db : store_failure (find_task id db).
Proof. unfold find_task. destruct (first_where _ _); split; try done. intros e [= <-]. by left. Qed.

Lemma transact_failure {DB A} (body : DB -> res (A * DB)) db :
  store_failure (body db) -> store_failure (transact body db).2.
Proof.
  unfold transact. destruct (body db) as [[]| |]; intros [Hp He]; split; cbn; try done.
  intros e' [= <-]. by apply He.
Qed.

Create HintDb failures discriminated.
#[local] Hint Resolve store_failure_bind store_failure_ok store_failure_constraint find_task_failure : failures.
#[local] Hint Extern 1 (forall _, store_failure _) => intros : failures.
#[local] Hint Extern 1 (store_failure (if ?c then _ else _)) => destruct c : failures.

Lemma schedule_failure policy id number head model now db : store_failure (schedule_repair policy id number head model now db).
Proof. unfold schedule_repair, insert_ci_attempt. auto 9 with failures. Qed.

Lemma escalation_failure id o attempts maxAttempts reason now db :
  githubSHA (ob_HeadSHA o) = true -> store_failure (queueCIEscalation id o attempts maxAttempts reason now db).
Proof.
  unfold githubSHA. intros Hs. split_bools. unfold queueCIEscalation, escalation_body.
  rewrite (proj2 (Z.ltb_ge (len (ob_HeadSHA o)) 12)) by lia. auto 9 with failures.
Qed.
#[local] Hint Resolve schedule_failure : failures.

Lemma policy_attempts policy :
  CIRepairPolicy_Validate policy = Ok tt -> ((CIMaxAttempts policy <? 1) || (2 <? CIMaxAttempts policy)) = false.
Proof.
  unfold CIRepairPolicy_Validate. intros HP. open_guards HP.
  assert (E : CIMaxAttempts (default_wake policy) = CIMaxAttempts policy) by (unfold default_wake; by case_match).
  by rewrite E in HP.
Qed.

(** With a broker that keeps the contract and a valid policy, applying an
    observation never panics and is never refused for its coordinates, its
    state or the number of attempts: what remains is its encoded size and the
    constraints of the store, and a refusal changes nothing. *)
Theorem observation_refusals policy work o now db :
  CIRepairPolicy_Validate policy = Ok tt ->
  ObserveCI broker (rn_Task work) (rn_HeadSHA work) = inl o ->
  let '(db', r) := ApplyCIObservation policy work o (CIMaxAttempts policy) now db in
  r <> Panic /\ (is_ok r = false -> db' = db) /\
  (len (Marshal_observation o) <= 64 * 1024 -> forall e, r = Err e -> e = ErrNoRows \/ e = ErrConstraint) /\
  (64 * 1024 < len (Marshal_observation o) -> r = Err bound_error).
Proof.
  intros HP HO. destruct (ApplyCIObservation _ _ _ _ _ _) as [db' r] eqn:HA.
  assert (Hf : is_ok r = false -> db' = db).
  { unfold ApplyCIObservation in HA. cbv zeta in HA. intros Hr.
    match type of HA with transact ?body db = _ => pose proof (transact_fail body db) as T end.
    rewrite HA in T. auto. }
  destruct (observation_matches _ _ _ HO) as (Hr & Hp & _ & Hh & Hs & Ht & _).
  apply policy_attempts in HP.
  unfold ApplyCIObservation in HA. cbv zeta in HA. rewrite Hr, Hp, Hh, Hs, Z.eqb_refl in HA.
  change [CIStatePending; CIStateSuccess; CIStateCodeFailure; CIStateInfrastructure] with ci_states in HA.
  rewrite Ht, HP in HA. rewrite (bool_decide_eq_true_2 (tk_Repository (rn_Task work) = _)) in HA by done.
  cbn [negb orb guard_err mbind res_bind] in HA.
  match type of HA with context [64 * 1024 <? ?n] => destruct (64 * 1024 <? n) eqn:E end; split_bools.
  - injection HA as <- <-. split_and!; try done. lia.
  - assert (F : store_failure r).
    { match type of HA with transact ?body ?d = _ =>
        pose proof (transact_failure body d) as T; rewrite HA in T; apply T end.
      assert (githubSHA (ob_HeadSHA o) = true) by congruence.
      cbn [guard_err mbind res_bind]. auto 12 using escalation_failure with failures. }
    destruct F as [F1 F2]. split_and!; [done..|lia].
Qed.
End Loop.

(** ** Examples *)

(** A transport that answers every request alike. *)
Definition answering (reply : http_reply) : HttpClient :=
  {| http_url_error := fun _ => "parse"; http_query_Set := fun _ k v => k ++ "=" ++ v;
     http_request_error := fun _ => None; http_Do := fun _ => reply; json_error := fun _ _ => "invalid character" |}.

#[local] Instance sample_float : GoFloat := Some.
#[local] Instance sample_unicode : GoUnicode := id.

#[local] Instance any_origin : NetURL := fun _ => Some (mkParsedURL "https" "broker" false "" "" "" "").
Definition sample_broker : Broker := mkBroker "https://broker" "token" "https://broker" "secret".
Definition sample_head : string := "0123456789abcdef0123456789abcdef01234567".
Definition sample_task : CIRepairTask :=
  mkCIRepairTask 1 "octo/repo" 7 9 "branch" sample_head "model" CIWaiting 0 0 "".
Definition sample_work : CIReconciliation := mkCIReconciliation "op" sample_task sample_head false 0.

(** An observation with a failed status of the given name and description. *)
Definition observation_text (n : nat) (description : string) : string :=
  quoted ("{'version':'broker-ci-observation/v1','requested_head_sha':'" ++ sample_head ++ "','pull':{'number':9,'head_sha':'"
    ++ sample_head ++ "'},'commit_status':{'statuses':["
    ++ Join (repeat ("{'context':'ci','state':'failure','description':'" ++ description ++ "'}") n) ","
    ++ "]},'aggregate_state':'code_failure'}").

Fixpoint repeat_char (n : nat) (c : ascii) : string :=
  match n with O => "" | S k => String c (repeat_char k c) end.

Definition markup : http_reply := Reply 200 (observation_text 32 (repeat_char 512 "<")) None.
Definition plain_failure : http_reply := Reply 200 (observation_text 1 "build failed") None.

Definition sample_request : HttpRequest :=
  mkHttpRequest "GET" (mkTarget (mkParsedURL "https" "broker" false "" "" "" "") "" "" "") [] "".

Definition plain_decoded : brokerCIObservation :=
  mkBrokerObservation brokerCIObservationVersion sample_head 9 sample_head
    (Some [mkRawStatus "ci" "failure" "build failed"]) None None CIStateCodeFailure.

Lemma exchange_classified_witness :
  @doJSONLimit (answering plain_failure) _ _ sample_request "brokerCIObservation" decode_broker_observation 1000
  = inl plain_decoded.
Proof.
  apply (@exchange_classified (answering plain_failure) _ _ sample_request "brokerCIObservation" decode_broker_observation 1000);
    [lia|].
  exists 200, (observation_text 1 "build failed"). split; [split; [reflexivity|vm_compute; discriminate]|].
  split; [lia|vm_compute; reflexivity].
Defined.

Definition launch_job (id : Z) (delivery : string) : Job :=
  mkJob id "key" "route-1" "profile-1" "octo/repo" 7 delivery "" StatePendingLaunch id 0 0.

Lemma launch_request_identity_witness :
  @launch_request (answering markup) any_origin sample_broker (launch_job 1 "d1")
  = @launch_request (answering markup) any_origin sample_broker (launch_job 2 "d2").
Proof.
  apply (@launch_request_identity (answering markup) _ any_origin sample_broker (launch_job 1 "d1") (launch_job 2 "d2"));
    try reflexivity. unfold same_task. split_and!; reflexivity.
Defined.

Definition sample_policy : CIRepairPolicy := mkCIRepairPolicy Hour (10 * Minute) 2.

Definition plain_observation : CIObservation :=
  mkCIObservation "octo/repo" 9 sample_head CIStateCodeFailure (Some [mkFailedCheck "ci" "failure" "build failed" ""]) false 0.

Lemma plain_observed :
  ObserveCI (@broker_client (answering plain_failure) _ _ _ sample_broker) sample_task sample_head = inl plain_observation.
Proof. vm_compute. reflexivity. Qed.

Lemma observation_refusals_witness :
  (ApplyCIObservation sample_policy sample_work plain_observation 2 0 empty_db).2 = Err ErrNoRows /\
  (ApplyCIObservation sample_policy sample_work plain_observation 2 0 empty_db).2 <> Panic.
Proof.
  split; [vm_compute; reflexivity|].
  pose proof (@observation_refusals any_origin (@broker_client (answering plain_failure) _ _ _ sample_broker)
    (@client_contract (answering plain_failure) _ _ _ sample_broker) sample_policy sample_work plain_observation 0 empty_db
    eq_refl plain_observed) as T.
  change (CIMaxAttempts sample_policy) with 2 in T.
  destruct (ApplyCIObservation sample_policy sample_work plain_observation 2 0 empty_db) as [db' r]. exact (proj1 T).
Defined.

(** ** An observation the store cannot keep *)

Definition markup_observation : CIObservation :=
  mkCIObservation "octo/repo" 9 sample_head CIStateCodeFailure
    (Some (repeat (mkFailedCheck "ci" "failure" (repeat_char 512 "<") "") 32)) false 0.

Lemma markup_observed :
  ObserveCI (@broker_client (answering markup) _ _ _ sample_broker) sample_task sample_head = inl markup_observation.
Proof. vm_compute. reflexivity. Qed.

Lemma markup_oversized : 64 * 1024 < len (Marshal_observation markup_observation).
Proof. vm_compute. reflexivity. Qed.

(** The bounds of the client do not imply the bound of the store: a broker
    may report 32 failed checks whose summaries grow when they are encoded (a
    [<] takes six bytes), the client returns the observation, and the store
    refuses it whatever it holds, at every attempt. *)
Theorem oversized_observation_refused policy now db :
  CIRepairPolicy_Validate policy = Ok tt ->
  exists (client : HttpClient) (float : GoFloat) (unicode : GoUnicode) (url : NetURL) b o,
    ObserveCI (broker_client b) (rn_Task sample_work) (rn_HeadSHA sample_work) = inl o /\
    ApplyCIObservation policy sample_work o (CIMaxAttempts policy) now db = (db, Err bound_error).
Proof.
  intros HP%policy_attempts. exists (answering markup), sample_float, sample_unicode, any_origin, sample_broker, markup_observation.
  split; [exact markup_observed|]. unfold ApplyCIObservation, transact. cbv zeta. rewrite HP.
  rewrite (proj2 (Z.ltb_lt _ _) markup_oversized). reflexivity.
Qed.

Lemma oversized_observation_refused_witness :
  exists (client : HttpClient) (float : GoFloat) (unicode : GoUnicode) (url : NetURL) b o,
    ObserveCI (broker_client b) (rn_Task sample_work) (rn_HeadSHA sample_work) = inl o /\
    ApplyCIObservation sample_policy sample_work o (CIMaxAttempts sample_policy) 0 empty_db = (empty_db, Err bound_error).
Proof. apply oversized_observation_refused. reflexivity. Defined.
