(* ===== verification/DispatchProps.v ===== *)
(** * Properties of the dispatcher

    What holds of every database the dispatcher can reach and of every step of
    its loop: identities are final, results are stored once, launches happen
    once and in order, deliveries are replay-safe. *)

From stdpp Require Import relations.
From Stdlib Require Import Ascii.
From S2P Require Import Prelude GoText GoSha256 GoJson GoNet LedgerModel Envelope DispatchPolicy DispatchStore Terminal ExternalWait CIRepair DispatchLoop DispatchFacts DispatchInv DispatchSteps LoopFacts.
Open Scope string_scope.
Open Scope Z_scope.
Open Scope go_scope.

(** ** A concrete history *)

(** A URL parser for the samples: [https://host/...]. *)
Definition sample_url : NetURL := fun raw =>
  match strip_prefix "https://" raw with
  | Some rest => Some (mkParsedURL "https" (match cut_at "/"%char rest with Some (h, _) => h | None => rest end) false "" "" "" "")
  | None => None
  end.

Definition T0 : Z := 1782909015 * Second.
Definition sample_candidate : Candidate := mkCandidate "octo/repo" 7 "delivery-1" "route-1" "profile-1".

(** Recorded, claimed, launched, failed after launch, reported. *)
Definition db_recorded : DB := (Record_ "delivery-1" "accepted" 5 (Some sample_candidate) T0 empty_db).1.
Definition db_claimed : DB := (ClaimDue T0 db_recorded).1.
Definition db_launched : DB := (MarkLaunched 1 "run-1" (T0 + StatusPollInterval) T0 db_claimed).1.
Definition launched_job : Job :=
  mkJob 1 (SemanticKey sample_candidate) "route-1" "profile-1" "octo/repo" 7 "delivery-1" "run-1" StateLaunched 1 0 T0.
Definition T1 : Z := T0 + Minute.
Definition db_queued : DB :=
  (@QueuePreOutboxFailure sample_url launched_job "terminal_projection" "projection is malformed" T1 db_launched).1.
Definition sample_report : option Report := ClaimReportDue T1 db_queued.
Definition db_reported : DB :=
  match sample_report with
  | Some r => (MarkReportDelivered r 99 "https://github.com/octo/repo/issues/7#c99" T1 db_queued).1
  | None => db_queued
  end.

Example history_ex :
  map j_status (jobs db_launched) = [StateLaunched] /\ map tm_outcome (terminal_results db_queued) = [JobFailed] /\
  map ob_status (notification_outbox db_queued) = ["pending"] /\
  map (fun o => (ob_status o, ob_comment_id o)) (notification_outbox db_reported) = [("delivered", Some 99)] /\
  map j_status (jobs db_reported) = [JobFailed].
Proof. vm_compute. done. Qed.

Lemma reachable_recorded : @store_reachable sample_url db_recorded.
Proof. apply rtc_once. apply step_record. Qed.
Lemma reachable_claimed : @store_reachable sample_url db_claimed.
Proof. eapply rtc_r; [exact reachable_recorded|]. apply step_claim_due. Qed.
Lemma reachable_launched : @store_reachable sample_url db_launched.
Proof. eapply rtc_r; [exact reachable_claimed|]. apply step_launched. Qed.
Lemma launched_queued : rtc (@store_step sample_url) db_launched db_queued.
Proof. apply rtc_once. apply step_projection_failed. Qed.
Lemma reachable_queued : @store_reachable sample_url db_queued.
Proof. eapply reachable_steps; [exact reachable_launched|exact launched_queued]. Qed.
Lemma queued_reported : rtc (@store_step sample_url) db_queued db_reported.
Proof. unfold db_reported. destruct sample_report; [|reflexivity]. apply rtc_once. apply step_report_delivered. Qed.
Lemma reachable_reported : @store_reachable sample_url db_reported.
Proof. eapply reachable_steps; [exact reachable_queued|exact queued_reported]. Qed.

#[local] Opaque db_recorded db_claimed db_launched db_queued db_reported.

(** ** Identities and results are final *)

Section Finality.
Context `{NetURL}.

(** C10: a job is created once and launched once: whatever the store does
    later, the job keeps its identity (id, semantic key, route, profile,
    repository, issue, delivery, creation time), its broker run is never
    replaced once it is bound, and no other job ever has its id or its
    semantic key. *)
Theorem job_identity_final db db' j :
  store_reachable db -> rtc store_step db db' -> j ∈ jobs db ->
  exists j', j' ∈ jobs db' /\ job_imm j' = job_imm j /\
    (j_broker_run_id j <> "" -> j_broker_run_id j' = j_broker_run_id j) /\
    forall k, k ∈ jobs db' -> j_id k = j_id j \/ j_semantic_key k = j_semantic_key j -> k = j'.
Proof.
  intros R S Hj. pose proof (reachable_unique _ R) as U. pose proof (reachable_unique _ (reachable_steps _ _ R S)) as U'.
  destruct (table_le_row _ _ _ _ _ _ j (le_jobs _ _ (store_steps_le _ _ S)) (unique_jobs _ U) Hj)
    as (j' & Hj' & E & L).
  exists j'. split_and!; try done.
  - apply L. by eapply (proj1 (list.Forall_forall _ _) (proj1 (reachable_rows_ok _ R))).
  - intros k Hk D. eapply (unique_rows_spec job_imm differ2); [apply _|apply U'|done|done|].
    unfold job_imm in E. unfold differ2. simpl. intros [N1 N2]. simplify_eq. destruct D; congruence.
Qed.

(** A terminal result is stored once per job and is immutable: it stays in
    the table verbatim, and it remains the only result of its job. *)
Theorem terminal_result_final db db' t :
  store_reachable db -> rtc store_step db db' -> t ∈ terminal_results db ->
  t ∈ terminal_results db' /\ forall t', t' ∈ terminal_results db' -> tm_job_id t' = tm_job_id t -> t' = t.
Proof.
  intros R S Ht. pose proof (reachable_unique _ R) as U. pose proof (reachable_unique _ (reachable_steps _ _ R S)) as U'.
  destruct (table_le_row _ _ _ _ _ _ t (le_terminals _ _ (store_steps_le _ _ S)) (unique_terminals _ U) Ht)
    as (t1 & Ht1 & _ & <-).
  split; [done|]. intros t' Ht' E. eapply (unique_rows_spec terminal_imm differ); [apply _|apply U'|done|done|].
  unfold differ. simpl. congruence.
Qed.

(** C11: a report is queued once per job and delivered at most once: its job,
    body, version and idempotency key never change, its attempts are never
    forgotten, no second report has its job or its key, and once delivered the
    row (with its comment identity) never changes again. *)
Theorem report_final db db' o :
  store_reachable db -> rtc store_step db db' -> o ∈ notification_outbox db ->
  exists o', o' ∈ notification_outbox db' /\ outbox_imm o' = outbox_imm o /\ 0 <= ob_attempts o <= ob_attempts o' /\
    (ob_status o = "delivered" -> o' = o) /\
    forall k, k ∈ notification_outbox db' ->
      ob_job_id k = ob_job_id o \/ ob_idempotency_key k = ob_idempotency_key o -> k = o'.
Proof.
  intros R S Ho. pose proof (reachable_unique _ R) as U. pose proof (reachable_unique _ (reachable_steps _ _ R S)) as U'.
  destruct (table_le_row _ _ _ _ _ _ o (le_outbox _ _ (store_steps_le _ _ S)) (unique_outbox _ U) Ho)
    as (o' & Ho' & E & La & Ld).
  destruct (reachable_rows_ok _ R) as (_ & Ok & _). rewrite list.Forall_forall in Ok.
  exists o'. split_and!; try done; [by apply Ok|].
  intros k Hk D. eapply (unique_rows_spec outbox_imm differ3); [apply _|apply U'|done|done|].
  unfold outbox_imm in E. unfold differ3. simpl. intros (N1 & N2 & N3). simplify_eq. destruct D; congruence.
Qed.

(** C12: the external waits of a run make progress: a job has one wait row, for
    one run; its generation never goes back, and within a generation the state
    only moves from waiting to resume-ready to resumed, under the same resume
    key, so that a resumed generation is never resumed again. *)
Theorem external_wait_progress db db' w :
  store_reachable db -> rtc store_step db db' -> w ∈ external_waits db ->
  exists w', w' ∈ external_waits db' /\ wait_imm w' = wait_imm w /\ 1 <= wr_generation w <= wr_generation w' /\
    (wr_generation w' = wr_generation w ->
       wr_resume_key w' = wr_resume_key w /\ wait_rank (wr_state w) <= wait_rank (wr_state w') /\
       (wr_state w = "resumed" -> wr_state w' <> "waiting" /\ wr_state w' <> "resume_ready")) /\
    forall k, k ∈ external_waits db' -> wr_job_id k = wr_job_id w -> k = w'.
Proof.
  intros R S Hw. pose proof (reachable_unique _ R) as U. pose proof (reachable_unique _ (reachable_steps _ _ R S)) as U'.
  destruct (table_le_row _ _ _ _ _ _ w (le_waits _ _ (store_steps_le _ _ S)) (unique_waits _ U) Hw)
    as (w' & Hw' & E & L).
  destruct (reachable_rows_ok _ R) as (_ & _ & Ok). rewrite list.Forall_forall in Ok. pose proof (Ok w Hw) as Hg.
  unfold wait_ok in Hg. exists w'. split_and!; try done; [destruct L; lia| |].
  - intros Eg. destruct L as [L|(_ & L & K)]; [lia|]. split_and!; try done.
    intros Es. rewrite Es in L. split; intros Es'; rewrite Es' in L; by compute in L.
  - intros k Hk D. eapply (unique_rows_spec wait_imm differ); [apply _|apply U'|done|done|].
    unfold wait_imm in E. unfold differ. simpl. simplify_eq. congruence.
Qed.

End Finality.

Lemma launched_reported : rtc (@store_step sample_url) db_launched db_reported.
Proof. etrans; [exact launched_queued|exact queued_reported]. Qed.

Lemma job_identity_final_witness :
  exists j', j' ∈ jobs db_reported /\ j_id j' = 1 /\ j_broker_run_id j' = "run-1".
Proof.
  assert (F : map (fun j => (j_id j, j_broker_run_id j)) (jobs db_launched) = [(1, "run-1")])
    by (vm_compute; reflexivity).
  destruct (jobs db_launched) as [|j l] eqn:E; [discriminate F|]. injection F as F1 F2 _.
  assert (Hj : j ∈ jobs db_launched) by (rewrite E; left).
  destruct (job_identity_final (H := sample_url) db_launched db_reported j reachable_launched launched_reported Hj)
    as (j' & Hj' & Ei & Er & _).
  exists j'. unfold job_imm in Ei. injection Ei as Ei _ _ _ _ _ _ _. split_and!; [done|congruence|].
  rewrite Er; congruence.
Defined.

Lemma terminal_result_final_witness :
  exists t, t ∈ terminal_results db_reported /\ tm_outcome t = "failed".
Proof.
  assert (F : map tm_outcome (terminal_results db_queued) = ["failed"]) by (vm_compute; reflexivity).
  destruct (terminal_results db_queued) as [|t l] eqn:E; [discriminate F|]. injection F as F _.
  assert (Ht : t ∈ terminal_results db_queued) by (rewrite E; left).
  exists t. split; [|done].
  apply (terminal_result_final (H := sample_url) db_queued db_reported t reachable_queued queued_reported Ht).
Defined.

Lemma report_final_witness :
  exists o, o ∈ notification_outbox db_reported /\ ob_comment_id o = Some 99 /\
    forall k, k ∈ notification_outbox db_reported -> ob_job_id k = 1 -> k = o.
Proof.
  assert (F : map (fun o => (ob_status o, ob_comment_id o, ob_job_id o)) (notification_outbox db_reported)
              = [("delivered", Some 99, 1)]) by (vm_compute; reflexivity).
  destruct (notification_outbox db_reported) as [|o l] eqn:E; [discriminate F|]. injection F as F1 F2 F3 _.
  assert (Ho : o ∈ notification_outbox db_reported) by (rewrite E; left).
  destruct (report_final (H := sample_url) db_reported db_reported o reachable_reported ltac:(reflexivity) Ho)
    as (o' & Ho' & _ & _ & Ed & Un).
  rewrite E in Un. specialize (Ed F1). subst o'. exists o. split_and!; [left|done|].
  intros k Hk Hj. apply Un; [done|]. left. congruence.
Defined.

(** A run that waits, is woken, and is resumed. *)
Definition sample_policy : CIRepairPolicy := mkCIRepairPolicy Hour (30 * Minute) 2.
Definition sample_wait : CIExternalWait := mkCIExternalWait "" "github" "preparation" "issue.read" "rate_limited" 1 T0.
Definition sample_meta (event action kind id revision : string) : Meta :=
  mkMeta "signal-1" "github" "route-1" T0 event action "delivery-2" "octo/repo" kind id revision "" "" "" None None "user" "" "" "" "" "" "" 0
    None (mkAuthentication "github_hmac_sha256" true).
Definition wake_signal : Signal := mkSignal (sample_meta "issue_comment" "created" "issue" "7" "r") "{}".
Definition db_waiting : DB := (RecordRepositoryRunExternalWait sample_policy launched_job sample_wait T1 db_launched).1.
Definition db_woken : DB := (RecordRepositoryRunExternalWake wake_signal T1 db_waiting).1.
Definition waiting_job : Job := launched_job <| jb_Status := StateExternalWaiting |>.
Definition db_resumed : DB := (ReconcileRepositoryRunExternalResume waiting_job T1 db_woken).1.

Lemma waiting_resumed : rtc (@store_step sample_url) db_waiting db_resumed.
Proof.
  apply rtc_l with db_woken; [exact (step_external_wake wake_signal T1 db_waiting)|].
  apply rtc_once. exact (step_reconcile_resume waiting_job T1 db_woken).
Qed.
Lemma reachable_waiting : @store_reachable sample_url db_waiting.
Proof. eapply rtc_r; [exact reachable_launched|]. apply step_external_wait. Qed.

#[local] Opaque db_waiting db_woken db_resumed.

Lemma external_wait_progress_witness :
  exists w w', w ∈ external_waits db_waiting /\ w' ∈ external_waits db_resumed /\ wr_state w = "waiting" /\
    wr_state w' = "resumed" /\ wr_job_id w' = wr_job_id w /\ wr_generation w <= wr_generation w'.
Proof.
  assert (F : map wr_state (external_waits db_waiting) = ["waiting"]) by (vm_compute; reflexivity).
  assert (F' : map wr_state (external_waits db_resumed) = ["resumed"]) by (vm_compute; reflexivity).
  destruct (external_waits db_waiting) as [|w l] eqn:E; [discriminate F|]. injection F as F _.
  assert (Hw : w ∈ external_waits db_waiting) by (rewrite E; left).
  destruct (external_wait_progress (H := sample_url) db_waiting db_resumed w reachable_waiting waiting_resumed Hw)
    as (w' & Hw' & Ei & Hg & _ & _).
  unfold wait_imm in Ei. injection Ei as Ei _ _. destruct Hg as [_ Hg].
  destruct (external_waits db_resumed) as [|x [|]]; [discriminate F'| |discriminate F']. injection F' as F'.
  apply list_elem_of_singleton in Hw'. subst w'. clear E Hw.
  exists w, x. split_and!; [left|left|exact F|exact F'|exact Ei|exact Hg].
Defined.
