(* ===== verification/TerminalFacts.v ===== *)
(** * Terminal results are stored and reported

    The harness-generated result of a failed launch or projection always passes
    validation and rendering, a result is queued atomically with its report, a
    repeated result is a no-op and a different one is refused. *)

From stdpp Require Import relations.
From S2P Require Import Prelude GoText GoSha256 GoJson GoNet LedgerModel DispatchPolicy DispatchStore Terminal DispatchFacts DispatchInv DispatchSteps DispatchProps.
From Stdlib Require Import Ascii.
Open Scope string_scope.
Open Scope Z_scope.
Open Scope go_scope.

#[local] Arguments one_of : simpl never.
#[local] Arguments sha256_hex : simpl never.
#[local] Arguments reportKey : simpl never.
#[local] Arguments marshal : simpl never.

(** ** Text *)

Lemma len_nonneg a : 0 <= len a.
Proof. unfold len. lia. Qed.

Lemma hex_lower_ascii c : is_hex_lower c = true -> is_ascii c = true.
Proof.
  unfold is_hex_lower, is_digit, is_ascii, between. intros H. apply orb_true_iff in H as [H|H]; split_bools;
    apply andb_true_iff; split; apply Z.leb_le; lia.
Qed.

Lemma sha256_text data : ValidString (sha256_hex data) = true /\ len (sha256_hex data) = 64.
Proof.
  destruct (sha256_hex_shape data) as [H1 H2]. split; [|done]. apply ValidString_ascii.
  eapply all_chars_impl; [apply hex_lower_ascii|done].
Qed.

(** Valid text of at most [n] bytes. *)
Definition text (n : Z) (s : string) : Prop := ValidString s = true /\ len s <= n.

Lemma text_app n m a b : text n a -> text m b -> text (n + m) (a ++ b).
Proof. intros [V1 L1] [V2 L2]. split; [by apply ValidString_app_true|]. rewrite len_app. lia. Qed.

Lemma text_le n m s : n <= m -> text n s -> text m s.
Proof. intros H [V L]. split; [done|lia]. Qed.

Lemma text_Join k lines : Forall (text k) lines -> 0 <= k -> text ((k + 1) * Z.of_nat (length lines)) (Join lines newline).
Proof.
  intros F Hk. induction F as [|s lines Hs F IH]; [split; [done|unfold len; simpl; lia]|]. destruct lines as [|s2 lines].
  - eapply text_le; [|exact Hs]. simpl. lia.
  - cbn [Join]. eapply text_le; [|apply text_app; [exact Hs|apply text_app; [|exact IH]]].
    2: { instantiate (1 := 1). done. }
    simpl length. lia.
Qed.

Lemma digit_ascii c : is_digit c = true -> is_ascii c = true.
Proof. unfold is_digit, is_ascii, between. intros H. split_bools. apply andb_true_iff. split; apply Z.leb_le; lia. Qed.

Lemma dec_go_len fuel n acc : len (dec_go fuel n acc) <= Z.of_nat fuel + len acc.
Proof.
  revert n acc. induction fuel as [|k IH]; intros n acc; cbn [dec_go]; [lia|]. case_match; [unfold len; simpl; lia|].
  etrans; [apply IH|]. unfold len. simpl. lia.
Qed.

Lemma text_fmt_d z : 0 <= z < 2 ^ 63 -> text 64 (fmt_d z).
Proof.
  intros Hz. unfold fmt_d. rewrite (proj2 (Z.ltb_ge z 0)) by lia. split.
  - apply ValidString_ascii. eapply all_chars_impl; [apply digit_ascii|]. apply dec_nonneg_shape. lia.
  - unfold dec_nonneg. etrans; [apply dec_go_len|]. unfold len. simpl String.length.
    assert (Z.log2 z < 63) by (destruct (Z.eq_dec z 0) as [->|]; [done|apply Z.log2_lt_pow2; lia]). lia.
Qed.

Lemma text_const s n : ValidString s = true -> (len s <=? n) = true -> text n s.
Proof. intros V L. split; [done|lia]. Qed.


(** ** Harness results *)

(** What a job must be for its results to fit the store and GitHub. *)
Record job_text (job : Job) : Prop := mkJobText {
  jt_id : 0 <= jb_ID job < 2 ^ 63;
  jt_key : text 3000 (jb_SemanticKey job);
  jt_run : text 3000 (jb_BrokerRunID job) }.

Lemma text_code_item label value n : text 100 label -> text n value -> text (n + 106) (code_item label value).
Proof.
  intros Hl Hv. unfold code_item. eapply text_le; [|apply (text_app 2); [done|apply text_app; [exact Hl|
    apply (text_app 3); [done|apply (text_app n 1); [exact Hv|done]]]]]. lia.
Qed.

Lemma text_source job : text 100 (brokerSourceID job).
Proof.
  unfold brokerSourceID. destruct (sha256_text (jb_RouteID job ++ nul ++ jb_Repository job ++ nul ++ fmt_d (jb_IssueNumber job)
    ++ nul ++ jb_Profile job)) as [V L].
  eapply text_le; [|apply (text_app 30 64); [done|split; [exact V|lia]]]. lia.
Qed.

Section WithURL.
Context `{NetURL}.

Definition harness_fields (finalize unavailable stage reason : string) : Prop :=
  text 100 finalize /\ text 100 unavailable /\ unavailable <> "" /\ text 100 stage /\ stage <> "" /\
  text 600 reason /\ reason <> "".

Lemma harness_validates job run finalize unavailable stage reason :
  run = jb_BrokerRunID job -> run <> "" \/ stage = "broker_launch" ->
  harness_fields finalize unavailable stage reason ->
  ValidateTerminalResult job (harness_result job run finalize unavailable stage reason) = Ok tt.
Proof.
  intros Er Hrun ([V1 L1] & [V2 L2] & N2 & [V3 L3] & N3 & [V4 L4] & N4).
  assert (Hpre : (run == "") && negb (prelaunchFailure (harness_result job run finalize unavailable stage reason)) = false).
  { destruct (bool_decide_reflect (run = "")) as [E|E]; [|done]. destruct Hrun as [?|Es]; [done|].
    unfold prelaunchFailure. simpl. rewrite E, Es. done. }
  pose proof (text_source job) as [V5 L5].
  assert (Ht : exists_where (fun v => negb (ValidString v) || (maxTerminalTextBytes <? len v))
    (terminal_texts (harness_result job run finalize unavailable stage reason)) = false).
  { apply exists_where_false. intros v Hv. unfold maxTerminalTextBytes.
    enough (text 32768 v) as [Vv Lv] by (rewrite Vv; simpl; apply Z.ltb_ge; lia).
    unfold terminal_texts in Hv. simpl in Hv. rewrite !elem_of_cons, elem_of_nil in Hv.
    repeat (destruct Hv as [->|Hv]; [first [by apply text_const | split; [assumption|lia]]|]). done. }
  unfold ValidateTerminalResult. rewrite Ht. cbn [tr_RunID harness_result]. rewrite Hpre, Er. clear Ht Hpre.
  unfold harness_result.
  assert (N5 : brokerSourceID job <> "") by done. generalize dependent (brokerSourceID job). intros src _ _ N5.
  cbn -[exists_where]. rewrite (bool_decide_eq_true_2 (jb_BrokerRunID job = _)), (bool_decide_eq_true_2 (jb_Profile job = _)),
    (bool_decide_eq_true_2 (jb_Repository job = _)) by done.
  rewrite (bool_decide_eq_false_2 (unavailable = _)), (bool_decide_eq_false_2 (src = _)),
    (bool_decide_eq_false_2 (stage = _)), (bool_decide_eq_false_2 (reason = _)) by done. done.
Qed.

Lemma text_run run : text 3000 run -> text 3000 (displayBrokerRun run).
Proof. intros Hr. unfold displayBrokerRun. by case_match; [apply text_const|]. Qed.

(** Every line is short, so the whole comment fits. *)
Lemma harness_lines job run finalize unavailable stage reason :
  job_text job -> run = jb_BrokerRunID job -> harness_fields finalize unavailable stage reason ->
  Forall (text 3200) (comment_lines job (harness_result job run finalize unavailable stage reason)) /\
  length (comment_lines job (harness_result job run finalize unavailable stage reason)) = 15%nat.
Proof.
  intros [Hi Hk Hr] -> (_ & Hu & _ & Hst & Nst & Hre & Nre). pose proof (text_source job) as Hsrc.
  assert (E : comment_lines job (harness_result job (jb_BrokerRunID job) finalize unavailable stage reason) =
    ["## Repository task terminal result"; ""; code_item "Outcome" JobFailed; code_item "Semantic job" (fmt_d (jb_ID job));
     code_item "Semantic key" (jb_SemanticKey job); code_item "Broker run" (displayBrokerRun (jb_BrokerRunID job));
     code_item "Result version" terminalResultVersion; code_item "Launch config" unavailable;
     code_item "Launch idempotency digest" unavailable; code_item "Request fingerprint" (brokerSourceID job);
     code_item "Verification" "not_run"; code_item "Failure stage" stage; "- Diagnostic: " ++ reason; "";
     "The worker did not produce a valid final summary; this harness-generated terminal result is reported instead."]).
  { unfold comment_lines, harness_result. generalize (brokerSourceID job). intros src. cbn [tr_FailureStage tr_FailureReason].
    rewrite (bool_decide_eq_false_2 (stage = _)), (bool_decide_eq_false_2 (reason = _)) by done. reflexivity. }
  rewrite E. split; [|done]. pose proof (text_fmt_d _ Hi) as Hd. pose proof (text_run _ Hr) as Hrun.
  assert (Hc : forall label value n, n <= 3000 -> text 100 label -> text n value -> text 3200 (code_item label value)).
  { intros label value n Hn Hl Hv. eapply text_le; [|apply text_code_item; eassumption]. lia. }
  repeat apply Forall_cons_2; try apply Forall_nil_2; try (by apply text_const); try (by eapply Hc; [|by apply text_const|eassumption]).
  eapply text_le; [|apply (text_app 14 600); [by apply text_const|exact Hre]]. lia.
Qed.

Lemma harness_renders job run finalize unavailable stage reason :
  job_text job -> run = jb_BrokerRunID job -> harness_fields finalize unavailable stage reason ->
  exists body, RenderTerminalComment job (harness_result job run finalize unavailable stage reason) = Ok body.
Proof.
  intros Hj Hr Hf. destruct (harness_lines _ _ _ _ _ _ Hj Hr Hf) as [Hl Hn].
  pose proof (text_Join 3200 _ Hl ltac:(lia)) as Ht. rewrite Hn in Ht. unfold RenderTerminalComment.
  generalize dependent (comment_lines job (harness_result job run finalize unavailable stage reason)). intros lines _ _ Ht.
  pose proof (text_app _ 1 _ newline Ht ltac:(done)) as [V L].
  exists (Join lines newline ++ newline). rewrite V. unfold maxCommentBytes. rewrite (proj2 (Z.ltb_ge _ _)) by lia. done.
Qed.

(** ** Queueing *)

(** The database after a first result. *)
Definition queued_db (job : Job) (r : TerminalResult) (body : string) (now : Z) (db : DB) : DB :=
  db <| terminal_results := (terminal_results db ++ [terminal_row_of job r now])%list |>
     <| notification_outbox := (notification_outbox db ++
          [mkOutboxRow (next_rowid ob_id (notification_outbox db)) (jb_ID job) (tr_Version r) body (reportKey job (tr_Version r))
             "pending" 0 (UnixMilli now) None "" None "" (UnixMilli now) (UnixMilli now)])%list |>
     <| jobs ::= update_where (fun j => (j_id j =? jb_ID job) && reportable (j_status j)) (fun j =>
          j <| j_status := StateReportPending |> <| j_due_at := UnixMilli now |>
            <| j_updated_at := UnixMilli now |> <| j_last_error := "" |> <| j_pre_outbox_attempts := 0 |>) |>.

(** A job whose result can be queued for the first time.  The last condition
    excludes a collision of the digest in the idempotency key. *)
Record unreported (db : DB) (job : Job) : Prop := mkUnreported {
  un_row : exists j, j ∈ jobs db /\ j_id j = jb_ID job /\ reportable (j_status j) = true;
  un_terminal : has_terminal db (jb_ID job) = false;
  un_outbox : has_outbox db (jb_ID job) = false;
  un_key : forall o version, o ∈ notification_outbox db -> ob_idempotency_key o <> reportKey job version }.

Lemma first_where_app_r {R} (p : R -> bool) t r :
  exists_where p t = false -> p r = true -> first_where p (t ++ [r]) = Some r.
Proof.
  rewrite exists_where_false. intros E Hr. induction t as [|x t IH]; simpl; [by rewrite Hr|].
  rewrite (E x) by left. apply IH. intros y Hy. apply E. by right.
Qed.

Lemma same_stored job r now : sameStoredTerminalResult (terminal_row_of job r now) r = true.
Proof. unfold sameStoredTerminalResult, terminal_row_of. simpl. rewrite !bool_decide_eq_true_2 by done. done. Qed.

Lemma count_job db job (p : string -> bool) :
  unique_rows job_imm differ2 (jobs db) -> (exists j, j ∈ jobs db /\ j_id j = jb_ID job /\ p (j_status j) = true) ->
  count_where (fun j => (j_id j =? jb_ID job) && p (j_status j)) (jobs db) = 1.
Proof.
  intros U (j & Hj & Ei & Ep). apply (count_where_one job_imm differ2 _ _ j); [done|done|by rewrite Ei, Ep, Z.eqb_refl|].
  intros x y Hx Hy [N _]. simpl in N. split_bools. lia.
Qed.

Lemma insert_terminal_fresh row db :
  has_terminal db (tm_job_id row) = false -> (exists j, j ∈ jobs db /\ j_id j = tm_job_id row) ->
  insert_terminal row db = Ok (db <| terminal_results := (terminal_results db ++ [row])%list |>).
Proof.
  intros Ht (j & Hj & Ei). unfold insert_terminal. rewrite Ht.
  rewrite (proj2 (exists_where_spec (fun j => j_id j =? tm_job_id row) (jobs db))); [done|].
  exists j. split; [done|]. lia.
Qed.

Lemma insert_outbox_fresh id version body key now db :
  has_outbox db id = false -> (forall o, o ∈ notification_outbox db -> ob_idempotency_key o <> key) ->
  insert_outbox id version body key now db = Ok (db <| notification_outbox := (notification_outbox db ++
    [mkOutboxRow (next_rowid ob_id (notification_outbox db)) id version body key "pending" 0
       (UnixMilli now) None "" None "" (UnixMilli now) (UnixMilli now)])%list |>).
Proof.
  intros Ho Hk. unfold insert_outbox. rewrite Ho.
  rewrite (proj2 (exists_where_false (fun o => ob_idempotency_key o == key) (notification_outbox db))); [done|].
  intros o Hin. apply bool_decide_eq_false. by apply Hk.
Qed.

Ltac reduce_queue := cbn [guard_err mbind res_bind of_option negb orb terminal_results notification_outbox jobs ob_version
  ob_body ob_idempotency_key with_field tm_result_json terminal_row_of tm_job_id].

Lemma QueueTerminalResult_first job r now db body :
  unique_rows job_imm differ2 (jobs db) -> unreported db job ->
  ValidateTerminalResult job r = Ok tt -> RenderTerminalComment job r = Ok body ->
  QueueTerminalResult job r now db = (queued_db job r body now db, Ok tt).
Proof.
  intros U [Hrow Ht Ho Hk] Hv Hb. unfold QueueTerminalResult. apply transact_ok. rewrite Hv, Hb. reduce_queue.
  rewrite insert_terminal_fresh; [|exact Ht|destruct Hrow as (j & ? & ? & _); by exists j]. reduce_queue.
  rewrite first_where_app_r; [|exact Ht|apply Z.eqb_refl]. reduce_queue.
  rewrite same_stored, bool_decide_eq_true_2 by done. reduce_queue.
  rewrite insert_outbox_fresh; [|exact Ho|intros; by apply Hk]. reduce_queue.
  rewrite first_where_app_r; [|exact Ho|apply Z.eqb_refl]. reduce_queue.
  rewrite !bool_decide_eq_true_2 by done. reduce_queue. rewrite count_job by done. reflexivity.
Qed.
End WithURL.
