(* ===== verification/WorkRouterFacts.v ===== *)
(** * What the work router guarantees

    A step of the worker leaves no claimed work behind and acts outside the
    process only under a durable claim; a release delivery is acknowledged only
    once it is recorded; an upload is done once per content.  The worker is
    verified against the interface of its executors, which the executors of the
    process then implement. *)

From stdpp Require Import relations gmap.
From S2P Require Import Prelude GoText GoSha256 GoJson LedgerModel LedgerModelFacts LedgerStore LedgerInv LedgerOps LedgerAdmission LedgerProps Envelope DispatchPolicy Config Broker Release WorkRouter.
Open Scope string_scope.
Open Scope Z_scope.
Open Scope go_scope.

(** ** Idle ledgers *)

(** Nothing is claimed. *)
Record idle (db : Ledger) : Prop := {
  idle_items : forall r, r ∈ work_items db -> it_state r <> StateActive;
  idle_attempts : forall a, a ∈ executor_attempts db -> aw_state a <> AttemptRunning;
  idle_leases : serialization_leases db = [] }.

Lemma idle_iff db : ledger_exec db -> idle db <-> serialization_leases db = [].
Proof.
  intros Hx. split; [apply idle_leases|]. intros E. split; [| |done].
  - intros r Hr Hs. destruct (xi_active _ _ _ Hx r Hr Hs) as (l & Hl & _). rewrite E in Hl. by apply elem_of_nil in Hl.
  - intros a Ha Hs. destruct (xi_running _ _ _ Hx a Ha Hs) as (l & Hl & _). rewrite E in Hl. by apply elem_of_nil in Hl.
Qed.

Lemma Claim_none now id db db' : Claim now id db = (db', Ok None) -> serialization_leases db' = serialization_leases db.
Proof.
  unfold Claim. rewrite transact_ok. cbv zeta. destruct (next_claim _ _); intros H; [|by simplify_eq].
  apply bind_ok in H as ([[? ?] ?] & _ & H). by simplify_eq.
Qed.

Lemma Complete_leases id result now db db' :
  Complete id result now db = (db', Ok tt) ->
  serialization_leases db' = delete_where (fun l => ls_attempt_id l == id) (serialization_leases db).
Proof.
  unfold Complete. rewrite transact_ok. intros H.
  apply bind_ok in H as (a & _ & H). open_guards H. apply bind_ok in H as (item & _ & H).
  apply bind_ok in H as (d & Hd & H). injection H as <-. cbn. f_equal.
  destruct (it_state item == StateSuperseded); [by simplify_eq|].
  destruct (it_state item != StateActive); [done|].
  apply bind_ok in Hd as (? & _ & Hd). apply bind_ok in Hd as (? & _ & Hd). by simplify_eq.
Qed.

(** ** Reasoning about actions *)

(** The weakest precondition of an action for its final state and result. *)
Definition wp {A} (m : action A) (Q : router_state -> res A -> Prop) (s : router_state) : Prop := Q (m s).1 (m s).2.

(** What a continuation must establish of an intermediate result. *)
Definition after {A B} (f : A -> action B) (Q : router_state -> res B -> Prop) (s : router_state) (r : res A) : Prop :=
  match r with Ok a => wp (f a) Q s | Err e => Q s (Err e) | Panic => Q s Panic end.

Lemma wp_bind {A B} (m : action A) (f : A -> action B) Q s : wp m (after f Q) s -> wp (m ≫= f) Q s.
Proof. unfold wp, after, mbind, action_bind. destruct (m s) as [s' [a|e|]]; done. Qed.

Lemma wp_try {A} (m : action A) Q s :
  wp m (fun s' r => match r with Ok a => Q s' (Ok (inl a)) | Err e => Q s' (Ok (inr e)) | Panic => Q s' Panic end) s ->
  wp (try m) Q s.
Proof. unfold wp, try. destruct (m s) as [s' [a|e|]]; done. Qed.

Lemma wp_ret {A} (a : A) Q s : Q s (Ok a) -> wp (mret a) Q s.
Proof. done. Qed.

Lemma wp_pure {A} (r : res A) Q s : Q s r -> wp (pure_res r) Q s.
Proof. done. Qed.

Lemma wp_reading {A} (f : Ledger -> A) Q s : Q s (Ok (f (rt_db s))) -> wp (reading f) Q s.
Proof. done. Qed.

Lemma wp_emit e Q s : Q (s <| rt_trace := (rt_trace s ++ [(rt_db s, e)])%list |>) (Ok tt) -> wp (emit e) Q s.
Proof. done. Qed.

Lemma wp_flag b Q s : Q (s <| rt_needsRecovery := b |>) (Ok tt) -> wp (set_recovery b) Q s.
Proof. done. Qed.

Lemma wp_ledger {A} (f : Ledger -> Ledger * res A) Q s :
  Q (s <| rt_db := (f (rt_db s)).1 |>) (f (rt_db s)).2 -> wp (on_ledger f) Q s.
Proof. unfold wp, on_ledger. destruct (f (rt_db s)); done. Qed.

Lemma wp_mono {A} (m : action A) (Q Q' : router_state -> res A -> Prop) s :
  wp m Q s -> (forall s' r, Q s' r -> Q' s' r) -> wp m Q' s.
Proof. unfold wp. auto. Qed.

(** ** The worker *)

(** What the worker asks of its executors: the store is used through its
    operations, and the claim is left to the worker. *)
Class SafeExecutor (E : Type) `{RunnableExecutor E} := {
  execute_steps : forall x item attempt s, rtc ledger_step (rt_db s) (rt_db (Execute x item attempt s).1);
  execute_claim : forall x item attempt s, same_exec (rt_db s) (rt_db (Execute x item attempt s).1);
  execute_flag : forall x item attempt s, rt_needsRecovery (Execute x item attempt s).1 = rt_needsRecovery s }.

(** The claim of an attempt is the only one. *)
Definition holds (id : string) (db : Ledger) : Prop := exists l, serialization_leases db = [l] /\ ls_attempt_id l = id.

(** A finished step: the ledger moved along its operations; unless the process
    crashed, nothing is claimed and no recovery is due. *)
Definition finished {A} (s s' : router_state) (r : res A) : Prop :=
  rtc ledger_step (rt_db s) (rt_db s') /\
  (r <> Panic -> serialization_leases (rt_db s') = [] /\ rt_needsRecovery s' = false).

Lemma finish_settles id result now s :
  holds id (rt_db s) -> rt_needsRecovery s = false ->
  wp (router_finish id result now) (fun s' r => finished s s' r /\ rt_trace s' = rt_trace s) s.
Proof.
  intros (l & El & Eid) Hn. unfold router_finish. apply wp_bind, wp_try, wp_ledger.
  destruct (Complete id result now (rt_db s)) as [db' r] eqn:Hc.
  assert (St : ledger_step (rt_db s) db') by (pose proof (step_complete id result now (rt_db s)) as St; by rewrite Hc in St).
  destruct r as [[]|e|]; cbn [fst snd after].
  - apply wp_ret. split; [|done]. split; [by apply rtc_once|]. intros _. split; [|done].
    apply Complete_leases in Hc. cbn. rewrite Hc, El. unfold delete_where. cbn. by rewrite Eid, bool_decide_eq_true_2.
  - apply wp_bind, wp_flag. cbn [after]. apply wp_bind, wp_try, wp_ledger. cbn.
    apply wp_bind, wp_flag. cbn [after]. apply wp_pure. split; [|done]. split; [|done].
    cbn. eapply rtc_l; [exact St|]. apply rtc_once, (step_recover now).
  - split; [|done]. split; [|done]. by apply rtc_once.
Qed.

Section Worker.
Context {E : Type} `{SafeExecutor E} (registry : gmap string E).

(** The run of an executor during a step: on a claim made in this step, by the
    executor the attempt names. *)
Definition ran (now : Z) (id : string) (s s1 : router_state) (x : E) (item : WorkItem) (attempt : ExecutorAttempt) : Prop :=
  (exists db0, rtc ledger_step (rt_db s) db0 /\ Claim now id db0 = (rt_db s1, Ok (Some (item, attempt)))) /\
  rt_trace s1 = rt_trace s /\ registry !! at_ExecutorID attempt = Some x /\
  ed_Version (Descriptor x) = at_ExecutorVersion attempt /\ ed_Kind (Descriptor x) = at_ExecutorKind attempt.

Definition step_post (now : Z) (id : string) (s s' : router_state) (r : res bool) : Prop :=
  finished s s' r /\
  (rt_trace s' = rt_trace s \/
   exists s1 x item attempt, ran now id s s1 x item attempt /\ rt_trace s' = rt_trace (Execute x item attempt s1).1).

(** After a claim, whatever the executor does, the attempt is finished. *)
Lemma finish_claimed now id s s1 s2 aid result :
  rtc ledger_step (rt_db s) (rt_db s2) -> holds aid (rt_db s2) -> rt_needsRecovery s2 = false ->
  (rt_trace s2 = rt_trace s \/
   exists x item attempt, ran now id s s1 x item attempt /\ rt_trace s2 = rt_trace (Execute x item attempt s1).1) ->
  wp (_ ← router_finish aid result now; mret true) (step_post now id s) s2.
Proof.
  intros Hs Hh Hn He. apply wp_bind. eapply wp_mono; [by apply finish_settles|].
  intros s3 r [[Hr Hf] Ee]. assert (Hs3 : rtc ledger_step (rt_db s) (rt_db s3)) by (by etrans).
  assert (He3 : rt_trace s3 = rt_trace s \/
     exists s1 x item attempt, ran now id s s1 x item attempt /\ rt_trace s3 = rt_trace (Execute x item attempt s1).1).
  { rewrite Ee. destruct He as [He|(x & item & attempt & He)]; [by left|right]. by exists s1, x, item, attempt. }
  destruct r as [[]|e|]; cbn [after]; repeat split; try done; by apply Hf.
Qed.

Lemma claim_step now id s :
  ledger_exec (rt_db s) -> serialization_leases (rt_db s) = [] -> rt_needsRecovery s = false ->
  wp (claim_and_run registry now id) (step_post now id s) s.
Proof.
  intros Hx El Hn. unfold claim_and_run. apply wp_bind, wp_ledger.
  destruct (Claim now id (rt_db s)) as [db1 r] eqn:Hc.
  assert (St : ledger_step (rt_db s) db1) by (pose proof (step_claim now id (rt_db s)) as St; by rewrite Hc in St).
  destruct r as [[[item attempt]|]|e|]; cbn [fst snd after].
  2: { apply wp_ret. split; [|by left]. split; [by apply rtc_once|]. intros _. cbn. split; [|done].
       apply Claim_none in Hc. congruence. }
  2: { split; [|by left]. split; [by apply rtc_once|]. intros _. cbn. split; [|done].
       unfold Claim in Hc. apply transact_err in Hc. congruence. }
  2: { split; [|by left]. split; [by apply rtc_once|done]. }
  pose proof Hc as Hc'. apply Claim_effect in Hc' as (r & row & _ & _ & _ & _ & _ & _ & _ & Hl); [|done].
  rewrite El in Hl.
  assert (Hh : holds (at_ID attempt) db1) by (eexists; split; [exact Hl|done]).
  unfold run_claimed, Resolve, of_option. destruct (registry !! at_ExecutorID attempt) as [x|] eqn:Er.
  2: { eapply (finish_claimed now id s s); cbn; eauto using rtc_once. }
  destruct (_ || _) eqn:Ev.
  { eapply (finish_claimed now id s s); cbn; eauto using rtc_once. }
  split_bools. apply wp_bind, wp_try. set (s1 := s <| rt_db := db1 |>).
  pose proof (execute_steps x item attempt s1) as Xs. pose proof (execute_claim x item attempt s1) as (_ & _ & Xl).
  pose proof (execute_flag x item attempt s1) as Xf.
  assert (Hran : ran now id s s1 x item attempt).
  { split_and!; try done. exists (rt_db s). by split. }
  unfold wp. destruct (Execute x item attempt s1) as [s2 a] eqn:Ex. cbn [fst snd] in *.
  assert (Hs2 : rtc ledger_step (rt_db s) (rt_db s2)) by (eapply rtc_l; [exact St|done]).
  assert (Hh2 : holds (at_ID attempt) (rt_db s2)) by (unfold holds; by rewrite Xl).
  destruct a as [a|e|]; cbn [after].
  1,2: apply (finish_claimed now id s s1); [done..|by rewrite Xf|right; exists x, item, attempt; by rewrite Ex].
  split; [by split|]. right. exists s1, x, item, attempt. by rewrite Ex.
Qed.

Lemma WorkOne_spec now id s :
  ledger_exec (rt_db s) -> (rt_needsRecovery s = false -> serialization_leases (rt_db s) = []) ->
  wp (WorkOne registry now id) (step_post now id s) s.
Proof.
  intros Hx Hs. unfold WorkOne, wp. destruct (rt_needsRecovery s) eqn:Hn.
  2: { apply (claim_step now id s); auto. }
  change (wp (_ ← (_ ← on_ledger (RecoverInterrupted now); set_recovery false); claim_and_run registry now id)
             (step_post now id s) s).
  apply wp_bind, wp_bind, wp_ledger. cbn [snd RecoverInterrupted after]. apply wp_flag. cbn [after].
  set (s0 := s <| rt_db := (RecoverInterrupted now (rt_db s)).1 |> <| rt_needsRecovery := false |>).
  assert (St : ledger_step (rt_db s) (rt_db s0)) by apply (step_recover now).
  eapply wp_mono; [apply (claim_step now id s0); [by apply RecoverInterrupted_exec|done..]|].
  intros s' r [[Hr Hf] He]. split; [split; [by eapply rtc_l|done]|].
  destruct He as [He|(s1 & x & item & attempt & ((db0 & Hd & Hc) & Hrest) & He)]; [by left|right].
  exists s1, x, item, attempt. split; [|done]. split; [|done]. exists db0. split; [by eapply rtc_l|done].
Qed.

(** A step of the worker moves the ledger along its operations and never
    strands what it claims: from a state where nothing is claimed or recovery
    is due, every step that returns, with or without an error, leaves no active
    item, no running attempt and no lease, so the next step starts afresh. *)
Theorem work_one_settles now id s :
  reachable (rt_db s) -> (rt_needsRecovery s = false -> idle (rt_db s)) ->
  let '(s', r) := WorkOne registry now id s in
  rtc ledger_step (rt_db s) (rt_db s') /\ (r <> Panic -> idle (rt_db s') /\ rt_needsRecovery s' = false).
Proof.
  intros Hr Hi. pose proof (WorkOne_spec now id s (reachable_exec _ Hr) (fun Hn => idle_leases _ (Hi Hn))) as [[Hs Hf] _].
  destruct (WorkOne registry now id s) as [s' r]. cbn [fst snd] in *. split; [done|]. intros Hp.
  destruct (Hf Hp) as [Hl Hn]. split; [|done]. apply idle_iff; [|done]. apply reachable_exec. unfold reachable in *; by etrans.
Qed.
End Worker.

(** ** The executors of the process *)

(** What an upload run leaves: the store moved along its operations without
    touching claims, the flag is kept, and the effects are a download of the
    release operation of the item, then an upload under its content digest. *)
Definition upload_effects (db : Ledger) (item : WorkItem) (attempt : ExecutorAttempt) (l : list effect) : Prop :=
  forall e, e ∈ l -> exists operation, loadReleaseOperation (wi_ID item) db = Ok operation /\
    find_content (ro_ComputedDigest operation) db = None /\
    match e with
    | EDownload op => op = operation
    | EUpload filename _ key =>
        key = "signal-plane:resume:v1:" ++ content_digest operation /\
        (at_ID attempt <> "" -> key = at_OperationIdempotencyKey attempt)
    | _ => False
    end.

Definition run_post (s s' : router_state) : Prop :=
  rtc ledger_step (rt_db s) (rt_db s') /\ same_exec (rt_db s) (rt_db s') /\ rt_needsRecovery s' = rt_needsRecovery s.

Lemma elem_of_pairs {A B} (a b : A) (x : B) l : (a, x) ∈ map (pair b) l <-> a = b /\ x ∈ l.
Proof. rewrite list_elem_of_fmap. split; [intros (y & [= -> ->] & Hy); done|intros [-> Hx]; by exists x]. Qed.

(** The effects between two states, all of them on the ledger [db]. *)
Definition emitted (db : Ledger) (s s' : router_state) (P : list effect -> Prop) : Prop :=
  exists l, rt_trace s' = (rt_trace s ++ map (pair db) l)%list /\ P l.

Lemma run_post_refl s : run_post s s.
Proof. repeat split; done. Qed.

Lemma upload_runs x item attempt s :
  let s' := (upload_Execute x item attempt s).1 in
  run_post s s' /\ emitted (rt_db s) s s' (upload_effects (rt_db s) item attempt).
Proof.
  cbv zeta.
  assert (W : wp (upload_Execute x item attempt)
                (fun s' _ => run_post s s' /\ emitted (rt_db s) s s' (upload_effects (rt_db s) item attempt)) s); [|exact W].
  assert (Q0 : forall s', rt_db s' = rt_db s -> rt_needsRecovery s' = rt_needsRecovery s -> run_post s s').
  { intros s' E1 E2. unfold run_post. rewrite E1, E2. repeat split; done. }
  assert (E0 : emitted (rt_db s) s s (upload_effects (rt_db s) item attempt)).
  { exists []. split; [by rewrite app_nil_r|]. intros e He. by apply elem_of_nil in He. }
  unfold upload_Execute. apply wp_bind, wp_try, wp_bind, wp_reading. cbn [after]. apply wp_pure.
  destruct (loadReleaseOperation (wi_ID item) (rt_db s)) as [operation|e|] eqn:Eo; cbn [after].
  2: { apply wp_ret. split; [by apply Q0|done]. }
  2: { split; [by apply Q0|done]. }
  apply wp_bind, wp_reading. cbn [after]. unfold ContentResult.
  destruct (find_content (ro_ComputedDigest operation) (rt_db s)) as [row|] eqn:Ec.
  { apply wp_ret. split; [by apply Q0|done]. }
  apply wp_bind, wp_emit. cbn [after].
  set (s1 := s <| rt_trace := _ |>).
  assert (E1 : emitted (rt_db s) s s1 (upload_effects (rt_db s) item attempt)).
  { exists [EDownload operation]. split; [reflexivity|]. intros e ->%list_elem_of_singleton. by exists operation. }
  apply wp_bind, wp_try, wp_pure. destruct (ux_DownloadVerified x operation) as [content|e|]; cbn [after].
  2: { apply wp_ret. split; [by apply Q0|done]. }
  2: { split; [by apply Q0|done]. }
  destruct (_ && _) eqn:Eg.
  { apply wp_ret. split; [by apply Q0|done]. }
  apply wp_bind, wp_emit. cbn [after]. set (s2 := s1 <| rt_trace := _ |>).
  assert (E2 : emitted (rt_db s) s s2 (upload_effects (rt_db s) item attempt)).
  { exists [EDownload operation; EUpload ("resume_" ++ content_digest operation ++ ".structured.md") content
                                   ("signal-plane:resume:v1:" ++ content_digest operation)].
    split; [cbn; by rewrite <- app_assoc|].
    intros e [->|[->|[]%elem_of_nil]%elem_of_cons]%elem_of_cons; exists operation; split_and!; try done.
    intros Hid. apply andb_false_iff in Eg as [Eg|Eg]; split_bools; [done|]. congruence. }
  apply wp_bind, wp_try, wp_pure. destruct (ux_Upload x _ content _) as [response|e|]; cbn [after].
  2: { apply wp_ret. split; [by apply Q0|done]. }
  2: { split; [by apply Q0|done]. }
  apply wp_bind, wp_ledger.
  match goal with |- after _ _ ?st _ => set (s3 := st) end.
  assert (R3 : run_post s s3).
  { split_and!; [|apply RecordContentResult_same|done]. apply rtc_once. apply step_content. }
  assert (E3 : emitted (rt_db s) s s3 (upload_effects (rt_db s) item attempt)) by exact E2.
  destruct (RecordContentResult _ _ _ _ _).2; cbn [after]; [apply wp_ret|..]; by split.
Qed.

Definition launch_effects (cfg : WorkItemLauncherConfig) (item : WorkItem) (attempt : ExecutorAttempt) (l : list effect) : Prop :=
  forall e, e ∈ l ->
    e = ELaunch (profile_for cfg (wi_AgentMode item)) (wi_ID item) (wi_ObjectID item) (at_IdempotencyKey attempt) /\
    profile_for cfg (wi_AgentMode item) <> "" /\ wi_AgentType item = wl_AgentType cfg /\ wi_ObjectKind item = "upload" /\
    wi_ObjectID item <> "".

Lemma launch_runs_item x item attempt s :
  let s' := (launch_Execute x item attempt s).1 in
  run_post s s' /\ emitted (rt_db s) s s' (launch_effects (lx_Config x) item attempt).
Proof.
  cbv zeta.
  assert (E0 : emitted (rt_db s) s s (launch_effects (lx_Config x) item attempt)).
  { exists []. split; [by rewrite app_nil_r|]. intros e He. by apply elem_of_nil in He. }
  unfold launch_Execute. destruct (lx_Broker x) as [launch|]; [|by split; [apply run_post_refl|]].
  destruct (wi_AgentType item != _) eqn:Ea; [by split; [apply run_post_refl|]|].
  destruct (_ || _) eqn:Eo; [by split; [apply run_post_refl|]|].
  destruct (profile_for _ _ == "") eqn:Ep; [by split; [apply run_post_refl|]|]. split_bools.
  split; [by repeat split|].
  eexists [ELaunch _ _ _ _]. split; [reflexivity|]. intros e ->%list_elem_of_singleton. done.
Qed.

Lemma executor_runs (x : executor) item attempt s : run_post s (Execute x item attempt s).1.
Proof. destruct x; [apply upload_runs|apply launch_runs_item|apply run_post_refl]. Qed.

(** The executors keep the interface the worker relies on. *)
#[export] Instance executor_safe : SafeExecutor executor.
Proof. split; intros x item attempt s; apply (executor_runs x item attempt s). Qed.

(** ** Effects follow claims *)

(** The durable claim behind an effect: an active item and its running attempt. *)
Definition claimed_for (db : Ledger) (row : item_row) (a : attempt_row) : Prop :=
  row ∈ work_items db /\ it_state row = StateActive /\ a ∈ executor_attempts db /\ aw_work_item_id a = it_id row /\
  aw_state a = AttemptRunning.

Lemma claimed_item_row r now : it_id (activate now r) = wi_ID (claimed_item r now) /\
  it_object_id (activate now r) = wi_ObjectID (claimed_item r now) /\
  it_object_kind (activate now r) = wi_ObjectKind (claimed_item r now) /\
  it_agent_type (activate now r) = wi_AgentType (claimed_item r now) /\
  it_agent_mode (activate now r) = wi_AgentMode (claimed_item r now).
Proof. done. Qed.

(** What an effect does is what the claim recorded. *)
Definition authorized (registry : gmap string executor) (db : Ledger) (row : item_row) (a : attempt_row) (e : effect) : Prop :=
  match e with
  | ELaunch profile item upload key =>
      exists x, registry !! aw_executor_id a = Some (LaunchExecutor x) /\
        item = it_id row /\ upload = it_object_id row /\ it_object_kind row = "upload" /\
        it_agent_type row = wl_AgentType (lx_Config x) /\ profile = profile_for (lx_Config x) (it_agent_mode row) /\
        profile <> "" /\ key = aw_idempotency_key a
  | EDownload operation => loadReleaseOperation (it_id row) db = Ok operation
  | EUpload _ _ key =>
      (aw_id a <> "" -> key = aw_operation_idempotency_key a) /\
      exists operation, loadReleaseOperation (it_id row) db = Ok operation /\
        find_content (ro_ComputedDigest operation) db = None
  | EAck | ETerm => False
  end.

(** C25: the worker acts outside the process only under a durable claim: at the moment of every
    download, upload or launch of a step the ledger, reached from the one before by its operations, holds the item
    active with its running attempt; a launch
    uses the profile the deployment maps the mode of the item to, its authoritative
    upload and the idempotency key of the attempt; an upload happens only for
    content that has no recorded result then, under the operation key of the attempt. *)
Theorem effects_follow_claim registry now id s :
  reachable (rt_db s) -> (rt_needsRecovery s = false -> idle (rt_db s)) ->
  exists new, rt_trace (WorkOne registry now id s).1 = (rt_trace s ++ new)%list /\
    forall db e, (db, e) ∈ new -> rtc ledger_step (rt_db s) db /\
      exists row a, claimed_for db row a /\ authorized registry db row a e.
Proof.
  intros Hr Hi.
  destruct (WorkOne_spec registry now id s (reachable_exec _ Hr) (fun Hn => idle_leases _ (Hi Hn)))
    as [_ [He|(s1 & x & item & attempt & ((db0 & Hs & Hc) & Ee & Er & _) & He)]].
  { exists []. split; [by rewrite app_nil_r|]. intros db e H. by apply elem_of_nil in H. }
  assert (St : rtc ledger_step (rt_db s) (rt_db s1)).
  { eapply rtc_r; [exact Hs|]. pose proof (step_claim now id db0) as St. by rewrite Hc in St. }
  apply Claim_effect in Hc as (r & row & _ & _ & _ & -> & Ha & Hw & (K1 & K2 & K3 & K4 & K5 & K6 & _) & _);
    [|apply reachable_exec; unfold reachable in *; by etrans].
  assert (Hcl : claimed_for (rt_db s1) (activate now r) row) by done.
  destruct x as [ux|lx|d].
  - destruct (upload_runs ux (claimed_item r now) attempt s1) as [_ (l & El & Hl)].
    eexists. split; [rewrite He, <- Ee; exact El|]. intros db e [-> Hin]%elem_of_pairs. split; [done|]. exists (activate now r), row.
    split; [done|]. destruct (Hl _ Hin) as (operation & Ho & Hf & Hk).
    destruct e; try done; cbn [authorized].
    + by subst.
    + destruct Hk as [-> Hk]. split; [rewrite K5, K1; exact Hk|]. by exists operation.
  - destruct (launch_runs_item lx (claimed_item r now) attempt s1) as [_ (l & El & Hl)].
    eexists. split; [rewrite He, <- Ee; exact El|]. intros db e [-> Hin]%elem_of_pairs. split; [done|]. exists (activate now r), row.
    split; [done|]. destruct (Hl _ Hin) as (-> & Hp & Ht & Hk & Ho). cbn [authorized].
    exists lx. rewrite K6. split_and!; try done.
  - exists []. split; [by rewrite app_nil_r, He|]. intros db e Hin. by apply elem_of_nil in Hin.
Qed.

(** ** Release deliveries *)

Lemma admit_recorded sid e op b now w v db db' out :
  admit_event sid e op b now w v db = (db', Ok out) -> DeliveryRecorded e db' = Ok true.
Proof.
  intros H%admit_ok. unfold DeliveryRecorded.
  destruct H as [s d dup item Ha Hf Hd Hop Hi|s d item db1 db2 db3 Ha Hf Hp Hop Hv].
  - rewrite Hf. rewrite Hd. by rewrite bool_decide_eq_true_2.
  - apply place_item_frame in Hp as (P1 & P2 & P3). apply store_operation_spec in Hop as (O1 & O2 & O3).
    apply insert_event_spec in Hv as (V1 & V2 & V3 & _).
    rewrite V3, O2, P2, (first_where_snoc _ _ _ Hf (same_delivery_self _ _ _ _ _)).
    by rewrite bool_decide_eq_true_2.
Qed.

(** The event a delivery carries, when it is a verified Resume Builder release. *)
Definition release_event (stream : string) (d : release_delivery) (event : Event) : Prop :=
  exists signal sequence, Unmarshal_signal (dl_Data d) = Some signal /\ dl_Sequence d = Ok sequence /\
    m_Source (sg_Meta signal) = "github" /\ GitHubAdapter_Normalize signal stream sequence = Ok event /\
    release_admission event = true.

(** The payload of a release delivery names the release of its event. *)
Definition release_identity (d : release_delivery) (event : Event) : Prop :=
  exists signal payload, Unmarshal_signal (dl_Data d) = Some signal /\
    decode_release_payload (sg_Payload signal) = Some payload /\ py_FullName payload = Release.Repository /\
    ObjectID event = fmt_d (py_Release payload).

Definition dead_lettered (event : Event) (db : Ledger) : Prop :=
  exists row, row ∈ ingress_failures db /\ in_source row = Source event /\ in_namespace row = Namespace event /\
    in_source_delivery_id row = SourceDeliveryID event.

(** What one delivery does: at most one acknowledgement. *)
Inductive delivery_outcome (stream : string) (d : release_delivery) (db : Ledger) : list effect -> Prop :=
  | delivered_none : delivery_outcome stream d db []
  | delivered_ack event :
      release_event stream d event -> DeliveryRecorded event db = Ok true -> delivery_outcome stream d db [EAck]
  | delivered_refused :
      ~ (exists event, release_event stream d event /\ release_identity d event) -> delivery_outcome stream d db [ETerm]
  | delivered_dead event :
      release_event stream d event -> 5 <= dl_NumDelivered d -> dead_lettered event db ->
      delivery_outcome stream d db [ETerm].

Lemma RecordIngressFailure_row e c n now db db' :
  RecordIngressFailure e c n now db = (db', Ok tt) -> dead_lettered e db'.
Proof.
  unfold RecordIngressFailure. destruct (_ || _); [done|]. cbv zeta.
  match goal with |- context [exists_where ?p _] => set (same := p) end.
  destruct (exists_where same _) eqn:Ex; intros [= <-].
  - apply exists_where_spec in Ex as (row & Hr & Hs).
    eexists. split; [apply update_where_spec; exists row; split; [done|]; by rewrite Hs|].
    unfold same in Hs. split_bools. done.
  - eexists. split; [apply elem_of_app; right; by left|done].
Qed.

Lemma release_event_unique stream d e1 e2 : release_event stream d e1 -> release_event stream d e2 -> e1 = e2.
Proof.
  intros (s1 & q1 & U1 & S1 & _ & N1 & _) (s2 & q2 & U2 & S2 & _ & N2 & _). congruence.
Qed.

(** The postcondition of a delivery. *)
Definition delivery_post (stream : string) (d : release_delivery) (s s' : router_state) : Prop :=
  rtc ledger_step (rt_db s) (rt_db s') /\ emitted (rt_db s') s s' (delivery_outcome stream d (rt_db s')).

Lemma post_none {A} stream d s (r : res A) : wp (pure_res r) (fun s' _ => delivery_post stream d s s') s.
Proof. split; [apply rtc_refl|]. exists []. split; [by rewrite app_nil_r|constructor]. Qed.

Lemma post_ack stream d s s1 event :
  rtc ledger_step (rt_db s) (rt_db s1) -> rt_trace s1 = rt_trace s -> release_event stream d event ->
  DeliveryRecorded event (rt_db s1) = Ok true -> wp (ack d) (fun s' _ => delivery_post stream d s s') s1.
Proof.
  intros Hs He Hev Hr. split; [done|]. exists [EAck]. unfold wp, ack. split; [|by apply (delivered_ack _ _ _ event)].
  change ((rt_trace s1 ++ [(rt_db s1, EAck)])%list = (rt_trace s ++ [(rt_db s1, EAck)])%list). by rewrite He.
Qed.

Lemma post_term {A} stream d s e :
  ~ (exists event, release_event stream d event /\ release_identity d event) ->
  wp (terminate (A := A) e) (fun s' _ => delivery_post stream d s s') s.
Proof. intros Hn. split; [apply rtc_refl|]. exists [ETerm]. split; [done|]. by apply delivered_refused. Qed.

Lemma post_retry stream d event c cause now s :
  release_event stream d event -> wp (retryOrDeadLetter d event c cause now) (fun s' _ => delivery_post stream d s s') s.
Proof.
  intros Hev. unfold retryOrDeadLetter. destruct (dl_NumDelivered d <? 5) eqn:En; [apply post_none|]. split_bools.
  apply wp_bind, wp_try, wp_ledger.
  pose proof (step_ingress event c (dl_NumDelivered d) now (rt_db s)) as St.
  destruct (RecordIngressFailure _ _ _ _ _) as [db' [[]|e|]] eqn:Er; cbn [fst snd after] in *.
  - apply RecordIngressFailure_row in Er.
    assert (P : forall (X : Type) (r : res X), delivery_post stream d s (s <| rt_db := db' |> <| rt_trace := (rt_trace s ++ [(db', ETerm)])%list |>)).
    { intros _ _. split; [by apply rtc_once|]. exists [ETerm]. split; [done|]. by apply (delivered_dead _ _ _ event). }
    apply wp_bind, wp_emit. cbn [after]. apply wp_bind, wp_pure.
    destruct (dl_Term d) as [[]|e|]; cbn [after]; [apply wp_pure|..]; by apply (P unit (Ok tt)).
  - apply wp_pure. split; [by apply rtc_once|]. exists []. split; [by rewrite app_nil_r|constructor].
  - split; [by apply rtc_once|]. exists []. split; [by rewrite app_nil_r|constructor].
Qed.

(** What a delivery does, on every branch of [Process]. *)
Lemma delivery_spec hydrate stream d now w v s :
  newID_format "work" w = true -> wp (Process hydrate stream d now w v) (fun s' _ => delivery_post stream d s s') s.
Proof.
  intros Hw.
  unfold Process. destruct (Unmarshal_signal (dl_Data d)) as [signal|] eqn:Eu.
  2: { apply post_term. intros (ev & (sg & _ & E & _) & _). congruence. }
  apply wp_bind, wp_pure. destruct (dl_Sequence d) as [sequence|e|] eqn:Eq; cbn [after]; [|apply (post_none (A := unit) _ _ _ (Err e))|apply (post_none (A := unit) _ _ _ Panic)].
  destruct (_ ← AdapterFor _; _) as [event|e|] eqn:En.
  2: { apply post_term. intros (ev & (sg & q & E1 & E2 & E3 & E4 & _) & _). simplify_eq.
       unfold AdapterFor in En. rewrite bool_decide_eq_true_2 in En by done. cbn in En. congruence. }
  2: { apply post_none. }
  apply bind_unit_ok in En as [Ea En]. unfold AdapterFor in Ea. case_bool_decide as Es; [|done]. clear Ea.
  destruct (release_admission event) eqn:Er; cbn [negb].
  2: { apply post_term. intros (ev & (sg & q & E1 & E2 & E3 & E4 & E5) & _). congruence. }
  assert (Hev : release_event stream d event) by (by exists signal, sequence).
  apply wp_bind, wp_reading. cbn [after]. apply wp_bind, wp_pure.
  destruct (DeliveryRecorded event (rt_db s)) as [[]|e|] eqn:Ed; cbn [after];
    [by apply (post_ack _ _ _ _ event); [apply rtc_refl|..]| |apply (post_none (A := unit) _ _ _ (Err e))|apply (post_none (A := unit) _ _ _ Panic)].
  destruct (decode_release_payload (sg_Payload signal)) as [payload|] eqn:Ep.
  2: { apply post_term. intros (ev & _ & (sg & p & E1 & E2 & _)). congruence. }
  destruct (_ || _) eqn:Ei.
  { apply post_term. intros (ev & H1 & (sg & p & E1 & E2 & E3 & E4)).
    rewrite (release_event_unique _ _ _ _ H1 Hev) in E4. simplify_eq.
    apply orb_true_iff in Ei as [Ei|Ei]; split_bools; congruence. }
  apply wp_bind, wp_try, wp_pure. destruct (hydrate _ _ _) as [operation|e|]; cbn [after];
    [|by apply post_retry|apply (post_none (A := unit) _ _ _ Panic)].
  apply wp_bind, wp_reading. cbn [after]. apply wp_bind, wp_pure.
  destruct (MatchRoute event (rt_db s)) as [snapshot|e|]; cbn [after];
    [|apply (post_none (A := unit) _ _ _ (Err e))|apply (post_none (A := unit) _ _ _ Panic)].
  destruct (rs_ExecutorID snapshot != _); [apply post_none|].
  apply wp_bind, wp_ledger. unfold AdmitRelease.
  destruct (ReleaseOperation_Validate operation) as [u|e|]; cbn [fst snd after];
    [|apply (post_none (A := unit) _ _ s (Err e))|apply (post_none (A := unit) _ _ s Panic)].
  pose proof (step_admit (rs_ID snapshot) event (Some operation) zero_binding now w v (rt_db s) Hw) as St.
  destruct (admit_event _ _ _ _ _ _ _ _) as [db' [out|e|]] eqn:Em; cbn [fst snd after] in *.
  - apply admit_recorded in Em. apply (post_ack _ _ _ _ event); [by apply rtc_once|done..].
  - split; [by apply rtc_once|]. exists []. split; [by rewrite app_nil_r|constructor].
  - split; [by apply rtc_once|]. exists []. split; [by rewrite app_nil_r|constructor].
Qed.

(** C26: a release delivery is acknowledged only when its event is recorded in
    the ledger, now or before; it is discarded only when it is not a verified
    Resume Builder release with a matching payload, or when its hydration has
    failed on the fifth delivery and the failure is recorded; otherwise it is
    left for redelivery.  Whatever happens, the ledger moves along its
    operations. *)
Theorem release_delivery_outcome hydrate stream d now w v s :
  newID_format "work" w = true ->
  let s' := (Process hydrate stream d now w v s).1 in
  rtc ledger_step (rt_db s) (rt_db s') /\
  exists new, rt_trace s' = (rt_trace s ++ map (pair (rt_db s')) new)%list /\ delivery_outcome stream d (rt_db s') new.
Proof. intros Hw. exact (delivery_spec hydrate stream d now w v s Hw). Qed.

(** ** Concrete runs *)

Definition launch_route : RouteDefinition :=
  mkRouteDefinition "upload-curation" 1 "1.0.0" "curator_launch_v1"
    (mkAdmissionPolicy (Some ["youknowme"]) (Some ["uploads"]) (Some ["upload"]) (Some ["upload"]) (Some ["completed"]))
    (mkConcurrencyPolicy "object" true) (mkRetryPolicy 3 (Some [Minute; 5 * Minute])).
Definition launch_descriptor : ExecutorDescriptor := mkExecutorDescriptor "curator_launch_v1" ExecutorDeterministicTool "v1".
Definition upload_event : Event :=
  mkEvent "signal-1" "delivery-1" "SIGNALS" 7 "youknowme" "uploads" "upload" "upload-42"
    "upload" "completed" "human" "rev-1" "" "" "" "" "" "" 0 None "sha256:00" "jetstream://SIGNALS/7" 0.
Definition curator : AgentBinding := mkAgentBinding "curator" "review" "rev-1" 0 "" "" "" 0.
Definition upload_admitted : Ledger :=
  (AdmitWithAgent "route-0b" upload_event curator t0 "work-0a" "event-0a"
     (saveRoute launch_route launch_descriptor t0 "route-0b" empty_ledger).1).1.
Definition launch_registry : gmap string executor :=
  {[ "curator_launch_v1" := LaunchExecutor (mkLaunchExecutor
       (mkWorkItemLauncherConfig true "curator" "curator_launch_v1" "" "v1" [("review", "curator-review")])
       (Some (fun _ _ _ _ => inl (mkLaunchResult "v1" "run-1")))) ]}.
Definition router_start : router_state := mkRouterState upload_admitted false [].

Lemma upload_admitted_reachable : reachable upload_admitted.
Proof.
  eapply rtc_r; [eapply rtc_r; [apply rtc_refl|apply step_save]|]. unfold upload_admitted, AdmitWithAgent.
  apply step_admit. reflexivity.
Qed.

Lemma upload_admitted_idle : idle upload_admitted.
Proof. apply idle_iff; [apply reachable_exec, upload_admitted_reachable|]. vm_compute. reflexivity. Qed.

Lemma launch_run : match WorkOne launch_registry (t0 + Second) "attempt-0a" router_start with
  | (s', Ok true) => match rt_effects s' with
                      | [ELaunch p w u _] => (p == "curator-review") && (w == "work-0a") && (u == "upload-42")
                      | _ => false end
  | _ => false end = true.
Proof. vm_compute. reflexivity. Qed.

Lemma work_one_settles_witness :
  exists s', WorkOne launch_registry (t0 + Second) "attempt-0a" router_start = (s', Ok true) /\ idle (rt_db s').
Proof.
  pose proof (work_one_settles launch_registry (t0 + Second) "attempt-0a" router_start upload_admitted_reachable
                (fun _ => upload_admitted_idle)) as H.
  pose proof launch_run as L. destruct (WorkOne _ _ _ _) as [s' [[]|e|]]; [|discriminate L..].
  exists s'. split; [reflexivity|]. apply H. discriminate.
Defined.

Lemma effects_follow_claim_witness :
  exists key db row a, rt_trace (WorkOne launch_registry (t0 + Second) "attempt-0a" router_start).1 = [(db, ELaunch "curator-review" "work-0a" "upload-42" key)] /\
    rtc ledger_step upload_admitted db /\ claimed_for db row a /\
    authorized launch_registry db row a (ELaunch "curator-review" "work-0a" "upload-42" key).
Proof.
  destruct (effects_follow_claim launch_registry (t0 + Second) "attempt-0a" router_start upload_admitted_reachable
                (fun _ => upload_admitted_idle)) as (new & E & H).
  pose proof launch_run as L. destruct (WorkOne _ _ _ _) as [s' [[]|e|]]; [|discriminate L..].
  cbn [fst rt_trace router_start app] in E |- *. unfold rt_effects in L. rewrite E in L |- *.
  destruct new as [|[db [| | | |p w u key]] [|]]; try discriminate L. cbn [map snd] in L.
  split_bools. subst. destruct (H db _ (list_elem_of_here _ _)) as (Hs & row & a & Hc & Ha).
  exists key, db, row, a. split_and!; [reflexivity|exact Hs|exact Hc|exact Ha].
Defined.

(** A release of the resume builder, hydrated by a reader that finds it. *)
Definition release_text : string := quoted (
  "{'meta':{'signal_id':'s1','source':'github','route_id':'resume','received_at':'2026-01-02T03:04:05Z','source_event':'release',"
  ++ "'source_action':'published','source_delivery_id':'d1','namespace':'grubbyhacker/resume-builder','object_kind':'release',"
  ++ "'object_id':'42','source_revision':'rev-1','actor_class':'human','hop_count':0,"
  ++ "'authentication':{'method':'github_hmac_sha256','verified':true}},"
  ++ "'payload':{'repository':{'id':7,'full_name':'grubbyhacker/resume-builder'},'installation':{'id':146625575},'release':{'id':42}}}").
Definition release_delivered : release_delivery := mkReleaseDelivery release_text (Ok 9) (Ok tt) (Ok tt) 1.
Definition release_sha : string := "abcdef0123456789abcdef0123456789abcdef01".
Definition release_digest : string := "sha256:" ++ sha256_hex "resume".
Definition release_found (repository installation release : Z) : res ReleaseOperation :=
  Ok (mkReleaseOperation repository installation release Release.Repository "v2026.01.02-abcdef0" "2026-01-02T03:04:05Z"
        release_sha release_sha 5 6 "resume_20260102.structured.md" "text/markdown" release_digest release_digest).
Definition release_start : router_state := mkRouterState sample_active false [].

Lemma release_run : match Process release_found "SIGNALS" release_delivered t0 "work-0c" "event-0c" release_start with
  | (s', Ok tt) => match rt_effects s' with [EAck] => true | _ => false end
  | _ => false end = true.
Proof. vm_compute. reflexivity. Qed.

Lemma release_delivery_outcome_witness :
  exists s' event, Process release_found "SIGNALS" release_delivered t0 "work-0c" "event-0c" release_start = (s', Ok tt) /\
    release_event "SIGNALS" release_delivered event /\ DeliveryRecorded event (rt_db s') = Ok true.
Proof.
  destruct (release_delivery_outcome release_found "SIGNALS" release_delivered t0 "work-0c" "event-0c" release_start)
    as (_ & new & E & H); [reflexivity|].
  pose proof release_run as L. destruct (Process _ _ _ _ _ _ _) as [s' [[]|e|]]; [|discriminate L..].
  cbn [fst rt_trace release_start app] in E, H. exists s'. unfold rt_effects in L. rewrite E in L. destruct H as [|event Hev Hr| |]; try discriminate L.
  exists event. done.
Defined.
