(* ===== verification/GoTime.v ===== *)
(** * Writing times

    [Time.MarshalJSON]: an instant as RFC 3339 text in UTC with its nanoseconds,
    and the proof that [Time.UnmarshalJSON] reads it back.  A time the program
    parsed with another zone is written in that zone by the library; the model
    keeps instants and writes UTC. *)

From S2P Require Import Prelude GoText GoJson LedgerModel Envelope.
From Stdlib Require Import Ascii.
Open Scope string_scope.
Open Scope Z_scope.
Open Scope go_scope.

(** ** The calendar *)

(** The month and the day of a day of a year that starts on March 1st. *)
Definition month_day (doy : Z) : Z * Z :=
  let mp := (5 * doy + 2) / 153 in
  (if mp <? 10 then mp + 3 else mp - 9, doy - (153 * mp + 2) / 5 + 1).

(** The date of a day of the 400-year cycle that starts on March 1st of year 0:
    years since then, month and day of the month.  The last day of a cycle, of a
    group of four years and of the cycle of a century is a leap day. *)
Definition cycle_date (doe : Z) : Z * Z * Z :=
  let c := Z.min 3 (doe / 36524) in
  let d := doe - 36524 * c in
  let q := d / 1461 in
  let d := d - 1461 * q in
  let y := Z.min 3 (d / 365) in
  let '(m, day) := month_day (d - 365 * y) in
  (100 * c + 4 * q + y, m, day).

Definition civil_from_days (days : Z) : Z * Z * Z :=
  let z := days + 719468 in
  let '(yoe, m, d) := cycle_date (z mod 146097) in
  (400 * (z / 146097) + yoe + (if m <=? 2 then 1 else 0), m, d).

(** What the months must satisfy, day by day. *)
Definition months_ok (doy : Z) : bool :=
  let '(m, d) := month_day doy in
  (1 <=? m) && (m <=? 12) && (1 <=? d)
  && (if doy =? 365 then (m =? 2) && (d =? 29) else d <=? (if m =? 2 then 28 else days_in m 1))
  && ((153 * (if 2 <? m then m - 3 else m + 9) + 2) / 5 + d - 1 =? doy).

Fixpoint holds_from (f : Z -> bool) (n : nat) (z : Z) : bool :=
  match n with
  | O => true
  | S k => if f z then holds_from f k (z + 1) else false
  end.

Lemma holds_from_spec f n z x : holds_from f n z = true -> z <= x < z + Z.of_nat n -> f x = true.
Proof.
  revert z. induction n as [|n IH]; cbn [holds_from]; intros z H Hx; [lia|].
  destruct (f z) eqn:Ef; [|done]. destruct (decide (x = z)) as [->|]; [done|]. apply (IH (z + 1)); [done|lia].
Qed.

Lemma months_hold : holds_from months_ok 366 0 = true.
Proof. vm_compute. reflexivity. Qed.

Lemma month_day_ok doy :
  0 <= doy <= 365 ->
  let '(m, d) := month_day doy in
  1 <= m <= 12 /\ 1 <= d /\ (153 * (if 2 <? m then m - 3 else m + 9) + 2) / 5 + d - 1 = doy /\ (doy = 365 -> m = 2) /\
  forall y, (doy = 365 -> is_leap y = true) -> d <= days_in m y.
Proof.
  intros Hd. pose proof (holds_from_spec _ _ _ doy months_hold ltac:(lia)) as Hm. unfold months_ok in Hm.
  destruct (month_day doy) as [m d]. rewrite !andb_true_iff, !Z.leb_le, Z.eqb_eq in Hm. destruct Hm as ((((M1 & M2) & M3) & M4) & M5).
  split_and!; try lia.
  { intros ->. apply andb_true_iff in M4 as [M4%Z.eqb_eq _]. done. }
  intros y Hy. destruct (Z.eqb_spec doy 365) as [E|E].
  - apply andb_true_iff in M4 as [->%Z.eqb_eq ->%Z.eqb_eq]. unfold days_in. cbn. by rewrite (Hy E).
  - apply Z.leb_le in M4. unfold days_in in *. destruct (m =? 2); [destruct (is_leap y); lia|done].
Qed.

(** The parts of a day of the cycle. *)
Lemma cycle_parts doe :
  0 <= doe < 146097 ->
  let c := Z.min 3 (doe / 36524) in let q := (doe - 36524 * c) / 1461 in
  let y := Z.min 3 ((doe - 36524 * c - 1461 * q) / 365) in let doy := doe - 36524 * c - 1461 * q - 365 * y in
  0 <= c <= 3 /\ 0 <= q <= 24 /\ 0 <= y <= 3 /\ 0 <= doy <= 365 /\ (doy = 365 -> y = 3 /\ (q < 24 \/ c = 3)).
Proof.
  intros Hd c q y doy. assert (B : forall a b, 0 < b -> b * (a / b) <= a < b * (a / b) + b).
  { intros a b Hb. pose proof (Z.div_mod a b ltac:(lia)). pose proof (Z.mod_pos_bound a b Hb). lia. }
  pose proof (B doe 36524 ltac:(lia)). pose proof (B (doe - 36524 * c) 1461 ltac:(lia)) as Bq.
  pose proof (B (doe - 36524 * c - 1461 * q) 365 ltac:(lia)) as By. change ((doe - 36524 * c) / 1461) with q in Bq.
  assert (Hc : 0 <= c <= 3 /\ 36524 * c <= doe /\ (c = 3 \/ doe < 36524 * c + 36524)) by (unfold c; lia).
  unfold doy, y. lia.
Qed.

Lemma cycle_date_ok doe :
  0 <= doe < 146097 ->
  let '(yoe, m, d) := cycle_date doe in
  0 <= yoe < 400 /\ 1 <= m <= 12 /\ 1 <= d <= days_in m (yoe + (if m <=? 2 then 1 else 0)) /\
  yoe * 365 + yoe / 4 - yoe / 100 + ((153 * (if 2 <? m then m - 3 else m + 9) + 2) / 5 + d - 1) = doe.
Proof.
  intros Hd. pose proof (cycle_parts doe Hd) as P. unfold cycle_date. cbv zeta in *.
  set (c := Z.min 3 (doe / 36524)) in *. set (q := (doe - 36524 * c) / 1461) in *.
  set (y := Z.min 3 ((doe - 36524 * c - 1461 * q) / 365)) in *. destruct P as (P1 & P2 & P3 & P4 & P5).
  pose proof (month_day_ok _ P4) as M. destruct (month_day _) as [m d]. destruct M as (M1 & M2 & M3 & M4 & M5).
  assert (E4 : (100 * c + 4 * q + y) / 4 = 25 * c + q) by (symmetry; apply (Z.div_unique _ 4 _ y); lia).
  assert (E100 : (100 * c + 4 * q + y) / 100 = c) by (symmetry; apply (Z.div_unique _ 100 _ (4 * q + y)); lia).
  split_and!; try lia. apply M5. intros E. destruct (P5 E) as [Ey Hq]. rewrite (M4 E), Ey. change (if 2 <=? 2 then 1 else 0) with 1. unfold is_leap.
  replace (100 * c + 4 * q + 3 + 1) with ((25 * c + (q + 1)) * 4) by lia. rewrite Z.mod_mul by lia.
  destruct (Z.eqb_spec (((25 * c + (q + 1)) * 4) mod 100) 0) as [Eh|]; [|done]. destruct Hq as [Hq|Hc].
  - rewrite <- (Z.mod_unique _ 100 c (4 * q + 4)) in Eh; lia.
  - rewrite Hc in *. destruct (decide (q = 24)) as [->|Hq]; [done|].
    rewrite <- (Z.mod_unique _ 100 3 (4 * q + 4)) in Eh; lia.
Qed.

Lemma is_leap_mod k y : is_leap (400 * k + y) = is_leap y.
Proof.
  unfold is_leap. replace (400 * k + y) with (y + (100 * k) * 4) at 1 by lia. rewrite Z.mod_add by done.
  replace (400 * k + y) with (y + (4 * k) * 100) at 1 by lia. rewrite Z.mod_add by done.
  replace (400 * k + y) with (y + k * 400) by lia. by rewrite Z.mod_add by done.
Qed.

Lemma civil_days days :
  let '(y, m, d) := civil_from_days days in
  days_from_civil y m d = days /\ 1 <= m <= 12 /\ 1 <= d <= days_in m y.
Proof.
  unfold civil_from_days. set (z := days + 719468).
  assert (Hd : 0 <= z mod 146097 < 146097) by (apply Z.mod_pos_bound; lia).
  pose proof (cycle_date_ok _ Hd) as Hc. destruct (cycle_date (z mod 146097)) as [[yoe m] d].
  destruct Hc as (C1 & C4 & [C5 C6] & C7).
  set (k := z / 146097) in *. assert (Hz : z = 146097 * k + z mod 146097) by (apply Z.div_mod; lia).
  split_and!; [|lia|lia|lia|].
  - unfold days_from_civil.
    replace (if m <=? 2 then 400 * k + yoe + (if m <=? 2 then 1 else 0) - 1 else 400 * k + yoe + (if m <=? 2 then 1 else 0))
      with (yoe + k * 400) by (destruct (m <=? 2); lia).
    rewrite Z.mod_add, Z.div_add, (Z.mod_small yoe), (Z.div_small yoe) by lia. unfold z in *. lia.
  - revert C6. unfold days_in. replace (400 * k + yoe + (if m <=? 2 then 1 else 0)) with (400 * k + (yoe + (if m <=? 2 then 1 else 0))) by lia.
    by rewrite is_leap_mod.
Qed.

(** ** The text of a time *)

Definition pad2 (n : Z) : string := String (digit (n / 10)) (String (digit (n mod 10)) "").
Definition pad4 (n : Z) : string := pad2 (n / 100) ++ pad2 (n mod 100).
Definition pad9 (n : Z) : string := pad4 (n / 100000) ++ pad4 (n / 10 mod 10000) ++ String (digit (n mod 10)) "".

(** Without its trailing zeros. *)
Fixpoint trim_zeros (s : string) : string :=
  match s with
  | EmptyString => ""
  | String c s' => match trim_zeros s' with
                   | EmptyString => if Ascii.eqb c "0" then "" else String c ""
                   | t => String c t
                   end
  end.

(** [Time.Format] with the layout RFC3339Nano, in UTC. *)
Definition Format_RFC3339 (t : Z) : string :=
  let seconds := t / Second in
  let nanos := t mod Second in
  let '(y, m, d) := civil_from_days (seconds / 86400) in
  let clock := seconds mod 86400 in
  pad4 y ++ "-" ++ pad2 m ++ "-" ++ pad2 d ++ "T" ++ pad2 (clock / 3600) ++ ":" ++ pad2 (clock / 60 mod 60) ++ ":"
  ++ pad2 (clock mod 60) ++ (if nanos =? 0 then "" else "." ++ trim_zeros (pad9 nanos)) ++ "Z".

Definition year_of (t : Z) : Z := let '(y, _, _) := civil_from_days (t / Second / 86400) in y.
(** [Time.MarshalJSON] fails for years it cannot write. *)
Definition writable (t : Z) : bool := (0 <=? year_of t) && (year_of t <=? 9999).

Example Format_RFC3339_ex :
  map Format_RFC3339 [0; 1782909015250000000; ZeroTime; 1709177400000000001]
  = ["1970-01-01T00:00:00Z"; "2026-07-01T12:30:15.25Z"; "0001-01-01T00:00:00Z"; "2024-02-29T03:30:00.000000001Z"].
Proof. vm_compute. reflexivity. Qed.

(** *** Digits *)

Lemma dec2_pad n : 0 <= n < 100 -> dec2 (digit (n / 10)) (digit (n mod 10)) = n.
Proof.
  intros Hn. unfold dec2. pose proof (Z.div_mod n 10 ltac:(lia)). pose proof (Z.mod_pos_bound n 10 ltac:(lia)).
  assert (0 <= n / 10 < 10) by (split; [apply Z.div_pos; lia|apply Z.div_lt_upper_bound; lia]).
  rewrite !code_digit by lia. lia.
Qed.

Lemma digit_ok n : 0 <= n < 10 -> is_digit (digit n) = true /\ code (digit n) = 48 + n.
Proof. intros Hn. split; [by apply is_digit_digit|by apply code_digit]. Qed.

Lemma pad2_digits n : 0 <= n < 100 -> is_digit (digit (n / 10)) = true /\ is_digit (digit (n mod 10)) = true.
Proof.
  intros Hn. split; apply is_digit_digit; [split; [apply Z.div_pos; lia|apply Z.div_lt_upper_bound; lia]|apply Z.mod_pos_bound; lia].
Qed.

Lemma digits_value_app v s1 s2 : digits_value v (s1 ++ s2) = match digits_value v s1 with Some x => digits_value x s2 | None => None end.
Proof. revert v. induction s1 as [|c s1 IH]; intros v; cbn; [done|]. by destruct (is_digit c). Qed.

Lemma digits_value_pad2 v n : 0 <= n < 100 -> digits_value v (pad2 n) = Some (100 * v + n).
Proof.
  intros Hn. destruct (pad2_digits n Hn) as [D1 D2]. unfold pad2. cbn [digits_value]. rewrite D1, D2. f_equal.
  pose proof (dec2_pad n Hn) as E. unfold dec2 in E. lia.
Qed.

Lemma digits_value_pad4 v n : 0 <= n < 10000 -> digits_value v (pad4 n) = Some (10000 * v + n).
Proof.
  intros Hn. unfold pad4. rewrite digits_value_app.
  assert (0 <= n / 100 < 100) by (split; [apply Z.div_pos; lia|apply Z.div_lt_upper_bound; lia]).
  rewrite !digits_value_pad2 by (try apply Z.mod_pos_bound; lia). f_equal. pose proof (Z.div_mod n 100 ltac:(lia)). lia.
Qed.

Lemma digits_value_pad9 n : 0 <= n < Second -> digits_value 0 (pad9 n) = Some n.
Proof.
  intros Hn. unfold pad9, Second in *.
  assert (0 <= n / 100000 < 10000) by (split; [apply Z.div_pos; lia|apply Z.div_lt_upper_bound; lia]).
  rewrite digits_value_app, digits_value_pad4 by lia.
  rewrite digits_value_app, digits_value_pad4 by (apply Z.mod_pos_bound; lia).
  destruct (digit_ok (n mod 10)) as [D C]; [apply Z.mod_pos_bound; lia|]. cbn [digits_value]. rewrite D, C. f_equal.
  pose proof (Z.div_mod n 10 ltac:(lia)). pose proof (Z.div_mod (n / 10) 10000 ltac:(lia)).
  rewrite Z.div_div in * by lia. change (10 * 10000) with 100000 in *. lia.
Qed.

(** *** The fraction *)

Fixpoint zeros (k : nat) : string := match k with O => "" | S k => String "0" (zeros k) end.

Lemma trim_zeros_spec s : exists k, s = trim_zeros s ++ zeros k.
Proof.
  induction s as [|c s [k IH]]; [by exists O|]. cbn [trim_zeros]. destruct (trim_zeros s) as [|c' t] eqn:E.
  - destruct (Ascii.eqb_spec c "0") as [->|]; [exists (S k)|exists k]; cbn in *; by rewrite IH at 1.
  - exists k. cbn [String.append] in *. by rewrite IH at 1.
Qed.

Lemma zeros_value k v : digits_value v (zeros k) = Some (v * 10 ^ Z.of_nat k).
Proof.
  revert v. induction k as [|k IH]; intros v; cbn [zeros digits_value]; [f_equal; lia|].
  change (is_digit "0") with true. change (code "0") with 48. cbv iota. rewrite IH. f_equal.
  rewrite Nat2Z.inj_succ, Z.pow_succ_r by lia. lia.
Qed.

Lemma take_zeros n k : (n <= k)%nat -> take_str n (zeros k) = zeros n.
Proof. revert k. induction n as [|n IH]; intros [|k] H; cbn; try done; [lia|]. unfold take_str in IH. by rewrite IH by lia. Qed.

Lemma take_str_app n a b : (String.length a <= n)%nat -> take_str n (a ++ b) = a ++ take_str (n - String.length a) b.
Proof.
  revert n. induction a as [|c a IH]; intros n H; cbn in *; [by rewrite Nat.sub_0_r|].
  destruct n as [|n]; [lia|]. cbn. unfold take_str in *. cbn. by rewrite IH by lia.
Qed.

Lemma zeros_length k : String.length (zeros k) = k.
Proof. induction k; cbn; by f_equal. Qed.

Lemma all_digits_app a b : all_chars is_digit (a ++ b) = all_chars is_digit a && all_chars is_digit b.
Proof. induction a as [|c a IH]; cbn; [done|]. by rewrite IH, andb_assoc. Qed.

Lemma pad2_all n : 0 <= n < 100 -> all_chars is_digit (pad2 n) = true.
Proof. intros Hn. destruct (pad2_digits n Hn) as [D1 D2]. cbn. by rewrite D1, D2. Qed.
Lemma pad4_all n : 0 <= n < 10000 -> all_chars is_digit (pad4 n) = true.
Proof.
  intros Hn. unfold pad4. rewrite all_digits_app, !pad2_all; [done|apply Z.mod_pos_bound; lia|].
  split; [apply Z.div_pos; lia|apply Z.div_lt_upper_bound; lia].
Qed.
Lemma pad9_all n : 0 <= n < Second -> all_chars is_digit (pad9 n) = true.
Proof.
  intros Hn. unfold pad9, Second in *. rewrite !all_digits_app, !pad4_all; [|apply Z.mod_pos_bound; lia|].
  - cbn. destruct (digit_ok (n mod 10)) as [-> _]; [apply Z.mod_pos_bound; lia|done].
  - split; [apply Z.div_pos; lia|apply Z.div_lt_upper_bound; lia].
Qed.
Lemma pad9_length n : String.length (pad9 n) = 9%nat.
Proof. reflexivity. Qed.

(** The fraction of a nonzero number of nanoseconds is read back. *)
Lemma trim_fraction n :
  0 < n < Second ->
  let f := trim_zeros (pad9 n) in
  f <> "" /\ all_chars is_digit f = true /\ number (take_str 9 (f ++ "000000000")) = n.
Proof.
  intros Hn f. destruct (trim_zeros_spec (pad9 n)) as [k E]. fold f in E.
  assert (Hl : (String.length f + k = 9)%nat).
  { rewrite <- (zeros_length k), <- slength_app, <- E. apply pad9_length. }
  assert (Ht : take_str 9 (f ++ "000000000") = pad9 n).
  { change "000000000" with (zeros 9). rewrite take_str_app, take_zeros by lia. rewrite E. by replace (9 - String.length f)%nat with k by lia. }
  assert (Hv : digits_value 0 (pad9 n) = Some n) by (apply digits_value_pad9; lia). split_and!.
  - intros Ef. rewrite Ef in E. cbn [String.append] in E. rewrite E, zeros_value in Hv. injection Hv as Hv. lia.
  - pose proof (pad9_all n ltac:(lia)) as Ha. rewrite E, all_digits_app in Ha. by apply andb_true_iff in Ha as [? _].
  - unfold number. by rewrite Ht, Hv.
Qed.

(** ** Reading back *)

Lemma substring_all s n : (String.length s <= n)%nat -> String.substring 0 n s = s.
Proof. revert n. induction s as [|c s IH]; intros [|n] H; cbn in *; try done; [lia|]. by rewrite IH by lia. Qed.

Lemma drop_str_app n a b : String.length a = n -> drop_str n (a ++ b) = b.
Proof.
  intros <-. unfold drop_str. assert (H : (String.length b <= String.length (a ++ b))%nat) by (rewrite slength_app; lia).
  revert H. generalize (String.length (a ++ b)) as k. induction a as [|c a IH]; intros k H; cbn; [by apply substring_all|]. by apply IH.
Qed.

(** A text that does not begin with a character of a class. *)
Definition starts_clear (p : ascii -> bool) (s : string) : bool := match s with EmptyString => true | String c _ => negb (p c) end.

Lemma span_until p w post : all_chars p w = true -> starts_clear p post = true -> span p (w ++ post) = (w, post).
Proof.
  intros Hw Hp. induction w as [|c w IH]; cbn in *.
  - destruct post as [|c post]; [done|]. cbn in *. by apply negb_true_iff in Hp as ->.
  - apply andb_true_iff in Hw as [-> Hw]. by rewrite IH.
Qed.

Lemma span_spec p s a b : span p s = (a, b) -> s = a ++ b /\ all_chars p a = true.
Proof.
  revert a b. induction s as [|c s IH]; intros a b; cbn [span]; [by intros [= <- <-]|].
  destruct (p c) eqn:E; [|by intros [= <- <-]]. destruct (span p s) as [a' b']. intros [= <- <-].
  destruct (IH a' b' eq_refl) as [-> Ha]. cbn. by rewrite E.
Qed.

Lemma span_app (f : string) c r : all_chars is_digit f = true -> is_digit c = false -> span is_digit (f ++ String c r) = (f, String c r).
Proof. intros Hf Hc. apply span_until; [done|]. cbn. by rewrite Hc. Qed.

Lemma digit_not_colon n : 0 <= n < 10 -> Ascii.eqb (digit n) ":" = false.
Proof.
  intros Hn. apply Ascii.eqb_neq. intros E. apply (f_equal code) in E. rewrite code_digit in E by done. change (code ":") with 58 in E. lia.
Qed.

Lemma number_pad2 n : 0 <= n < 100 -> number (pad2 n) = n.
Proof. intros Hn. unfold number. rewrite digits_value_pad2 by done. cbn. lia. Qed.
Lemma number_pad4 n : 0 <= n < 10000 -> number (pad4 n) = n.
Proof. intros Hn. unfold number. rewrite digits_value_pad4 by done. cbn. lia. Qed.

(** The text after the seconds. *)
Definition fraction_text (nanos : Z) : string := if nanos =? 0 then "" else "." ++ trim_zeros (pad9 nanos).

Lemma fraction_read nanos : 0 <= nanos < Second -> fraction (fraction_text nanos ++ "Z") = (nanos, "Z").
Proof.
  intros Hn. unfold fraction_text. destruct (Z.eqb_spec nanos 0) as [->|]; [done|].
  destruct (trim_fraction nanos ltac:(lia)) as (_ & Hd & Hv). cbn [String.append fraction].
  change (Ascii.eqb "." "." || Ascii.eqb "." ",") with true. cbv iota. rewrite span_app by done. by rewrite Hv.
Qed.

Lemma fraction_accepted nanos :
  0 <= nanos < Second ->
  match (fraction_text nanos ++ "Z") with
  | String dot (String d r) =>
      if (Ascii.eqb dot "." || Ascii.eqb dot ",") && is_digit d then zone_ok (snd (span is_digit r))
      else zone_ok (fraction_text nanos ++ "Z")
  | _ => zone_ok (fraction_text nanos ++ "Z")
  end = true.
Proof.
  intros Hn. unfold fraction_text. destruct (Z.eqb_spec nanos 0) as [->|]; [done|].
  destruct (trim_fraction nanos ltac:(lia)) as (Hne & Hd & _). destruct (trim_zeros (pad9 nanos)) as [|c f]; [done|].
  cbn in Hd. apply andb_true_iff in Hd as [Hc Hd]. cbn [String.append]. rewrite Hc.
  change (Ascii.eqb "." "." || Ascii.eqb "." ",") with true. cbn [andb]. by rewrite span_app.
Qed.

Section ReadBack.
Variables (y m d h mi se nanos : Z).
Hypotheses (Hy : 0 <= y <= 9999) (Hm : 1 <= m <= 12) (Hd : 1 <= d <= days_in m y)
           (Hh : 0 <= h < 24) (Hmi : 0 <= mi < 60) (Hse : 0 <= se < 60) (Hn : 0 <= nanos < Second).

Definition clock_text : string := ":" ++ pad2 mi ++ ":" ++ pad2 se ++ fraction_text nanos ++ "Z".
Definition date_text : string := pad4 y ++ "-" ++ pad2 m ++ "-" ++ pad2 d ++ "T".

Lemma days_in_31 : days_in m y <= 31.
Proof. unfold days_in. repeat case_match; lia. Qed.

Lemma clock_accepted : hour_ok (pad2 h ++ clock_text) = true.
Proof.
  unfold clock_text, pad2. cbn [String.append hour_ok]. destruct (pad2_digits h ltac:(lia)) as [H1 H2]. rewrite H1.
  rewrite digit_not_colon by (apply Z.mod_pos_bound; lia). rewrite H2, dec2_pad, (proj2 (Z.ltb_lt _ _)) by lia.
  change (Ascii.eqb ":" ":") with true. cbn [andb clock_ok].
  destruct (pad2_digits mi ltac:(lia)) as [M1 M2]. destruct (pad2_digits se ltac:(lia)) as [S1 S2].
  rewrite M1, M2, S1, S2, !dec2_pad by lia. rewrite !(proj2 (Z.ltb_lt _ _)) by lia. change (Ascii.eqb ":" ":") with true. cbn [andb].
  by apply fraction_accepted.
Qed.

Lemma date_accepted rest : hour_ok rest = true -> rfc3339_ok (date_text ++ rest) = true.
Proof.
  intros Hr. pose proof days_in_31. unfold date_text, pad4, pad2. cbn [String.append rfc3339_ok].
  assert (0 <= y / 100 < 100) by (split; [apply Z.div_pos; lia|apply Z.div_lt_upper_bound; lia]).
  assert (0 <= y mod 100 < 100) by (apply Z.mod_pos_bound; lia).
  destruct (pad2_digits (y / 100) ltac:(lia)) as [-> ->]. destruct (pad2_digits (y mod 100) ltac:(lia)) as [-> ->].
  destruct (pad2_digits m ltac:(lia)) as [-> ->]. destruct (pad2_digits d ltac:(lia)) as [-> ->].
  rewrite !dec2_pad by lia. replace (100 * (y / 100) + y mod 100) with y by (apply Z.div_mod; lia).
  change (Ascii.eqb "-" "-") with true. change (Ascii.eqb "T" "T") with true. rewrite Hr.
  rewrite !(proj2 (Z.leb_le _ _)) by lia. done.
Qed.

Lemma text_read :
  Parse_RFC3339 (date_text ++ pad2 h ++ clock_text) =
    Some ((86400 * days_from_civil y m d + 3600 * h + 60 * mi + se) * Second + nanos).
Proof.
  pose proof days_in_31. unfold Parse_RFC3339. rewrite date_accepted by apply clock_accepted.
  rewrite (drop_str_app 11) by reflexivity.
  change (take_str 4 (date_text ++ pad2 h ++ clock_text)) with (pad4 y).
  replace (take_str 2 (drop_str 5 (date_text ++ pad2 h ++ clock_text))) with (pad2 m).
  2: { unfold date_text. rewrite !sapp_assoc, <- (sapp_assoc (pad4 y) "-"). rewrite (drop_str_app 5) by reflexivity. reflexivity. }
  replace (take_str 2 (drop_str 8 (date_text ++ pad2 h ++ clock_text))) with (pad2 d).
  2: { unfold date_text. rewrite !sapp_assoc, <- (sapp_assoc (pad4 y) "-"), <- (sapp_assoc (pad4 y ++ "-")), <- (sapp_assoc ((pad4 y ++ "-") ++ pad2 m)).
       rewrite (drop_str_app 8) by reflexivity. reflexivity. }
  assert (Hs : span is_digit (pad2 h ++ clock_text) = (pad2 h, clock_text)) by (apply span_app; [apply pad2_all; lia|done]).
  rewrite Hs. change (take_str 2 (drop_str 1 clock_text)) with (take_str 2 (drop_str 1 (":" ++ (pad2 mi ++ ":" ++ pad2 se ++ fraction_text nanos ++ "Z")))).
  rewrite (drop_str_app 1) by reflexivity. change (take_str 2 (pad2 mi ++ _)) with (pad2 mi).
  replace (drop_str 4 clock_text) with (pad2 se ++ fraction_text nanos ++ "Z").
  2: { symmetry. apply (drop_str_app 4 (":" ++ pad2 mi ++ ":")). reflexivity. }
  replace (drop_str 6 clock_text) with (fraction_text nanos ++ "Z").
  2: { symmetry. apply (drop_str_app 6 (":" ++ pad2 mi ++ ":" ++ pad2 se)). reflexivity. }
  replace (take_str 2 (pad2 se ++ fraction_text nanos ++ "Z")) with (pad2 se).
  2: { rewrite take_str_app by reflexivity. change (2 - String.length (pad2 se))%nat with O.
       by destruct (fraction_text nanos ++ "Z"). }
  rewrite fraction_read by done.
  rewrite !number_pad2, number_pad4 by lia. cbn [zone_offset]. f_equal. lia.
Qed.
End ReadBack.

(** A time that can be written is read back. *)
Lemma Parse_Format t : writable t = true -> Parse_RFC3339 (Format_RFC3339 t) = Some t.
Proof.
  intros Hw. unfold writable, year_of in Hw. unfold Format_RFC3339. set (s := t / Second) in *.
  pose proof (civil_days (s / 86400)) as Hc. destruct (civil_from_days (s / 86400)) as [[y m] d]. destruct Hc as (Ed & Hm & Hd).
  apply andb_true_iff in Hw as [W1%Z.leb_le W2%Z.leb_le]. set (k := s mod 86400).
  assert (Hk : 0 <= k < 86400) by (apply Z.mod_pos_bound; lia).
  assert (Hh : 0 <= k / 3600 < 24) by (split; [apply Z.div_pos; lia|apply Z.div_lt_upper_bound; lia]).
  pose proof (Z.mod_pos_bound (k / 60) 60 ltac:(lia)) as Hmi. pose proof (Z.mod_pos_bound k 60 ltac:(lia)) as Hse.
  pose proof (Z.mod_pos_bound t Second ltac:(done)) as Hn.
  pose proof (text_read y m d (k / 3600) (k / 60 mod 60) (k mod 60) (t mod Second) ltac:(lia) Hm Hd Hh Hmi Hse Hn) as H.
  unfold date_text, clock_text in H. rewrite !sapp_assoc in H. unfold fraction_text in H.
  transitivity (Some ((86400 * days_from_civil y m d + 3600 * (k / 3600) + 60 * (k / 60 mod 60) + k mod 60) * Second + t mod Second)).
  - by rewrite <- H.
  - f_equal. rewrite Ed. assert (T1 : t = Second * s + t mod Second) by (apply Z.div_mod; done).
    assert (T2 : s = 86400 * (s / 86400) + k) by (apply Z.div_mod; lia).
    assert (T3 : k = 60 * (k / 60) + k mod 60) by (apply Z.div_mod; lia).
    assert (T4 : k / 60 = 60 * (k / 3600) + k / 60 mod 60).
    { change 3600 with (60 * 60). rewrite <- Z.div_div by lia. apply Z.div_mod. lia. }
    unfold Second in *. lia.
Qed.
