(* ===== verification/GoCodec.v ===== *)
(** * Encodings of the Go standard library

    What the push scanner uses of [encoding/base64], [net/url] and [regexp]. *)

From S2P Require Import Prelude GoText.
From Stdlib Require Import Ascii.
Open Scope string_scope.
Open Scope Z_scope.
Open Scope go_scope.

(** ** Base64 *)

Definition base64_value (plus slash : ascii) (c : ascii) : option Z :=
  if is_upper c then Some (code c - 65)
  else if is_lower c then Some (code c - 71)
  else if is_digit c then Some (code c + 4)
  else if Ascii.eqb c plus then Some 62
  else if Ascii.eqb c slash then Some 63
  else None.
Definition std_value : ascii -> option Z := base64_value "+" "/".
Definition url_value : ascii -> option Z := base64_value "-" "_".

(** Carriage returns and newlines are ignored. *)
Definition strip_newlines (s : string) : string := remove_char (byte_of 10) (remove_char (byte_of 13) s).

(** The bytes of a group: one, two or three. *)
Definition byte1 (x y : Z) : ascii := byte_of (4 * x + y / 16).
Definition byte2 (y z : Z) : ascii := byte_of (16 * (y mod 16) + z / 4).
Definition byte3 (z w : Z) : ascii := byte_of (64 * (z mod 4) + w).

Section Base64.
Context (alphabet : ascii -> option Z) (padded strict : bool).

Fixpoint decode_groups (s : string) : option string :=
  match s with
  | EmptyString => Some ""
  | String a (String b (String c (String d r))) =>
      match alphabet a, alphabet b with
      | Some x, Some y =>
          match alphabet c, alphabet d with
          | Some z, Some w =>
              rest ← decode_groups r; Some (String (byte1 x y) (String (byte2 y z) (String (byte3 z w) rest)))
          | Some z, None =>
              if padded && Ascii.eqb d "=" && (r == "") && (negb strict || (z mod 4 =? 0))
              then Some (String (byte1 x y) (String (byte2 y z) "")) else None
          | None, _ =>
              if padded && Ascii.eqb c "=" && Ascii.eqb d "=" && (r == "") && (negb strict || (y mod 16 =? 0))
              then Some (String (byte1 x y) "") else None
          end
      | _, _ => None
      end
  | String a (String b (String c EmptyString)) =>
      match alphabet a, alphabet b, alphabet c with
      | Some x, Some y, Some z =>
          if negb padded && (negb strict || (z mod 4 =? 0)) then Some (String (byte1 x y) (String (byte2 y z) "")) else None
      | _, _, _ => None
      end
  | String a (String b EmptyString) =>
      match alphabet a, alphabet b with
      | Some x, Some y => if negb padded && (negb strict || (y mod 16 =? 0)) then Some (String (byte1 x y) "") else None
      | _, _ => None
      end
  | String _ EmptyString => None
  end.

Definition base64_DecodeString (s : string) : option string := decode_groups (strip_newlines s).
End Base64.

Definition StdEncoding : string -> option string := base64_DecodeString std_value true false.
Definition RawStdEncoding : string -> option string := base64_DecodeString std_value false false.
Definition URLEncoding : string -> option string := base64_DecodeString url_value true false.
Definition RawURLEncoding : string -> option string := base64_DecodeString url_value false false.
Definition StdStrict : string -> option string := base64_DecodeString std_value true true.

Example base64_ex :
  (StdEncoding "aGVsbG8gd29ybGQ=", RawURLEncoding "aGVsbG8gd29ybGQ", StdEncoding "aGVsbG8", StdStrict "aGVsbG9=", URLEncoding "_-8=")
  = (Some "hello world", Some "hello world", None, None, Some (String (byte_of 255) (String (byte_of 239) ""))).
Proof. vm_compute. reflexivity. Qed.

(** ** [url.PathUnescape] *)

Fixpoint PathUnescape (s : string) : option string :=
  match s with
  | EmptyString => Some ""
  | String c r =>
      if Ascii.eqb c "%" then
        match r with
        | String a (String b r') =>
            match hex_value a, hex_value b with
            | Some x, Some y => rest ← PathUnescape r'; Some (String (byte_of (16 * x + y)) rest)
            | _, _ => None
            end
        | _ => None
        end
      else rest ← PathUnescape r; Some (String c rest)
  end.

(** [hex.DecodeString] as bytes of a string. *)
Definition string_of_bytes (l : list Z) : string := fold_right (fun b s => String (byte_of b) s) "" l.
Definition hex_decode (s : string) : option string := string_of_bytes <$> hex_DecodeString s.

(** ** Runs of a character class *)

(** The maximal runs of a class, each with the text after it; [inside] tells
    whether the character before belongs to the class. *)
Fixpoint runs (p : ascii -> bool) (inside : bool) (s : string) : list (string * string) :=
  match s with
  | EmptyString => []
  | String c s' =>
      if p c then (if inside then runs p true s' else span p s :: runs p true s') else runs p false s'
  end.

(** Whether a match starts somewhere. *)
Fixpoint search (matches : string -> bool) (s : string) : bool :=
  matches s || match s with EmptyString => false | String _ s' => search matches s' end.

(** [strings.ContainsAny] for a class of ASCII characters. *)
Fixpoint any_char (p : ascii -> bool) (s : string) : bool :=
  match s with EmptyString => false | String c s' => p c || any_char p s' end.

Example runs_ex : runs is_digit false "a12b3" = [("12", "b3"); ("3", "")].
Proof. vm_compute. reflexivity. Qed.
