(* ===== verification/PushStore.v ===== *)
(** * The store of the push scanner

    [internal/pushscan/types.go] and [store.go]: the receipts of push deliveries,
    the result of each scan, the fingerprints of issued tokens and the outbox of
    security events.  Foreign keys are not enforced, since the connection does not
    enable them.  Times in tables are milliseconds; a null column is [None]. *)

From S2P Require Import Prelude GoText GoSha256 GoJson LedgerModel Envelope GoTime.
From Stdlib Require Import Ascii.
Open Scope string_scope.
Open Scope Z_scope.
Open Scope go_scope.

(** ** Data *)

Record PushIdentity := mkPushIdentity {
  pi_DeliveryID : string; pi_Repository : string; pi_Ref : string; pi_Before : string; pi_After : string;
  pi_HeadTime : option Z; pi_SourceTime : option Z; pi_ReceivedAt : Z; pi_StreamSequence : Z }.
#[export] Instance PushIdentity_eta : Eta PushIdentity := fun r =>
  mkPushIdentity (pi_DeliveryID r) (pi_Repository r) (pi_Ref r) (pi_Before r) (pi_After r) (pi_HeadTime r)
    (pi_SourceTime r) (pi_ReceivedAt r) (pi_StreamSequence r).

Record Attribution := mkAttribution {
  an_FingerprintID : string; an_Profile : string; an_LogicalSessionID : string;
  an_SessionLineageID : string; an_WorkerID : string; an_WorkerStorageLineage : string;
  an_WorkerFenceEpoch : Z; an_ProfileGeneration : Z; an_IssuedAt : Z; an_ExpiresAt : Z; an_State : string }.
#[export] Instance Attribution_eta : Eta Attribution := fun r =>
  mkAttribution (an_FingerprintID r) (an_Profile r) (an_LogicalSessionID r) (an_SessionLineageID r)
    (an_WorkerID r) (an_WorkerStorageLineage r) (an_WorkerFenceEpoch r) (an_ProfileGeneration r)
    (an_IssuedAt r) (an_ExpiresAt r) (an_State r).

Definition zero_attribution : Attribution := mkAttribution "" "" "" "" "" "" 0 0 ZeroTime ZeroTime "".

Record Finding := mkFinding {
  fd_ID : string; fd_Severity : string; fd_ReasonCode : string; fd_Attribution : Attribution }.
#[export] Instance Finding_eta : Eta Finding := fun r =>
  mkFinding (fd_ID r) (fd_Severity r) (fd_ReasonCode r) (fd_Attribution r).

Record FingerprintRegistration := mkFingerprintRegistration {
  fr_FingerprintID : string; fr_Profile : string; fr_LogicalSessionID : string;
  fr_SessionLineageID : string; fr_WorkerID : string; fr_WorkerStorageLineage : string;
  fr_WorkerFenceEpoch : Z; fr_ProfileGeneration : Z; fr_IssuedAt : Z; fr_ExpiresAt : Z;
  fr_RetainedUntil : Z; fr_State : string }.
#[export] Instance FingerprintRegistration_eta : Eta FingerprintRegistration := fun r =>
  mkFingerprintRegistration (fr_FingerprintID r) (fr_Profile r) (fr_LogicalSessionID r)
    (fr_SessionLineageID r) (fr_WorkerID r) (fr_WorkerStorageLineage r) (fr_WorkerFenceEpoch r)
    (fr_ProfileGeneration r) (fr_IssuedAt r) (fr_ExpiresAt r) (fr_RetainedUntil r) (fr_State r).

Record ScanResult := mkScanResult {
  sr_DeliveryID : string; sr_FindingID : string; sr_Status : string; sr_Severity : string;
  sr_ReasonCode : string; sr_FingerprintID : string; sr_Profile : string; sr_LogicalSessionID : string;
  sr_WorkerID : string; sr_SessionLineageID : string; sr_WorkerStorageLineage : string;
  sr_WorkerFenceEpoch : Z; sr_ProfileGeneration : Z; sr_ReceiptAt : Z; sr_ScanStartedAt : Z;
  sr_MaterialCompletedAt : Z; sr_FindingAt : Z; sr_ResponseRequestedAt : Z; sr_HaltedAt : Z;
  sr_FenceRequestedAt : Z; sr_FencedAt : Z; sr_FenceState : string; sr_TerminalAt : Z; sr_SLODeadline : Z;
  sr_SLOBreached : bool; sr_SLOState : string; sr_AlertState : string; sr_AlertRequestedAt : Z }.
#[export] Instance ScanResult_eta : Eta ScanResult := fun r =>
  mkScanResult (sr_DeliveryID r) (sr_FindingID r) (sr_Status r) (sr_Severity r) (sr_ReasonCode r)
    (sr_FingerprintID r) (sr_Profile r) (sr_LogicalSessionID r) (sr_WorkerID r) (sr_SessionLineageID r)
    (sr_WorkerStorageLineage r) (sr_WorkerFenceEpoch r) (sr_ProfileGeneration r) (sr_ReceiptAt r)
    (sr_ScanStartedAt r) (sr_MaterialCompletedAt r) (sr_FindingAt r) (sr_ResponseRequestedAt r)
    (sr_HaltedAt r) (sr_FenceRequestedAt r) (sr_FencedAt r) (sr_FenceState r) (sr_TerminalAt r)
    (sr_SLODeadline r) (sr_SLOBreached r) (sr_SLOState r) (sr_AlertState r) (sr_AlertRequestedAt r).

Definition zero_result : ScanResult :=
  mkScanResult "" "" "" "" "" "" "" "" "" "" "" 0 0 ZeroTime ZeroTime ZeroTime ZeroTime ZeroTime ZeroTime ZeroTime
    ZeroTime "" ZeroTime ZeroTime false "" "" ZeroTime.

Record SecurityEvent := mkSecurityEvent {
  sx_Version : string; sx_EventID : string; sx_State : string; sx_FindingID : string;
  sx_DeliveryID : string; sx_Repository : string; sx_Ref : string; sx_Before : string; sx_After : string;
  sx_Severity : string; sx_ReasonCode : string; sx_FingerprintID : string; sx_Profile : string;
  sx_ProfileGeneration : Z; sx_LogicalSessionID : string; sx_SessionLineageID : string;
  sx_WorkerID : string; sx_WorkerStorageLineage : string; sx_WorkerFenceEpoch : Z; sx_ReceivedAt : Z;
  sx_ReceiptAt : Z; sx_FindingAt : Z; sx_AlertRequestedAt : Z }.
#[export] Instance SecurityEvent_eta : Eta SecurityEvent := fun r =>
  mkSecurityEvent (sx_Version r) (sx_EventID r) (sx_State r) (sx_FindingID r) (sx_DeliveryID r)
    (sx_Repository r) (sx_Ref r) (sx_Before r) (sx_After r) (sx_Severity r) (sx_ReasonCode r)
    (sx_FingerprintID r) (sx_Profile r) (sx_ProfileGeneration r) (sx_LogicalSessionID r)
    (sx_SessionLineageID r) (sx_WorkerID r) (sx_WorkerStorageLineage r) (sx_WorkerFenceEpoch r)
    (sx_ReceivedAt r) (sx_ReceiptAt r) (sx_FindingAt r) (sx_AlertRequestedAt r).

(** *** The JSON of a security event *)

(** A member that is left out when it is empty or zero. *)
Definition member_unless (empty : bool) (name : string) (v : json) : list (string * json) := if empty then [] else [(name, v)].

Definition event_members (e : SecurityEvent) : list (string * json) :=
  ([("version", JStr (sx_Version e)); ("event_id", JStr (sx_EventID e)); ("state", JStr (sx_State e)); ("finding_id", JStr (sx_FindingID e)); ("delivery_id", JStr (sx_DeliveryID e)); ("repository", JStr (sx_Repository e)); ("ref", JStr (sx_Ref e)); ("before", JStr (sx_Before e)); ("after", JStr (sx_After e)); ("severity", JStr (sx_Severity e)); ("reason_code", JStr (sx_ReasonCode e))]
        ++ member_unless (sx_FingerprintID e == "") "fingerprint_id" (JStr (sx_FingerprintID e))
        ++ [("profile", JStr (sx_Profile e)); ("profile_generation", JNum (fmt_d (sx_ProfileGeneration e)))]
        ++ member_unless (sx_LogicalSessionID e == "") "logical_session_id" (JStr (sx_LogicalSessionID e))
        ++ member_unless (sx_SessionLineageID e == "") "session_lineage_id" (JStr (sx_SessionLineageID e))
        ++ member_unless (sx_WorkerID e == "") "worker_id" (JStr (sx_WorkerID e))
        ++ member_unless (sx_WorkerStorageLineage e == "") "worker_storage_lineage_id" (JStr (sx_WorkerStorageLineage e))
        ++ member_unless (sx_WorkerFenceEpoch e =? 0) "worker_fence_epoch" (JNum (fmt_d (sx_WorkerFenceEpoch e)))
        ++ [("received_at", JStr (Format_RFC3339 (sx_ReceivedAt e))); ("receipt_at", JStr (Format_RFC3339 (sx_ReceiptAt e))); ("finding_at", JStr (Format_RFC3339 (sx_FindingAt e))); ("alert_requested_at", JStr (Format_RFC3339 (sx_AlertRequestedAt e)))])%list.
Definition event_json (e : SecurityEvent) : json := JObj (event_members e).

(** [json.Marshal] fails when a time cannot be written. *)
Definition Marshal_event (e : SecurityEvent) : option string :=
  if writable (sx_ReceivedAt e) && writable (sx_ReceiptAt e) && writable (sx_FindingAt e) && writable (sx_AlertRequestedAt e)
  then Some (marshal (event_json e)) else None.

Definition zero_event : SecurityEvent :=
  mkSecurityEvent "" "" "" "" "" "" "" "" "" "" "" "" "" 0 "" "" "" "" 0 ZeroTime ZeroTime ZeroTime ZeroTime.

Definition event_fields : list string :=
  ["version"; "event_id"; "state"; "finding_id"; "delivery_id"; "repository"; "ref"; "before"; "after"; "severity"; "reason_code"; "fingerprint_id"; "profile"; "profile_generation"; "logical_session_id"; "session_lineage_id"; "worker_id"; "worker_storage_lineage_id"; "worker_fence_epoch"; "received_at"; "receipt_at"; "finding_at"; "alert_requested_at"].

Definition raw_number (raw : string) (old : Z) : option Z := parse_json raw ≫= fun v => decode_int v old.

Definition set_event (n raw : string) (e : SecurityEvent) : option SecurityEvent :=
  if n == "version" then x ← raw_string raw (sx_Version e); Some (e <| sx_Version := x |>)
  else if n == "event_id" then x ← raw_string raw (sx_EventID e); Some (e <| sx_EventID := x |>)
  else if n == "state" then x ← raw_string raw (sx_State e); Some (e <| sx_State := x |>)
  else if n == "finding_id" then x ← raw_string raw (sx_FindingID e); Some (e <| sx_FindingID := x |>)
  else if n == "delivery_id" then x ← raw_string raw (sx_DeliveryID e); Some (e <| sx_DeliveryID := x |>)
  else if n == "repository" then x ← raw_string raw (sx_Repository e); Some (e <| sx_Repository := x |>)
  else if n == "ref" then x ← raw_string raw (sx_Ref e); Some (e <| sx_Ref := x |>)
  else if n == "before" then x ← raw_string raw (sx_Before e); Some (e <| sx_Before := x |>)
  else if n == "after" then x ← raw_string raw (sx_After e); Some (e <| sx_After := x |>)
  else if n == "severity" then x ← raw_string raw (sx_Severity e); Some (e <| sx_Severity := x |>)
  else if n == "reason_code" then x ← raw_string raw (sx_ReasonCode e); Some (e <| sx_ReasonCode := x |>)
  else if n == "fingerprint_id" then x ← raw_string raw (sx_FingerprintID e); Some (e <| sx_FingerprintID := x |>)
  else if n == "profile" then x ← raw_string raw (sx_Profile e); Some (e <| sx_Profile := x |>)
  else if n == "profile_generation" then x ← raw_number raw (sx_ProfileGeneration e); Some (e <| sx_ProfileGeneration := x |>)
  else if n == "logical_session_id" then x ← raw_string raw (sx_LogicalSessionID e); Some (e <| sx_LogicalSessionID := x |>)
  else if n == "session_lineage_id" then x ← raw_string raw (sx_SessionLineageID e); Some (e <| sx_SessionLineageID := x |>)
  else if n == "worker_id" then x ← raw_string raw (sx_WorkerID e); Some (e <| sx_WorkerID := x |>)
  else if n == "worker_storage_lineage_id" then x ← raw_string raw (sx_WorkerStorageLineage e); Some (e <| sx_WorkerStorageLineage := x |>)
  else if n == "worker_fence_epoch" then x ← raw_number raw (sx_WorkerFenceEpoch e); Some (e <| sx_WorkerFenceEpoch := x |>)
  else if n == "received_at" then x ← Time_UnmarshalJSON raw (sx_ReceivedAt e); Some (e <| sx_ReceivedAt := x |>)
  else if n == "receipt_at" then x ← Time_UnmarshalJSON raw (sx_ReceiptAt e); Some (e <| sx_ReceiptAt := x |>)
  else if n == "finding_at" then x ← Time_UnmarshalJSON raw (sx_FindingAt e); Some (e <| sx_FindingAt := x |>)
  else x ← Time_UnmarshalJSON raw (sx_AlertRequestedAt e); Some (e <| sx_AlertRequestedAt := x |>).

Definition Unmarshal_event (raw : string) : option SecurityEvent := decode_raw_struct event_fields set_event raw zero_event.

(** ** Tables *)

Record receipt_row := mkReceiptRow {
  rp_delivery_id : string; rp_stream_sequence : Z; rp_repository : string; rp_ref : string;
  rp_before_sha : string; rp_after_sha : string; rp_head_timestamp : option Z;
  rp_source_timestamp : option Z; rp_received_at : Z; rp_receipt_at : Z; rp_consumer_observed_at : Z }.
#[export] Instance receipt_row_eta : Eta receipt_row := fun r =>
  mkReceiptRow (rp_delivery_id r) (rp_stream_sequence r) (rp_repository r) (rp_ref r) (rp_before_sha r)
    (rp_after_sha r) (rp_head_timestamp r) (rp_source_timestamp r) (rp_received_at r) (rp_receipt_at r)
    (rp_consumer_observed_at r).

Record result_row := mkResultRow {
  rr_delivery_id : string; rr_finding_id : string; rr_status : string; rr_severity : string;
  rr_reason_code : string; rr_fingerprint_id : string; rr_profile : string; rr_logical_session_id : string;
  rr_session_lineage_id : string; rr_worker_id : string; rr_worker_storage_lineage_id : string;
  rr_worker_fence_epoch : Z; rr_profile_generation : Z; rr_scan_started_at : Z;
  rr_material_completed_at : Z; rr_finding_at : option Z; rr_response_requested_at : option Z;
  rr_response_last_attempt_at : option Z; rr_response_attempt_count : Z; rr_halted_at : option Z;
  rr_fence_requested_at : option Z; rr_fenced_at : option Z; rr_fence_state : string;
  rr_alert_state : string; rr_alert_requested_at : option Z; rr_terminal_at : Z; rr_slo_deadline_at : Z;
  rr_slo_breached : bool; rr_slo_state : string }.
#[export] Instance result_row_eta : Eta result_row := fun r =>
  mkResultRow (rr_delivery_id r) (rr_finding_id r) (rr_status r) (rr_severity r) (rr_reason_code r)
    (rr_fingerprint_id r) (rr_profile r) (rr_logical_session_id r) (rr_session_lineage_id r)
    (rr_worker_id r) (rr_worker_storage_lineage_id r) (rr_worker_fence_epoch r) (rr_profile_generation r)
    (rr_scan_started_at r) (rr_material_completed_at r) (rr_finding_at r) (rr_response_requested_at r)
    (rr_response_last_attempt_at r) (rr_response_attempt_count r) (rr_halted_at r) (rr_fence_requested_at r)
    (rr_fenced_at r) (rr_fence_state r) (rr_alert_state r) (rr_alert_requested_at r) (rr_terminal_at r)
    (rr_slo_deadline_at r) (rr_slo_breached r) (rr_slo_state r).

Record fingerprint_row := mkFingerprintRow {
  fp_fingerprint_id : string; fp_fingerprint : list Z; fp_profile : string; fp_logical_session_id : string;
  fp_session_lineage_id : string; fp_worker_id : string; fp_worker_storage_lineage_id : string;
  fp_worker_fence_epoch : Z; fp_profile_generation : Z; fp_issued_at : Z; fp_expires_at : Z;
  fp_retained_until : Z; fp_state : string }.
#[export] Instance fingerprint_row_eta : Eta fingerprint_row := fun r =>
  mkFingerprintRow (fp_fingerprint_id r) (fp_fingerprint r) (fp_profile r) (fp_logical_session_id r)
    (fp_session_lineage_id r) (fp_worker_id r) (fp_worker_storage_lineage_id r) (fp_worker_fence_epoch r)
    (fp_profile_generation r) (fp_issued_at r) (fp_expires_at r) (fp_retained_until r) (fp_state r).

Record event_out_row := mkEventOutRow {
  pe_event_id : string; pe_delivery_id : string; pe_payload_json : string; pe_published_at : option Z }.
#[export] Instance event_out_row_eta : Eta event_out_row := fun r =>
  mkEventOutRow (pe_event_id r) (pe_delivery_id r) (pe_payload_json r) (pe_published_at r).

Record PushDB := mkPushDB {
  push_receipts : list receipt_row; push_results : list result_row;
  push_fingerprints : list fingerprint_row; push_events : list event_out_row }.
#[export] Instance PushDB_eta : Eta PushDB := fun r =>
  mkPushDB (push_receipts r) (push_results r) (push_fingerprints r) (push_events r).

Definition empty_push : PushDB := mkPushDB [] [] [] [].

#[export] Instance fingerprint_row_eq_dec : EqDecision fingerprint_row.
Proof. solve_decision. Defined.

(** *** Columns of times *)

Definition nullableMillis (t : Z) : option Z := if t =? ZeroTime then None else Some (UnixMilli t).
Definition millisTime (v : option Z) : Z := match v with None => ZeroTime | Some ms => OfUnixMilli ms end.
Definition sameOptionalTime (recorded value : option Z) : bool :=
  match value with
  | None => recorded == None
  | Some t => recorded == Some (UnixMilli t)
  end.

(** ** Fingerprints *)

Definition ErrFingerprintConflict : string := "fingerprint registration conflicts with existing metadata".

Definition registration_incomplete (fingerprint : list Z) (r : FingerprintRegistration) : bool :=
  negb (Z.of_nat (length fingerprint) =? 32)
  || existsb (fun s => s == "") [fr_FingerprintID r; fr_Profile r; fr_LogicalSessionID r; fr_SessionLineageID r; fr_WorkerID r;
                                 fr_WorkerStorageLineage r]
  || (fr_WorkerFenceEpoch r <=? 0) || (fr_ProfileGeneration r <=? 0) || negb (fr_IssuedAt r <? fr_ExpiresAt r)
  || (fr_RetainedUntil r <? fr_ExpiresAt r)
  || ((fr_State r != "active") && (fr_State r != "expired") && (fr_State r != "revoked")).

Definition registration_row (fingerprint : list Z) (r : FingerprintRegistration) : fingerprint_row :=
  mkFingerprintRow (fr_FingerprintID r) fingerprint (fr_Profile r) (fr_LogicalSessionID r) (fr_SessionLineageID r)
    (fr_WorkerID r) (fr_WorkerStorageLineage r) (fr_WorkerFenceEpoch r) (fr_ProfileGeneration r)
    (UnixMilli (fr_IssuedAt r)) (UnixMilli (fr_ExpiresAt r)) (UnixMilli (fr_RetainedUntil r)) (fr_State r).

(** INSERT ... ON CONFLICT DO NOTHING over both unique columns; without an
    insertion every conflicting row must be the registration itself. *)
Definition RegisterFingerprint (fingerprint : list Z) (r : FingerprintRegistration) (db : PushDB) : PushDB * res unit :=
  if registration_incomplete fingerprint r then (db, Err "fingerprint registration is incomplete")
  else
    let row := registration_row fingerprint r in
    let conflicts := rows_where (fun x => (fp_fingerprint_id x == fr_FingerprintID r) || (fp_fingerprint x == fingerprint))
                       (push_fingerprints db) in
    if conflicts == [] then (db <| push_fingerprints := (push_fingerprints db ++ [row])%list |>, Ok tt)
    else if forallb (fun x => x == row) conflicts && (Z.of_nat (length conflicts) =? 1) then (db, Ok tt)
    else (db, Err ErrFingerprintConflict).

Definition transition_allowed (state from : string) : bool :=
  (from == "active") || (from == "expired") || ((state == "revoked") && (from == "revoked")).

Definition TransitionFingerprintState (fingerprintID state : string) (db : PushDB) : PushDB * res unit :=
  if (fingerprintID == "") || ((state != "expired") && (state != "revoked"))
  then (db, Err "fingerprint state transition is invalid")
  else
    let p := fun x => (fp_fingerprint_id x == fingerprintID) && transition_allowed state (fp_state x) in
    let db' := db <| push_fingerprints ::= update_where p (fun x => x <| fp_state := state |>) |> in
    if count_where p (push_fingerprints db) =? 1 then (db', Ok tt)
    else (db', Err "fingerprint state transition target is unavailable").

Definition fingerprint_of (key candidate : string) : list Z := hmac_sha256 (bytes_of key) (bytes_of candidate).

Definition MatchCandidate (key candidate : string) (now : Z) (db : PushDB) : option Attribution :=
  let mac := fingerprint_of key candidate in
  match first_where (fun x => (fp_fingerprint x == mac) && (UnixMilli now <=? fp_retained_until x)) (push_fingerprints db) with
  | None => None
  | Some x =>
      let expires := OfUnixMilli (fp_expires_at x) in
      let state := if (fp_state x == "active") && negb (now <? expires) then "expired" else fp_state x in
      Some (mkAttribution (fp_fingerprint_id x) (fp_profile x) (fp_logical_session_id x) (fp_session_lineage_id x)
              (fp_worker_id x) (fp_worker_storage_lineage_id x) (fp_worker_fence_epoch x) (fp_profile_generation x)
              (OfUnixMilli (fp_issued_at x)) expires state)
  end.

Definition PruneFingerprints (now : Z) (db : PushDB) : PushDB :=
  db <| push_fingerprints ::= delete_where (fun x => fp_retained_until x <? UnixMilli now) |>.

(** ** Receipts *)

Definition find_receipt (deliveryID : string) (db : PushDB) : option receipt_row :=
  first_where (fun r => rp_delivery_id r == deliveryID) (push_receipts db).

Definition new_receipt (i : PushIdentity) (observed : Z) : receipt_row :=
  mkReceiptRow (pi_DeliveryID i) (pi_StreamSequence i) (pi_Repository i) (pi_Ref i) (pi_Before i) (pi_After i)
    (UnixMilli <$> pi_HeadTime i) (UnixMilli <$> pi_SourceTime i) (UnixMilli (pi_ReceivedAt i)) (UnixMilli (pi_ReceivedAt i))
    (UnixMilli observed).

Definition same_push (r : receipt_row) (i : PushIdentity) : bool :=
  (rp_repository r == pi_Repository i) && (rp_ref r == pi_Ref i) && (rp_before_sha r == pi_Before i)
  && (rp_after_sha r == pi_After i) && sameOptionalTime (rp_head_timestamp r) (pi_HeadTime i)
  && sameOptionalTime (rp_source_timestamp r) (pi_SourceTime i).

(** The time of the receipt, the time it was observed, and whether it is a
    replay. *)
Definition RecordReceipt (i : PushIdentity) (observed : Z) (db : PushDB) : PushDB * res (Z * Z * bool) :=
  if 2 ^ 63 <=? pi_StreamSequence i then (db, Err "uint64 values with high bit set are not supported")
  else match find_receipt (pi_DeliveryID i) db with
       | None =>
           let r := new_receipt i observed in
           (db <| push_receipts := (push_receipts db ++ [r])%list |>,
            Ok (OfUnixMilli (rp_receipt_at r), OfUnixMilli (rp_consumer_observed_at r), false))
       | Some r =>
           if negb (same_push r i) then (db, Err "delivery replay identity conflict")
           else (db, Ok (OfUnixMilli (rp_receipt_at r), OfUnixMilli (rp_consumer_observed_at r), true))
       end.

(** [PushIdentity], the method; the sequence was stored as a signed integer. *)
Definition load_identity (deliveryID : string) (db : PushDB) : res PushIdentity :=
  r ← of_option ErrNoRows (find_receipt deliveryID db);
  Ok (mkPushIdentity (rp_delivery_id r) (rp_repository r) (rp_ref r) (rp_before_sha r) (rp_after_sha r)
        (OfUnixMilli <$> rp_head_timestamp r) (OfUnixMilli <$> rp_source_timestamp r) (OfUnixMilli (rp_received_at r))
        (rp_stream_sequence r)).

(** ** Results *)

Definition find_result (deliveryID : string) (db : PushDB) : option result_row :=
  first_where (fun r => rr_delivery_id r == deliveryID) (push_results db).

Definition result_scan (r : result_row) (d : receipt_row) : ScanResult :=
  mkScanResult (rr_delivery_id r) (rr_finding_id r) (rr_status r) (rr_severity r) (rr_reason_code r) (rr_fingerprint_id r)
    (rr_profile r) (rr_logical_session_id r) (rr_worker_id r) (rr_session_lineage_id r) (rr_worker_storage_lineage_id r)
    (rr_worker_fence_epoch r) (rr_profile_generation r) (OfUnixMilli (rp_receipt_at d)) (OfUnixMilli (rr_scan_started_at r))
    (OfUnixMilli (rr_material_completed_at r)) (millisTime (rr_finding_at r)) (millisTime (rr_response_requested_at r))
    (millisTime (rr_halted_at r)) (millisTime (rr_fence_requested_at r)) (millisTime (rr_fenced_at r)) (rr_fence_state r)
    (OfUnixMilli (rr_terminal_at r)) (OfUnixMilli (rr_slo_deadline_at r)) (rr_slo_breached r) (rr_slo_state r)
    (rr_alert_state r) (millisTime (rr_alert_requested_at r)).

(** [Result], the method: the result joined with its receipt. *)
Definition load_result (deliveryID : string) (db : PushDB) : option ScanResult :=
  match find_result deliveryID db, find_receipt deliveryID db with
  | Some r, Some d => Some (result_scan r d)
  | _, _ => None
  end.

Definition new_result_row (r : ScanResult) : result_row :=
  mkResultRow (sr_DeliveryID r) (sr_FindingID r) (sr_Status r) (sr_Severity r) (sr_ReasonCode r) (sr_FingerprintID r)
    (sr_Profile r) (sr_LogicalSessionID r) (sr_SessionLineageID r) (sr_WorkerID r) (sr_WorkerStorageLineage r)
    (sr_WorkerFenceEpoch r) (sr_ProfileGeneration r) (UnixMilli (sr_ScanStartedAt r)) (UnixMilli (sr_MaterialCompletedAt r))
    (nullableMillis (sr_FindingAt r)) (nullableMillis (sr_ResponseRequestedAt r)) None 0 (nullableMillis (sr_HaltedAt r))
    (nullableMillis (sr_FenceRequestedAt r)) (nullableMillis (sr_FencedAt r)) (sr_FenceState r) (sr_AlertState r)
    (nullableMillis (sr_AlertRequestedAt r)) (UnixMilli (sr_TerminalAt r)) (UnixMilli (sr_SLODeadline r)) (sr_SLOBreached r)
    (sr_SLOState r).

Definition insert_result (r : ScanResult) (db : PushDB) : PushDB :=
  match find_result (sr_DeliveryID r) db with
  | Some _ => db
  | None => db <| push_results := (push_results db ++ [new_result_row r])%list |>
  end.

Definition insert_event_out (id deliveryID payload : string) (db : PushDB) : PushDB :=
  if exists_where (fun e => pe_event_id e == id) (push_events db) then db
  else db <| push_events := (push_events db ++ [mkEventOutRow id deliveryID payload None])%list |>.

Definition RecordResult (r : ScanResult) (event : option SecurityEvent) (db0 : PushDB) : PushDB * res unit :=
  transact (fun db =>
    let db := insert_result r db in
    match event with
    | None => Ok (tt, db)
    | Some e =>
        payload ← of_option "json: time cannot be written" (Marshal_event e);
        Ok (tt, insert_event_out (sx_EventID e) (sx_DeliveryID e) payload db)
    end) db0.

Definition ResponsePending : string := "response_pending".
Definition pending (r : result_row) : bool := rr_status r == ResponsePending.
Definition pending_for (deliveryID : string) (r : result_row) : bool := (rr_delivery_id r == deliveryID) && pending r.

Definition complete_row (s : ScanResult) (r : result_row) : result_row :=
  r <| rr_status := sr_Status s |> <| rr_halted_at := nullableMillis (sr_HaltedAt s) |>
    <| rr_fence_requested_at := nullableMillis (sr_FenceRequestedAt s) |> <| rr_fenced_at := nullableMillis (sr_FencedAt s) |>
    <| rr_fence_state := sr_FenceState s |> <| rr_terminal_at := UnixMilli (sr_TerminalAt s) |>
    <| rr_slo_breached := sr_SLOBreached s |> <| rr_slo_state := sr_SLOState s |>.

(** An UPDATE that must change one row; it is not undone when it does not. *)
Definition update_one (p : result_row -> bool) (f : result_row -> result_row) (e : string) (db : PushDB) : PushDB * res unit :=
  (db <| push_results ::= update_where p f |>,
   if count_where p (push_results db) =? 1 then Ok tt else Err e).

Definition CompleteResponse (s : ScanResult) : PushDB -> PushDB * res unit :=
  update_one (pending_for (sr_DeliveryID s)) (complete_row s) "pending response state was not advanced".

Definition RecordResponseAttempt (deliveryID : string) (now : Z) : PushDB -> PushDB * res unit :=
  update_one (pending_for deliveryID)
    (fun r => r <| rr_response_last_attempt_at := Some (UnixMilli now) |> <| rr_response_attempt_count ::= Z.succ |>)
    "pending response attempt state is unavailable".

Definition MarkOverdueResponses (now : Z) (db : PushDB) : PushDB :=
  db <| push_results ::= update_where
          (fun r => pending r && (rr_slo_state r != "breached") && (rr_slo_deadline_at r <? UnixMilli now))
          (fun r => r <| rr_slo_breached := true |> <| rr_slo_state := "breached" |>
                      <| rr_terminal_at ::= Z.max (UnixMilli now) |>) |>.

(** ORDER BY COALESCE(response_last_attempt_at, response_requested_at),
    delivery_id; a null comes first. *)
Definition attempt_order (r : result_row) : option Z :=
  match rr_response_last_attempt_at r with Some t => Some t | None => rr_response_requested_at r end.
Definition due_before (a b : result_row) : bool :=
  match attempt_order a, attempt_order b with
  | None, None => String.leb (rr_delivery_id a) (rr_delivery_id b)
  | None, Some _ => true
  | Some _, None => false
  | Some x, Some y => (x <? y) || ((x =? y) && String.leb (rr_delivery_id a) (rr_delivery_id b))
  end.
Fixpoint insert_due (r : result_row) (l : list result_row) : list result_row :=
  match l with
  | [] => [r]
  | x :: l' => if due_before r x then r :: l else x :: insert_due r l'
  end.
Definition PendingResponseDeliveryIDs (db : PushDB) : list string :=
  take 64 (map rr_delivery_id (fold_right insert_due [] (rows_where pending (push_results db)))).

(** ** The outbox *)

Definition unpublished (e : event_out_row) : bool := pe_published_at e == None.
Fixpoint insert_by_id (e : event_out_row) (l : list event_out_row) : list event_out_row :=
  match l with
  | [] => [e]
  | x :: l' => if String.leb (pe_event_id e) (pe_event_id x) then e :: l else x :: insert_by_id e l'
  end.

Fixpoint decode_payloads (l : list event_out_row) : res (list SecurityEvent) :=
  match l with
  | [] => Ok []
  | e :: l' => event ← of_option "decode security event" (Unmarshal_event (pe_payload_json e));
               rest ← decode_payloads l'; Ok (event :: rest)
  end.

Definition PendingEvents (db : PushDB) : res (list SecurityEvent) :=
  decode_payloads (take 32 (fold_right insert_by_id [] (rows_where unpublished (push_events db)))).

Definition MarkEventPublished (eventID : string) (now : Z) (db : PushDB) : PushDB * res unit :=
  let p := fun e => (pe_event_id e == eventID) && unpublished e in
  let db' := db <| push_events ::= update_where p (fun e => e <| pe_published_at := Some (UnixMilli now) |>) |> in
  if exists_where p (push_events db) then (db', Ok tt)
  else (db', guard_err (negb (count_where (fun e => (pe_event_id e == eventID) && negb (unpublished e)) (push_events db') =? 1))
               "security event publication state missing").
