(* ===== verification/PushScan.v ===== *)
(** * The push scanner

    [internal/pushscan/scanner.go] and [maintenance.go] with the loop body of
    [cmd/push-security-scanner/main.go]: the material of a push is scanned for
    issued credentials, through the encodings that can hide them; what is found is
    recorded with its alert, and the broker is asked to respond.  The broker, the
    event sink and the clock are parameters; every reading of the clock takes the
    next of its values. *)

From stdpp Require Import gmap.
From S2P Require Import Prelude GoText GoSha256 GoJson GoCodec LedgerModel Envelope GoTime PushStore.
From Stdlib Require Import Ascii.
Open Scope string_scope.
Open Scope Z_scope.
Open Scope go_scope.

(** ** Wire data: [types.go] *)

Definition WireVersion : string := "broker/push-tripwire/v1".
Definition ConsumerAckWait : Z := 6 * Minute.

Record MaterialRequest := mkMaterialRequest {
  mq_Version : string; mq_DeliveryID : string; mq_Repository : string; mq_Ref : string; mq_Before : string;
  mq_After : string }.

Record Commit := mkCommit {
  cm_SHA : string; cm_Message : string }.
#[export] Instance Commit_eta : Eta Commit := fun r =>
  mkCommit (cm_SHA r) (cm_Message r).

Record File := mkFile {
  fl_CommitSHA : string; fl_Path : string; fl_Side : string; fl_Status : string; fl_BlobSHA : string;
  fl_Size : Z; fl_ContentBase64 : string }.
#[export] Instance File_eta : Eta File := fun r =>
  mkFile (fl_CommitSHA r) (fl_Path r) (fl_Side r) (fl_Status r) (fl_BlobSHA r) (fl_Size r)
    (fl_ContentBase64 r).

Record MaterialBounds := mkMaterialBounds {
  mb_CommitCount : Z; mb_PathCount : Z; mb_TotalBytes : Z }.
#[export] Instance MaterialBounds_eta : Eta MaterialBounds := fun r =>
  mkMaterialBounds (mb_CommitCount r) (mb_PathCount r) (mb_TotalBytes r).

Record Material := mkMaterial {
  mt_Version : string; mt_DeliveryID : string; mt_Repository : string; mt_Ref : string; mt_Before : string;
  mt_After : string; mt_Complete : bool; mt_Bounds : MaterialBounds; mt_Commits : slice Commit;
  mt_Files : slice File; mt_ReasonCode : string }.
#[export] Instance Material_eta : Eta Material := fun r =>
  mkMaterial (mt_Version r) (mt_DeliveryID r) (mt_Repository r) (mt_Ref r) (mt_Before r) (mt_After r)
    (mt_Complete r) (mt_Bounds r) (mt_Commits r) (mt_Files r) (mt_ReasonCode r).

Record ResponseBinding := mkResponseBinding {
  rb_LogicalSessionID : string; rb_SessionLineageID : string; rb_WorkerID : string;
  rb_WorkerStorageLineage : string; rb_WorkerFenceEpoch : Z }.

Record ResponseRequest := mkResponseRequest {
  rq_Version : string; rq_FindingID : string; rq_DeliveryID : string; rq_Repository : string;
  rq_Ref : string; rq_Before : string; rq_After : string; rq_Severity : string; rq_ReasonCode : string;
  rq_FingerprintID : string; rq_Profile : string; rq_ProfileGeneration : Z;
  rq_Binding : option ResponseBinding; rq_Actions : list string }.

Record ActionResult := mkActionResult {
  ax_Action : string; ax_State : string; ax_CompletedAt : Z }.
#[export] Instance ActionResult_eta : Eta ActionResult := fun r =>
  mkActionResult (ax_Action r) (ax_State r) (ax_CompletedAt r).

Record ResponseResult := mkResponseResult {
  rx_Version : string; rx_FindingID : string; rx_IdempotentReplay : bool; rx_Actions : slice ActionResult }.
#[export] Instance ResponseResult_eta : Eta ResponseResult := fun r =>
  mkResponseResult (rx_Version r) (rx_FindingID r) (rx_IdempotentReplay r) (rx_Actions r).

Record ScanBounds := mkScanBounds {
  bd_MaxCommits : Z; bd_MaxPaths : Z; bd_MaxCandidates : Z; bd_MaxDecodeDepth : Z; bd_MaxBlobBytes : Z;
  bd_MaxTotalBytes : Z }.

(** ** Credential shapes *)

Definition token_char (c : ascii) : bool :=
  is_alnum c || is_char "." c || is_char "_" c || is_char "~" c || is_char "+" c || is_char "/" c || is_char "-" c.

(** [(?i)PR10[_-]CREDENTIAL[_-]CANARY(?::|=|[_-])[A-Za-z0-9._~+/-]{6,}]: ignoring
    case, the class also contains the long s and the Kelvin sign. *)
Fixpoint folded_prefix (p s : string) : option string :=
  match p, s with
  | EmptyString, _ => Some s
  | String a p', String b s' => if Ascii.eqb (lower_ascii a) (lower_ascii b) then folded_prefix p' s' else None
  | _, _ => None
  end.
Definition one_char (p : ascii -> bool) (s : string) : option string :=
  match s with String c s' => if p c then Some s' else None | EmptyString => None end.
Fixpoint folded_items (n : nat) (s : string) : bool :=
  match n with
  | O => true
  | S k =>
      match s with
      | EmptyString => false
      | String a s1 =>
          if token_char a then folded_items k s1
          else match s1 with
               | EmptyString => false
               | String b s2 =>
                   if (code a =? 197) && (code b =? 191) then folded_items k s2
                   else match s2 with
                        | String c s3 =>
                            if (code a =? 226) && (code b =? 132) && (code c =? 170) then folded_items k s3 else false
                        | EmptyString => false
                        end
               end
      end
  end.
Definition dash_char (c : ascii) : bool := is_char "_" c || is_char "-" c.
Definition canary_at (s : string) : bool :=
  match (s ← folded_prefix "PR10" s; s ← one_char dash_char s; s ← folded_prefix "CREDENTIAL" s; s ← one_char dash_char s;
         s ← folded_prefix "CANARY" s; one_char (fun c => is_char ":" c || is_char "=" c || dash_char c) s) with
  | Some rest => folded_items 6 rest
  | None => false
  end.
Definition canaryPattern : string -> bool := search canary_at.

(** [\beyJ[A-Za-z0-9_-]{8,}\.[A-Za-z0-9_-]{8,}\.[A-Za-z0-9_-]{8,}\b] *)
Definition is_word (c : ascii) : bool := is_alnum c || is_char "_" c.
Definition segment_char (c : ascii) : bool := is_alnum c || dash_char c.
Definition boundary (last : ascii) (s : string) : bool :=
  xorb (is_word last) (match s with EmptyString => false | String c _ => is_word c end).
(** The last segment: at least [n] more characters, up to a word boundary. *)
Fixpoint jwt_tail (n : nat) (last : ascii) (s : string) : bool :=
  (match n with O => boundary last s | S _ => false end)
  || match s with
     | EmptyString => false
     | String c s' => segment_char c && jwt_tail (Nat.pred n) c s'
     end.
(** A segment that a period ends. *)
Definition jwt_segment (s : string) : option string :=
  let '(segment, rest) := span segment_char s in
  if 8 <=? len segment then one_char (is_char ".") rest else None.
Definition jwt_at (s : string) : bool :=
  match (s ← strip_prefix "eyJ" s; s ← jwt_segment s; jwt_segment s) with
  | Some rest => jwt_tail 8 "." rest
  | None => false
  end.
Fixpoint jwt_search (after_word : bool) (s : string) : bool :=
  (negb after_word && jwt_at s)
  || match s with EmptyString => false | String c s' => jwt_search (is_word c) s' end.
Definition jwtPattern : string -> bool := jwt_search false.

(** [[A-Za-z0-9._~+/-]{16,1000}]: a run longer than the bound is cut into matches
    of one thousand characters; fuel: a match is not empty. *)
Fixpoint token_chunks (fuel : nat) (s : string) : list string :=
  match fuel with
  | O => []
  | S k => if len s <? 16 then [] else take_str 1000 s :: token_chunks k (drop_str 1000 s)
  end.
Definition tokenRun (s : string) : list string :=
  List.concat (map (fun r => token_chunks (String.length (fst r)) (fst r)) (runs token_char false s)).

(** [[A-Za-z0-9+/_-]{16,}={0,2}] *)
Definition base64_char (c : ascii) : bool := is_alnum c || is_char "+" c || is_char "/" c || is_char "_" c || is_char "-" c.
Definition padding (rest : string) : string :=
  match rest with
  | String a r => if is_char "=" a
                  then match r with String b _ => if is_char "=" b then "==" else "=" | EmptyString => "=" end
                  else ""
  | EmptyString => ""
  end.
Definition base64Run (s : string) : list string :=
  List.concat (map (fun r => if len (fst r) <? 16 then [] else [fst r ++ padding (snd r)]) (runs base64_char false s)).

(** [(?i)(?:[0-9a-f]{2}){12,}]: whole pairs of a run. *)
Definition is_hex (c : ascii) : bool := is_digit c || between 97 102 c || between 65 70 c.
Definition hexRun (s : string) : list string :=
  List.concat (map (fun r => let n := (2 * (String.length (fst r) / 2))%nat in
                             if (n <? 24)%nat then [] else [take_str n (fst r)]) (runs is_hex false s)).

Definition genericEntropyShape (value : string) : bool :=
  existsb (fun c => (32 <=? len c) && any_char is_digit c && any_char is_upper c && any_char is_lower c) (tokenRun value).

(** ** Reversible encodings *)

Definition encodings : list (string -> option string) := [StdEncoding; RawStdEncoding; URLEncoding; RawURLEncoding].
Definition decodes (o : option string) : list string := match o with Some d => [d] | None => [] end.

(** [value[start : len(value)-end]]. *)
Definition trimmed (value : string) (start finish : nat) : string :=
  take_str (String.length value - start - finish) (drop_str start value).
Definition trims (n : nat) : list (nat * nat) := List.list_prod (seq 0 n) (seq 0 n).

Definition unescapings (value : string) : list string :=
  match PathUnescape value with Some d => if d == value then [] else [d] | None => [] end.
Definition hex_trim (m : string) (t : nat * nat) : list string :=
  let n := (String.length m - fst t - snd t)%nat in
  if (n <? 24)%nat || negb (Nat.even n) then [] else decodes (hex_decode (trimmed m (fst t) (snd t))).
Definition base64_trim (m : string) (t : nat * nat) : list string :=
  if (String.length m - fst t - snd t <? 16)%nat then []
  else List.concat (map (fun decode => decodes (decode (trimmed m (fst t) (snd t)))) encodings).

Definition reversibleDecodings (value : string) : list string :=
  (unescapings value
   ++ List.concat (map (fun m => List.concat (map (hex_trim m) (trims 2))) (hexRun value))
   ++ List.concat (map (fun m => List.concat (map (base64_trim m) (trims 4))) (base64Run value)))%list.

Definition hasFullReversibleDecoding (value : string) : bool :=
  negb (unescapings value == [])
  || ((24 <=? len value) && (len value mod 2 =? 0) && negb (hex_decode value == None))
  || ((16 <=? len value) && existsb (fun decode => negb (decode value == None)) encodings).

(** ** Identities and findings *)

Definition IdentityFromSignal (signal : Signal) (sequence : Z) : res PushIdentity :=
  let meta := sg_Meta signal in
  _ ← guard_err ((m_Source meta != "github") || (m_SourceEvent meta != "push") || negb (Verified (m_Authentication meta))
        || (Method (m_Authentication meta) != "github_hmac_sha256") || (m_SourceDeliveryID meta == "")
        || (m_Namespace meta == "") || negb (HasPrefix (m_SourceRef meta) "refs/heads/") || negb (githubSHA (m_SourceBefore meta))
        || negb (githubSHA (m_SourceAfter meta)) || (m_ReceivedAt meta =? ZeroTime) || (sequence =? 0))
        "signed push identity is incomplete";
  Ok (mkPushIdentity (m_SourceDeliveryID meta) (m_Namespace meta) (m_SourceRef meta) (m_SourceBefore meta)
        (m_SourceAfter meta) (m_SourceHeadTime meta) (m_SourceTimestamp meta) (m_ReceivedAt meta) sequence).

Definition nul : string := String (byte_of 0) "".
Definition findingID (i : PushIdentity) (reason fingerprint : string) : string :=
  "push-finding-" ++ take_str 32 (sha256_hex (pi_DeliveryID i ++ nul ++ reason ++ nul ++ fingerprint)).

Definition safeReason (value : string) : string :=
  if bool_decide (value ∈ ["before_mismatch"; "ref_deletion_rejected"; "non_fast_forward_rejected"; "commit_bound_exceeded";
                           "path_bound_exceeded"; "blob_bound_exceeded"; "total_bytes_exceeded"; "candidate_bound_exceeded";
                           "decode_bound_exceeded"])
  then value else "material_incomplete".

Definition exactMaterialIdentity (m : Material) (i : PushIdentity) : bool :=
  (mt_Version m == WireVersion) && (mt_DeliveryID m == pi_DeliveryID i) && (mt_Repository m == pi_Repository i)
  && (mt_Ref m == pi_Ref i) && (mt_Before m == pi_Before i) && (mt_After m == pi_After i).

(** ** The scanner *)

(** What the scanner is configured with. *)
Record Scanner := mkScanner {
  sn_FingerprintKey : string; sn_Bounds : ScanBounds; sn_Profile : string; sn_ProfileGeneration : Z;
  sn_CanaryAttribution : Attribution; sn_Repositories : list string; sn_Refs : list string }.

Section Scan.
Context (s : Scanner) (clock : nat -> Z).

Definition highFinding (i : PushIdentity) (reason : string) : Finding :=
  mkFinding (findingID i reason "") "high" reason (zero_attribution <| an_Profile := sn_Profile s |>
                                                     <| an_ProfileGeneration := sn_ProfileGeneration s |>).
Definition lowFinding (i : PushIdentity) (reason : string) : Finding :=
  mkFinding (findingID i reason "") "low" reason (zero_attribution <| an_Profile := sn_Profile s |>
                                                    <| an_ProfileGeneration := sn_ProfileGeneration s |>).
Definition no_finding : Finding := mkFinding "" "" "" zero_attribution.

(** The first candidate with a fingerprint; each is looked up at the next time. *)
Fixpoint match_any (candidates : list string) (db : PushDB) (tick : nat) : nat * option Attribution :=
  match candidates with
  | [] => (tick, None)
  | c :: rest =>
      match MatchCandidate (sn_FingerprintKey s) c (clock tick) db with
      | Some a => (S tick, Some a)
      | None => match_any rest db (S tick)
      end
  end.

Definition token_finding (i : PushIdentity) (a : Attribution) : Finding :=
  let reason := if an_State a == "active" then "issued_token_fingerprint_match"
                else an_State a ++ "_token_fingerprint_match" in
  mkFinding (findingID i reason (an_FingerprintID a)) "high" reason a.

(** The queue of values with their depths, and the values that were queued. *)
Definition add_value (value : string) (depth : Z) (st : list (string * Z) * gset string)
    : option (list (string * Z) * gset string) :=
  let '(queue, seen) := st in
  if (value == "") || bool_decide (value ∈ seen) then Some st
  else if bd_MaxCandidates (sn_Bounds s) <=? Z.of_nat (size seen) then None
  else Some ((queue ++ [(value, depth)])%list, {[value]} ∪ seen).

Fixpoint add_values (values : list string) (depth : Z) (st : list (string * Z) * gset string)
    : option (list (string * Z) * gset string) :=
  match values with
  | [] => Some st
  | v :: rest => st ← add_value v depth st; add_values rest depth st
  end.

(** The loop over the queue; [Panic] is a loop that has run out of fuel. *)
Fixpoint scan_loop (fuel : nat) (i : PushIdentity) (db : PushDB) (queue : list (string * Z)) (seen : gset string)
    (low : Finding) (tick : nat) : nat * res Finding :=
  match fuel with
  | O => (tick, Panic)
  | S k =>
      match queue with
      | [] => (tick, Ok low)
      | (value, depth) :: queue =>
          if canaryPattern value
          then (tick, Ok ((highFinding i "seeded_canary_match") <| fd_Attribution := sn_CanaryAttribution s |>))
          else match match_any (value :: tokenRun value) db tick with
               | (tick, Some a) => (tick, Ok (token_finding i a))
               | (tick, None) =>
                   let low := if (fd_Severity low == "") && (jwtPattern value || genericEntropyShape value)
                              then lowFinding i "generic_credential_shape" else low in
                   if bd_MaxDecodeDepth (sn_Bounds s) <=? depth then
                     if hasFullReversibleDecoding value then (tick, Err "decode depth exceeded")
                     else scan_loop k i db queue seen low tick
                   else match add_values (reversibleDecodings value) (depth + 1) (queue, seen) with
                        | None => (tick, Err "candidate bound exceeded")
                        | Some (queue, seen) => scan_loop k i db queue seen low tick
                        end
               end
      end
  end.

(** Every value is queued once, and at most [MaxCandidates] are. *)
Definition scan_fuel : nat := S (Z.to_nat (bd_MaxCandidates (sn_Bounds s))).

Definition scanValues (i : PushIdentity) (inputs : list string) (db : PushDB) (tick : nat) : nat * res Finding :=
  match add_values inputs 0 ([], ∅) with
  | None => (tick, Err "candidate bound exceeded")
  | Some (queue, seen) => scan_loop scan_fuel i db queue seen no_finding tick
  end.

(** The values of the material, with the bytes counted so far. *)
Fixpoint commit_values (commits : list Commit) (total : Z) : res (list string * Z) :=
  match commits with
  | [] => Ok ([], total)
  | c :: rest =>
      _ ← guard_err (negb (githubSHA (cm_SHA c))) "invalid commit identity";
      let total := total + len (cm_Message c) in
      _ ← guard_err (bd_MaxTotalBytes (sn_Bounds s) <? total) "total bytes exceeded";
      '(values, total) ← commit_values rest total;
      Ok (cm_Message c :: values, total)
  end.

Definition bad_file (f : File) : bool :=
  (fl_Path f == "") || (fl_Size f <? 0) || (bd_MaxBlobBytes (sn_Bounds s) <? fl_Size f) || negb (githubSHA (fl_CommitSHA f))
  || negb (githubSHA (fl_BlobSHA f)) || ((fl_Side f != "before") && (fl_Side f != "after")).

Fixpoint file_values (files : list File) (total : Z) : res (list string * Z) :=
  match files with
  | [] => Ok ([], total)
  | f :: rest =>
      _ ← guard_err (bad_file f) "file bounds exceeded";
      content ← of_option "invalid bounded blob" (StdEncoding (fl_ContentBase64 f));
      _ ← guard_err (negb (len content =? fl_Size f)) "invalid bounded blob";
      let total := total + len content in
      _ ← guard_err (bd_MaxTotalBytes (sn_Bounds s) <? total) "total bytes exceeded";
      '(values, total) ← file_values rest total;
      Ok (fl_Path f :: content :: values, total)
  end.

Definition material_values (m : Material) : res (list string) :=
  let commits := elems (mt_Commits m) in
  let files := elems (mt_Files m) in
  let b := sn_Bounds s in
  _ ← guard_err ((bd_MaxCommits b <? Z.of_nat (length commits)) || (bd_MaxPaths b <? Z.of_nat (length files))
        || (bd_MaxCommits b <? mb_CommitCount (mt_Bounds m)) || (bd_MaxPaths b <? mb_PathCount (mt_Bounds m))
        || (bd_MaxTotalBytes b <? mb_TotalBytes (mt_Bounds m))) "material bounds exceeded";
  '(messages, total) ← commit_values commits 0;
  '(contents, total) ← file_values files total;
  _ ← guard_err (negb (mb_CommitCount (mt_Bounds m) =? Z.of_nat (length commits))
        || negb (mb_PathCount (mt_Bounds m) =? Z.of_nat (length files)) || negb (mb_TotalBytes (mt_Bounds m) =? total))
        "material bound accounting mismatch";
  Ok (messages ++ contents)%list.

Definition scanMaterial (i : PushIdentity) (m : Material) (db : PushDB) (tick : nat) : nat * res Finding :=
  match material_values m with
  | Ok values => scanValues i values db tick
  | Err e => (tick, Err e)
  | Panic => (tick, Panic)
  end.
End Scan.

(** ** Processing a delivery *)

Inductive scan_effect :=
  | EMaterial (request : MaterialRequest)
  | ERespond (key : string) (request : ResponseRequest)
  | EPublish (event : SecurityEvent).

Record world := mkWorld { sw_db : PushDB; sw_tick : nat; sw_effects : list scan_effect }.
#[export] Instance world_eta : Eta world := fun w => mkWorld (sw_db w) (sw_tick w) (sw_effects w).

(** The error of a call for material: one of the broker, with its code, or any
    other. *)
Inductive material_error :=
  | MaterialError (code : string)
  | OtherError (text : string).

(** The interfaces [Broker] and [EventSink]; a nil sink is [None]. *)
Record environment := mkEnvironment {
  en_Material : MaterialRequest -> Material + material_error;
  en_Respond : string -> ResponseRequest -> ResponseResult + string;
  en_Publish : option (SecurityEvent -> option string);
  en_clock : nat -> Z }.

(** Values with an error beside them, as Go returns them. *)
Definition step (A : Type) : Type := world -> world * A.

Section Process.
Context (s : Scanner) (env : environment).

Definition now_ : step Z := fun w => (w <| sw_tick ::= S |>, en_clock env (sw_tick w)).
Definition on_db {A} (f : PushDB -> PushDB * A) : step A := fun w => let '(db, a) := f (sw_db w) in (w <| sw_db := db |>, a).
Definition perform (e : scan_effect) (w : world) : world := w <| sw_effects := (sw_effects w ++ [e])%list |>.

Definition error_of {A} (r : res A) : option string := match r with Ok _ => None | Err e => Some e | Panic => Some "panic" end.
(** [errors.Join]. *)
Definition join_errors (errors : list (option string)) : option string :=
  match omap id errors with [] => None | l => Some (Join l (String (byte_of 10) "")) end.

(** The loop of [flushEvents]: publication, then the mark; the first error ends it. *)
Fixpoint publish_all (publish : SecurityEvent -> option string) (events : list SecurityEvent) (w : world) : world * option string :=
  match events with
  | [] => (w, None)
  | e :: rest =>
      let w := perform (EPublish e) w in
      match publish e with
      | Some err => (w, Some err)
      | None =>
          let '(w, t) := now_ w in
          let '(w, r) := on_db (MarkEventPublished (sx_EventID e) t) w in
          match r with
          | Ok _ => publish_all publish rest w
          | _ => (w, error_of r)
          end
      end
  end.

Definition flushEvents (w : world) : world * option string :=
  match PendingEvents (sw_db w) with
  | Ok events => match en_Publish env with None => (w, None) | Some publish => publish_all publish events w end
  | r => (w, error_of r)
  end.

Definition fence_actions (workerID : string) : list string :=
  if workerID == "" then ["halt_issuance"] else ["fence_worker_session"; "halt_issuance"].

(** The actions are sorted. *)
Definition responseRequest (i : PushIdentity) (f : Finding) : ResponseRequest :=
  let a := fd_Attribution f in
  mkResponseRequest WireVersion (fd_ID f) (pi_DeliveryID i) (pi_Repository i) (pi_Ref i) (pi_Before i) (pi_After i)
    (fd_Severity f) (fd_ReasonCode f) (an_FingerprintID a) (an_Profile a) (an_ProfileGeneration a)
    (if an_WorkerID a == "" then None
     else Some (mkResponseBinding (an_LogicalSessionID a) (an_SessionLineageID a) (an_WorkerID a)
                  (an_WorkerStorageLineage a) (an_WorkerFenceEpoch a)))
    (fence_actions (an_WorkerID a)).

(** The times halted, fence requested and fenced, and the state of the fence. *)
Record response_times := mkResponseTimes { rt_halted : Z; rt_fenceRequested : Z; rt_fenced : Z; rt_fenceState : string }.

Definition apply_action (t : response_times) (a : ActionResult) : res response_times :=
  if ax_CompletedAt a =? ZeroTime then Err "broker action response invalid"
  else if ax_Action a == "halt_issuance" then
    if ax_State a != "halted" then Err "broker halt response invalid"
    else Ok (mkResponseTimes (ax_CompletedAt a) (rt_fenceRequested t) (rt_fenced t) (rt_fenceState t))
  else if ax_Action a == "fence_worker_session" then
    if ax_State a == "fence_requested" then Ok (mkResponseTimes (rt_halted t) (ax_CompletedAt a) (rt_fenced t) (ax_State a))
    else if ax_State a == "fenced" then Ok (mkResponseTimes (rt_halted t) (ax_CompletedAt a) (ax_CompletedAt a) (ax_State a))
    else Err "broker fence response invalid"
  else Err "broker returned unknown action".

Fixpoint apply_actions (t : response_times) (l : list ActionResult) : res response_times :=
  match l with [] => Ok t | a :: l' => t ← apply_action t a; apply_actions t l' end.

Definition validateResponse (r : ResponseResult) (f : Finding) : res response_times :=
  _ ← guard_err ((rx_Version r != WireVersion) || (rx_FindingID r != fd_ID f)) "broker response identity mismatch";
  t ← apply_actions (mkResponseTimes ZeroTime ZeroTime ZeroTime "") (elems (rx_Actions r));
  _ ← guard_err ((rt_halted t =? ZeroTime) || ((an_WorkerID (fd_Attribution f) != "") && (rt_fenceRequested t =? ZeroTime)))
        "broker omitted required response action";
  Ok t.

Definition maxTime (values : list Z) : Z := fold_left (fun r v => if r <? v then v else r) values ZeroTime.

(** The finding a stored result stands for. *)
Definition finding_of (r : ScanResult) : Finding :=
  mkFinding (sr_FindingID r) (sr_Severity r) (sr_ReasonCode r)
    (mkAttribution (sr_FingerprintID r) (sr_Profile r) (sr_LogicalSessionID r) (sr_SessionLineageID r) (sr_WorkerID r)
       (sr_WorkerStorageLineage r) (sr_WorkerFenceEpoch r) (sr_ProfileGeneration r) ZeroTime ZeroTime "").

Definition completed_result (r : ScanResult) (t : response_times) : ScanResult :=
  let r := r <| sr_HaltedAt := rt_halted t |> <| sr_FenceRequestedAt := rt_fenceRequested t |>
             <| sr_FencedAt := rt_fenced t |> <| sr_FenceState := rt_fenceState t |> in
  let r := r <| sr_TerminalAt := maxTime [sr_TerminalAt r; rt_halted t; rt_fenceRequested t; rt_fenced t] |> in
  let breached := sr_SLODeadline r <? maxTime [sr_AlertRequestedAt r; sr_HaltedAt r] in
  r <| sr_SLOBreached := breached |> <| sr_SLOState := if breached then "breached" else "met" |>
    <| sr_Status := "finding_" ++ sr_Severity r |>.

Definition completeResponse (i : PushIdentity) (r : ScanResult) (w : world) : world * (ScanResult * option string) :=
  let '(w, t) := now_ w in
  let '(w, attempted) := on_db (RecordResponseAttempt (sr_DeliveryID r) t) w in
  match attempted with
  | Ok _ =>
      let f := finding_of r in
      let key := "push-tripwire:" ++ fd_ID f in
      let request := responseRequest i f in
      let w := perform (ERespond key request) w in
      match en_Respond env key request with
      | inr e => (w, (r, Some e))
      | inl response =>
          match validateResponse response f with
          | Ok times =>
              let r := completed_result r times in
              let '(w, done) := on_db (CompleteResponse r) w in
              (w, (r, error_of done))
          | e => (w, (r, error_of e))
          end
      end
  | e => (w, (r, error_of e))
  end.

Definition wrap (text : string) (e : option string) : option string := option_map (fun x => text ++ ": " ++ x) e.

Definition runSideEffects (i : PushIdentity) (r : ScanResult) (w : world) : world * (ScanResult * option string) :=
  let '(w, flushed) := flushEvents w in
  let flushed := wrap "flush security event outbox" flushed in
  if sr_Status r == ResponsePending then
    let '(w, (completed, e)) := completeResponse i r w in
    match e with
    | Some _ => (w, (r, join_errors [flushed; wrap "complete pending broker response" e]))
    | None => (w, (completed, join_errors [flushed]))
    end
  else (w, (r, join_errors [flushed])).

Definition securityEvent (i : PushIdentity) (r : ScanResult) : SecurityEvent :=
  mkSecurityEvent "signal/push-tripwire-event/v1" ("push-event-" ++ sr_FindingID r) (sr_AlertState r) (sr_FindingID r)
    (pi_DeliveryID i) (pi_Repository i) (pi_Ref i) (pi_Before i) (pi_After i) (sr_Severity r) (sr_ReasonCode r)
    (sr_FingerprintID r) (sr_Profile r) (sr_ProfileGeneration r) (sr_LogicalSessionID r) (sr_SessionLineageID r)
    (sr_WorkerID r) (sr_WorkerStorageLineage r) (sr_WorkerFenceEpoch r) (pi_ReceivedAt i) (sr_ReceiptAt r) (sr_FindingAt r)
    (sr_AlertRequestedAt r).

Definition copyAttribution (r : ScanResult) (a : Attribution) : ScanResult :=
  r <| sr_FingerprintID := an_FingerprintID a |> <| sr_Profile := an_Profile a |>
    <| sr_LogicalSessionID := an_LogicalSessionID a |> <| sr_SessionLineageID := an_SessionLineageID a |>
    <| sr_WorkerID := an_WorkerID a |> <| sr_WorkerStorageLineage := an_WorkerStorageLineage a |>
    <| sr_WorkerFenceEpoch := an_WorkerFenceEpoch a |> <| sr_ProfileGeneration := an_ProfileGeneration a |>.

(** The finding of a delivery from what the broker answers. *)
Definition find_in (i : PushIdentity) (answer : Material + material_error) (w : world) : world * Finding :=
  match answer with
  | inr (MaterialError code) => (w, highFinding s i (safeReason code))
  | inr (OtherError _) => (w, highFinding s i "material_unavailable")
  | inl m =>
      if negb (exactMaterialIdentity m i) then (w, highFinding s i "material_identity_mismatch")
      else if negb (mt_Complete m) then (w, highFinding s i (safeReason (mt_ReasonCode m)))
      else
        let '(tick, r) := scanMaterial s (en_clock env) i m (sw_db w) (sw_tick w) in
        let w := w <| sw_tick := tick |> in
        match r with
        | Ok f => (w, f)
        | _ => (w, highFinding s i "scan_bound_exceeded")
        end
  end.

(** Tokens that live shorter than fifty minutes have a shorter deadline. *)
Definition slo_deadline (receiptAt : Z) (a : Attribution) (deadline : Z) : Z :=
  if negb (an_IssuedAt a =? ZeroTime) && (an_IssuedAt a <? an_ExpiresAt a) then
    let ttlSLO := (an_ExpiresAt a - an_IssuedAt a) / 10 in
    if ttlSLO <? 5 * Minute then receiptAt + ttlSLO else deadline
  else deadline.

(** The result of a finding, before the alert. *)
Definition finding_result (r : ScanResult) (f : Finding) (w : world) : world * ScanResult :=
  if fd_Severity f == "" then
    (w, r <| sr_Status := "clean" |> <| sr_Severity := "none" |> <| sr_ReasonCode := "clean" |>)
  else
    let '(w, found) := now_ w in
    let r := r <| sr_FindingID := fd_ID f |> <| sr_Severity := fd_Severity f |> <| sr_ReasonCode := fd_ReasonCode f |>
               <| sr_Status := "finding_" ++ fd_Severity f |> <| sr_FindingAt := found |> in
    let r := copyAttribution r (fd_Attribution f) in
    let r := r <| sr_SLODeadline := slo_deadline (sr_ReceiptAt r) (fd_Attribution f) (sr_SLODeadline r) |> in
    let bound := an_FingerprintID (fd_Attribution f) != "" in
    if (fd_Severity f == "high") && (negb bound || (an_State (fd_Attribution f) == "active")) then
      let '(w, requested) := now_ w in
      (w, r <| sr_Status := ResponsePending |> <| sr_ResponseRequestedAt := requested |> <| sr_SLOState := "pending" |>)
    else if (fd_Severity f == "high") && bound then (w, r <| sr_SLOState := "not_live_when_scanned" |>)
    else (w, r).

(** The alert of a finding. *)
Definition request_alert (i : PushIdentity) (r : ScanResult) (f : Finding) (w : world)
    : world * (ScanResult * option SecurityEvent) :=
  if fd_Severity f == "" then (w, (r, None))
  else
    let '(w, t) := now_ w in
    let r := r <| sr_AlertState := "alert_requested" |> <| sr_AlertRequestedAt := t |> in
    (w, (r, Some (securityEvent i r))).

Definition incomplete : bool :=
  (len (sn_FingerprintKey s) <? 32) || (sn_Profile s == "") || (sn_ProfileGeneration s <=? 0).

(** The scan of a delivery that has no result yet. *)
Definition scan_delivery (i : PushIdentity) (started receiptAt : Z) (w : world) : world * (ScanResult * option string) :=
  let r := zero_result <| sr_DeliveryID := pi_DeliveryID i |> <| sr_ScanStartedAt := started |> <| sr_ReceiptAt := receiptAt |>
             <| sr_Profile := sn_Profile s |> <| sr_ProfileGeneration := sn_ProfileGeneration s |>
             <| sr_SLOState := "not_applicable" |> <| sr_SLODeadline := receiptAt + 5 * Minute |> in
  if negb (exists_where (fun x => x == pi_Repository i) (sn_Repositories s))
     || negb (exists_where (fun x => x == pi_Ref i) (sn_Refs s)) then
    let r := r <| sr_Status := "rejected_catalog" |> <| sr_Severity := "none" |> <| sr_ReasonCode := "catalog_rejected" |>
               <| sr_MaterialCompletedAt := started |> <| sr_TerminalAt := started |> in
    let '(w, recorded) := on_db (RecordResult r None) w in
    match recorded with Ok _ => (w, (r, None)) | e => (w, (zero_result, error_of e)) end
  else
    let request := mkMaterialRequest WireVersion (pi_DeliveryID i) (pi_Repository i) (pi_Ref i) (pi_Before i) (pi_After i) in
    let w := perform (EMaterial request) w in
    let answer := en_Material env request in
    let '(w, completed) := now_ w in
    let r := r <| sr_MaterialCompletedAt := completed |> in
    let '(w, f) := find_in i answer w in
    let '(w, terminal) := now_ w in
    let r := r <| sr_TerminalAt := terminal |> in
    let '(w, r) := finding_result r f w in
    let '(w, (r, event)) := request_alert i r f w in
    let '(w, recorded) := on_db (RecordResult r event) w in
    match recorded with Ok _ => runSideEffects i r w | e => (w, (zero_result, error_of e)) end.

Definition Process (i : PushIdentity) (w : world) : world * (ScanResult * option string) :=
  if incomplete then (w, (zero_result, Some "push scanner dependencies are incomplete"))
  else
    let '(w, now) := now_ w in
    let '(w, receipt) := on_db (RecordReceipt i now) w in
    match receipt with
    | Ok (receiptAt, _, _) =>
        match load_result (pi_DeliveryID i) (sw_db w) with
        | Some existing => runSideEffects i existing w
        | None => scan_delivery i now receiptAt w
        end
    | e => (w, (zero_result, error_of e))
    end.

(** ** Reconciliation *)

(** One pending response of [Reconcile]. *)
Definition reconcile_one (deliveryID : string) (w : world) : world * option string :=
  match load_identity deliveryID (sw_db w), load_result deliveryID (sw_db w) with
  | Ok i, Some r =>
      let '(w, (_, e)) := completeResponse i r w in (w, wrap ("complete pending response " ++ deliveryID) e)
  | Ok _, None => (w, Some ("load pending response result " ++ deliveryID ++ ": result missing"))
  | e, _ => (w, wrap ("load pending response identity " ++ deliveryID) (error_of e))
  end.

Fixpoint reconcile_all (ids : list string) (w : world) : world * list (option string) :=
  match ids with
  | [] => (w, [])
  | id :: rest =>
      let '(w, e) := reconcile_one id w in
      let '(w, errors) := reconcile_all rest w in (w, e :: errors)
  end.

Definition Reconcile (w : world) : world * option string :=
  let '(w, flushed) := flushEvents w in
  let '(w, t) := now_ w in
  let '(w, _) := on_db (fun db => (MarkOverdueResponses t db, tt)) w in
  let '(w, errors) := reconcile_all (PendingResponseDeliveryIDs (sw_db w)) w in
  (w, join_errors (wrap "flush security event outbox" flushed :: errors)).

(** ** Maintenance: [maintenance.go] *)

Record Maintenance := mkMaintenance {
  mn_ReconcileInterval : Z; mn_FingerprintPruneInterval : Z; mn_nextReconcile : Z; mn_nextFingerprintPrune : Z }.

Definition maintenance_invalid (m : Maintenance) : bool :=
  (mn_ReconcileInterval m <=? 0) || (mn_FingerprintPruneInterval m <=? 0).

Definition Startup (m : Maintenance) (w : world) : world * (Maintenance * option string) :=
  if maintenance_invalid m then (w, (m, Some "push scanner maintenance configuration is incomplete"))
  else
    let '(w, now) := now_ w in
    let m := mkMaintenance (mn_ReconcileInterval m) (mn_FingerprintPruneInterval m) (now + mn_ReconcileInterval m)
               (now + mn_FingerprintPruneInterval m) in
    let '(w, _) := on_db (fun db => (PruneFingerprints now db, tt)) w in
    let '(w, e) := Reconcile w in
    (w, (m, join_errors [wrap "startup reconciliation" e])).

Definition RunDue (m : Maintenance) (w : world) : world * (Maintenance * option string) :=
  if maintenance_invalid m then (w, (m, Some "push scanner maintenance configuration is incomplete"))
  else if (mn_nextReconcile m =? ZeroTime) || (mn_nextFingerprintPrune m =? ZeroTime)
  then (w, (m, Some "push scanner maintenance has not started"))
  else
    let '(w, now) := now_ w in
    let prune := negb (now <? mn_nextFingerprintPrune m) in
    let due := negb (now <? mn_nextReconcile m) in
    let m := mkMaintenance (mn_ReconcileInterval m) (mn_FingerprintPruneInterval m)
               (if due then now + mn_ReconcileInterval m else mn_nextReconcile m)
               (if prune then now + mn_FingerprintPruneInterval m else mn_nextFingerprintPrune m) in
    let '(w, _) := on_db (fun db => (if prune then PruneFingerprints now db else db, tt)) w in
    if due then let '(w, e) := Reconcile w in (w, (m, join_errors [wrap "periodic reconciliation" e]))
    else (w, (m, None)).

(** ** The consumer: the loop body of the command *)

Inductive message_reply :=
  | MsgAck
  | MsgTerm
  | MsgNak (delay : Z).

Definition scanRetryDelay : Z := 5 * Second.

(** What is done with one message; the sequence is [None] when its metadata
    cannot be read. *)
Definition consume (data : string) (sequence : option Z) (w : world) : world * message_reply :=
  match Unmarshal_signal data, sequence with
  | Some signal, Some seq =>
      if m_SourceEvent (sg_Meta signal) != "push" then (w, MsgAck)
      else match IdentityFromSignal signal seq with
           | Ok i =>
               let '(w, (r, e)) := Process i w in
               match e with
               | Some _ => if sr_DeliveryID r == "" then (w, MsgNak scanRetryDelay) else (w, MsgAck)
               | None => (w, MsgAck)
               end
           | _ => (w, MsgTerm)
           end
  | _, _ => (w, MsgTerm)
  end.
End Process.
