(* ===== verification/RawJsonFacts.v ===== *)
(** * Reading back structs with their texts

    Structs with times are decoded member by member from the text of the members.
    For the text [json.Marshal] writes, that text is the encoding of the member, and a
    time that can be written is read back. *)

From S2P Require Import Prelude GoText GoSha256 GoJson LedgerModel Envelope GoTime PushStore.
From Stdlib Require Import Ascii.
Open Scope string_scope.
Open Scope Z_scope.
Open Scope go_scope.

(** ** The members of a written object *)

(** The text after the opening brace. *)
Definition members_text (fs : list (string * json)) : string :=
  match fs with [] => "}" | kv :: fs => field_text kv ++ tail_fields fs ++ "}" end.

Lemma take_prefix a b : take_str (String.length (a ++ b) - String.length b) (a ++ b) = a.
Proof.
  rewrite slength_app. replace (String.length a + String.length b - String.length b)%nat with (String.length a) by lia.
  rewrite take_str_app by lia. rewrite Nat.sub_diag. replace (take_str 0 b) with "" by by destruct b. apply sapp_nil_r.
Qed.

Lemma drop_first c r : drop_str 1 (String c r) = r.
Proof. by apply (drop_str_app 1 (String c "")). Qed.

Lemma length_members fs : (length fs <= String.length (members_text fs))%nat.
Proof.
  destruct fs as [|kv fs]; [cbn; lia|]. cbn [members_text length]. rewrite !slength_app.
  assert (length fs <= String.length (tail_fields fs))%nat.
  { induction fs as [|x fs IH]; [cbn; lia|]. cbn [tail_fields fold_right String.length length]. fold (tail_fields fs).
    rewrite slength_app. lia. }
  unfold field_text, quote. cbn. lia.
Qed.

Section Members.
Context (h : nat) (Hdepth : 1 + Z.of_nat h <= max_depth).
Local Abbreviation written := (Forall (fun kv : string * json => ValidString (fst kv) = true /\ wf_json h (snd kv))).

(** One member, followed by the rest of the object. *)
Lemma raw_member k kv rest :
  ValidString (fst kv) = true -> wf_json h (snd kv) -> delim rest = true ->
  raw_members_go (S k) (field_text kv ++ rest)
  = (fst kv, marshal (snd kv)) :: raw_members_go k (drop_str 1 (skip_space rest)).
Proof.
  destruct kv as [key v]. cbn [fst snd]. intros Hk Hv Hr. unfold field_text, quote. cbn [fst snd String.append].
  rewrite !sapp_assoc. cbn [String.append raw_members_go].
  change (skip_space (String quote_mark ?s)) with (String quote_mark s). change (Ascii.eqb quote_mark quote_mark) with true. cbv iota.
  rewrite unquote_quote by by apply ValidString_Utf8.
  change (skip_space (String (byte_of 58) ?s)) with (String (byte_of 58) s).
  rewrite drop_first.
  destruct (marshal_head h v Hv) as (c & m & E & Hc).
  assert (Hs : skip_space (marshal v ++ rest) = marshal v ++ rest) by (rewrite E; by apply skip_space_start).
  rewrite Hs, (parse_marshal_value h v Hv) by (done || (pose proof (need_le h v Hv); unfold json_fuel; rewrite slength_app; lia)).
  by rewrite take_prefix.
Qed.

Lemma raw_members_text fs k :
  written fs -> (length fs <= k)%nat -> raw_members_go (S k) (members_text fs) = map (fun kv => (fst kv, marshal (snd kv))) fs.
Proof.
  intros Hfs. revert k. induction Hfs as [|kv fs [Hk Hv] Hfs IH]; intros k Hl; [reflexivity|].
  cbn [members_text map]. rewrite raw_member by (done || apply delim_tail_fields). f_equal. cbn [length] in Hl.
  destruct fs as [|x fs]; [by destruct k|].
  destruct k as [|k]; [cbn in Hl; lia|]. rewrite <- (IH k) by (cbn [length] in *; lia). f_equal. cbn [tail_fields fold_right String.append]. fold (tail_fields fs).
  change (skip_space (String (byte_of 44) ?s)) with (String (byte_of 44) s).
  rewrite drop_first. cbn [members_text]. by rewrite sapp_assoc.
Qed.

Lemma raw_members_marshal fs :
  written fs -> raw_members (marshal (JObj fs)) = map (fun kv => (fst kv, marshal (snd kv))) fs.
Proof.
  intros Hfs. unfold raw_members.
  assert (E : marshal (JObj fs) = String (byte_of 123) (members_text fs)) by (destruct fs; [done|apply marshal_obj]).
  rewrite E. change (skip_space (String (byte_of 123) ?s)) with (String (byte_of 123) s).
  rewrite drop_first. cbn [String.length]. apply raw_members_text; [done|apply length_members].
Qed.

(** A written struct is decoded from the texts of its members. *)
Lemma decode_raw_marshal {R} strict names (set_field : string -> string -> R -> option R) fs r :
  written fs ->
  decode_raw strict names set_field (marshal (JObj fs)) r
  = fold_left (fun acc kv => r ← acc;
                 match find_field names (fst kv) with
                 | Some n => set_field n (marshal (snd kv)) r
                 | None => if strict then None else Some r
                 end) fs (Some r).
Proof.
  intros Hfs. unfold decode_raw.
  assert (Hwf : wf_json (S h) (JObj fs)) by by constructor.
  rewrite (parse_json_marshal (S h)) by (done || lia). rewrite raw_members_marshal by done.
  generalize (Some r). clear. induction fs as [|kv fs IH]; intros acc; [done|]. cbn [map fold_left]. by rewrite <- IH.
Qed.
End Members.

(** *** Members one after the other *)

Section ReadMembers.
Context {R : Type} (strict : bool) (names : list string) (set_field : string -> string -> R -> option R).

Definition read_member (acc : option R) (kv : string * json) : option R :=
  r ← acc; match find_field names (fst kv) with
           | Some n => set_field n (marshal (snd kv)) r
           | None => if strict then None else Some r
           end.

Lemma read_member_nil r : fold_left read_member [] (Some r) = Some r.
Proof. done. Qed.

Lemma read_member_cons k v r r' fs :
  find_field names k = Some k -> set_field k (marshal v) r = Some r' ->
  fold_left read_member ((k, v) :: fs) (Some r) = fold_left read_member fs (Some r').
Proof. intros Hf Hs. cbn [fold_left]. f_equal. unfold read_member. cbn [mbind option_bind fst snd]. by rewrite Hf. Qed.

Lemma read_member_unless (b : bool) k v r r' :
  find_field names k = Some k -> set_field k (marshal v) r = Some r' -> (b = true -> r = r') ->
  fold_left read_member (member_unless b k v) (Some r) = Some r'.
Proof. intros Hf Hs He. destruct b; [by rewrite (He eq_refl)|]. cbn [member_unless]. by rewrite (read_member_cons _ _ _ r'). Qed.
End ReadMembers.

(** ** Values *)

Lemma raw_string_marshal s old : ValidString s = true -> raw_string (marshal (JStr s)) old = Some s.
Proof. intros Hs. unfold raw_string. rewrite (parse_json_marshal 0 (JStr s)) by (by constructor || done). done. Qed.

Lemma raw_number_marshal z old : - 2 ^ 63 <= z < 2 ^ 63 -> raw_number (marshal (JNum (fmt_d z))) old = Some z.
Proof.
  intros Hz. unfold raw_number. rewrite (parse_json_marshal 0 (JNum (fmt_d z))) by (by constructor || done).
  cbn [mbind option_bind decode_int]. by apply ParseInt_fmt_d.
Qed.

(** *** Times *)

Definition time_char (c : ascii) : bool :=
  is_digit c || Ascii.eqb c "-" || Ascii.eqb c ":" || Ascii.eqb c "." || Ascii.eqb c "T" || Ascii.eqb c "Z".

Lemma quote_time_char c : time_char c = true -> is_ascii c = true /\ escape_ascii c = String c "".
Proof. destruct c as [[] [] [] [] [] [] [] []]; vm_compute; first [discriminate | by split]. Qed.

Lemma quote_body_time s : all_chars time_char s = true -> quote_body s = s.
Proof.
  induction s as [|c s IH]; [done|]. cbn [all_chars]. intros [Hc Hs]%andb_true_iff.
  apply quote_time_char in Hc as [Ha He]. cbn [quote_body]. rewrite Ha, He, IH by done. done.
Qed.

Lemma time_chars_valid s : all_chars time_char s = true -> ValidString s = true.
Proof.
  induction s as [|c s IH]; [done|]. cbn [all_chars]. intros [Hc Hs]%andb_true_iff.
  apply quote_time_char in Hc as [Ha _]. cbn [ValidString]. rewrite Ha. by apply IH.
Qed.

Lemma digits_time s : all_chars is_digit s = true -> all_chars time_char s = true.
Proof. apply all_chars_impl. intros c Hc. unfold time_char. by rewrite Hc. Qed.

Lemma Format_time_chars t : writable t = true -> all_chars time_char (Format_RFC3339 t) = true.
Proof.
  intros Hw. unfold writable, year_of in Hw. unfold Format_RFC3339. set (s := t / Second) in *.
  pose proof (civil_days (s / 86400)) as Hc. destruct (civil_from_days (s / 86400)) as [[y m] d]. destruct Hc as (_ & Hm & Hd).
  apply andb_true_iff in Hw as [W1%Z.leb_le W2%Z.leb_le]. set (k := s mod 86400).
  assert (Hk : 0 <= k < 86400) by (apply Z.mod_pos_bound; lia).
  assert (Hh : 0 <= k / 3600 < 24) by (split; [apply Z.div_pos; lia|apply Z.div_lt_upper_bound; lia]).
  pose proof (Z.mod_pos_bound (k / 60) 60 ltac:(lia)) as Hmi. pose proof (Z.mod_pos_bound k 60 ltac:(lia)) as Hse.
  pose proof (Z.mod_pos_bound t Second ltac:(done)) as Hn. pose proof (days_in_31 y m) as H31.
  rewrite !all_chars_app, (digits_time (pad4 y)), !(digits_time (pad2 _)) by ((apply pad4_all; lia) || (apply pad2_all; lia)).
  destruct (t mod Second =? 0) eqn:E0; [done|]. rewrite all_chars_app, (digits_time (trim_zeros _)); [done|].
  apply (trim_fraction (t mod Second)). lia.
Qed.

Lemma raw_time_marshal t old : writable t = true -> Time_UnmarshalJSON (marshal (JStr (Format_RFC3339 t))) old = Some t.
Proof.
  intros Hw. cbn [marshal]. unfold quote. rewrite quote_body_time by by apply Format_time_chars. unfold Time_UnmarshalJSON.
  rewrite bool_decide_eq_false_2 by (intros H; discriminate H).
  change (Ascii.eqb quote_mark quote_mark) with true. rewrite slength_app. cbn [String.length].
  replace (String.length (Format_RFC3339 t) + 1 - 1)%nat with (String.length (Format_RFC3339 t)) by lia.
  rewrite drop_str_app, take_str_app by done. rewrite Nat.sub_diag.
  change (take_str 0 (String quote_mark "")) with "". rewrite sapp_nil_r, bool_decide_eq_true_2 by done. by apply Parse_Format.
Qed.
