(* ===== verification/PushWire.v ===== *)
(** * The wires of the push scanner

    [internal/pushscan/broker.go], the HTTP client of the push-tripwire broker,
    and [registry.go], the handlers through which the holder of the credentials
    registers their fingerprints.  The transport is a parameter. *)

From stdpp Require Import gmap.
From S2P Require Import Prelude GoText GoSha256 GoJson GoNet GoCodec LedgerModel Envelope GoTime PushStore PushScan.
From Stdlib Require Import Ascii.
Open Scope string_scope.
Open Scope Z_scope.
Open Scope go_scope.

(** ** JSON of the wire *)

Definition strings_json (members : list (string * string)) : list (string * json) :=
  map (fun kv => (fst kv, JStr (snd kv))) members.

Definition material_request_json (r : MaterialRequest) : json :=
  JObj (strings_json [("version", mq_Version r); ("delivery_id", mq_DeliveryID r); ("repository", mq_Repository r);
                      ("ref", mq_Ref r); ("before", mq_Before r); ("after", mq_After r)]).

Definition binding_json (b : ResponseBinding) : json :=
  JObj (strings_json [("logical_session_id", rb_LogicalSessionID b); ("session_lineage_id", rb_SessionLineageID b);
                      ("worker_id", rb_WorkerID b); ("worker_storage_lineage_id", rb_WorkerStorageLineage b)]
        ++ [("worker_fence_epoch", JNum (fmt_d (rb_WorkerFenceEpoch b)))])%list.

Definition response_request_json (r : ResponseRequest) : json :=
  JObj (strings_json [("version", rq_Version r); ("finding_id", rq_FindingID r); ("delivery_id", rq_DeliveryID r);
                      ("repository", rq_Repository r); ("ref", rq_Ref r); ("before", rq_Before r); ("after", rq_After r);
                      ("severity", rq_Severity r); ("reason_code", rq_ReasonCode r)]
        ++ member_unless (rq_FingerprintID r == "") "fingerprint_id" (JStr (rq_FingerprintID r))
        ++ [("profile", JStr (rq_Profile r)); ("profile_generation", JNum (fmt_d (rq_ProfileGeneration r)))]
        ++ match rq_Binding r with None => [] | Some b => [("binding", binding_json b)] end
        ++ [("actions", JArr (map JStr (rq_Actions r)))])%list.

Definition set_commit (n : string) (v : json) (c : Commit) : option Commit :=
  if n == "sha" then x ← decode_string v (cm_SHA c); Some (c <| cm_SHA := x |>)
  else x ← decode_string v (cm_Message c); Some (c <| cm_Message := x |>).
Definition decode_commit (v : json) (c : Commit) : option Commit := decode_struct ["sha"; "message"] true set_commit v c.

Definition set_file (n : string) (v : json) (f : File) : option File :=
  if n == "commit_sha" then x ← decode_string v (fl_CommitSHA f); Some (f <| fl_CommitSHA := x |>)
  else if n == "path" then x ← decode_string v (fl_Path f); Some (f <| fl_Path := x |>)
  else if n == "side" then x ← decode_string v (fl_Side f); Some (f <| fl_Side := x |>)
  else if n == "status" then x ← decode_string v (fl_Status f); Some (f <| fl_Status := x |>)
  else if n == "blob_sha" then x ← decode_string v (fl_BlobSHA f); Some (f <| fl_BlobSHA := x |>)
  else if n == "size" then x ← decode_int v (fl_Size f); Some (f <| fl_Size := x |>)
  else x ← decode_string v (fl_ContentBase64 f); Some (f <| fl_ContentBase64 := x |>).
Definition decode_file (v : json) (f : File) : option File :=
  decode_struct ["commit_sha"; "path"; "side"; "status"; "blob_sha"; "size"; "content_base64"] true set_file v f.

Definition set_bounds (n : string) (v : json) (b : MaterialBounds) : option MaterialBounds :=
  if n == "commit_count" then x ← decode_int v (mb_CommitCount b); Some (b <| mb_CommitCount := x |>)
  else if n == "path_count" then x ← decode_int v (mb_PathCount b); Some (b <| mb_PathCount := x |>)
  else x ← decode_int v (mb_TotalBytes b); Some (b <| mb_TotalBytes := x |>).

Definition zero_material : Material := mkMaterial "" "" "" "" "" "" false (mkMaterialBounds 0 0 0) None None "".
Definition material_fields : list string :=
  ["version"; "delivery_id"; "repository"; "ref"; "before"; "after"; "complete"; "bounds"; "commits"; "files"; "reason_code"].
Definition set_material (n : string) (v : json) (m : Material) : option Material :=
  if n == "version" then x ← decode_string v (mt_Version m); Some (m <| mt_Version := x |>)
  else if n == "delivery_id" then x ← decode_string v (mt_DeliveryID m); Some (m <| mt_DeliveryID := x |>)
  else if n == "repository" then x ← decode_string v (mt_Repository m); Some (m <| mt_Repository := x |>)
  else if n == "ref" then x ← decode_string v (mt_Ref m); Some (m <| mt_Ref := x |>)
  else if n == "before" then x ← decode_string v (mt_Before m); Some (m <| mt_Before := x |>)
  else if n == "after" then x ← decode_string v (mt_After m); Some (m <| mt_After := x |>)
  else if n == "complete" then x ← decode_bool v (mt_Complete m); Some (m <| mt_Complete := x |>)
  else if n == "bounds" then
    x ← decode_struct ["commit_count"; "path_count"; "total_bytes"] true set_bounds v (mt_Bounds m); Some (m <| mt_Bounds := x |>)
  else if n == "commits" then x ← decode_slice decode_commit (mkCommit "" "") v (mt_Commits m); Some (m <| mt_Commits := x |>)
  else if n == "files" then
    x ← decode_slice decode_file (mkFile "" "" "" "" "" 0 "") v (mt_Files m); Some (m <| mt_Files := x |>)
  else x ← decode_string v (mt_ReasonCode m); Some (m <| mt_ReasonCode := x |>).
Definition decode_material (raw : string) : option Material :=
  parse_json raw ≫= fun v => decode_struct material_fields true set_material v zero_material.

Definition set_action (n raw : string) (a : ActionResult) : option ActionResult :=
  if n == "action" then x ← raw_string raw (ax_Action a); Some (a <| ax_Action := x |>)
  else if n == "state" then x ← raw_string raw (ax_State a); Some (a <| ax_State := x |>)
  else x ← Time_UnmarshalJSON raw (ax_CompletedAt a); Some (a <| ax_CompletedAt := x |>).
Definition set_response (n raw : string) (r : ResponseResult) : option ResponseResult :=
  if n == "version" then x ← raw_string raw (rx_Version r); Some (r <| rx_Version := x |>)
  else if n == "finding_id" then x ← raw_string raw (rx_FindingID r); Some (r <| rx_FindingID := x |>)
  else if n == "idempotent_replay" then
    x ← parse_json raw ≫= fun v => decode_bool v (rx_IdempotentReplay r); Some (r <| rx_IdempotentReplay := x |>)
  else x ← decode_raw_slice (decode_raw true ["action"; "state"; "completed_at"] set_action) (mkActionResult "" "" ZeroTime)
             raw (rx_Actions r); Some (r <| rx_Actions := x |>).
Definition decode_response (raw : string) : option ResponseResult :=
  decode_raw true ["version"; "finding_id"; "idempotent_replay"; "actions"] set_response raw (mkResponseResult "" "" false None).

(** *** One value and nothing after it *)

Inductive strict_decoding (A : Type) :=
  | Decoded (a : A)
  | Undecodable
  | Trailing.
Arguments Decoded {A} a.
Arguments Undecodable {A}.
Arguments Trailing {A}.

(** A decoder reads the first value; the next read must be [io.EOF], which it is
    when only white space is left. *)
Definition decode_only {A} (decode : string -> option A) (raw : string) : strict_decoding A :=
  match parse_first raw with
  | None => Undecodable
  | Some (_, rest) =>
      match decode (take_str (String.length raw - String.length rest) raw) with
      | None => Undecodable
      | Some a => if skip_space rest == "" then Decoded a else Trailing
      end
  end.

(** ** The broker's client *)

Record HTTPBroker := mkHTTPBroker { hb_BaseURL : string; hb_Token : string; hb_MaxResponseBytes : Z }.

(** [int64] sums and products wrap around. *)
Definition brokerWireLimit (b : ScanBounds) : res Z :=
  _ ← guard_err ((bd_MaxTotalBytes b <=? 0) || (bd_MaxPaths b <=? 0) || (bd_MaxCommits b <=? 0) || (2 ^ 62 <? bd_MaxTotalBytes b))
        "push tripwire broker bounds are invalid";
  let encoded := wrap64 ((bd_MaxTotalBytes b + 2) / 3 * 4) in
  let metadata := wrap64 (2 ^ 20 + bd_MaxPaths b * 2048 + bd_MaxCommits b * 1024) in
  _ ← guard_err ((metadata <? 0) || (2 ^ 62 - metadata <? encoded)) "push tripwire broker bounds overflow";
  Ok (encoded + metadata).

Definition NewHTTPBroker `{NetURL} (rawURL token : string) (b : ScanBounds) : res HTTPBroker :=
  _ ← guard_err (match url_Parse rawURL with
                 | None => true
                 | Some u => ((pu_Scheme u != "http") && (pu_Scheme u != "https")) || (pu_Host u == "") || pu_HasUser u
                             || (pu_RawQuery u != "") || (pu_Fragment u != "")
                             || (pu_EscapedPath u != "/v1/security/push-tripwire") || (token == "")
                             || any_char (fun c => Ascii.eqb c (byte_of 13) || Ascii.eqb c (byte_of 10)) token
                 end) "push tripwire broker configuration is invalid";
  limit ← brokerWireLimit b;
  Ok (mkHTTPBroker (TrimSuffix rawURL "/") token limit).

Record push_request := mkPushRequest { pq_URL : string; pq_Header : list (string * string); pq_Body : string }.

(** [http.NewRequest] and the client. *)
Class PushTransport := { push_url_error : string -> option string; push_Do : push_request -> http_reply }.

(** The code of an error's body, whatever else it holds. *)
Definition wire_code (raw : string) : string :=
  match parse_json raw with
  | Some (JObj fs) =>
      fold_left (fun code kv => match find_field ["code"] (fst kv), snd kv with
                                | Some _, JStr c => c
                                | _, _ => code
                                end) fs ""
  | _ => ""
  end.

Section Client.
Context `{PushTransport} (b : HTTPBroker).

Definition post_push {A} (decode : string -> option A) (path idempotencyKey : string) (input : json) : A + material_error :=
  let url := hb_BaseURL b ++ path in
  match push_url_error url with
  | Some e => inr (OtherError e)
  | None =>
      let header := [("Authorization", "Bearer " ++ hb_Token b); ("Content-Type", "application/json")] in
      let header := if idempotencyKey == "" then header else (header ++ [("Idempotency-Key", idempotencyKey)])%list in
      match push_Do (mkPushRequest url header (marshal input)) with
      | TransportError e => inr (OtherError e)
      | Reply status body read_error =>
          match ReadAll_limit (hb_MaxResponseBytes b + 1) body read_error with
          | inr _ => inr (OtherError "bounded broker response read failed")
          | inl raw =>
              if hb_MaxResponseBytes b <? len raw then inr (OtherError "bounded broker response read failed")
              else if (status <? 200) || (300 <=? status) then inr (MaterialError (safeReason (wire_code raw)))
              else match decode_only decode raw with
                   | Decoded a => inl a
                   | Undecodable => inr (OtherError "decode strict broker response")
                   | Trailing => inr (OtherError "broker response contains trailing content")
                   end
          end
      end
  end.

Definition Broker_Material (r : MaterialRequest) : Material + material_error :=
  post_push decode_material "/material" "" (material_request_json r).

(** [MaterialError.Error]. *)
Definition material_error_text (e : material_error) : string :=
  match e with MaterialError code => "push scan material unavailable: " ++ code | OtherError text => text end.

Definition Broker_Respond (key : string) (r : ResponseRequest) : ResponseResult + string :=
  match post_push decode_response "/respond" key (response_request_json r) with
  | inl a => inl a
  | inr e => inr (material_error_text e)
  end.

(** The scanner over this client. *)
Definition http_environment (publish : option (SecurityEvent -> option string)) (clock : nat -> Z) : environment :=
  mkEnvironment Broker_Material Broker_Respond publish clock.
End Client.

(** ** The registry of fingerprints *)

Definition maxRegistryRequestBytes : Z := 16 * 2 ^ 10.

Definition registry_char (c : ascii) : bool := is_alnum c || is_char "." c || is_char "_" c || is_char "-" c.
Definition registryIDPattern (s : string) : bool := (1 <=? len s) && (len s <=? 128) && negb (any_char (fun c => negb (registry_char c)) s).

Record RegistryHandler := mkRegistryHandler { rh_Token : string; rh_ForensicRetention : Z }.

Record registryRequest := mkRegistryRequest {
  ri_Fingerprint : string; ri_FingerprintID : string; ri_Profile : string; ri_LogicalSessionID : string;
  ri_SessionLineageID : string; ri_WorkerID : string; ri_WorkerStorageLineage : string; ri_WorkerFenceEpoch : Z;
  ri_ProfileGeneration : Z; ri_IssuedAt : Z; ri_ExpiresAt : Z; ri_State : string }.
#[export] Instance registryRequest_eta : Eta registryRequest := fun r =>
  mkRegistryRequest (ri_Fingerprint r) (ri_FingerprintID r) (ri_Profile r) (ri_LogicalSessionID r)
    (ri_SessionLineageID r) (ri_WorkerID r) (ri_WorkerStorageLineage r) (ri_WorkerFenceEpoch r)
    (ri_ProfileGeneration r) (ri_IssuedAt r) (ri_ExpiresAt r) (ri_State r).

Definition registry_fields : list string :=
  ["fingerprint"; "fingerprint_id"; "profile"; "logical_session_id"; "session_lineage_id"; "worker_id";
   "worker_storage_lineage_id"; "worker_fence_epoch"; "profile_generation"; "issued_at"; "expires_at"; "state"].
Definition set_registry (n raw : string) (r : registryRequest) : option registryRequest :=
  if n == "fingerprint" then x ← raw_string raw (ri_Fingerprint r); Some (r <| ri_Fingerprint := x |>)
  else if n == "fingerprint_id" then x ← raw_string raw (ri_FingerprintID r); Some (r <| ri_FingerprintID := x |>)
  else if n == "profile" then x ← raw_string raw (ri_Profile r); Some (r <| ri_Profile := x |>)
  else if n == "logical_session_id" then x ← raw_string raw (ri_LogicalSessionID r); Some (r <| ri_LogicalSessionID := x |>)
  else if n == "session_lineage_id" then x ← raw_string raw (ri_SessionLineageID r); Some (r <| ri_SessionLineageID := x |>)
  else if n == "worker_id" then x ← raw_string raw (ri_WorkerID r); Some (r <| ri_WorkerID := x |>)
  else if n == "worker_storage_lineage_id" then
    x ← raw_string raw (ri_WorkerStorageLineage r); Some (r <| ri_WorkerStorageLineage := x |>)
  else if n == "worker_fence_epoch" then x ← raw_number raw (ri_WorkerFenceEpoch r); Some (r <| ri_WorkerFenceEpoch := x |>)
  else if n == "profile_generation" then x ← raw_number raw (ri_ProfileGeneration r); Some (r <| ri_ProfileGeneration := x |>)
  else if n == "issued_at" then x ← Time_UnmarshalJSON raw (ri_IssuedAt r); Some (r <| ri_IssuedAt := x |>)
  else if n == "expires_at" then x ← Time_UnmarshalJSON raw (ri_ExpiresAt r); Some (r <| ri_ExpiresAt := x |>)
  else x ← raw_string raw (ri_State r); Some (r <| ri_State := x |>).

Definition zero_registry : registryRequest := mkRegistryRequest "" "" "" "" "" "" "" 0 0 ZeroTime ZeroTime "".
Definition decode_registry (raw : string) : option registryRequest := decode_raw true registry_fields set_registry raw zero_registry.
Definition decode_state (raw : string) : option string :=
  decode_raw true ["state"] (fun _ raw s => raw_string raw s) raw "".

Definition validRegistryRequest (r : registryRequest) : bool :=
  registryIDPattern (ri_FingerprintID r) && (ri_Fingerprint r != "")
  && forallb (fun v => (v != "") && (len v <=? 256))
       [ri_Profile r; ri_LogicalSessionID r; ri_SessionLineageID r; ri_WorkerID r; ri_WorkerStorageLineage r].

(** A request to the registry: its authorization, and its body with the error
    that ends it. *)
Record registry_call := mkRegistryCall { rc_Authorization : string; rc_Body : string; rc_ReadError : option string }.

(** [None] is any error. *)
Definition decodeRegistryRequest {A} (decode : string -> option A) (call : registry_call) : option A :=
  match ReadAll_limit (maxRegistryRequestBytes + 1) (rc_Body call) (rc_ReadError call) with
  | inr _ => None
  | inl raw =>
      if maxRegistryRequestBytes <? len raw then None
      else match decode_only decode raw with Decoded a => Some a | _ => None end
  end.

Definition registry_authorized (h : RegistryHandler) (call : registry_call) : bool :=
  negb (rh_Token h == "") && HasPrefix (rc_Authorization call) "Bearer "
  && (TrimPrefix (rc_Authorization call) "Bearer " == rh_Token h).

Definition registration_of (h : RegistryHandler) (r : registryRequest) : FingerprintRegistration :=
  mkFingerprintRegistration (ri_FingerprintID r) (ri_Profile r) (ri_LogicalSessionID r) (ri_SessionLineageID r)
    (ri_WorkerID r) (ri_WorkerStorageLineage r) (ri_WorkerFenceEpoch r) (ri_ProfileGeneration r) (ri_IssuedAt r)
    (ri_ExpiresAt r) (ri_ExpiresAt r + rh_ForensicRetention h) (ri_State r).

(** A status with what the body says. *)
Definition registry_register (h : RegistryHandler) (call : registry_call) (db : PushDB) : PushDB * (Z * string) :=
  if negb (registry_authorized h call) then (db, (401, "unauthorized"))
  else match decodeRegistryRequest decode_registry call with
       | None => (db, (400, "invalid_request"))
       | Some input =>
           if negb (validRegistryRequest input) || (rh_ForensicRetention h <=? 0) then (db, (400, "invalid_request"))
           else match StdStrict (ri_Fingerprint input) with
                | None => (db, (400, "invalid_request"))
                | Some digest =>
                    let '(db, r) := RegisterFingerprint (bytes_of digest) (registration_of h input) db in
                    match r with
                    | Ok _ => (db, (201, "registered"))
                    | Err e => if e == ErrFingerprintConflict then (db, (409, "registration_conflict"))
                               else (db, (422, "registration_rejected"))
                    | Panic => (db, (422, "registration_rejected"))
                    end
                end
       end.

Definition registry_transition (h : RegistryHandler) (id : string) (call : registry_call) (db : PushDB) : PushDB * (Z * string) :=
  if negb (registry_authorized h call) then (db, (401, "unauthorized"))
  else if negb (registryIDPattern id) then (db, (400, "invalid_request"))
  else match decodeRegistryRequest decode_state call with
       | None => (db, (400, "invalid_request"))
       | Some state =>
           if (state != "expired") && (state != "revoked") then (db, (400, "invalid_request"))
           else let '(db, r) := TransitionFingerprintState id state db in
                match r with Ok _ => (db, (200, "transitioned")) | _ => (db, (409, "transition_rejected")) end
       end.

(** The routes of the handler; [ready] tells whether the store answers. *)
Inductive registry_route :=
  | GetHealth
  | GetReady
  | PostFingerprints
  | PostFingerprintState (id : string).

Definition Registry_Handler (h : RegistryHandler) (ready : bool) (route : registry_route) (call : registry_call) (db : PushDB)
    : PushDB * (Z * string) :=
  match route with
  | GetHealth => (db, (200, "ok"))
  | GetReady => if ready then (db, (200, "ok")) else (db, (503, "not_ready"))
  | PostFingerprints => registry_register h call db
  | PostFingerprintState id => registry_transition h id call db
  end.
