(* ===== verification/EventBus.v ===== *)
(** * The event bus

    [internal/eventbus/eventbus.go] over an interface of JetStream: signals are
    published as JSON under the id of their delivery, the stream and the durable
    consumers are brought to their configuration.  The connection itself is not
    modelled. *)

From S2P Require Import Prelude GoText GoJson LedgerModel Envelope GoTime PushStore.
From Stdlib Require Import Ascii.
Open Scope string_scope.
Open Scope Z_scope.
Open Scope go_scope.

(** ** The JSON of a signal *)

(** [compact] with HTML escapes: white space outside strings is dropped. *)
Fixpoint compact (inside : bool) (s : string) : string :=
  match s with
  | EmptyString => ""
  | String c r =>
      if negb inside && is_json_space c then compact inside r
      else if inside && (code c =? 92) then
        match r with
        | String d r' => String c (String d (compact true r'))
        | EmptyString => String c ""
        end
      else
        let next := if code c =? 34 then negb inside else inside in
        if (code c =? 60) || (code c =? 62) || (code c =? 38) then "\u00" ++ hex_byte (code c) ++ compact next r
        else match r with
             | String b (String d r') =>
                 if (code c =? 226) && (code b =? 128) && ((code d =? 168) || (code d =? 169))
                 then "\u202" ++ String (hex_digit (code d - 160)) (compact next r')
                 else String c (compact next r)
             | _ => String c (compact next r)
             end
  end.

Example compact_ex : compact false (quoted " {'a' : [1, 'x y<\'z'] }") = quoted "{'a':[1,'x y\u003c\'z']}".
Proof. vm_compute. reflexivity. Qed.

Definition optional_string (name value : string) : list (string * json) := member_unless (value == "") name (JStr value).
Definition optional_time (name : string) (t : option Z) : list (string * json) :=
  match t with None => [] | Some t => [(name, JStr (Format_RFC3339 t))] end.

Definition authentication_json (a : Authentication) : json :=
  JObj [("method", JStr (Method a)); ("verified", JBool (Verified a))].

Definition meta_members (m : Meta) : list (string * json) :=
  ([("signal_id", JStr (m_SignalID m)); ("source", JStr (m_Source m)); ("route_id", JStr (m_RouteID m));
    ("received_at", JStr (Format_RFC3339 (m_ReceivedAt m)))]
   ++ optional_string "source_event" (m_SourceEvent m) ++ optional_string "source_action" (m_SourceAction m)
   ++ optional_string "source_delivery_id" (m_SourceDeliveryID m) ++ optional_string "namespace" (m_Namespace m)
   ++ optional_string "object_kind" (m_ObjectKind m) ++ optional_string "object_id" (m_ObjectID m)
   ++ optional_string "source_revision" (m_SourceRevision m) ++ optional_string "source_ref" (m_SourceRef m)
   ++ optional_string "source_before_revision" (m_SourceBefore m) ++ optional_string "source_after_revision" (m_SourceAfter m)
   ++ optional_time "source_head_timestamp" (m_SourceHeadTime m) ++ optional_time "source_timestamp" (m_SourceTimestamp m)
   ++ optional_string "actor_class" (m_ActorClass m) ++ optional_string "correlation_id" (m_CorrelationID m)
   ++ optional_string "causation_id" (m_CausationID m) ++ optional_string "root_work_item_id" (m_RootWorkItemID m)
   ++ optional_string "parent_work_item_id" (m_ParentWorkItemID m) ++ optional_string "originating_session_id" (m_OriginatingSession m)
   ++ optional_string "originating_turn_id" (m_OriginatingTurn m)
   ++ member_unless (m_HopCount m =? 0) "hop_count" (JNum (fmt_d (m_HopCount m)))
   ++ optional_time "expires_at" (m_ExpiresAt m)
   ++ [("authentication", authentication_json (m_Authentication m))])%list.

Definition writable_pointer (t : option Z) : bool := match t with None => true | Some t => writable t end.
Definition writable_meta (m : Meta) : bool :=
  writable (m_ReceivedAt m) && writable_pointer (m_SourceHeadTime m) && writable_pointer (m_SourceTimestamp m)
  && writable_pointer (m_ExpiresAt m).

(** [json.Marshal] of a signal: times are written in UTC, a nil payload is null, and any other payload must be
    JSON. *)
Definition Marshal_signal (s : Signal) : option string :=
  let payload := if sg_Payload s == "" then "null" else sg_Payload s in
  if negb (writable_meta (sg_Meta s)) || bool_decide (parse_json payload = None) then None
  else Some ("{" ++ quote "meta" ++ ":" ++ marshal (JObj (meta_members (sg_Meta s))) ++ ","
             ++ quote "payload" ++ ":" ++ compact false payload ++ "}").

(** ** JetStream *)

Inductive AckPolicy := AckNone | AckAll | AckExplicit.
Inductive DeliverPolicy := DeliverAll | DeliverByStartSequence | DeliverOther.

(** What the program reads and sets of a [nats.ConsumerConfig]; [nc_Other] stands for the other
    settings. *)
Record NatsConsumer := mkNatsConsumer {
  nc_Durable : string; nc_FilterSubject : string; nc_AckPolicy : AckPolicy; nc_AckWait : Z; nc_MaxAckPending : Z;
  nc_MaxDeliver : Z; nc_DeliverPolicy : DeliverPolicy; nc_OptStartSeq : Z; nc_Other : string }.
#[export] Instance NatsConsumer_eta : Eta NatsConsumer := fun c =>
  mkNatsConsumer (nc_Durable c) (nc_FilterSubject c) (nc_AckPolicy c) (nc_AckWait c) (nc_MaxAckPending c)
    (nc_MaxDeliver c) (nc_DeliverPolicy c) (nc_OptStartSeq c) (nc_Other c).

Record NatsStream := mkNatsStream { ns_Name : string; ns_Subjects : list string; ns_FileStorage : bool; ns_Other : string }.
#[export] Instance NatsStream_eta : Eta NatsStream := fun c =>
  mkNatsStream (ns_Name c) (ns_Subjects c) (ns_FileStorage c) (ns_Other c).

(** A lookup in the server: found, not found, or another error. *)
Inductive lookup_result (A : Type) :=
  | Found (a : A)
  | NotFound
  | LookupFailed (e : string).
Arguments Found {A} a.
Arguments NotFound {A}.
Arguments LookupFailed {A} e.

(** The operations of the server over its state; a consumer is looked up with the number of its pending
    messages. *)
Class JetStream (J : Type) := {
  js_StreamInfo : string -> J -> lookup_result NatsStream;
  js_AddStream : NatsStream -> J -> J * res unit;
  js_UpdateStream : NatsStream -> J -> J * res unit;
  js_ConsumerInfo : string -> string -> J -> lookup_result (NatsConsumer * Z);
  js_AddConsumer : string -> NatsConsumer -> J -> J * res unit;
  js_UpdateConsumer : string -> NatsConsumer -> J -> J * res unit;
  js_DeleteConsumer : string -> string -> J -> J * res unit;
  js_PullSubscribe : string -> string -> string -> J -> res unit;
  js_Publish : string -> string -> option string -> J -> J * res unit;
  js_Connected : J -> bool }.

(** ** The bus *)

Record Bus := mkBus { bus_stream : string }.

Record ConsumerConfig := mkConsumerConfig {
  cn_Subject : string; cn_Durable : string; cn_AckWait : Z; cn_MaxAckPending : Z; cn_MaxDeliver : Z; cn_StartSequence : Z }.

Record Consumer := mkConsumer { cs_stream : string; cs_durable : string }.

Section Bus.
Context {J : Type} `{JetStream J}.

Definition sameSubjects (left right : list string) : bool := bool_decide (left = right).

(** Error texts are the contexts of the code, without the wrapped error. *)
Definition ensureStream (stream : string) (subjects : list string) (j : J) : J * res unit :=
  match js_StreamInfo stream j with
  | Found current =>
      if sameSubjects (ns_Subjects current) subjects then (j, Ok tt)
      else let '(j, r) := js_UpdateStream (current <| ns_Subjects := subjects |>) j in
           (j, if is_ok r then Ok tt else Err "update stream")
  | NotFound =>
      let '(j, r) := js_AddStream (mkNatsStream stream subjects true "") j in
      (j, if is_ok r then Ok tt else Err "add stream")
  | LookupFailed _ => (j, Err "inspect stream")
  end.

Definition Connect (stream : string) (subjects : list string) (j : J) : J * res Bus :=
  let '(j, r) := ensureStream stream subjects j in
  (j, _ ← r; Ok (mkBus stream)).

Definition Publish (subject : string) (s : Signal) (j : J) : J * res unit :=
  match Marshal_signal s with
  | None => (j, Err "marshal signal")
  | Some data =>
      let id := m_SourceDeliveryID (sg_Meta s) in
      let '(j, r) := js_Publish subject data (if id == "" then None else Some id) j in
      (j, if is_ok r then Ok tt else Err "publish signal")
  end.

Definition new_consumer (want : ConsumerConfig) : NatsConsumer :=
  mkNatsConsumer (cn_Durable want) (cn_Subject want) AckExplicit (cn_AckWait want) (cn_MaxAckPending want) (cn_MaxDeliver want)
    (if 0 <? cn_StartSequence want then DeliverByStartSequence else DeliverAll)
    (if 0 <? cn_StartSequence want then cn_StartSequence want else 0) "".

#[export] Instance DeliverPolicy_eq_dec : EqDecision DeliverPolicy.
Proof. solve_decision. Defined.

Definition ensureConsumer (b : Bus) (want : ConsumerConfig) (j : J) : J * res unit :=
  match js_ConsumerInfo (bus_stream b) (cn_Durable want) j with
  | NotFound =>
      let '(j, r) := js_AddConsumer (bus_stream b) (new_consumer want) j in
      (j, if is_ok r then Ok tt else Err "create consumer")
  | LookupFailed _ => (j, Err "inspect consumer configuration")
  | Found (info, _) =>
      if nc_FilterSubject info != cn_Subject want then (j, Err "consumer filter subject is immutable")
      else if (0 <? cn_StartSequence want)
              && (negb (bool_decide (nc_DeliverPolicy info = DeliverByStartSequence)) || negb (nc_OptStartSeq info =? cn_StartSequence want))
      then (j, Err "consumer recovery start is immutable; use a new durable name")
      else let '(j, r) := js_UpdateConsumer (bus_stream b)
                            (info <| nc_AckPolicy := AckExplicit |> <| nc_AckWait := cn_AckWait want |>
                                  <| nc_MaxAckPending := cn_MaxAckPending want |> <| nc_MaxDeliver := cn_MaxDeliver want |>) j in
           (j, if is_ok r then Ok tt else Err "configure consumer")
  end.

Definition NewConsumer (b : Bus) (cfg : ConsumerConfig) (j : J) : J * res Consumer :=
  if (cn_AckWait cfg <=? 0) || (cn_MaxAckPending cfg <=? 0) || (cn_MaxDeliver cfg <=? 0)
  then (j, Err "consumer acknowledgement settings must be positive")
  else let '(j, r) := ensureConsumer b cfg j in
       (j, _ ← r;
           match js_PullSubscribe (bus_stream b) (cn_Subject cfg) (cn_Durable cfg) j with
           | Ok _ => Ok (mkConsumer (bus_stream b) (cn_Durable cfg))
           | _ => Err "subscribe"
           end).

Definition Bus_Ready (b : Bus) (j : J) : res unit :=
  if negb (js_Connected j) then Err "nats_not_connected"
  else match js_StreamInfo (bus_stream b) j with Found _ => Ok tt | _ => Err "inspect stream" end.

(** The pending messages of the consumer. *)
Definition Consumer_Ready (c : Consumer) (j : J) : res (NatsConsumer * Z) :=
  _ ← Bus_Ready (mkBus (cs_stream c)) j;
  match js_ConsumerInfo (cs_stream c) (cs_durable c) j with Found info => Ok info | _ => Err "inspect consumer" end.

Definition ResetConsumer (b : Bus) (cfg : ConsumerConfig) (j : J) : J * res (Consumer * Z) :=
  if cn_StartSequence cfg =? 0 then (j, Err "reset consumer requires a recovery start sequence")
  else
    let create j :=
      let '(j, r) := NewConsumer b cfg j in
      (j, consumer ← r; info ← Consumer_Ready consumer j; Ok (consumer, snd info)) in
    match js_ConsumerInfo (bus_stream b) (cn_Durable cfg) j with
    | Found _ =>
        let '(j, r) := js_DeleteConsumer (bus_stream b) (cn_Durable cfg) j in
        if is_ok r then create j else (j, Err "delete recovery consumer")
    | NotFound => create j
    | LookupFailed _ => (j, Err "inspect recovery consumer")
    end.

(** ** The sink of security events: [busEventSink] of the scanner's command *)

Definition alert_signal (e : SecurityEvent) (payload : string) : Signal :=
  mkSignal (zero_signal.(sg_Meta) <| m_SignalID := sx_EventID e |> <| m_Source := "push-security-scanner" |>
              <| m_RouteID := "push-tripwire-alert" |> <| m_ReceivedAt := sx_AlertRequestedAt e |> <| m_SourceEvent := "security_finding" |>
              <| m_SourceDeliveryID := sx_EventID e |> <| m_Namespace := sx_Repository e |> <| m_ObjectKind := "push_security_finding" |>
              <| m_ObjectID := sx_FindingID e |> <| m_Authentication := mkAuthentication "internal_durable_outbox" true |>)
    payload.

Definition sink_Publish (subject : string) (e : SecurityEvent) (j : J) : J * res unit :=
  match Marshal_event e with
  | None => (j, Err "json: time cannot be written")
  | Some payload => Publish subject (alert_signal e payload) j
  end.

(** ** The observer's consumer *)

Definition ObserverAckWait : Z := 30 * Second.
Definition ObserverMaxAckPending : Z := 64.
Definition ObserverMaxDeliver : Z := 5.

Definition NewObserverConsumer (b : Bus) (subject durable : string) : J -> J * res Consumer :=
  NewConsumer b (mkConsumerConfig subject durable ObserverAckWait ObserverMaxAckPending ObserverMaxDeliver 0).
End Bus.
