(* ===== verification/CompactFacts.v ===== *)
(** * Compaction keeps the value

    What [json.Marshal] does to the payload of a signal: white space outside strings is
    dropped and some characters inside strings are escaped.  The compacted text parses to the
    value of the text it was made from, whatever JSON that is. *)

From S2P Require Import Prelude GoText GoSha256 GoJson LedgerModel Envelope GatewayFacts GoTime PushStore RawJsonFacts EventBus.
From Stdlib Require Import Ascii.
Open Scope string_scope.
Open Scope Z_scope.
Open Scope go_scope.

(** ** Characters *)

Lemma compact_copy a s :
  code a <> 92 -> code a <> 34 -> code a <> 60 -> code a <> 62 -> code a <> 38 -> code a <> 226 ->
  compact true (String a s) = String a (compact true s).
Proof.
  intros H1 H2 H3 H4 H5 H6. cbn [compact negb andb].
  rewrite (proj2 (Z.eqb_neq _ 92) H1), (proj2 (Z.eqb_neq _ 34) H2), (proj2 (Z.eqb_neq _ 60) H3), (proj2 (Z.eqb_neq _ 62) H4),
    (proj2 (Z.eqb_neq _ 38) H5), (proj2 (Z.eqb_neq _ 226) H6). cbn [orb]. destruct s as [|b [|d s]]; done.
Qed.

Lemma compact_quote s : compact true (String quote_mark s) = String quote_mark (compact false s).
Proof. cbn. destruct s as [|b [|d s]]; done. Qed.

Lemma compact_backslash a s : compact true (String backslash (String a s)) = String backslash (String a (compact true s)).
Proof. done. Qed.

Lemma hex_value_code c x : hex_value c = Some x -> 48 <= code c <= 57 \/ 65 <= code c <= 70 \/ 97 <= code c <= 102.
Proof.
  unfold hex_value. repeat match goal with |- context [if ?b then _ else _] => destruct b eqn:? end; try done; intros _;
    unfold is_digit, between in *; split_bools; lia.
Qed.

Lemma compact_hex c x s : hex_value c = Some x -> compact true (String c s) = String c (compact true s).
Proof. intros H%hex_value_code. apply compact_copy; lia. Qed.

Lemma compact_hex4 x1 x2 x3 x4 r s :
  getu4 x1 x2 x3 x4 = Some r ->
  compact true (String x1 (String x2 (String x3 (String x4 s)))) = String x1 (String x2 (String x3 (String x4 (compact true s)))).
Proof.
  unfold getu4. destruct (hex_value x1) eqn:E1, (hex_value x2) eqn:E2, (hex_value x3) eqn:E3, (hex_value x4) eqn:E4; try done. intros _.
  by erewrite !compact_hex.
Qed.

(** ** Looking ahead

    The decoder of a string looks past a surrogate for the other half, and past a byte
    outside ASCII for the rest of its rune. *)

Definition pair_head (s : string) : bool :=
  match s with
  | String b (String u (String y1 (String y2 (String y3 (String y4 _))))) =>
      match getu4 y1 y2 y3 y4 with
      | Some r2 => (code b =? 92) && (code u =? 117) && low_surrogate r2
      | None => false
      end
  | _ => false
  end.

Definition conts (s : string) : string := fst (span is_cont s).

(** The byte [a] and the text after it begin with a rune of two bytes or more. *)
Definition multi (a : ascii) (s : string) : bool :=
  match s with
  | String b s2 =>
      utf8_2 a b || match s2 with
                    | String c s3 => utf8_3 a b c || match s3 with String d _ => utf8_4 a b c d | EmptyString => false end
                    | EmptyString => false
                    end
  | EmptyString => false
  end.

Lemma pair_head_other a s : code a <> 92 -> pair_head (String a s) = false.
Proof.
  intros Ha. destruct s as [|u [|y1 [|y2 [|y3 [|y4 s]]]]]; try done. cbn. rewrite (proj2 (Z.eqb_neq _ _) Ha). by destruct (getu4 y1 y2 y3 y4).
Qed.

Lemma pair_head_escape u s : code u <> 117 -> pair_head (String backslash (String u s)) = false.
Proof.
  intros Ha. destruct s as [|y1 [|y2 [|y3 [|y4 s]]]]; try done. cbn. rewrite (proj2 (Z.eqb_neq _ _) Ha). by destruct (getu4 y1 y2 y3 y4).
Qed.

Lemma conts_other a s : is_cont a = false -> conts (String a s) = "".
Proof. intros H. unfold conts. cbn [span]. by rewrite H. Qed.

Lemma conts_cons a s : is_cont a = true -> conts (String a s) = String a (conts s).
Proof. intros H. unfold conts. cbn [span]. rewrite H. by destruct (span is_cont s). Qed.

Lemma cont_range b : between 160 191 b = true \/ between 128 159 b = true \/ between 144 191 b = true \/ between 128 143 b = true -> is_cont b = true.
Proof. unfold is_cont, between. intros H. split_bools. destruct H as [H|[H|[H|H]]]; split_bools; apply andb_true_iff; split; lia. Qed.

Lemma utf8_conts a b c d :
  (utf8_2 a b = true -> is_cont b = true) /\ (utf8_3 a b c = true -> is_cont b = true /\ is_cont c = true)
  /\ (utf8_4 a b c d = true -> is_cont b = true /\ is_cont c = true /\ is_cont d = true).
Proof.
  unfold utf8_2, utf8_3, utf8_4. split_and!.
  - by intros [_ H]%andb_true_iff.
  - intros [H ->]%andb_true_iff. split; [|done]. apply orb_true_iff in H as [[H|H]%orb_true_iff|H]; apply andb_true_iff in H as [_ H]; auto using cont_range.
  - intros [[H ->]%andb_true_iff ->]%andb_true_iff. split; [|done]. apply orb_true_iff in H as [[H|H]%orb_true_iff|H];
      apply andb_true_iff in H as [_ H]; auto using cont_range.
Qed.

Lemma multi_conts a s : multi a s = multi a (conts s).
Proof.
  assert (N : forall (p : bool) (q : Prop), (p = true -> q) -> ~ q -> p = false) by (intros [] q; tauto).
  destruct s as [|b s2]; [done|]. destruct (is_cont b) eqn:Eb.
  2: { rewrite conts_other by done. cbn [multi]. rewrite (N (utf8_2 a b) (is_cont b = true)) by (apply (utf8_conts a b b b) || congruence).
       destruct s2 as [|c s3]; [done|]. rewrite (N (utf8_3 a b c) (is_cont b = true /\ is_cont c = true)) by (apply (utf8_conts a b c b) || (intros []; congruence)).
       destruct s3 as [|d s4]; [done|]. apply (N _ (is_cont b = true /\ is_cont c = true /\ is_cont d = true)); [apply utf8_conts|intros []; congruence]. }
  rewrite conts_cons by done. cbn [multi]. f_equal. destruct s2 as [|c s3]; [done|]. destruct (is_cont c) eqn:Ec.
  2: { rewrite conts_other by done. rewrite (N (utf8_3 a b c) (is_cont b = true /\ is_cont c = true)) by (apply (utf8_conts a b c b) || (intros []; congruence)).
       destruct s3 as [|d s4]; [done|]. apply (N _ (is_cont b = true /\ is_cont c = true /\ is_cont d = true)); [apply utf8_conts|intros (_ & ? & _); congruence]. }
  rewrite conts_cons by done. f_equal. destruct s3 as [|d s4]; [done|]. destruct (is_cont d) eqn:Ed; [by rewrite conts_cons|].
  rewrite conts_other by done. apply (N _ (is_cont b = true /\ is_cont c = true /\ is_cont d = true)); [apply utf8_conts|intros (_ & _ & ?); congruence].
Qed.

Lemma unquote_invalid a s : is_ascii a = false -> multi a s = false -> unquote_body (String a s) = prepend replacement (unquote_body s).
Proof.
  intros Ha Hm. rewrite unquote_not_ascii by done. destruct s as [|b s2]; [done|]. cbn [multi] in Hm.
  apply orb_false_iff in Hm as [-> Hm]. destruct s2 as [|c s3]; [done|]. apply orb_false_iff in Hm as [-> Hm]. destruct s3 as [|d s4]; [done|]. by rewrite Hm.
Qed.

(** ** Strings *)

(** The compacted body decodes to the same text, and looks the same to what stands before it. *)
Definition body_kept (s t r : string) : Prop :=
  exists c, compact true s = c ++ compact false r /\
    forall X, unquote_body (c ++ X) = Some (t, X) /\ pair_head (c ++ X) = pair_head s /\ conts (c ++ X) = conts s.

Lemma kept_step p q u s t r :
  compact true (p ++ s) = q ++ compact true s ->
  (forall X, pair_head X = pair_head s -> conts X = conts s ->
     unquote_body (q ++ X) = prepend u (unquote_body X) /\ pair_head (q ++ X) = pair_head (p ++ s) /\ conts (q ++ X) = conts (p ++ s)) ->
  body_kept s t r -> body_kept (p ++ s) (u ++ t) r.
Proof.
  intros Hc Hq (c & E & K). exists (q ++ c). split; [by rewrite Hc, E, sapp_assoc|]. intros X. rewrite sapp_assoc.
  destruct (K X) as (K1 & K2 & K3). destruct (Hq _ K2 K3) as (Q1 & Q2 & Q3). rewrite Q1, K1. done.
Qed.

Lemma kept_quote r : body_kept (String quote_mark r) "" r.
Proof.
  exists (String quote_mark ""). split; [apply compact_quote|]. intros X. cbn [String.append].
  split_and!; [done|by rewrite !pair_head_other|by rewrite !conts_other].
Qed.

Lemma kept_simple e c s t r :
  code e <> 117 -> simple_escape e = Some c -> body_kept s t r -> body_kept (String backslash (String e s)) (String c t) r.
Proof.
  intros He Hc. apply (kept_step (String backslash (String e "")) (String backslash (String e "")) (String c "")); [done|].
  intros X _ _. cbn [String.append]. split_and!; [|by rewrite !pair_head_escape|by rewrite !conts_other].
  cbn [unquote_body]. change (code backslash =? 34) with false. change (code backslash <? 32) with false. change (code backslash =? 92) with true.
  cbv iota. by rewrite (proj2 (Z.eqb_neq _ _) He), Hc.
Qed.

(** A [\u] escape, alone or with what follows. *)
Definition u_escape (x1 x2 x3 x4 : ascii) : string := String backslash (String "u" (String x1 (String x2 (String x3 (String x4 ""))))).

Lemma pair_head_u x1 x2 x3 x4 rn s : getu4 x1 x2 x3 x4 = Some rn -> pair_head (u_escape x1 x2 x3 x4 ++ s) = low_surrogate rn.
Proof. intros E. cbn. by rewrite E. Qed.

Lemma conts_u x1 x2 x3 x4 s : conts (u_escape x1 x2 x3 x4 ++ s) = "".
Proof. done. Qed.

Lemma compact_u x1 x2 x3 x4 rn s :
  getu4 x1 x2 x3 x4 = Some rn -> compact true (u_escape x1 x2 x3 x4 ++ s) = u_escape x1 x2 x3 x4 ++ compact true s.
Proof. intros E. unfold u_escape. cbn [String.append]. rewrite compact_backslash. by rewrite (compact_hex4 _ _ _ _ _ _ E). Qed.

Lemma unquote_u x1 x2 x3 x4 rn s :
  getu4 x1 x2 x3 x4 = Some rn ->
  unquote_body (u_escape x1 x2 x3 x4 ++ s)
  = if is_surrogate rn then
      match s with
      | String b (String u (String y1 (String y2 (String y3 (String y4 s12))))) =>
          match getu4 y1 y2 y3 y4 with
          | Some r2 => if (code b =? 92) && (code u =? 117) && high_surrogate rn && low_surrogate r2
                       then prepend (encode_rune ((rn - 55296) * 1024 + (r2 - 56320) + 65536)) (unquote_body s12)
                       else prepend replacement (unquote_body s)
          | None => prepend replacement (unquote_body s)
          end
      | _ => prepend replacement (unquote_body s)
      end
    else prepend (encode_rune rn) (unquote_body s).
Proof.
  intros E. unfold u_escape. cbn [String.append]. cbn [unquote_body]. change (code backslash =? 34) with false. change (code backslash <? 32) with false.
  change (code backslash =? 92) with true. change (code "u" =? 117) with true. cbv iota. by rewrite E.
Qed.

Lemma unquote_lone x1 x2 x3 x4 rn s :
  getu4 x1 x2 x3 x4 = Some rn -> is_surrogate rn = true -> high_surrogate rn && pair_head s = false ->
  unquote_body (u_escape x1 x2 x3 x4 ++ s) = prepend replacement (unquote_body s).
Proof.
  intros E Hs Hp. rewrite (unquote_u _ _ _ _ rn) by done. rewrite Hs. destruct s as [|b [|u [|y1 [|y2 [|y3 [|y4 s12]]]]]]; try done.
  cbn [pair_head] in Hp. destruct (getu4 y1 y2 y3 y4) as [r2|]; [|done].
  destruct (code b =? 92), (code u =? 117), (high_surrogate rn), (low_surrogate r2); done.
Qed.

Lemma kept_unicode x1 x2 x3 x4 rn s t r :
  getu4 x1 x2 x3 x4 = Some rn -> is_surrogate rn = false -> body_kept s t r -> body_kept (u_escape x1 x2 x3 x4 ++ s) (encode_rune rn ++ t) r.
Proof.
  intros E Hs. apply (kept_step _ (u_escape x1 x2 x3 x4)); [by apply (compact_u _ _ _ _ rn)|]. intros X _ _.
  rewrite !(pair_head_u _ _ _ _ rn) by done. split; [|done]. rewrite (unquote_u _ _ _ _ rn) by done. by rewrite Hs.
Qed.

Lemma kept_lone x1 x2 x3 x4 rn s t r :
  getu4 x1 x2 x3 x4 = Some rn -> is_surrogate rn = true -> high_surrogate rn && pair_head s = false ->
  body_kept s t r -> body_kept (u_escape x1 x2 x3 x4 ++ s) (replacement ++ t) r.
Proof.
  intros E Hs Hp. apply (kept_step _ (u_escape x1 x2 x3 x4)); [by apply (compact_u _ _ _ _ rn)|]. intros X HX _.
  rewrite !(pair_head_u _ _ _ _ rn) by done. split; [|done]. apply (unquote_lone _ _ _ _ rn); [done|done|by rewrite HX].
Qed.

Lemma kept_pair x1 x2 x3 x4 y1 y2 y3 y4 rn r2 s t r :
  getu4 x1 x2 x3 x4 = Some rn -> getu4 y1 y2 y3 y4 = Some r2 -> is_surrogate rn = true -> high_surrogate rn = true -> low_surrogate r2 = true ->
  body_kept s t r ->
  body_kept (u_escape x1 x2 x3 x4 ++ u_escape y1 y2 y3 y4 ++ s) (encode_rune ((rn - 55296) * 1024 + (r2 - 56320) + 65536) ++ t) r.
Proof.
  intros E1 E2 Hs Hh Hl. rewrite <- sapp_assoc. apply (kept_step _ (u_escape x1 x2 x3 x4 ++ u_escape y1 y2 y3 y4)).
  - rewrite !sapp_assoc, (compact_u _ _ _ _ rn), (compact_u _ _ _ _ r2) by done. done.
  - intros X _ _. rewrite !sapp_assoc, !(pair_head_u _ _ _ _ rn), !conts_u by done. split; [|done].
    rewrite (unquote_u _ _ _ _ rn) by done. rewrite Hs. unfold u_escape. cbn [String.append]. rewrite E2, Hh, Hl. done.
Qed.

Lemma ascii_cont a : is_ascii a = true -> is_cont a = false.
Proof. unfold is_ascii, is_cont, between. intros H. split_bools. apply andb_false_iff. left. apply Z.leb_gt. lia. Qed.

(** A character that needs no escape, and the three that get one. *)
Lemma kept_ascii a s t r :
  is_ascii a = true -> code a <> 34 -> 32 <= code a -> code a <> 92 -> body_kept s t r -> body_kept (String a s) (String a t) r.
Proof.
  intros Ha H34 H32 H92. pose proof (ascii_cont a Ha) as Hc.
  assert (H226 : code a <> 226) by (unfold is_ascii, between in Ha; split_bools; lia).
  destruct ((code a =? 60) || (code a =? 62) || (code a =? 38)) eqn:E.
  - apply (kept_step (String a "") (escape_ascii a) (String a "")).
    + apply orb_true_iff in E as [[E|E]%orb_true_iff|E]; apply code_eqb in E as ->; reflexivity.
    + intros X _ _. rewrite unquote_escape_ascii by done. split; [done|]. cbn [String.append]. rewrite (pair_head_other a), (conts_other a) by done.
      apply orb_true_iff in E as [[E|E]%orb_true_iff|E]; apply code_eqb in E as ->; done.
  - apply orb_false_iff in E as [[E1 E2]%orb_false_iff E3]. split_bools.
    apply (kept_step (String a "") (String a "") (String a "")); [by apply compact_copy|].
    intros X _ _. cbn [String.append]. rewrite !pair_head_other, !conts_other by done. split; [|done]. cbn [unquote_body].
    rewrite (proj2 (Z.eqb_neq (code a) 34)), (proj2 (Z.ltb_ge (code a) 32)), (proj2 (Z.eqb_neq (code a) 92)), Ha by lia. done.
Qed.

Lemma compact_cont b s : is_cont b = true -> compact true (String b s) = String b (compact true s).
Proof. unfold is_cont, between. intros H. split_bools. apply compact_copy; lia. Qed.

Lemma lead_not_cont a b c d : utf8_2 a b = true \/ utf8_3 a b c = true \/ utf8_4 a b c d = true -> 194 <= code a /\ is_cont a = false.
Proof.
  intros H. assert (Hr : 194 <= code a).
  { unfold utf8_2, utf8_3, utf8_4, between in H. destruct H as [H|[H|H]];
      repeat match goal with
             | X : _ && _ = true |- _ => apply andb_true_iff in X as [? ?]
             | X : _ || _ = true |- _ => apply orb_true_iff in X as [?|?]
             | X : (_ <=? _) = true |- _ => apply Z.leb_le in X
             end; lia. }
  split; [done|]. unfold is_cont, between. apply andb_false_iff. right. apply Z.leb_gt. lia.
Qed.

Lemma kept_2 a b s t r :
  is_ascii a = false -> utf8_2 a b = true -> body_kept s t r -> body_kept (String a (String b s)) (String a (String b t)) r.
Proof.
  intros Ha H2. destruct (lead_not_cont a b b b) as [Hr Hc]; [auto|].
  pose proof (proj1 (utf8_conts a b b b) H2) as Hb.
  assert (H226 : code a <> 226) by (unfold utf8_2, between in H2; split_bools; lia).
  apply (kept_step (String a (String b "")) (String a (String b "")) (String a (String b ""))); cbn [String.append].
  - rewrite compact_copy by lia. by rewrite compact_cont.
  - intros X _ _. rewrite unquote_not_ascii, H2 by done. split; [done|]. rewrite !conts_other by done. by rewrite !pair_head_other by lia.
Qed.

Lemma kept_3 a b c s t r :
  is_ascii a = false -> utf8_2 a b = false -> utf8_3 a b c = true -> body_kept s t r ->
  body_kept (String a (String b (String c s))) (String a (String b (String c t))) r.
Proof.
  intros Ha H2 H3. destruct (lead_not_cont a b c b) as [Hr Hc]; [auto|].
  pose proof (proj1 (proj2 (utf8_conts a b c b)) H3) as Hb.
  apply (kept_step (String a (String b (String c ""))) (escape_3 a b c) (String a (String b (String c "")))).
  - cbn [String.append]. unfold escape_3. destruct ((code a =? 226) && (code b =? 128) && ((code c =? 168) || (code c =? 169))) eqn:E.
    + apply andb_true_iff in E as [[Ea Eb]%andb_true_iff Ec]. apply code_eqb in Ea as ->, Eb as ->.
      apply orb_true_iff in Ec as [Ec|Ec]; apply code_eqb in Ec as ->; reflexivity.
    + cbn [String.append]. rewrite <- (compact_cont c), <- (compact_cont b) by apply Hb. cbn [compact negb andb]. rewrite E.
      rewrite (proj2 (Z.eqb_neq (code a) 92)), (proj2 (Z.eqb_neq (code a) 34)), (proj2 (Z.eqb_neq (code a) 60)), (proj2 (Z.eqb_neq (code a) 62)),
        (proj2 (Z.eqb_neq (code a) 38)) by lia. done.
  - intros X _ _. rewrite unquote_escape_3 by done. split; [done|]. cbn [String.append]. rewrite (conts_other a), (pair_head_other a) by (done || lia).
    unfold escape_3. destruct ((code a =? 226) && (code b =? 128) && ((code c =? 168) || (code c =? 169))) eqn:E.
    + apply andb_true_iff in E as [[Ea Eb]%andb_true_iff Ec]. apply orb_true_iff in Ec as [Ec|Ec]; apply code_eqb in Ec as ->; done.
    + cbn [String.append]. rewrite (conts_other a), (pair_head_other a) by (done || lia). done.
Qed.

Lemma kept_4 a b c d s t r :
  is_ascii a = false -> utf8_2 a b = false -> utf8_3 a b c = false -> utf8_4 a b c d = true -> body_kept s t r ->
  body_kept (String a (String b (String c (String d s)))) (String a (String b (String c (String d t)))) r.
Proof.
  intros Ha H2 H3 H4. destruct (lead_not_cont a b c d) as [Hr Hc]; [auto|].
  destruct (proj2 (proj2 (utf8_conts a b c d)) H4) as (Hb & Hc' & Hd).
  assert (H226 : code a <> 226).
  { unfold utf8_4, between in H4. repeat match goal with
      | X : _ && _ = true |- _ => apply andb_true_iff in X as [? ?] | X : _ || _ = true |- _ => apply orb_true_iff in X as [?|?]
      | X : (_ <=? _) = true |- _ => apply Z.leb_le in X end; lia. }
  apply (kept_step (String a (String b (String c (String d "")))) (String a (String b (String c (String d "")))) (String a (String b (String c (String d "")))));
    cbn [String.append].
  - rewrite compact_copy by lia. by rewrite !compact_cont.
  - intros X _ _. rewrite unquote_not_ascii, H2, H3, H4 by done. split; [done|]. rewrite !conts_other by done. by rewrite !pair_head_other by lia.
Qed.

(** A byte that begins no rune is read as the replacement character, in the compacted text too. *)
Lemma kept_invalid a s t r :
  is_ascii a = false -> multi a s = false -> body_kept s t r -> body_kept (String a s) (replacement ++ t) r.
Proof.
  intros Ha Hm. pose proof (not_ascii_code a Ha) as Hr.
  apply (kept_step (String a "") (String a "")); cbn [String.append].
  - destruct (Z.eqb_spec (code a) 226) as [E|E]; [|apply compact_copy; lia].
    assert (C : compact true (String a s) = match s with
      | String b (String d r') => if (code b =? 128) && ((code d =? 168) || (code d =? 169)) then "\u202" ++ String (hex_digit (code d - 160)) (compact true r') else String a (compact true s)
      | _ => String a (compact true s) end).
    { cbn [compact negb andb]. rewrite (proj2 (Z.eqb_neq (code a) 92)), (proj2 (Z.eqb_neq (code a) 34)), (proj2 (Z.eqb_neq (code a) 60)),
        (proj2 (Z.eqb_neq (code a) 62)), (proj2 (Z.eqb_neq (code a) 38)) by lia. rewrite E. done. }
    rewrite C. destruct s as [|b [|d s]]; [done..|]. destruct ((code b =? 128) && ((code d =? 168) || (code d =? 169))) eqn:B; [|done].
    exfalso. apply andb_true_iff in B as [Eb Ed]. apply code_eqb in Eb as ->. apply Z.eqb_eq, code_eqb in E as ->.
    apply orb_true_iff in Ed as [Ed|Ed]; apply code_eqb in Ed as ->; by destruct s.
  - intros X _ Hc. split; [apply unquote_invalid; [done|by rewrite multi_conts, Hc, <- multi_conts]|].
    rewrite !pair_head_other by lia. split; [done|]. destruct (is_cont a) eqn:Ec; [by rewrite !conts_cons, Hc|by rewrite !conts_other].
Qed.

Lemma prepend_some p o t r : prepend p o = Some (t, r) -> exists t', o = Some (t', r) /\ t = p ++ t'.
Proof. destruct o as [[t' r']|]; [|done]. intros [= <- <-]. eauto. Qed.

(** A string that was read is read from its compacted text. *)
Lemma body_compact s t r : unquote_body s = Some (t, r) -> body_kept s t r.
Proof.
  remember (String.length s) as n eqn:Hn. assert (Hle : (String.length s <= n)%nat) by lia. clear Hn.
  revert s t r Hle. induction n as [|n IH]; intros [|a s1] t r Hle H; cbn [String.length] in Hle; try done; [lia|].
  destruct (is_ascii a) eqn:Ha.
  2: { destruct (multi a s1) eqn:Hm.
       2: { rewrite unquote_invalid in H by done. apply prepend_some in H as (t' & H & ->). apply kept_invalid; [done|done|]. apply IH; [lia|done]. }
       rewrite unquote_not_ascii in H by done. destruct s1 as [|b s2]; [done|]. cbn [multi String.length] in *.
       destruct (utf8_2 a b) eqn:E2; [apply prepend_some in H as (t' & H & ->); apply kept_2; [done|done|]; apply IH; [lia|done]|].
       destruct s2 as [|c s3]; [done|]. cbn [orb String.length] in *.
       destruct (utf8_3 a b c) eqn:E3; [apply prepend_some in H as (t' & H & ->); apply kept_3; [done|done|done|]; apply IH; [lia|done]|].
       destruct s3 as [|d s4]; [done|]. cbn [orb String.length] in *. rewrite Hm in H.
       apply prepend_some in H as (t' & H & ->). apply kept_4; [done|done|done|done|]. apply IH; [lia|done]. }
  cbn [unquote_body] in H. destruct (code a =? 34) eqn:E34; [apply code_eqb in E34 as ->; injection H as <- <-; apply kept_quote|].
  destruct (code a <? 32) eqn:E32; [done|]. destruct (code a =? 92) eqn:E92.
  2: { rewrite Ha in H. apply prepend_some in H as (t' & H & ->). split_bools. apply kept_ascii; [done|done|done|done|]. apply IH; [lia|done]. }
  apply code_eqb in E92 as ->. destruct s1 as [|e s2]; [done|]. cbn [String.length] in Hle. destruct (code e =? 117) eqn:Eu.
  2: { destruct (simple_escape e) as [c|] eqn:Es; [|done]. apply prepend_some in H as (t' & H & ->). split_bools.
       apply kept_simple; [done|done|]. apply IH; [lia|done]. }
  apply code_eqb in Eu as ->. destruct s2 as [|x1 [|x2 [|x3 [|x4 s6]]]]; try done. cbn [String.length] in Hle.
  destruct (getu4 x1 x2 x3 x4) as [rn|] eqn:Er; [|done]. change (body_kept (u_escape x1 x2 x3 x4 ++ s6) t r).
  destruct (is_surrogate rn) eqn:Es.
  2: { apply prepend_some in H as (t' & H & ->). apply (kept_unicode _ _ _ _ rn); [done|done|]. apply IH; [lia|done]. }
  destruct (high_surrogate rn && pair_head s6) eqn:Hp.
  - apply andb_true_iff in Hp as [Hh Hp]. destruct s6 as [|b [|u [|y1 [|y2 [|y3 [|y4 s12]]]]]]; try done. cbn [pair_head String.length] in *.
    destruct (getu4 y1 y2 y3 y4) as [r2|] eqn:E2; [|done]. apply andb_true_iff in Hp as [[Eb Eu]%andb_true_iff Hl].
    rewrite Eb, Eu, Hh, Hl in H. apply code_eqb in Eb as ->, Eu as ->. cbn [andb] in H. apply prepend_some in H as (t' & H & ->).
    apply (kept_pair x1 x2 x3 x4 y1 y2 y3 y4 rn r2 s12); [done|done|done|done|done|]. apply IH; [lia|done].
  - assert (H' : prepend replacement (unquote_body s6) = Some (t, r)).
    { rewrite <- (unquote_lone x1 x2 x3 x4 rn s6 Er Es Hp). rewrite (unquote_u x1 x2 x3 x4 rn s6 Er), Es. exact H. }
    apply prepend_some in H' as (t' & H' & ->). apply (kept_lone _ _ _ _ rn); [done|done|done|]. apply IH; [lia|done].
Qed.

(** ** Numbers *)

Lemma compact_skip s : compact false s = compact false (skip_space s).
Proof. induction s as [|c s IH]; [done|]. cbn [skip_space]. destruct (is_json_space c) eqn:E; [|done]. cbn [compact negb andb]. by rewrite E. Qed.

(** A character of a value outside its strings. *)
Definition plain_char (c : ascii) : bool :=
  negb (is_json_space c) && negb (code c =? 34) && negb (code c =? 60) && negb (code c =? 62) && negb (code c =? 38) && negb (code c =? 226).

Lemma compact_plain c s : plain_char c = true -> compact false (String c s) = String c (compact false s).
Proof.
  unfold plain_char. intros H. repeat (apply andb_true_iff in H as [H ?]). rewrite !negb_true_iff in *. cbn [compact negb andb].
  repeat match goal with X : _ = false |- _ => rewrite X; clear X end. cbn [orb]. destruct s as [|b [|d s]]; done.
Qed.

Lemma compact_chars a s : all_chars plain_char a = true -> compact false (a ++ s) = a ++ compact false s.
Proof. induction a as [|c a IH]; [done|]. cbn [all_chars]. intros [Hc Ha]%andb_true_iff. cbn [String.append]. rewrite compact_plain by done. by rewrite IH. Qed.

Lemma digit_plain c : is_digit c = true -> plain_char c = true.
Proof. destruct c as [[] [] [] [] [] [] [] []]; vm_compute; first [discriminate | done]. Qed.

Lemma digits_plain s : all_chars is_digit s = true -> all_chars plain_char s = true.
Proof. apply all_chars_impl. apply digit_plain. Qed.

Abbreviation no_digit := (starts_clear is_digit).

Lemma scan_int_spec s i r : scan_int s = Some (i, r) ->
  s = i ++ r /\ (exists c m, i = String c m /\ is_digit c = true) /\ all_chars plain_char i = true
  /\ forall Y, no_digit Y = true -> scan_int (i ++ Y) = Some (i, Y).
Proof.
  destruct s as [|c s]; [done|]. cbn [scan_int]. destruct (code c =? 48) eqn:E0.
  { intros [= <- <-]. apply code_eqb in E0 as ->. split_and!; [done|eexists _, _; split; [reflexivity|done]|done|done]. }
  destruct (between 49 57 c) eqn:Eb; [|done]. destruct (span is_digit s) as [ds r'] eqn:Es. intros [= <- <-].
  apply span_spec in Es as [-> Hd]. assert (Hc : is_digit c = true) by (unfold is_digit, between in *; split_bools; apply andb_true_iff; split; lia).
  split_and!; [done|eexists _, _; split; [reflexivity|done]|cbn [all_chars]; by rewrite digit_plain, digits_plain|].
  intros Y HY. cbn [String.append scan_int]. rewrite E0, Eb. by rewrite span_until.
Qed.

Lemma scan_frac_spec s f r : scan_frac s = Some (f, r) ->
  s = f ++ r /\ (f = "" \/ exists m, f = String "." m) /\ all_chars plain_char f = true
  /\ forall Y, no_digit Y = true -> (forall m, Y <> String "." m) -> scan_frac (f ++ Y) = Some (f, Y).
Proof.
  assert (H0 : forall Y, (forall m, Y <> String "." m) -> scan_frac Y = Some ("", Y)).
  { intros [|c Y] HY; [done|]. cbn [scan_frac]. destruct (code c =? 46) eqn:E; [|done]. apply code_eqb in E as ->. by destruct (HY Y). }
  destruct s as [|c s]; [intros [= <- <-]; split_and!; auto|]. cbn [scan_frac]. destruct (code c =? 46) eqn:E; [|intros [= <- <-]; split_and!; auto].
  apply code_eqb in E as ->. destruct (span is_digit s) as [[|d ds] r'] eqn:Es; [done|]. intros [= <- <-]. apply span_spec in Es as [-> Hd].
  split_and!; [done|right; by exists (String d ds)|change (all_chars plain_char (String d ds) = true); by apply digits_plain|].
  intros Y HY _. change (scan_frac (String (byte_of 46) (String d ds) ++ Y)) with
    (match span is_digit (String d ds ++ Y) with (EmptyString, _) => None | (ds, r) => Some (String (byte_of 46) ds, r) end).
  by rewrite span_until.
Qed.

Lemma scan_exp_spec s e r : scan_exp s = Some (e, r) ->
  s = e ++ r /\ (e = "" \/ exists c m, e = String c m /\ is_digit c = false /\ c <> "."%char) /\ all_chars plain_char e = true
  /\ forall X, delim X = true -> scan_exp (e ++ X) = Some (e, X).
Proof.
  assert (H0 : forall X, delim X = true -> scan_exp X = Some ("", X)) by (intros X HX; by apply scan_tail_delim).
  assert (HX : forall X, delim X = true -> no_digit X = true).
  { intros X D. destruct (delim_cases _ D) as [->|(c & x & -> & [->|[->| ->]])]; reflexivity. }
  destruct s as [|c s]; [intros [= <- <-]; split_and!; auto|]. cbn [scan_exp].
  destruct ((code c =? 101) || (code c =? 69)) eqn:E; [|intros [= <- <-]; split_and!; auto].
  assert (Hc : plain_char c = true /\ is_digit c = false /\ c <> "."%char) by (apply orb_true_iff in E as [E|E]; apply code_eqb in E as ->; done).
  destruct Hc as (Hp & Hd & Hdot).
  assert (K : forall sg ds X, all_chars is_digit ds = true -> ds <> "" -> delim X = true -> all_chars plain_char sg = true ->
     (sg = "" \/ sg = "+" \/ sg = "-") ->
     all_chars plain_char (String c (sg ++ ds)) = true /\ scan_exp (String c (sg ++ ds) ++ X) = Some (String c (sg ++ ds), X)).
  { intros sg ds X Hds Hne D Hsg Hs. split; [cbn [all_chars]; by rewrite Hp, all_chars_app, Hsg, digits_plain|].
    cbn [String.append]. rewrite sapp_assoc. cbn [scan_exp]. rewrite E.
    destruct ds as [|d ds]; [done|]. assert (Eg : (code d =? 43) || (code d =? 45) = false).
    { cbn in Hds. apply andb_true_iff in Hds as [Hdd _]. unfold is_digit, between in Hdd. split_bools. apply orb_false_iff. split; apply Z.eqb_neq; lia. }
    destruct Hs as [->|[->| ->]]; cbn [String.append]; [rewrite Eg| |]; cbv iota beta;
      change (String d (ds ++ X)) with (String d ds ++ X);
      try change (code "+" =? 43) with true; try change (code "-" =? 43) with false; try change (code "-" =? 45) with true; cbn [orb];
      by rewrite span_until by auto. }
  destruct s as [|g s]; [done|]. destruct ((code g =? 43) || (code g =? 45)) eqn:Eg.
  - destruct (span is_digit s) as [[|d ds] r'] eqn:Es; [done|]. intros [= <- <-]. apply span_spec in Es as [-> Hds].
    assert (Hg : g = "+"%char \/ g = "-"%char) by (apply orb_true_iff in Eg as [Eg|Eg]; apply code_eqb in Eg as ->; auto).
    destruct (K (String g "") (String d ds) "" Hds) as [K1 _]; [done|done|by destruct Hg as [-> | ->]|destruct Hg as [-> | ->]; auto|].
    split_and!; [done|right; by eexists _, _|done|]. intros X D. apply (K (String g "") (String d ds)); [done|done|done|by destruct Hg as [-> | ->]|destruct Hg as [-> | ->]; auto].
  - destruct (span is_digit (String g s)) as [[|d ds] r'] eqn:Es; [done|]. intros [= <- <-]. apply span_spec in Es as [Es Hds].
    destruct (K "" (String d ds) "" Hds) as [K1 _]; [done|done|done|auto|].
    split_and!; [by rewrite Es|right; by eexists _, _|done|]. intros X D. apply (K "" (String d ds)); auto.
Qed.

(** A number is read from its literal whatever may follow a value. *)
Lemma scan_number_spec s n r : scan_number s = Some (n, r) ->
  s = n ++ r /\ (exists c m, n = String c m /\ (is_digit c = true \/ c = "-"%char)) /\ all_chars plain_char n = true
  /\ forall X, delim X = true -> scan_number (n ++ X) = Some (n, X).
Proof.
  intros H.
  assert (K : forall sg s1, (sg = "" /\ forall m, s1 <> String "-" m) \/ sg = "-" ->
    match scan_int s1 with
    | None => None
    | Some (i, s2) => match scan_frac s2 with
                      | None => None
                      | Some (f, s3) => match scan_exp s3 with None => None | Some (e, s4) => Some (sg ++ i ++ f ++ e, s4) end
                      end
    end = Some (n, r) ->
    sg ++ s1 = n ++ r /\ (exists c m, n = String c m /\ (is_digit c = true \/ c = "-"%char)) /\ all_chars plain_char n = true
    /\ forall X, delim X = true -> scan_number (n ++ X) = Some (n, X)).
  { clear H. intros sg s1 Hsg H. destruct (scan_int s1) as [[i s2]|] eqn:E1; [|done]. destruct (scan_frac s2) as [[f s3]|] eqn:E2; [|done].
    destruct (scan_exp s3) as [[e s4]|] eqn:E3; [|done]. injection H as <- <-.
    apply scan_int_spec in E1 as (-> & (c & m & -> & Hc) & P1 & Q1). apply scan_frac_spec in E2 as (-> & Hf & P2 & Q2).
    apply scan_exp_spec in E3 as (-> & He & P3 & Q3). split_and!.
    - by rewrite !sapp_assoc.
    - destruct Hsg as [[-> _]| ->]; eexists _, _; (split; [reflexivity|]); auto.
    - rewrite !all_chars_app, P1, P2, P3. by destruct Hsg as [[-> _]| ->].
    - intros X D. assert (Nd : no_digit (e ++ X) = true /\ forall m, e ++ X <> String "." m).
      { destruct He as [->|(c' & m' & -> & H1 & H2)].
        - cbn [String.append]. destruct (delim_cases _ D) as [->|(c' & x & -> & [->|[->| ->]])]; by split.
        - cbn [String.append starts_clear]. rewrite H1. split; [done|]. intros m0 [= E0 _]. done. }
      assert (Nf : no_digit (f ++ e ++ X) = true) by (destruct Hf as [->|(m' & ->)]; [apply Nd|done]).
      rewrite !sapp_assoc. unfold scan_number.
      destruct Hsg as [[-> Hm]| ->]; cbn [String.append] in *.
      + rewrite digit_not_minus by done. cbv iota beta.
        rewrite Q1, Q2, Q3 by (done || apply Nd). done.
      + change (code "-" =? 45) with true. cbv iota beta.
        rewrite Q1, Q2, Q3 by (done || apply Nd). done. }
  unfold scan_number in H. destruct s as [|c s].
  - apply (K "" ""); [left; split; done|exact H].
  - destruct (code c =? 45) eqn:E.
    + apply code_eqb in E as ->. apply (K "-" s); [by right|exact H].
    + apply (K "" (String c s)); [|exact H]. left. split; [done|]. intros m [= -> _]. done.
Qed.

(** ** Values *)

(** A text that is one value wherever it stands at depth at most [d]. *)
Definition reads_as (d : Z) (txt : string) (v : json) : Prop :=
  (exists c m, txt = String c m /\ value_start c = true) /\
  forall k d' X, (2 * String.length txt <= k)%nat -> d' <= d -> delim X = true -> parse_value k d' (txt ++ X) = Some (v, X).

Definition value_kept (d : Z) (s : string) (v : json) (r : string) : Prop :=
  exists c, compact false s = c ++ compact false r /\ reads_as d c v.
Definition elements_kept (d : Z) (s : string) (xs : list json) (r : string) : Prop :=
  exists c, compact false s = c ++ compact false r /\ (forall X, delim (c ++ X) = true) /\ (1 <= String.length c)%nat /\
    forall k d' X, (2 * String.length c <= k)%nat -> d' <= d -> parse_elements k d' (c ++ X) = Some (xs, X).
Definition field_kept (d : Z) (s : string) (f : string * json) (r : string) : Prop :=
  exists m, compact false s = String quote_mark m ++ compact false r /\
    forall k d' X, (2 * String.length (String quote_mark m) <= k)%nat -> d' <= d -> delim X = true ->
      parse_field k d' (String quote_mark m ++ X) = Some (f, X).
Definition fields_kept (d : Z) (s : string) (fs : list (string * json)) (r : string) : Prop :=
  exists c, compact false s = c ++ compact false r /\ (forall X, delim (c ++ X) = true) /\ (1 <= String.length c)%nat /\
    forall k d' X, (2 * String.length c <= k)%nat -> d' <= d -> parse_fields k d' (c ++ X) = Some (fs, X).

(** Fuel that is enough is not zero. *)
Ltac use_fuel k := destruct k as [|k]; [exfalso; cbn in *; lia|].

Lemma value_text d s v r txt :
  s = txt ++ r -> all_chars plain_char txt = true -> (exists c m, txt = String c m /\ value_start c = true) ->
  (forall k d' X, delim X = true -> parse_value (S k) d' (txt ++ X) = Some (v, X)) -> value_kept d s v r.
Proof.
  intros -> Hp (c & m & -> & Hv) Hk. exists (String c m). split; [by apply compact_chars|]. split; [by eexists _, _|]. intros k d' X Hf _ D. use_fuel k. by apply Hk.
Qed.

Lemma string_kept d s t r : unquote_body s = Some (t, r) -> value_kept d (String quote_mark s) (JStr t) r.
Proof.
  intros (c & E & K)%body_compact. exists (String quote_mark c). split.
  { cbn [String.append]. rewrite <- E. cbn. by destruct s as [|b [|x s]]. }
  split; [by eexists _, _|]. intros k d' X Hf _ _. use_fuel k. cbn [String.append].
  change (parse_value (S k) d' (String quote_mark (c ++ X))) with (match unquote_body (c ++ X) with Some (t, r') => Some (JStr t, r') | None => None end).
  by rewrite (proj1 (K X)).
Qed.

Lemma number_kept d s n r : scan_number s = Some (n, r) -> value_kept d s (JNum n) r.
Proof.
  intros (-> & (c & m & -> & Hc) & Hp & Hk)%scan_number_spec. apply (value_text d _ _ _ (String c m)); [done|done| |].
  - eexists _, _. split; [done|]. destruct Hc as [Hc| ->]; [|done]. revert Hc. clear. by destruct c as [[] [] [] [] [] [] [] []].
  - intros k d' X D. specialize (Hk X D). cbn [String.append] in *. rewrite parse_number_value by done. by rewrite Hk.
Qed.

Lemma array_kept d r x xs r1 r2 :
  d + 1 <= max_depth -> value_kept (d + 1) r x r1 -> elements_kept (d + 1) r1 xs r2 -> value_kept d (String (byte_of 91) r) (JArr (x :: xs)) r2.
Proof.
  intros Hd (cv & E1 & (a & m & -> & Ha) & K1) (ce & E2 & D2 & L2 & K2). exists (String (byte_of 91) (String a m ++ ce)).
  split; [rewrite compact_plain by done; cbn [String.append] in *; by rewrite E1, E2, sapp_assoc|]. split; [by eexists _, _|].
  intros k d' X Hf Hd' D. cbn [String.length] in Hf. rewrite slength_app in Hf. use_fuel k. cbn [String.append]. rewrite sapp_assoc.
  rewrite parse_value_arr by (done || lia). change (String a (m ++ ce ++ X)) with (String a m ++ ce ++ X).
  rewrite K1 by (auto || (cbn [String.length] in *; lia)). by rewrite K2 by (cbn [String.length] in *; lia).
Qed.

Lemma parse_value_object k depth s :
  depth + 1 <= max_depth ->
  parse_value (S k) depth (String (byte_of 123) (String quote_mark s)) =
    match parse_field k (depth + 1) (String quote_mark s) with
    | Some (f, r2) => match parse_fields k (depth + 1) r2 with
                      | Some (fs, r3) => Some (JObj (f :: fs), r3) | None => None end
    | None => None
    end.
Proof.
  intros Hd. cbn [parse_value]. change (skip_space (String (byte_of 123) ?t)) with (String (byte_of 123) t).
  change (code (byte_of 123) =? 34) with false. change (code (byte_of 123) =? 91) with false.
  change (code (byte_of 123) =? 123) with true. cbv iota. by rewrite (proj2 (Z.ltb_ge _ _)) by lia.
Qed.

Lemma object_kept d r f fs r1 r2 :
  d + 1 <= max_depth -> field_kept (d + 1) r f r1 -> fields_kept (d + 1) r1 fs r2 -> value_kept d (String (byte_of 123) r) (JObj (f :: fs)) r2.
Proof.
  intros Hd (m & E1 & K1) (ce & E2 & D2 & L2 & K2). exists (String (byte_of 123) (String quote_mark m ++ ce)).
  split; [rewrite compact_plain by done; cbn [String.append] in *; by rewrite E1, E2, sapp_assoc|]. split; [by eexists _, _|].
  intros k d' X Hf Hd' D. cbn [String.length] in Hf. rewrite slength_app in Hf. use_fuel k. cbn [String.append]. rewrite sapp_assoc.
  rewrite parse_value_object by lia. change (String quote_mark (m ++ ce ++ X)) with (String quote_mark m ++ ce ++ X).
  rewrite K1 by (auto || (cbn [String.length] in *; lia)). by rewrite K2 by (cbn [String.length] in *; lia).
Qed.

Lemma empty_kept d s (open close : Z) v r r1 :
  (open = 91 /\ close = 93 /\ v = JArr []) \/ (open = 123 /\ close = 125 /\ v = JObj []) ->
  d + 1 <= max_depth -> s = String (byte_of open) r -> skip_space r = String (byte_of close) r1 -> value_kept d s v r1.
Proof.
  intros Hk Hd -> Hs. exists (String (byte_of open) (String (byte_of close) "")).
  assert (P : plain_char (byte_of open) = true /\ plain_char (byte_of close) = true /\ value_start (byte_of open) = true)
    by (by destruct Hk as [(-> & -> & _)|(-> & -> & _)]).
  destruct P as (P1 & P2 & P3). split; [rewrite compact_plain, compact_skip, Hs, compact_plain by done; done|]. split; [by eexists _, _|].
  intros k d' X Hf Hd' D. use_fuel k.
  destruct Hk as [(-> & -> & ->)|(-> & -> & ->)]; [apply (parse_empty_arr k d' X)|apply (parse_empty_obj k d' X)]; lia.
Qed.

(** The closing bracket, or a comma and the rest. *)
Lemma elements_end d s r : skip_space s = String (byte_of 93) r -> elements_kept d s [] r.
Proof.
  intros E. exists "]". rewrite compact_skip, E, compact_plain by done. split_and!; [done|done|cbn; lia|]. intros k d' X Hf _. by use_fuel k.
Qed.
Lemma fields_end d s r : skip_space s = String (byte_of 125) r -> fields_kept d s [] r.
Proof.
  intros E. exists "}". rewrite compact_skip, E, compact_plain by done. split_and!; [done|done|cbn; lia|]. intros k d' X Hf _. by use_fuel k.
Qed.

Lemma elements_next d s r x xs r1 r2 :
  skip_space s = String (byte_of 44) r -> value_kept d r x r1 -> elements_kept d r1 xs r2 -> elements_kept d s (x :: xs) r2.
Proof.
  intros E (cv & E1 & _ & K1) (ce & E2 & D2 & L2 & K2). exists (String (byte_of 44) (cv ++ ce)).
  split_and!; [rewrite compact_skip, E, compact_plain by done; cbn [String.append]; by rewrite E1, E2, sapp_assoc|done|cbn; lia|].
  intros k d' X Hf Hd. cbn [String.length] in Hf. rewrite slength_app in Hf. use_fuel k. cbn [String.append]. rewrite sapp_assoc.
  change (parse_elements (S k) d' (String (byte_of 44) ?t)) with
    (match parse_value k d' t with
     | Some (y, r1) => match parse_elements k d' r1 with Some (ys, r2) => Some (y :: ys, r2) | None => None end | None => None end).
  rewrite K1 by (auto || lia). by rewrite K2 by lia.
Qed.

Lemma fields_next d s r f fs r1 r2 :
  skip_space s = String (byte_of 44) r -> field_kept d r f r1 -> fields_kept d r1 fs r2 -> fields_kept d s (f :: fs) r2.
Proof.
  intros E (m & E1 & K1) (ce & E2 & D2 & L2 & K2). exists (String (byte_of 44) (String quote_mark m ++ ce)).
  split_and!; [rewrite compact_skip, E, compact_plain by done; cbn [String.append] in *; by rewrite E1, E2, sapp_assoc|done|cbn; lia|].
  intros k d' X Hf Hd. cbn [String.length] in Hf. rewrite slength_app in Hf. use_fuel k. cbn [String.append]. rewrite sapp_assoc.
  change (parse_fields (S k) d' (String (byte_of 44) ?t)) with
    (match parse_field k d' t with
     | Some (y, r1) => match parse_fields k d' r1 with Some (ys, r2) => Some (y :: ys, r2) | None => None end | None => None end).
  change (String quote_mark (m ++ ce ++ X)) with (String quote_mark m ++ ce ++ X).
  rewrite K1 by (auto || (cbn [String.length] in *; lia)). by rewrite K2 by lia.
Qed.

Lemma field_next d s r key r1 r2 x r3 :
  skip_space s = String quote_mark r -> unquote_body r = Some (key, r1) -> skip_space r1 = String (byte_of 58) r2 -> value_kept d r2 x r3 ->
  field_kept d s (key, x) r3.
Proof.
  intros E (c & Ec & Kc)%body_compact E1 (cv & E2 & _ & K2). exists (c ++ String (byte_of 58) cv). split.
  - rewrite compact_skip, E. assert (Q : compact false (String quote_mark r) = String quote_mark (compact true r)) by (cbn; by destruct r as [|b [|y r]]).
    rewrite Q, Ec, compact_skip, E1, compact_plain, E2 by done. cbn [String.append]. by rewrite sapp_assoc.
  - intros k d' X Hf Hd D. cbn [String.length] in Hf. rewrite slength_app in Hf. cbn [String.length] in Hf. use_fuel k.
    cbn [String.append]. rewrite sapp_assoc. cbn [String.append].
    change (parse_field (S k) d' (String quote_mark ?t)) with
      (match unquote_body t with
       | None => None
       | Some (key, r1) => match skip_space r1 with
                           | EmptyString => None
                           | String c r2 => if code c =? 58 then match parse_value k d' r2 with Some (x, r3) => Some ((key, x), r3) | None => None end else None
                           end
       end).
    rewrite (proj1 (Kc _)). change (skip_space (String (byte_of 58) ?t)) with (String (byte_of 58) t). change (code (byte_of 58) =? 58) with true.
    cbv iota. by rewrite K2 by (done || lia).
Qed.

(** What was parsed is parsed from the compacted text. *)
Lemma parse_compact k :
  (forall d s v r, parse_value k d s = Some (v, r) -> value_kept d s v r)
  /\ (forall d s xs r, parse_elements k d s = Some (xs, r) -> elements_kept d s xs r)
  /\ (forall d s f r, parse_field k d s = Some (f, r) -> field_kept d s f r)
  /\ (forall d s fs r, parse_fields k d s = Some (fs, r) -> fields_kept d s fs r).
Proof.
  induction k as [|k (IHv & IHe & IHf & IHfs)]; [done|]. split_and!.
  - intros d s v r H. assert (K : value_kept d (skip_space s) v r -> value_kept d s v r).
    { intros (c & E & Hr). exists c. by rewrite compact_skip. }
    apply K. clear K. cbn [parse_value] in H. destruct (skip_space s) as [|c t]; [done|]. clear s.
    destruct (code c =? 34) eqn:E1.
    { apply code_eqb in E1 as ->. destruct (unquote_body t) as [[x r']|] eqn:Eu; [|done]. injection H as <- <-. by apply string_kept. }
    destruct (code c =? 91) eqn:E2.
    { apply code_eqb in E2 as ->. destruct (max_depth <? d + 1) eqn:Ed; [done|]. apply Z.ltb_ge in Ed. destruct (skip_space t) as [|e r1] eqn:Es; [done|].
      destruct (code e =? 93) eqn:E3; [apply code_eqb in E3 as ->; injection H as <- <-; by apply (empty_kept d _ 91 93 _ t); auto|].
      destruct (parse_value k (d + 1) t) as [[x r2]|] eqn:Ev; [|done]. destruct (parse_elements k (d + 1) r2) as [[xs r3]|] eqn:Ee; [|done].
      injection H as <- <-. eapply array_kept; eauto. }
    destruct (code c =? 123) eqn:E3.
    { apply code_eqb in E3 as ->. destruct (max_depth <? d + 1) eqn:Ed; [done|]. apply Z.ltb_ge in Ed. destruct (skip_space t) as [|e r1] eqn:Es; [done|].
      destruct (code e =? 125) eqn:E4; [apply code_eqb in E4 as ->; injection H as <- <-; by apply (empty_kept d _ 123 125 _ t); auto|].
      destruct (parse_field k (d + 1) t) as [[x r2]|] eqn:Ev; [|done]. destruct (parse_fields k (d + 1) r2) as [[xs r3]|] eqn:Ee; [|done].
      injection H as <- <-. eapply object_kept; eauto. }
    destruct (strip_prefix "true" (String c t)) as [r'|] eqn:Et.
    { injection H as <- <-. apply strip_prefix_iff in Et. apply (value_text d _ _ _ "true"); [done|done|by eexists _, _|done]. }
    destruct (strip_prefix "false" (String c t)) as [r'|] eqn:Ef.
    { injection H as <- <-. apply strip_prefix_iff in Ef. apply (value_text d _ _ _ "false"); [done|done|by eexists _, _|done]. }
    destruct (strip_prefix "null" (String c t)) as [r'|] eqn:En.
    { injection H as <- <-. apply strip_prefix_iff in En. apply (value_text d _ _ _ "null"); [done|done|by eexists _, _|done]. }
    destruct (scan_number (String c t)) as [[n r']|] eqn:E; [|done]. injection H as <- <-. by apply number_kept.
  - intros d s xs r H. cbn [parse_elements] in H. destruct (skip_space s) as [|c t] eqn:Es; [done|].
    destruct (code c =? 93) eqn:E1; [apply code_eqb in E1 as ->; injection H as <- <-; by apply elements_end|].
    destruct (code c =? 44) eqn:E2; [|done]. apply code_eqb in E2 as ->. destruct (parse_value k d t) as [[x r1]|] eqn:Ev; [|done].
    destruct (parse_elements k d r1) as [[ys r2]|] eqn:Ee; [|done]. injection H as <- <-. eapply elements_next; eauto.
  - intros d s f r H. cbn [parse_field] in H. destruct (skip_space s) as [|q t] eqn:Es; [done|]. destruct (code q =? 34) eqn:Eq; [|done].
    apply code_eqb in Eq as ->. destruct (unquote_body t) as [[key r1]|] eqn:Eu; [|done]. destruct (skip_space r1) as [|c r2] eqn:E1; [done|].
    destruct (code c =? 58) eqn:Ec; [|done]. apply code_eqb in Ec as ->. destruct (parse_value k d r2) as [[x r3]|] eqn:Ev; [|done].
    injection H as <- <-. eapply field_next; eauto.
  - intros d s fs r H. cbn [parse_fields] in H. destruct (skip_space s) as [|c t] eqn:Es; [done|].
    destruct (code c =? 125) eqn:E1; [apply code_eqb in E1 as ->; injection H as <- <-; by apply fields_end|].
    destruct (code c =? 44) eqn:E2; [|done]. apply code_eqb in E2 as ->. destruct (parse_field k d t) as [[x r1]|] eqn:Ev; [|done].
    destruct (parse_fields k d r1) as [[ys r2]|] eqn:Ee; [|done]. injection H as <- <-. eapply fields_next; eauto.
Qed.

(** ** Texts *)

(** One value at depth [d], and nothing but white space after it. *)
Definition json_within (d : Z) (s : string) (v : json) : Prop :=
  exists r, parse_value (json_fuel s) d s = Some (v, r) /\ skip_space r = "".

Lemma parse_json_within s v : parse_json s = Some v <-> json_within 0 s v.
Proof.
  unfold parse_json, json_within. destruct (parse_value (json_fuel s) 0 s) as [[v' r]|]; [|split; [done|by intros (? & ? & _)]].
  destruct (skip_space r == "") eqn:E.
  - apply bool_decide_eq_true in E. split; [intros [= <-]; eauto|by intros (r' & [= <- <-] & _)].
  - apply bool_decide_eq_false in E. split; [done|]. intros (r' & [= <- <-] & ?). done.
Qed.

(** The compacted text of a value is that value. *)
Lemma compact_reads d s v : json_within d s v -> reads_as d (compact false s) v.
Proof.
  intros (r & H & Hr). apply (parse_compact (json_fuel s)) in H as (c & E & Hc).
  assert (Er : compact false r = "") by (by rewrite compact_skip, Hr). rewrite E, Er, sapp_nil_r. done.
Qed.

Lemma reads_as_parses d s v : 0 <= d -> reads_as d s v -> parse_json s = Some v.
Proof.
  intros Hd [_ H]. apply parse_json_within. exists "". split; [|done]. specialize (H (json_fuel s) 0 ""). rewrite sapp_nil_r in H.
  apply H; [unfold json_fuel; lia|done|done].
Qed.

(** ** Objects of texts *)

Lemma reads_as_marshal h j d : wf_json h j -> d + Z.of_nat h <= max_depth -> reads_as d (marshal j) j.
Proof.
  intros Hj Hd. split; [by apply (marshal_head h)|]. intros k d' X Hk Hd' D. apply (parse_marshal_value h j Hj); [|lia|done].
  pose proof (need_le h j Hj). lia.
Qed.

Definition text_field (key txt : string) : string := quote key ++ String (byte_of 58) txt.

Lemma parse_text_field k d d' key txt v rest :
  ValidString key = true -> reads_as d txt v -> d' <= d -> (2 * String.length txt < k)%nat -> delim rest = true ->
  parse_field k d' (text_field key txt ++ rest) = Some ((key, v), rest).
Proof.
  intros Hk [_ Hr] Hd Hf D. destruct k as [|k]; [lia|]. unfold text_field, quote. cbn [String.append]. rewrite !sapp_assoc. cbn [String.append].
  cbn [parse_field]. change (skip_space (String quote_mark ?s)) with (String quote_mark s). change (code quote_mark =? 34) with true. cbv iota.
  rewrite unquote_quote by by apply ValidString_Utf8. change (skip_space (String (byte_of 58) ?s)) with (String (byte_of 58) s).
  change (code (byte_of 58) =? 58) with true. cbv iota. by rewrite Hr by (done || lia).
Qed.

Lemma raw_text_field k key txt v rest :
  ValidString key = true -> reads_as 1 txt v -> delim rest = true ->
  raw_members_go (S k) (text_field key txt ++ rest) = (key, txt) :: raw_members_go k (drop_str 1 (skip_space rest)).
Proof.
  intros Hk [(c & m & Et & Hc) Hr] D. unfold text_field, quote. cbn [String.append]. rewrite !sapp_assoc. cbn [String.append raw_members_go].
  change (skip_space (String quote_mark ?s)) with (String quote_mark s). change (Ascii.eqb quote_mark quote_mark) with true. cbv iota.
  rewrite unquote_quote by by apply ValidString_Utf8. change (skip_space (String (byte_of 58) ?s)) with (String (byte_of 58) s). rewrite drop_first.
  assert (Hs : skip_space (txt ++ rest) = txt ++ rest) by (rewrite Et; by apply skip_space_start).
  rewrite Hs, Hr by (done || (unfold json_fuel; rewrite slength_app; lia)). by rewrite take_prefix.
Qed.

(** An object of two members is decoded member by member from the texts it was made of. *)
Section TwoMembers.
Context (k1 k2 t1 t2 : string) (v1 v2 : json).
Context (H1 : ValidString k1 = true) (H2 : ValidString k2 = true) (R1 : reads_as 1 t1 v1) (R2 : reads_as 1 t2 v2).
Definition two_members : string := String (byte_of 123) (text_field k1 t1 ++ String (byte_of 44) (text_field k2 t2 ++ "}")).

Lemma parse_two_members : parse_json two_members = Some (JObj [(k1, v1); (k2, v2)]).
Proof.
  apply parse_json_within. exists "". split; [|done]. set (s := two_members). assert (L : (2 * String.length t1 + 2 * String.length t2 + 10 <= json_fuel s)%nat).
  { unfold s, two_members, json_fuel, text_field. cbn [String.length]. rewrite !slength_app. cbn [String.length]. rewrite !slength_app. cbn [String.length]. lia. }
  revert L. generalize (json_fuel s) as k. intros k L. do 4 (destruct k as [|k]; [lia|]). unfold s, two_members.
  assert (Q : exists m, text_field k1 t1 = String quote_mark m) by (by eexists). destruct Q as [m Q]. rewrite Q. cbn [String.append].
  rewrite parse_value_object by done. change (String quote_mark (m ++ ?x)) with (String quote_mark m ++ x). rewrite <- Q.
  rewrite (parse_text_field _ 1 _ _ _ v1) by (done || lia).
  change (parse_fields (S ?n) (0 + 1) (String (byte_of 44) ?t)) with
    (match parse_field n (0 + 1) t with
     | Some (y, r1) => match parse_fields n (0 + 1) r1 with Some (ys, r2) => Some (y :: ys, r2) | None => None end | None => None end).
  by rewrite (parse_text_field _ 1 _ _ _ v2) by (done || lia).
Qed.

Lemma raw_two_members : raw_members two_members = [(k1, t1); (k2, t2)].
Proof.
  unfold raw_members. unfold two_members at 2. change (skip_space (String (byte_of 123) ?s)) with (String (byte_of 123) s). rewrite drop_first.
  assert (L : exists n, String.length two_members = S (S n)).
  { unfold two_members, text_field. cbn [String.length]. rewrite !slength_app. cbn [String.length]. eexists. rewrite Nat.add_succ_r. done. }
  destruct L as [n ->]. rewrite (raw_text_field _ _ _ v1) by done. change (skip_space (String (byte_of 44) ?s)) with (String (byte_of 44) s).
  rewrite drop_first, (raw_text_field _ _ _ v2) by done. change (drop_str 1 (skip_space "}")) with "". by destruct n.
Qed.
End TwoMembers.
