(* ===== verification/Recovery.v ===== *)
(** * Recovery of a restored dispatcher

    [internal/recovery/recovery.go]: validation of a restored database against the
    manifest of its backup, and, when executed, the replay of the stream from the
    checkpoint and the reconciliation of the restored jobs with the broker.  The two
    interfaces of the package, the broker's status client and the stream, are
    parameters. *)

From S2P Require Import Prelude GoText GoSha256 GoJson GoNet LedgerModel Envelope DispatchPolicy DispatchStore Terminal ExternalWait CIRepair DispatchLoop EventBus.
Open Scope string_scope.
Open Scope Z_scope.
Open Scope go_scope.

Record RecoveryOptions := mkRecoveryOptions {
  ro_RecoveryID : string; ro_Durable : string; ro_Subject : string; ro_ManifestSequence : Z; ro_Execute : bool }.
#[export] Instance RecoveryOptions_eta : Eta RecoveryOptions := fun o =>
  mkRecoveryOptions (ro_RecoveryID o) (ro_Durable o) (ro_Subject o) (ro_ManifestSequence o) (ro_Execute o).

Record RecoveryReport := mkRecoveryReport {
  rt_Mode : string; rt_RecoveryID : string; rt_Durable : string; rt_ManifestSequence : Z; rt_StartSequence : Z;
  rt_RestoredNonterminalJobs : Z; rt_ReplayCount : Z; rt_Status : string; rt_Reconciliations : list Reconciliation }.
#[export] Instance RecoveryReport_eta : Eta RecoveryReport := fun r =>
  mkRecoveryReport (rt_Mode r) (rt_RecoveryID r) (rt_Durable r) (rt_ManifestSequence r) (rt_StartSequence r)
    (rt_RestoredNonterminalJobs r) (rt_ReplayCount r) (rt_Status r) (rt_Reconciliations r).
Definition zero_report : RecoveryReport := mkRecoveryReport "" "" "" 0 0 0 0 "" [].

(** The broker as the recovery sees it: it cannot launch, resume or comment. *)
Record StatusClient := mkStatusClient { sc_Status : string -> bres RunStatus; sc_TerminalResult : string -> bres TerminalResult }.

Definition unavailable {A} : bres A := inr (PlainErr "").
Definition as_broker (c : StatusClient) : BrokerClient :=
  {| b_reports := false; b_repairs := false; b_resumes := false; b_projects := true;
     Launch := fun _ => unavailable; Status := sc_Status c; Projection := sc_TerminalResult c;
     Comment := fun _ _ _ => unavailable; ObserveCI := fun _ _ => unavailable;
     LaunchRepair := fun _ _ => unavailable; ResumeRun := fun _ _ _ => unavailable |}.

(** The stream, over its state [S] and its consumers [C]: a reset gives a consumer and the number of its
    pending messages. *)
Class ReplayStream (S C : Type) := {
  stream_Reset : string -> string -> Z -> S -> S * res (C * Z);
  stream_Fetch : C -> Z -> S -> S * res Delivery }.

(** The moments at which a run reads its clock. *)
Inductive moment := AtBegin | AtReplay (i : nat) | AtReconcile (i : nat) | AtRecord (i : nat) | AtComplete.

Definition wrapped {A} (context : string) (m : prog A) : prog A := fun w =>
  match m w with
  | (w', Err e) => (w', Err (context ++ ": " ++ e))
  | r => r
  end.

Definition DefaultTimeout : Z := 5 * Second.

Section Runner.
Context `{NetURL} {S C : Type} `{ReplayStream S C}.
Context (policy : CIRepairPolicy) (broker : StatusClient) (routes : list RepositoryTaskRoute) (timeout : Z) (now : moment -> Z).

Definition fetch_timeout : Z := if timeout <=? 0 then DefaultTimeout else timeout.

Definition message_label (i : nat) (pending : Z) : string := fmt_d (Z.of_nat i + 1) ++ " of " ++ fmt_d pending.

(** The replay of [remaining] messages from the [i]-th on, with what was done to the messages. *)
Fixpoint replay (recoveryID : string) (consumer : C) (pending : Z) (i remaining : nat) (s : S) (db : DB) : S * DB * list ack * res unit :=
  match remaining with
  | O => (s, db, [], Ok tt)
  | Datatypes.S remaining =>
      match stream_Fetch consumer fetch_timeout s with
      | (s, Panic) => (s, db, [], Panic)
      | (s, Err e) => (s, db, [], Err ("fetch replay message " ++ message_label i pending ++ ": " ++ e))
      | (s, Ok delivery) =>
          match ProcessRecovery routes recoveryID delivery (now (AtReplay i)) db with
          | (db, acks, Ok _) =>
              let '(s, db, rest, r) := replay recoveryID consumer pending (Datatypes.S i) remaining s db in (s, db, (acks ++ rest)%list, r)
          | (db, acks, Err e) => (s, db, acks, Err ("replay message " ++ message_label i pending ++ ": " ++ e))
          | (db, acks, Panic) => (s, db, acks, Panic)
          end
      end
  end.

(** One restored job: its status at the broker is reconciled and recorded. *)
Definition reconcile_job (recoveryID : string) (i : nat) (job : Job) : prog unit :=
  let label := fmt_d (jb_ID job) in
  let conclude brokerStatus state :=
    wrapped ("record restored job " ++ label ++ " reconciliation")
      (store (RecordReconciliation recoveryID job brokerStatus state (now (AtRecord i)))) in
  answer ← ask (CStatus (jb_BrokerRunID job)) (sc_Status broker (jb_BrokerRunID job));
  match answer with
  | inr failure =>
      state ← wrapped ("reconcile restored job " ++ label ++ " status failure") (ReconcileStatusFailure job failure (now (AtReconcile i)));
      conclude "status_fetch_failed" state
  | inl status =>
      state ← wrapped ("reconcile restored job " ++ label) (ReconcileStatusResult policy (as_broker broker) job status (now (AtReconcile i)));
      conclude (st_Status status) state
  end.

Fixpoint reconcile_jobs (recoveryID : string) (i : nat) (jobs : list Job) : prog unit :=
  match jobs with
  | [] => mret tt
  | job :: rest => _ ← reconcile_job recoveryID i job; reconcile_jobs recoveryID (Datatypes.S i) rest
  end.

(** What a run leaves: the world, the stream, what was done to the messages, the report and the error. *)
Definition run_result : Type := world * S * list ack * RecoveryReport * res unit.

(** After the replay. *)
Definition finish_recovery (opts : RecoveryOptions) (jobs : list Job) (report : RecoveryReport) (w : world) : world * (RecoveryReport * res unit) :=
  let id := ro_RecoveryID opts in
  let expected := Z.of_nat (length jobs) in
  let m := _ ← reconcile_jobs id 0 jobs; wrapped "complete recovery" (store (CompleteRecovery id expected (now AtComplete))) in
  match m w with
  | (w, Ok (run, outcomes)) =>
      if negb (Z.of_nat (length outcomes) =? expected)
      then (w, (report, Err ("recorded " ++ fmt_d (Z.of_nat (length outcomes)) ++ " reconciliations for " ++ fmt_d expected
                             ++ " restored nonterminal jobs")))
      else (w, (report <| rt_ReplayCount := rn_ReplayCount run |> <| rt_Reconciliations := outcomes |> <| rt_Status := rn_Status run |>, Ok tt))
  | (w, Err e) => (w, (report, Err e))
  | (w, Panic) => (w, (report, Panic))
  end.

(** After [BeginRecovery]. *)
Definition execute_recovery (opts : RecoveryOptions) (start : Z) (report : RecoveryReport) (w : world) (s : S) : run_result :=
  let id := ro_RecoveryID opts in
  match wrapped "freeze restored nonterminal jobs" (store (PrepareRecoveryJobs id)) w with
  | (w, Err e) => (w, s, [], report, Err e)
  | (w, Panic) => (w, s, [], report, Panic)
  | (w, Ok jobs) =>
      let report := report <| rt_RestoredNonterminalJobs := Z.of_nat (length jobs) |> in
      match stream_Reset (ro_Subject opts) (ro_Durable opts) start s with
      | (s, Err e) => (w, s, [], report, Err ("reset dispatcher durable: " ++ e))
      | (s, Panic) => (w, s, [], report, Panic)
      | (s, Ok (consumer, pending)) =>
          match replay id consumer pending 0 (Z.to_nat pending) s (w_db w) with
          | (s, db, acks, Ok _) =>
              let '(w, (report, r)) := finish_recovery opts jobs report (w <| w_db := db |>) in (w, s, acks, report, r)
          | (s, db, acks, Err e) => (w <| w_db := db |>, s, acks, report, Err e)
          | (s, db, acks, Panic) => (w <| w_db := db |>, s, acks, report, Panic)
          end
      end
  end.

(** The deferred function: an error is recorded in the run. *)
Definition record_failure (id : string) (r : run_result) : run_result :=
  match r with
  | (w, s, acks, report, Err e) => ((store (FailRecovery id e) w).1, s, acks, report, Err e)
  | r => r
  end.

Definition unreconcilable (job : Job) : bool := (jb_Status job != StateLaunched) || (jb_BrokerRunID job == "").

(** [connected]: the broker and the stream are given. *)
Definition Run (connected : bool) (opts : RecoveryOptions) (w : world) (s : S) : run_result :=
  let id := ro_RecoveryID opts in
  if (id == "") || (ro_Durable opts == "") || (ro_Subject opts == "")
  then (w, s, [], zero_report, Err "store, recovery id, durable, and subject are required")
  else
    let '(_, checkpoint, start) := RecoveryMetadata (w_db w) in
    if negb (checkpoint =? ro_ManifestSequence opts)
    then (w, s, [], zero_report, Err ("manifest sequence " ++ fmt_d (ro_ManifestSequence opts)
           ++ " does not match restored SQLite checkpoint " ++ fmt_d checkpoint))
    else
      let jobs := RecoveryJobs (w_db w) in
      let report := mkRecoveryReport "dry-run" id (ro_Durable opts) checkpoint start (Z.of_nat (length jobs)) 0 "validated" [] in
      match first_where unreconcilable jobs with
      | Some job => (w, s, [], report, Err ("restored nonterminal job " ++ fmt_d (jb_ID job) ++ " is " ++ quote (jb_Status job)
                       ++ " without a reconcilable broker run id"))
      | None =>
          if negb (ro_Execute opts) then (w, s, [], report, Ok tt)
          else if negb connected then (w, s, [], report, Err "execute requires broker and stream dependencies")
          else
            let report := report <| rt_Mode := "execute" |> <| rt_Status := RecoveryIncomplete |> in
            match wrapped "begin recovery" (store (BeginRecovery id (ro_Durable opts) checkpoint (now AtBegin))) w with
            | (w, Err e) => (w, s, [], report, Err e)
            | (w, Panic) => (w, s, [], report, Panic)
            | (w, Ok _) => record_failure id (execute_recovery opts start report w s)
            end
      end.
End Runner.

(** ** The stream of the command: a JetStream consumer *)

Section NATSStream.
Context {J : Type} `{JetStream J} (bus : Bus) (fetch : Consumer -> Z -> J -> J * res Delivery).

Definition NATSStream_Reset (subject durable : string) (start : Z) : J -> J * res (Consumer * Z) :=
  ResetConsumer bus (mkConsumerConfig subject durable (30 * Second) 64 10 start).

Definition NATSStream : ReplayStream J Consumer := {| stream_Reset := NATSStream_Reset; stream_Fetch := fetch |}.
End NATSStream.
