(* ===== verification/PushStoreFacts.v ===== *)
(** * What the store of the push scanner keeps

    The outbox: a security event is read back as it was recorded. *)

From S2P Require Import Prelude GoText GoSha256 GoJson LedgerModel Envelope GoTime PushStore RawJsonFacts.
From Stdlib Require Import Ascii.
Open Scope string_scope.
Open Scope Z_scope.
Open Scope go_scope.

(** ** The JSON of a security event *)

(** Text in UTF-8, and numbers of 64 bits. *)
Definition event_strings (e : SecurityEvent) : list string :=
  [sx_Version e; sx_EventID e; sx_State e; sx_FindingID e; sx_DeliveryID e; sx_Repository e; sx_Ref e; sx_Before e; sx_After e;
   sx_Severity e; sx_ReasonCode e; sx_FingerprintID e; sx_Profile e; sx_LogicalSessionID e; sx_SessionLineageID e;
   sx_WorkerID e; sx_WorkerStorageLineage e].
Definition int64 (z : Z) : Prop := - 2 ^ 63 <= z < 2 ^ 63.
Definition event_wellformed (e : SecurityEvent) : Prop :=
  List.Forall (fun x => ValidString x = true) (event_strings e) /\ int64 (sx_ProfileGeneration e) /\ int64 (sx_WorkerFenceEpoch e).

Definition event_member : option SecurityEvent -> string * json -> option SecurityEvent := read_member false event_fields set_event.

(** What each member sets. *)
Lemma set_version raw e : set_event "version" raw e = (x ← raw_string raw (sx_Version e); Some (e <| sx_Version := x |>)).
Proof. reflexivity. Qed.
Lemma set_event_id raw e : set_event "event_id" raw e = (x ← raw_string raw (sx_EventID e); Some (e <| sx_EventID := x |>)).
Proof. reflexivity. Qed.
Lemma set_state raw e : set_event "state" raw e = (x ← raw_string raw (sx_State e); Some (e <| sx_State := x |>)).
Proof. reflexivity. Qed.
Lemma set_finding_id raw e : set_event "finding_id" raw e = (x ← raw_string raw (sx_FindingID e); Some (e <| sx_FindingID := x |>)).
Proof. reflexivity. Qed.
Lemma set_delivery_id raw e : set_event "delivery_id" raw e = (x ← raw_string raw (sx_DeliveryID e); Some (e <| sx_DeliveryID := x |>)).
Proof. reflexivity. Qed.
Lemma set_repository raw e : set_event "repository" raw e = (x ← raw_string raw (sx_Repository e); Some (e <| sx_Repository := x |>)).
Proof. reflexivity. Qed.
Lemma set_ref raw e : set_event "ref" raw e = (x ← raw_string raw (sx_Ref e); Some (e <| sx_Ref := x |>)).
Proof. reflexivity. Qed.
Lemma set_before raw e : set_event "before" raw e = (x ← raw_string raw (sx_Before e); Some (e <| sx_Before := x |>)).
Proof. reflexivity. Qed.
Lemma set_after raw e : set_event "after" raw e = (x ← raw_string raw (sx_After e); Some (e <| sx_After := x |>)).
Proof. reflexivity. Qed.
Lemma set_severity raw e : set_event "severity" raw e = (x ← raw_string raw (sx_Severity e); Some (e <| sx_Severity := x |>)).
Proof. reflexivity. Qed.
Lemma set_reason_code raw e : set_event "reason_code" raw e = (x ← raw_string raw (sx_ReasonCode e); Some (e <| sx_ReasonCode := x |>)).
Proof. reflexivity. Qed.
Lemma set_fingerprint_id raw e : set_event "fingerprint_id" raw e = (x ← raw_string raw (sx_FingerprintID e); Some (e <| sx_FingerprintID := x |>)).
Proof. reflexivity. Qed.
Lemma set_profile raw e : set_event "profile" raw e = (x ← raw_string raw (sx_Profile e); Some (e <| sx_Profile := x |>)).
Proof. reflexivity. Qed.
Lemma set_profile_generation raw e : set_event "profile_generation" raw e = (x ← raw_number raw (sx_ProfileGeneration e); Some (e <| sx_ProfileGeneration := x |>)).
Proof. reflexivity. Qed.
Lemma set_logical_session_id raw e : set_event "logical_session_id" raw e = (x ← raw_string raw (sx_LogicalSessionID e); Some (e <| sx_LogicalSessionID := x |>)).
Proof. reflexivity. Qed.
Lemma set_session_lineage_id raw e : set_event "session_lineage_id" raw e = (x ← raw_string raw (sx_SessionLineageID e); Some (e <| sx_SessionLineageID := x |>)).
Proof. reflexivity. Qed.
Lemma set_worker_id raw e : set_event "worker_id" raw e = (x ← raw_string raw (sx_WorkerID e); Some (e <| sx_WorkerID := x |>)).
Proof. reflexivity. Qed.
Lemma set_worker_storage_lineage_id raw e : set_event "worker_storage_lineage_id" raw e = (x ← raw_string raw (sx_WorkerStorageLineage e); Some (e <| sx_WorkerStorageLineage := x |>)).
Proof. reflexivity. Qed.
Lemma set_worker_fence_epoch raw e : set_event "worker_fence_epoch" raw e = (x ← raw_number raw (sx_WorkerFenceEpoch e); Some (e <| sx_WorkerFenceEpoch := x |>)).
Proof. reflexivity. Qed.
Lemma set_received_at raw e : set_event "received_at" raw e = (x ← Time_UnmarshalJSON raw (sx_ReceivedAt e); Some (e <| sx_ReceivedAt := x |>)).
Proof. reflexivity. Qed.
Lemma set_receipt_at raw e : set_event "receipt_at" raw e = (x ← Time_UnmarshalJSON raw (sx_ReceiptAt e); Some (e <| sx_ReceiptAt := x |>)).
Proof. reflexivity. Qed.
Lemma set_finding_at raw e : set_event "finding_at" raw e = (x ← Time_UnmarshalJSON raw (sx_FindingAt e); Some (e <| sx_FindingAt := x |>)).
Proof. reflexivity. Qed.
Lemma set_alert_requested_at raw e : set_event "alert_requested_at" raw e = (x ← Time_UnmarshalJSON raw (sx_AlertRequestedAt e); Some (e <| sx_AlertRequestedAt := x |>)).
Proof. reflexivity. Qed.
Create Rewrite HintDb event_members.
#[local] Hint Rewrite set_version set_event_id set_state set_finding_id set_delivery_id set_repository set_ref set_before set_after set_severity set_reason_code set_fingerprint_id set_profile set_profile_generation set_logical_session_id set_session_lineage_id set_worker_id set_worker_storage_lineage_id set_worker_fence_epoch set_received_at set_receipt_at set_finding_at set_alert_requested_at : event_members.

(** A member that is set: its name is a field, and its text is read back. *)
Ltac set_member :=
  autorewrite with event_members;
  first [rewrite raw_string_marshal by assumption | rewrite raw_number_marshal by assumption | rewrite raw_time_marshal by assumption];
  cbv beta iota delta [with_field mbind option_bind sx_Version sx_EventID sx_State sx_FindingID sx_DeliveryID sx_Repository sx_Ref
    sx_Before sx_After sx_Severity sx_ReasonCode sx_FingerprintID sx_Profile sx_ProfileGeneration sx_LogicalSessionID
    sx_SessionLineageID sx_WorkerID sx_WorkerStorageLineage sx_WorkerFenceEpoch sx_ReceivedAt sx_ReceiptAt sx_FindingAt
    sx_AlertRequestedAt];
  reflexivity.
Ltac put_member := erewrite read_member_cons; [|vm_compute; reflexivity|set_member].

(** The members are text in UTF-8 and integers. *)
Lemma valid_time t : writable t = true -> ValidString (Format_RFC3339 t) = true.
Proof. intros Ht. apply time_chars_valid. by apply Format_time_chars. Qed.

Definition flat_member (kv : string * json) : Prop := ValidString (fst kv) = true /\ wf_json 0 (snd kv).

Lemma flat_string k v : ValidString k = true -> ValidString v = true -> flat_member (k, JStr v).
Proof. split; [done|by constructor]. Qed.
Lemma flat_number k z : ValidString k = true -> flat_member (k, JNum (fmt_d z)).
Proof. split; [done|constructor]. Qed.
Lemma flat_unless b kv : flat_member kv -> List.Forall flat_member (member_unless b (fst kv) (snd kv)).
Proof. intros H. destruct b; repeat constructor; apply H. Qed.

Definition writable_event (e : SecurityEvent) : bool :=
  writable (sx_ReceivedAt e) && writable (sx_ReceiptAt e) && writable (sx_FindingAt e) && writable (sx_AlertRequestedAt e).

Section ReadBack.
Context (v1 v2 v3 v4 v5 v6 v7 v8 v9 v10 v11 v12 v13 v14 v15 v16 v17 : string) (n1 n2 t1 t2 t3 t4 : Z).
Local Abbreviation e := (mkSecurityEvent v1 v2 v3 v4 v5 v6 v7 v8 v9 v10 v11 v12 v13 n1 v14 v15 v16 v17 n2 t1 t2 t3 t4).
Context (H1 : ValidString v1 = true) (H2 : ValidString v2 = true) (H3 : ValidString v3 = true) (H4 : ValidString v4 = true)
  (H5 : ValidString v5 = true) (H6 : ValidString v6 = true) (H7 : ValidString v7 = true) (H8 : ValidString v8 = true)
  (H9 : ValidString v9 = true) (H10 : ValidString v10 = true) (H11 : ValidString v11 = true) (H12 : ValidString v12 = true)
  (H13 : ValidString v13 = true) (H14 : ValidString v14 = true) (H15 : ValidString v15 = true) (H16 : ValidString v16 = true)
  (H17 : ValidString v17 = true) (Hn1 : int64 n1) (Hn2 : int64 n2) (Ht1 : writable t1 = true) (Ht2 : writable t2 = true)
  (Ht3 : writable t3 = true) (Ht4 : writable t4 = true).

Lemma members_written : List.Forall flat_member (event_members e).
Proof.
  unfold event_members. rewrite !List.Forall_app.
  cbn [sx_Version sx_EventID sx_State sx_FindingID sx_DeliveryID sx_Repository sx_Ref sx_Before sx_After
    sx_Severity sx_ReasonCode sx_FingerprintID sx_Profile sx_ProfileGeneration sx_LogicalSessionID sx_SessionLineageID sx_WorkerID
    sx_WorkerStorageLineage sx_WorkerFenceEpoch sx_ReceivedAt sx_ReceiptAt sx_FindingAt sx_AlertRequestedAt].
  split_and!; first [apply (flat_unless _ (_, _)) | idtac];
    repeat (constructor; [first [apply flat_number; reflexivity | apply flat_string; [reflexivity|first [assumption|by apply valid_time]]]|]);
    first [constructor; fail | apply flat_number; reflexivity | apply flat_string; [reflexivity|assumption] | constructor].
Qed.

Ltac optional_member :=
  erewrite read_member_unless;
  [|vm_compute; reflexivity|set_member
   |intros E; first [apply bool_decide_eq_true in E | apply Z.eqb_eq in E]; rewrite E; reflexivity].

Lemma members_read : fold_left event_member (event_members e) (Some zero_event) = Some e.
Proof.
  unfold event_member, event_members. rewrite !fold_left_app. unfold zero_event.
  cbn [sx_Version sx_EventID sx_State sx_FindingID sx_DeliveryID sx_Repository sx_Ref sx_Before sx_After
    sx_Severity sx_ReasonCode sx_FingerprintID sx_Profile sx_ProfileGeneration sx_LogicalSessionID sx_SessionLineageID sx_WorkerID
    sx_WorkerStorageLineage sx_WorkerFenceEpoch sx_ReceivedAt sx_ReceiptAt sx_FindingAt sx_AlertRequestedAt].
  do 11 put_member. rewrite read_member_nil. optional_member. do 2 put_member. rewrite read_member_nil.
  do 5 optional_member. do 4 put_member. reflexivity.
Qed.

Lemma read_back : Unmarshal_event (marshal (event_json e)) = Some e.
Proof.
  unfold Unmarshal_event, decode_raw_struct, event_json. rewrite (decode_raw_marshal 0); [|done|apply members_written].
  apply members_read.
Qed.
End ReadBack.

(** A recorded event is read back. *)
Lemma event_read_back e payload :
  event_wellformed e -> Marshal_event e = Some payload -> Unmarshal_event payload = Some e.
Proof.
  destruct e. intros (Hs & Hn1 & Hn2). unfold Marshal_event. destruct (_ && _) eqn:Hw; [|done]. intros [= <-].
  apply andb_true_iff in Hw as [[[? ?]%andb_true_iff ?]%andb_true_iff ?].
  unfold event_strings in Hs. repeat (apply List.Forall_cons_iff in Hs as [? Hs]). by apply read_back.
Qed.
