(* ===== verification/EventBusFacts.v ===== *)
(** * What the event bus guarantees

    Every consumer decodes the metadata and the value of the payload that were published, and
    a durable consumer is brought to the configuration that was asked for, without moving its subject or its start. *)

From stdpp Require Import gmap.
From S2P Require Import Prelude GoText GoJson LedgerModel Envelope GoTime PushStore RawJsonFacts PushStoreFacts EventBus CompactFacts.
From Stdlib Require Import Ascii.
Open Scope string_scope.
Open Scope Z_scope.
Open Scope go_scope.

(** ** Signals *)

(** What each member sets. *)
Lemma meta_signal_id raw m : set_meta "signal_id" raw m = (x ← raw_string raw (m_SignalID m); Some (m <| m_SignalID := x |>)).
Proof. reflexivity. Qed.
Lemma meta_source raw m : set_meta "source" raw m = (x ← raw_string raw (m_Source m); Some (m <| m_Source := x |>)).
Proof. reflexivity. Qed.
Lemma meta_route_id raw m : set_meta "route_id" raw m = (x ← raw_string raw (m_RouteID m); Some (m <| m_RouteID := x |>)).
Proof. reflexivity. Qed.
Lemma meta_received_at raw m : set_meta "received_at" raw m = (x ← Time_UnmarshalJSON raw (m_ReceivedAt m); Some (m <| m_ReceivedAt := x |>)).
Proof. reflexivity. Qed.
Lemma meta_source_event raw m : set_meta "source_event" raw m = (x ← raw_string raw (m_SourceEvent m); Some (m <| m_SourceEvent := x |>)).
Proof. reflexivity. Qed.
Lemma meta_source_action raw m : set_meta "source_action" raw m = (x ← raw_string raw (m_SourceAction m); Some (m <| m_SourceAction := x |>)).
Proof. reflexivity. Qed.
Lemma meta_source_delivery_id raw m : set_meta "source_delivery_id" raw m = (x ← raw_string raw (m_SourceDeliveryID m); Some (m <| m_SourceDeliveryID := x |>)).
Proof. reflexivity. Qed.
Lemma meta_namespace raw m : set_meta "namespace" raw m = (x ← raw_string raw (m_Namespace m); Some (m <| m_Namespace := x |>)).
Proof. reflexivity. Qed.
Lemma meta_object_kind raw m : set_meta "object_kind" raw m = (x ← raw_string raw (m_ObjectKind m); Some (m <| m_ObjectKind := x |>)).
Proof. reflexivity. Qed.
Lemma meta_object_id raw m : set_meta "object_id" raw m = (x ← raw_string raw (m_ObjectID m); Some (m <| m_ObjectID := x |>)).
Proof. reflexivity. Qed.
Lemma meta_source_revision raw m : set_meta "source_revision" raw m = (x ← raw_string raw (m_SourceRevision m); Some (m <| m_SourceRevision := x |>)).
Proof. reflexivity. Qed.
Lemma meta_source_ref raw m : set_meta "source_ref" raw m = (x ← raw_string raw (m_SourceRef m); Some (m <| m_SourceRef := x |>)).
Proof. reflexivity. Qed.
Lemma meta_source_before_revision raw m : set_meta "source_before_revision" raw m = (x ← raw_string raw (m_SourceBefore m); Some (m <| m_SourceBefore := x |>)).
Proof. reflexivity. Qed.
Lemma meta_source_after_revision raw m : set_meta "source_after_revision" raw m = (x ← raw_string raw (m_SourceAfter m); Some (m <| m_SourceAfter := x |>)).
Proof. reflexivity. Qed.
Lemma meta_source_head_timestamp raw m : set_meta "source_head_timestamp" raw m = (x ← decode_time_pointer raw (m_SourceHeadTime m); Some (m <| m_SourceHeadTime := x |>)).
Proof. reflexivity. Qed.
Lemma meta_source_timestamp raw m : set_meta "source_timestamp" raw m = (x ← decode_time_pointer raw (m_SourceTimestamp m); Some (m <| m_SourceTimestamp := x |>)).
Proof. reflexivity. Qed.
Lemma meta_actor_class raw m : set_meta "actor_class" raw m = (x ← raw_string raw (m_ActorClass m); Some (m <| m_ActorClass := x |>)).
Proof. reflexivity. Qed.
Lemma meta_correlation_id raw m : set_meta "correlation_id" raw m = (x ← raw_string raw (m_CorrelationID m); Some (m <| m_CorrelationID := x |>)).
Proof. reflexivity. Qed.
Lemma meta_causation_id raw m : set_meta "causation_id" raw m = (x ← raw_string raw (m_CausationID m); Some (m <| m_CausationID := x |>)).
Proof. reflexivity. Qed.
Lemma meta_root_work_item_id raw m : set_meta "root_work_item_id" raw m = (x ← raw_string raw (m_RootWorkItemID m); Some (m <| m_RootWorkItemID := x |>)).
Proof. reflexivity. Qed.
Lemma meta_parent_work_item_id raw m : set_meta "parent_work_item_id" raw m = (x ← raw_string raw (m_ParentWorkItemID m); Some (m <| m_ParentWorkItemID := x |>)).
Proof. reflexivity. Qed.
Lemma meta_originating_session_id raw m : set_meta "originating_session_id" raw m = (x ← raw_string raw (m_OriginatingSession m); Some (m <| m_OriginatingSession := x |>)).
Proof. reflexivity. Qed.
Lemma meta_originating_turn_id raw m : set_meta "originating_turn_id" raw m = (x ← raw_string raw (m_OriginatingTurn m); Some (m <| m_OriginatingTurn := x |>)).
Proof. reflexivity. Qed.
Lemma meta_expires_at raw m : set_meta "expires_at" raw m = (x ← decode_time_pointer raw (m_ExpiresAt m); Some (m <| m_ExpiresAt := x |>)).
Proof. reflexivity. Qed.
Lemma meta_hop_count raw m : set_meta "hop_count" raw m = (x ← raw_number raw (m_HopCount m); Some (m <| m_HopCount := x |>)).
Proof. reflexivity. Qed.
Lemma meta_authentication raw m :
  set_meta "authentication" raw m
  = (x ← parse_json raw ≫= fun v => decode_struct ["method"; "verified"] false set_authentication v (m_Authentication m);
     Some (m <| m_Authentication := x |>)).
Proof. reflexivity. Qed.
Create Rewrite HintDb meta_members.
#[local] Hint Rewrite meta_signal_id meta_source meta_route_id meta_received_at meta_source_event meta_source_action meta_source_delivery_id meta_namespace meta_object_kind meta_object_id meta_source_revision meta_source_ref meta_source_before_revision meta_source_after_revision meta_source_head_timestamp meta_source_timestamp meta_actor_class meta_correlation_id meta_causation_id meta_root_work_item_id meta_parent_work_item_id meta_originating_session_id meta_originating_turn_id meta_expires_at meta_hop_count : meta_members.

Lemma raw_pointer_marshal t old : writable t = true -> decode_time_pointer (marshal (JStr (Format_RFC3339 t))) old = Some (Some t).
Proof.
  intros Hw. unfold decode_time_pointer. rewrite bool_decide_eq_false_2; [by rewrite raw_time_marshal|]. intros H. discriminate H.
Qed.

Lemma raw_authentication_marshal a old :
  ValidString (Method a) = true ->
  (parse_json (marshal (authentication_json a)) ≫= fun v => decode_struct ["method"; "verified"] false set_authentication v old) = Some a.
Proof.
  intros Hm. rewrite (parse_json_marshal 1); [|repeat constructor; done|done]. by destruct a.
Qed.

Abbreviation meta_member := (read_member false meta_fields set_meta).

Lemma read_optional_time k t m (f : option Z -> Meta) :
  find_field meta_fields k = Some k -> m = f None ->
  (forall x, t = Some x -> set_meta k (marshal (JStr (Format_RFC3339 x))) m = Some (f (Some x))) ->
  fold_left meta_member (optional_time k t) (Some m) = Some (f t).
Proof.
  intros Hf Hm Hs. destruct t as [x|]; [|by rewrite Hm]. cbn [optional_time]. by rewrite (read_member_cons _ _ _ k _ _ _ _ Hf (Hs x eq_refl)).
Qed.

Ltac meta_record :=
  cbv beta iota delta [with_field mbind option_bind m_SignalID m_Source m_RouteID m_ReceivedAt m_SourceEvent m_SourceAction m_SourceDeliveryID
    m_Namespace m_ObjectKind m_ObjectID m_SourceRevision m_SourceRef m_SourceBefore m_SourceAfter m_SourceHeadTime m_SourceTimestamp m_ActorClass
    m_CorrelationID m_CausationID m_RootWorkItemID m_ParentWorkItemID m_OriginatingSession m_OriginatingTurn m_HopCount m_ExpiresAt
    m_Authentication].
Ltac set_meta_member :=
  autorewrite with meta_members;
  first [rewrite raw_string_marshal by assumption | rewrite raw_number_marshal by assumption | rewrite raw_time_marshal by assumption];
  meta_record; reflexivity.
Ltac put_meta := erewrite read_member_cons; [|vm_compute; reflexivity|set_meta_member].
Ltac optional_meta :=
  unfold optional_string; erewrite read_member_unless;
  [|vm_compute; reflexivity|set_meta_member
   |intros E; first [apply bool_decide_eq_true in E | apply Z.eqb_eq in E]; rewrite E; reflexivity].

Section ReadMeta.
Context (v1 v2 v3 v5 v6 v7 v8 v9 v10 v11 v12 v13 v14 v17 v18 v19 v20 v21 v22 v23 : string) (t4 n24 : Z) (t15 t16 t25 : option Z) (a : Authentication).
Local Abbreviation m := (mkMeta v1 v2 v3 t4 v5 v6 v7 v8 v9 v10 v11 v12 v13 v14 t15 t16 v17 v18 v19 v20 v21 v22 v23 n24 t25 a).
Context (H1 : ValidString v1 = true) (H2 : ValidString v2 = true) (H3 : ValidString v3 = true) (H5 : ValidString v5 = true)
  (H6 : ValidString v6 = true) (H7 : ValidString v7 = true) (H8 : ValidString v8 = true) (H9 : ValidString v9 = true)
  (H10 : ValidString v10 = true) (H11 : ValidString v11 = true) (H12 : ValidString v12 = true) (H13 : ValidString v13 = true)
  (H14 : ValidString v14 = true) (H17 : ValidString v17 = true) (H18 : ValidString v18 = true) (H19 : ValidString v19 = true)
  (H20 : ValidString v20 = true) (H21 : ValidString v21 = true) (H22 : ValidString v22 = true) (H23 : ValidString v23 = true)
  (Ha : ValidString (Method a) = true) (Hn : int64 n24) (Ht4 : writable t4 = true) (Ht15 : writable_pointer t15 = true)
  (Ht16 : writable_pointer t16 = true) (Ht25 : writable_pointer t25 = true).

Ltac optional_instant f :=
  rewrite (read_optional_time _ _ _ f);
  [|vm_compute; reflexivity|reflexivity
   |let x := fresh "x" in let E := fresh "E" in
    intros x E; rewrite E in *; autorewrite with meta_members; rewrite raw_pointer_marshal by assumption; meta_record; reflexivity].

Lemma meta_read : fold_left meta_member (meta_members m) (Some (sg_Meta zero_signal)) = Some m.
Proof.
  unfold meta_members. rewrite !fold_left_app. unfold zero_signal. cbn [sg_Meta]. meta_record.
  do 4 put_meta. rewrite read_member_nil. do 10 optional_meta.
  optional_instant (fun t => mkMeta v1 v2 v3 t4 v5 v6 v7 v8 v9 v10 v11 v12 v13 v14 t None "" "" "" "" "" "" "" 0 None (mkAuthentication "" false)).
  optional_instant (fun t => mkMeta v1 v2 v3 t4 v5 v6 v7 v8 v9 v10 v11 v12 v13 v14 t15 t "" "" "" "" "" "" "" 0 None (mkAuthentication "" false)).
  do 8 optional_meta.
  optional_instant (fun t => mkMeta v1 v2 v3 t4 v5 v6 v7 v8 v9 v10 v11 v12 v13 v14 t15 t16 v17 v18 v19 v20 v21 v22 v23 n24 t (mkAuthentication "" false)).
  erewrite read_member_cons; [reflexivity|vm_compute; reflexivity|].
  rewrite meta_authentication, raw_authentication_marshal by assumption. meta_record. reflexivity.
Qed.

Lemma flat_optional k v : ValidString k = true -> ValidString v = true -> List.Forall (fun kv => ValidString (fst kv) = true /\ wf_json 1 (snd kv)) (optional_string k v).
Proof. intros Hk Hv. unfold optional_string, member_unless. destruct (v == ""); repeat constructor; done. Qed.
Lemma flat_time k t : ValidString k = true -> writable_pointer t = true -> List.Forall (fun kv => ValidString (fst kv) = true /\ wf_json 1 (snd kv)) (optional_time k t).
Proof. intros Hk Ht. destruct t as [t|]; repeat constructor; [done|]. by apply valid_time. Qed.

Lemma meta_written : List.Forall (fun kv => ValidString (fst kv) = true /\ wf_json 1 (snd kv)) (meta_members m).
Proof.
  unfold meta_members. rewrite !List.Forall_app. meta_record.
  split_and!; first [by apply flat_optional | by apply flat_time | idtac].
  - repeat constructor; try done. by apply valid_time.
  - unfold member_unless. destruct (n24 =? 0); repeat constructor.
  - repeat constructor; done.
Qed.
End ReadMeta.

(** ** The round trip *)

(** Text in UTF-8, numbers of 64 bits and times that can be written. *)
Definition meta_strings (m : Meta) : list string :=
  [m_SignalID m; m_Source m; m_RouteID m; m_SourceEvent m; m_SourceAction m; m_SourceDeliveryID m; m_Namespace m; m_ObjectKind m; m_ObjectID m;
   m_SourceRevision m; m_SourceRef m; m_SourceBefore m; m_SourceAfter m; m_ActorClass m; m_CorrelationID m; m_CausationID m; m_RootWorkItemID m;
   m_ParentWorkItemID m; m_OriginatingSession m; m_OriginatingTurn m; Method (m_Authentication m)].
Definition meta_wellformed (m : Meta) : Prop :=
  List.Forall (fun x => ValidString x = true) (meta_strings m) /\ int64 (m_HopCount m) /\ writable_meta m = true.

Lemma meta_facts m :
  meta_wellformed m ->
  fold_left meta_member (meta_members m) (Some (sg_Meta zero_signal)) = Some m
  /\ List.Forall (fun kv => ValidString (fst kv) = true /\ wf_json 1 (snd kv)) (meta_members m).
Proof.
  destruct m. intros (Hs & Hn & Hw). unfold writable_meta in Hw.
  apply andb_true_iff in Hw as [[[? ?]%andb_true_iff ?]%andb_true_iff ?].
  unfold meta_strings in Hs. repeat (apply List.Forall_cons_iff in Hs as [? Hs]). split; [by apply meta_read|by apply meta_written].
Qed.

(** The payload as it is handed to the encoder: a nil payload is null. *)
Definition payload_text (s : Signal) : string := if sg_Payload s == "" then "null" else sg_Payload s.

Lemma signal_text meta payload :
  "{" ++ quote "meta" ++ ":" ++ meta ++ "," ++ quote "payload" ++ ":" ++ payload ++ "}" = two_members "meta" "payload" meta payload.
Proof. unfold two_members, text_field. cbn [String.append]. repeat (rewrite !sapp_assoc; cbn [String.append]). done. Qed.

Lemma Marshal_text s data : Marshal_signal s = Some data ->
  data = two_members "meta" "payload" (marshal (JObj (meta_members (sg_Meta s)))) (compact false (payload_text s)) /\ writable_meta (sg_Meta s) = true.
Proof.
  unfold Marshal_signal. fold (payload_text s). destruct (negb _ || _) eqn:E; [discriminate|]. rewrite signal_text.
  intros Hd. apply (inj Some) in Hd. split; [symmetry; exact Hd|]. apply orb_false_iff in E as [E _]. by apply negb_false_iff in E.
Qed.

(** A message of two texts is decoded to the metadata and the text of the payload. *)
Lemma Unmarshal_two m payload v :
  meta_wellformed m -> reads_as 1 payload v ->
  Unmarshal_signal (two_members "meta" "payload" (marshal (JObj (meta_members m))) payload) = Some (mkSignal m payload).
Proof.
  intros Hm Hp. destruct (meta_facts _ Hm) as [Hread Hwr].
  assert (Hw : reads_as 1 (marshal (JObj (meta_members m))) (JObj (meta_members m))) by (apply (reads_as_marshal 2); [by apply wf_obj|done]).
  unfold Unmarshal_signal, decode_raw_struct, decode_raw at 1.
  rewrite (parse_two_members _ _ _ _ (JObj (meta_members m)) v), (raw_two_members _ _ _ _ (JObj (meta_members m)) v) by done.
  cbn [fold_left fst snd mbind option_bind]. change (find_field ["meta"; "payload"] "meta") with (Some "meta").
  change (find_field ["meta"; "payload"] "payload") with (Some "payload"). cbv iota.
  change ("meta" == "meta") with true. change ("payload" == "meta") with false. cbv iota.
  rewrite (decode_raw_marshal 1) by (done || exact Hwr).
  match goal with |- context [fold_left ?f _ _] => change f with (read_member false meta_fields set_meta) end. rewrite Hread. reflexivity.
Qed.

(** C37: Every consumer decodes what was published: for any metadata in UTF-8 and any JSON payload nested at most 9,999 levels
    deep (a nil payload counts as null), the message decodes to the same metadata and to the payload with the white space outside
    strings dropped and HTML escaped, and that text is the same JSON value as the payload. *)
Theorem signal_roundtrip s v data :
  meta_wellformed (sg_Meta s) -> json_within 1 (payload_text s) v -> Marshal_signal s = Some data ->
  Unmarshal_signal data = Some (mkSignal (sg_Meta s) (compact false (payload_text s))) /\ parse_json (compact false (payload_text s)) = Some v.
Proof.
  intros Hm Hj [-> _]%Marshal_text. apply compact_reads in Hj. split; [by apply (Unmarshal_two _ _ v)|by apply (reads_as_parses 1)].
Qed.

Definition sample_signal : Signal :=
  mkSignal ((sg_Meta zero_signal) <| m_SignalID := "signal-1" |> <| m_Source := "github" |> <| m_ReceivedAt := 1782909015250000000 |>
              <| m_SourceHeadTime := Some 0 |> <| m_HopCount := 2 |> <| m_Authentication := mkAuthentication "github_hmac_sha256" true |>)
    (quoted "{ 'a': [1.5e3, '<\ud800>'] }").

Lemma signal_roundtrip_witness :
  Unmarshal_signal (default "" (Marshal_signal sample_signal))
    = Some (mkSignal (sg_Meta sample_signal) (quoted "{'a':[1.5e3,'\u003c\ud800\u003e']}"))
  /\ parse_json (quoted "{'a':[1.5e3,'\u003c\ud800\u003e']}") = Some (JObj [("a", JArr [JNum "1.5e3"; JStr ("<" ++ replacement ++ ">")])]).
Proof.
  refine (signal_roundtrip sample_signal (JObj [("a", JArr [JNum "1.5e3"; JStr ("<" ++ replacement ++ ">")])]) _ _ _ _).
  - split; [repeat constructor|]. split; [split; [discriminate|reflexivity]|vm_compute; reflexivity].
  - eexists. split; [vm_compute; reflexivity|reflexivity].
  - vm_compute. reflexivity.
Defined.

(** ** Consumers *)

(** What the program relies on: a consumer that was added or updated has its configuration, and a deleted one is gone. *)
Class JetStreamLaws (J : Type) `{JetStream J} : Prop := {
  info_durable s d j c n : js_ConsumerInfo s d j = Found (c, n) -> nc_Durable c = d;
  add_found s c j j' : js_AddConsumer s c j = (j', Ok tt) -> exists n, js_ConsumerInfo s (nc_Durable c) j' = Found (c, n);
  update_found s c j j' : js_UpdateConsumer s c j = (j', Ok tt) -> exists n, js_ConsumerInfo s (nc_Durable c) j' = Found (c, n);
  delete_gone s d j j' : js_DeleteConsumer s d j = (j', Ok tt) -> js_ConsumerInfo s d j' = NotFound }.

Section Consumers.
Context {J : Type} `{JetStream J} `{!JetStreamLaws J}.

(** The settings of a consumer the program may change. *)
Definition same_stream_position (c c' : NatsConsumer) : Prop :=
  nc_Durable c' = nc_Durable c /\ nc_FilterSubject c' = nc_FilterSubject c /\ nc_DeliverPolicy c' = nc_DeliverPolicy c
  /\ nc_OptStartSeq c' = nc_OptStartSeq c /\ nc_Other c' = nc_Other c.

(** The consumer has what was asked for. *)
Definition configured (b : Bus) (want : ConsumerConfig) (info : NatsConsumer) : Prop :=
  nc_Durable info = cn_Durable want /\ nc_FilterSubject info = cn_Subject want /\ nc_AckPolicy info = AckExplicit
  /\ nc_AckWait info = cn_AckWait want /\ nc_MaxAckPending info = cn_MaxAckPending want /\ nc_MaxDeliver info = cn_MaxDeliver want
  /\ (0 < cn_StartSequence want -> nc_DeliverPolicy info = DeliverByStartSequence /\ nc_OptStartSeq info = cn_StartSequence want).

Lemma ensureConsumer_configured b want j j' :
  ensureConsumer b want j = (j', Ok tt) ->
  exists info n, js_ConsumerInfo (bus_stream b) (cn_Durable want) j' = Found (info, n) /\ configured b want info
    /\ forall info0 n0, js_ConsumerInfo (bus_stream b) (cn_Durable want) j = Found (info0, n0) -> same_stream_position info0 info.
Proof.
  unfold ensureConsumer. destruct (js_ConsumerInfo (bus_stream b) (cn_Durable want) j) as [[info n]| |e] eqn:Ei; [| |done].
  - destruct (nc_FilterSubject info != cn_Subject want) eqn:Es; [done|].
    apply negb_false_iff, bool_decide_eq_true in Es. destruct (_ && _) eqn:Est; [done|].
    set (c := info <| nc_AckPolicy := _ |> <| nc_AckWait := _ |> <| nc_MaxAckPending := _ |> <| nc_MaxDeliver := _ |>).
    destruct (js_UpdateConsumer (bus_stream b) c j) as [j1 [[]|e|]] eqn:Eu; cbn; [|done|done]. intros [= <-].
    apply update_found in Eu as [n' Eu]. pose proof (info_durable _ _ _ _ _ Ei) as Hd.
    exists c, n'. split; [by rewrite <- Hd|]. split.
    + unfold configured. split_and!; try done. intros Hp. apply andb_false_iff in Est as [Est|Est]; [lia|].
      apply orb_false_iff in Est as [E1 E2]. rewrite negb_false_iff in E1, E2. apply bool_decide_eq_true in E1. split; [done|]. cbn. lia.
    + intros info0 n0 [= <- <-]. repeat split.
  - destruct (js_AddConsumer (bus_stream b) (new_consumer want) j) as [j1 [[]|e|]] eqn:Ea; cbn; [|done|done]. intros [= <-].
    apply add_found in Ea as [n Ea]. exists (new_consumer want), n. split; [done|]. split; [|done].
    unfold configured, new_consumer. cbn. split_and!; try done. intros Hp. by rewrite (proj2 (Z.ltb_lt _ _)).
Qed.

Lemma ensureConsumer_fresh b want j j' :
  js_ConsumerInfo (bus_stream b) (cn_Durable want) j = NotFound -> ensureConsumer b want j = (j', Ok tt) ->
  exists n, js_ConsumerInfo (bus_stream b) (cn_Durable want) j' = Found (new_consumer want, n).
Proof.
  intros Hno. unfold ensureConsumer. rewrite Hno.
  destruct (js_AddConsumer (bus_stream b) (new_consumer want) j) as [j1 [[]|e|]] eqn:Ea; cbn; [|done|done]. intros [= <-].
  by apply add_found in Ea.
Qed.

Lemma NewConsumer_ok b cfg j j' c :
  NewConsumer b cfg j = (j', Ok c) ->
  c = mkConsumer (bus_stream b) (cn_Durable cfg) /\ 0 < cn_AckWait cfg /\ 0 < cn_MaxAckPending cfg /\ 0 < cn_MaxDeliver cfg
  /\ ensureConsumer b cfg j = (j', Ok tt).
Proof.
  unfold NewConsumer. destruct (_ || _) eqn:Eg; [done|]. apply orb_false_iff in Eg as [[E1 E2]%orb_false_iff E3].
  destruct (ensureConsumer b cfg j) as [j1 [[]|e|]] eqn:Ee; cbn; [|done|done].
  destruct (js_PullSubscribe _ _ _ j1); [|done|done]. intros [= <- <-]. split; [done|]. split_and!; [lia..|done].
Qed.

(** A reset finds no consumer left when it creates one. *)
Lemma ResetConsumer_ok b cfg j j' c pending :
  ResetConsumer b cfg j = (j', Ok (c, pending)) ->
  cn_StartSequence cfg <> 0 /\ exists j1, js_ConsumerInfo (bus_stream b) (cn_Durable cfg) j1 = NotFound /\ NewConsumer b cfg j1 = (j', Ok c)
    /\ exists info, Consumer_Ready c j' = Ok (info, pending).
Proof.
  unfold ResetConsumer. destruct (cn_StartSequence cfg =? 0) eqn:E0; [done|].
  assert (Hcreate : forall j1, (let '(j2, r) := NewConsumer b cfg j1 in
            (j2, consumer ← r; info ← Consumer_Ready consumer j2; Ok (consumer, snd info))) = (j', Ok (c, pending)) ->
            NewConsumer b cfg j1 = (j', Ok c) /\ exists info, Consumer_Ready c j' = Ok (info, pending)).
  { intros j1. destruct (NewConsumer b cfg j1) as [j2 [x|e|]]; cbn; [|done|done].
    destruct (Consumer_Ready x j2) as [[info n]|e|] eqn:Er; cbn; [|done|done]. intros [= <- <- <-]. eauto. }
  destruct (js_ConsumerInfo (bus_stream b) (cn_Durable cfg) j) as [[info n]| |e] eqn:Ei; [| |done].
  - destruct (js_DeleteConsumer _ _ j) as [j1 [[]|e|]] eqn:Ed; cbn [is_ok]; [|done|done]. intros Hc. apply delete_gone in Ed.
    split; [lia|]. exists j1. split; [done|]. by apply Hcreate.
  - intros Hc. split; [lia|]. exists j. split; [done|]. by apply Hcreate.
Qed.

(** A consumer the bus hands out exists on its stream with the subject, explicit acknowledgement, limits and recovery start
    that were asked for; one that existed before keeps its subject, its start and its other settings, or is refused; and a reset consumer
    is new and starts at exactly the recovery sequence it was given. *)
Theorem consumers_configured b cfg j :
  (forall j' c, NewConsumer b cfg j = (j', Ok c) ->
     c = mkConsumer (bus_stream b) (cn_Durable cfg) /\ 0 < cn_AckWait cfg /\ 0 < cn_MaxAckPending cfg /\ 0 < cn_MaxDeliver cfg
     /\ exists info n, js_ConsumerInfo (bus_stream b) (cn_Durable cfg) j' = Found (info, n) /\ configured b cfg info
          /\ forall info0 n0, js_ConsumerInfo (bus_stream b) (cn_Durable cfg) j = Found (info0, n0) -> same_stream_position info0 info)
  /\ (forall j' c pending, ResetConsumer b cfg j = (j', Ok (c, pending)) -> 0 <= cn_StartSequence cfg ->
     js_ConsumerInfo (bus_stream b) (cn_Durable cfg) j' = Found (new_consumer cfg, pending)
     /\ nc_DeliverPolicy (new_consumer cfg) = DeliverByStartSequence /\ nc_OptStartSeq (new_consumer cfg) = cn_StartSequence cfg).
Proof.
  split.
  - intros j' c Hn. apply NewConsumer_ok in Hn as (-> & ? & ? & ? & He). apply ensureConsumer_configured in He. auto.
  - intros j' c pending Hr Hpos. apply ResetConsumer_ok in Hr as (Hz & j1 & Hno & Hn & info & Hi).
    apply NewConsumer_ok in Hn as (-> & _ & _ & _ & He). apply (ensureConsumer_fresh _ _ _ _ Hno) in He as [n He].
    unfold Consumer_Ready in Hi. cbn [cs_stream cs_durable] in Hi. rewrite He in Hi.
    destruct (Bus_Ready _ j') in Hi; cbn in Hi; [|done|done]. injection Hi as <- <-. split; [done|].
    unfold new_consumer. cbn. rewrite (proj2 (Z.ltb_lt _ _)) by lia. done.
Qed.
End Consumers.

(** A server that keeps its consumers in a map. *)
#[export] Instance map_server : JetStream (gmap (string * string) NatsConsumer) := {|
  js_StreamInfo s _ := Found (mkNatsStream s [] true "");
  js_AddStream _ j := (j, Ok tt);
  js_UpdateStream _ j := (j, Ok tt);
  js_ConsumerInfo s d j := match j !! (s, d) with
                           | Some c => if nc_Durable c == d then Found (c, 3) else LookupFailed "foreign"
                           | None => NotFound end;
  js_AddConsumer s c j := (<[(s, nc_Durable c) := c]> j, Ok tt);
  js_UpdateConsumer s c j := (<[(s, nc_Durable c) := c]> j, Ok tt);
  js_DeleteConsumer s d j := (delete (s, d) j, Ok tt);
  js_PullSubscribe _ _ _ _ := Ok tt;
  js_Publish _ _ _ j := (j, Ok tt);
  js_Connected _ := true |}.

#[export] Instance map_server_laws : JetStreamLaws (gmap (string * string) NatsConsumer).
Proof.
  constructor; cbn.
  - intros s d j c n. destruct (j !! (s, d)) as [x|]; [|done]. destruct (nc_Durable x == d) eqn:E; [|done]. intros [= <- _].
    by apply bool_decide_eq_true in E.
  - intros s c j j' [= <-]. rewrite lookup_insert_eq, bool_decide_eq_true_2 by done. eauto.
  - intros s c j j' [= <-]. rewrite lookup_insert_eq, bool_decide_eq_true_2 by done. eauto.
  - intros s d j j' [= <-]. by rewrite lookup_delete_eq.
Qed.

Definition sample_config : ConsumerConfig := mkConsumerConfig "signals.>" "dispatcher" (30 * Second) 64 10 8.

Lemma consumers_configured_witness :
  let b := mkBus "SIGNALS" in let j : gmap (string * string) NatsConsumer := ∅ in
  let j' := fst (ResetConsumer b sample_config j) in
  js_ConsumerInfo "SIGNALS" "dispatcher" j' = Found (new_consumer sample_config, 3)
  /\ nc_DeliverPolicy (new_consumer sample_config) = DeliverByStartSequence /\ nc_OptStartSeq (new_consumer sample_config) = 8.
Proof.
  apply (proj2 (consumers_configured (mkBus "SIGNALS") sample_config (∅ : gmap (string * string) NatsConsumer))
           (fst (ResetConsumer (mkBus "SIGNALS") sample_config ∅)) (mkConsumer "SIGNALS" "dispatcher") 3).
  - vm_compute. reflexivity.
  - vm_compute. discriminate.
Defined.
