(* ===== verification/WireFacts.v ===== *)
(** * From the signed request to the event of the ledger

    The gateway publishes the body of a request, the bus writes it as JSON, a consumer reads it back
    and the adapter of the ledger makes an event of it: what the event says of the request, with the
    wire in between. *)

From S2P Require Import Prelude GoText GoSha256 GoJson GoNet LedgerModel LedgerModelFacts Envelope DispatchPolicy Config Gateway ConfigFacts GatewayFacts GoTime PushStore RawJsonFacts EventBus CompactFacts EventBusFacts.
Open Scope string_scope.
Open Scope Z_scope.
Open Scope go_scope.

(** What the adapter of the ledger takes from a signal it accepts. *)
Lemma Normalize_fields signal stream sequence event :
  GitHubAdapter_Normalize signal stream sequence = Ok event ->
  m_Source (sg_Meta signal) = "github" /\ SourceDeliveryID event = m_SourceDeliveryID (sg_Meta signal) /\
  EventKind event = m_SourceEvent (sg_Meta signal) /\ Namespace event = m_Namespace (sg_Meta signal) /\
  PayloadDigest event = "sha256:" ++ sha256_hex (sg_Payload signal).
Proof. unfold GitHubAdapter_Normalize. intros H. open_guards H. split_bools. by simplify_eq. Qed.

Section Wire.
Context `{Environ} (unicode_lower : string -> string).

(** C21: only a signed request becomes work, with the wire in between: when a gateway publishes a signal whose metadata is
    UTF-8 and whose payload nests at most 9,999 levels deep, and the ledger's adapter accepts what a consumer decodes from the
    message, then the route is a GitHub route, the request carried a valid signature of the published body under its secret, the
    event has the delivery id and the event of the request and names the repository of that body, and its digest is that of a
    text which is the same JSON value as the signed body. *)
Theorem only_signed_requests_become_events publish id now r route subject signal data received stream sequence event v :
  fst (handleRoute unicode_lower publish id now r route) = Some (subject, signal) ->
  List.Forall (fun x => ValidString x = true) (meta_strings (sg_Meta signal)) -> json_within 1 (sg_Payload signal) v ->
  Marshal_signal signal = Some data -> Unmarshal_signal data = Some received ->
  GitHubAdapter_Normalize received stream sequence = Ok event ->
  gr_Source route = "github" /\ signed r route (sg_Payload signal) /\
  SourceDeliveryID event = rq_Header r "X-GitHub-Delivery" /\ EventKind event = rq_Header r "X-GitHub-Event" /\
  (exists p, decode_payload (sg_Payload signal) = Some p /\ Namespace event = gy_FullName p) /\
  PayloadDigest event = "sha256:" ++ sha256_hex (compact false (sg_Payload signal)) /\
  parse_json (compact false (sg_Payload signal)) = Some v.
Proof.
  intros (body & a & Hb & [Ha Hi] & -> & ->)%handle_published Hu Hj HM HU HN.
  assert (Hp : payload_text (signal_of id now route a body) = body).
  { unfold payload_text. rewrite bool_decide_eq_false_2; [done|]. cbn [signal_of sg_Payload] in *. intros ->.
    destruct Hj as (x & Hx & _). vm_compute in Hx. done. }
  pose proof (Marshal_text _ _ HM) as [-> Hw]. rewrite Hp in HU. apply compact_reads in Hj. cbn [signal_of sg_Payload] in Hj.
  rewrite (Unmarshal_two _ _ v) in HU; [|by split|done]. injection HU as <-.
  apply Normalize_fields in HN as (N1 & N2 & N3 & N4 & N5).
  cbn [signal_of sg_Meta sg_Payload m_Source m_SourceDeliveryID m_SourceEvent m_Namespace] in *.
  unfold admit_request in Ha. rewrite bool_decide_eq_true_2 in Ha by done.
  destruct (admitGitHub_payload _ r route body a Ha Hi) as (Hs & p & Hq & Hns & He & Hd).
  split_and!; [done|done|congruence|congruence|exists p; split; [done|congruence]|done|by apply (reads_as_parses 1)].
Qed.
End Wire.

(** The webhook of [GatewayFacts], written with white space. *)
Definition wire_body : string :=
  quoted "{ 'action':'labeled', 'repository':{'full_name':'octo/repo'}, 'issue':{'number':7,'updated_at':'2026-07-01T12:30:15Z'},'sender':{'type':'User'} }".
Definition wire_request : Request :=
  mkRequest (fun name =>
    if name == SignatureHeader
    then "sha256=" ++ hex (hmac_sha256 (bytes_of "secret") (bytes_of wire_body))
    else if name == "X-GitHub-Event" then "issues"
    else if name == "X-GitHub-Delivery" then "delivery-1" else "") (Some wire_body).
Abbreviation wire_outcome := (@handleRoute sample_environ id (fun _ _ => true) "signal-1" 0 wire_request sample_route).
Definition wire_value : json :=
  JObj [("action", JStr "labeled"); ("repository", JObj [("full_name", JStr "octo/repo")]);
        ("issue", JObj [("number", JNum "7"); ("updated_at", JStr "2026-07-01T12:30:15Z")]); ("sender", JObj [("type", JStr "User")])].

Lemma wire_payload : json_within 1 wire_body wire_value.
Proof. eexists. split; [vm_compute; reflexivity|reflexivity]. Qed.

Lemma wire_accepted :
  match fst wire_outcome return Prop with
  | Some (subject, signal) =>
      subject = "signals.github.webhook" /\ sg_Payload signal = wire_body /\
      forallb ValidString (meta_strings (sg_Meta signal)) = true /\
      match Marshal_signal signal return Prop with
      | Some data => match Unmarshal_signal data return Prop with
                     | Some received => is_ok (GitHubAdapter_Normalize received "SIGNALS" 7) = true
                     | None => False
                     end
      | None => False
      end
  | None => False
  end.
Proof. vm_compute. auto. Qed.

Lemma only_signed_requests_become_events_witness :
  exists event, SourceDeliveryID event = "delivery-1" /\ @signed sample_environ wire_request sample_route wire_body /\
    PayloadDigest event = "sha256:" ++ sha256_hex (compact false wire_body).
Proof.
  pose proof wire_accepted as F. destruct (fst wire_outcome) as [[subject signal]|] eqn:E; [|contradiction F].
  destruct F as (-> & Ep & Hu & F). destruct (Marshal_signal signal) as [data|] eqn:EM; [|contradiction F].
  destruct (Unmarshal_signal data) as [received|] eqn:EU; [|contradiction F].
  destruct (GitHubAdapter_Normalize received "SIGNALS" 7) as [event| |] eqn:EN; try discriminate F.
  pose proof wire_payload as Hj. rewrite <- Ep in Hj.
  destruct (@only_signed_requests_become_events sample_environ id (fun _ _ => true) "signal-1" 0 wire_request sample_route
              "signals.github.webhook" signal data received "SIGNALS" 7 event wire_value E) as (_ & Hs & Hd & _ & _ & Hg & _).
  - apply List.Forall_forall. intros x Hx. exact (proj1 (List.forallb_forall _ _) Hu x Hx).
  - exact Hj.
  - exact EM.
  - exact EU.
  - exact EN.
  - rewrite Ep in Hs, Hg. exists event. split; [exact Hd|]. split; [exact Hs|exact Hg].
Defined.
