(* ===== verification/PushInv.v ===== *)
(** * The database of the push scanner over time

    Every operation of the store that the scanner or the registry performs is a
    step; what a step keeps holds in every reachable database, and what it only
    advances holds over every continuation. *)

From stdpp Require Import relations.
From S2P Require Import Prelude GoText GoSha256 GoJson LedgerModel Envelope GoTime PushStore.
From Stdlib Require Import Ascii.
Open Scope string_scope.
Open Scope Z_scope.
Open Scope go_scope.

(** ** Steps *)

(** What a scan found: the columns no later operation writes. *)
Definition verdict (r : result_row) : result_row :=
  r <| rr_status := "" |> <| rr_response_last_attempt_at := None |> <| rr_response_attempt_count := 0 |>
    <| rr_halted_at := None |> <| rr_fence_requested_at := None |> <| rr_fenced_at := None |> <| rr_fence_state := "" |>
    <| rr_terminal_at := 0 |> <| rr_slo_breached := false |> <| rr_slo_state := "" |>.

Definition finding_status (severity : string) : string := "finding_" ++ severity.

(** A result without a finding has no event; any other has the event of its
    finding, and only a high one waits for the broker. *)
Definition recordable (r : ScanResult) (event : option SecurityEvent) : Prop :=
  (sr_Severity r = "none" /\ sr_Status r ∈ ["clean"; "rejected_catalog"] /\ event = None)
  \/ (sr_Severity r ∈ ["high"; "low"]
      /\ (sr_Status r = finding_status (sr_Severity r) \/ (sr_Status r = ResponsePending /\ sr_Severity r = "high"))
      /\ exists e, event = Some e /\ sx_EventID e = "push-event-" ++ sr_FindingID r /\ sx_DeliveryID e = sr_DeliveryID r).

(** A completed response, for the result it completes. *)
Definition completion (r : ScanResult) (db : PushDB) : Prop :=
  sr_Status r = finding_status (sr_Severity r)
  /\ exists row, find_result (sr_DeliveryID r) db = Some row /\ rr_severity row = sr_Severity r.

Inductive push_step (db : PushDB) : PushDB -> Prop :=
  | step_receipt i t : push_step db (fst (RecordReceipt i t db))
  | step_result r event :
      find_receipt (sr_DeliveryID r) db <> None -> recordable r event -> push_step db (fst (RecordResult r event db))
  | step_attempt id t : push_step db (fst (RecordResponseAttempt id t db))
  | step_complete r : completion r db -> push_step db (fst (CompleteResponse r db))
  | step_overdue t : push_step db (MarkOverdueResponses t db)
  | step_published id t : push_step db (fst (MarkEventPublished id t db))
  | step_register fingerprint r : push_step db (fst (RegisterFingerprint fingerprint r db))
  | step_transition id state : push_step db (fst (TransitionFingerprintState id state db))
  | step_prune t : push_step db (PruneFingerprints t db).

Abbreviation push_steps := (rtc push_step).

(** ** What steps advance *)

(** The status moves once, when the broker has responded. *)
Definition result_le (r r' : result_row) : Prop :=
  verdict r' = verdict r
  /\ (rr_status r' = rr_status r \/ (pending r = true /\ rr_status r' = finding_status (rr_severity r))).

Definition event_le (e e' : event_out_row) : Prop :=
  pe_event_id e' = pe_event_id e /\ pe_delivery_id e' = pe_delivery_id e /\ pe_payload_json e' = pe_payload_json e
  /\ (pe_published_at e <> None -> pe_published_at e' = pe_published_at e).

Definition find_event (id : string) (db : PushDB) : option event_out_row :=
  first_where (fun e => pe_event_id e == id) (push_events db).

(** Receipts stay, results keep their verdict, events stay in the outbox. *)
Record push_le (db db' : PushDB) : Prop := mkPushLe {
  le_receipt : forall id r, find_receipt id db = Some r -> find_receipt id db' = Some r;
  le_result : forall id r, find_result id db = Some r -> exists r', find_result id db' = Some r' /\ result_le r r';
  le_event : forall id e, find_event id db = Some e -> exists e', find_event id db' = Some e' /\ event_le e e' }.

Lemma result_le_refl r : result_le r r.
Proof. split; auto. Qed.
Lemma event_le_refl e : event_le e e.
Proof. repeat split; auto. Qed.
#[export] Hint Resolve result_le_refl event_le_refl : core.

Lemma verdict_severity r r' : verdict r' = verdict r -> rr_severity r' = rr_severity r.
Proof. intros H. exact (f_equal rr_severity H). Qed.

Lemma result_le_trans r1 r2 r3 : result_le r1 r2 -> result_le r2 r3 -> result_le r1 r3.
Proof.
  intros [V1 S1] [V2 S2]. split; [congruence|]. apply verdict_severity in V1.
  destruct S1 as [S1|[P1 S1]], S2 as [S2|[P2 S2]].
  - left. congruence.
  - right. unfold pending in *. rewrite <- S1. split; [done|congruence].
  - right. split; [done|congruence].
  - right. split; [done|congruence].
Qed.

Lemma event_le_trans e1 e2 e3 : event_le e1 e2 -> event_le e2 e3 -> event_le e1 e3.
Proof.
  intros (A1 & A2 & A3 & A4) (B1 & B2 & B3 & B4). repeat split; [congruence..|]. intros H. rewrite B4; [by apply A4|]. by rewrite A4.
Qed.

#[export] Instance push_le_preorder : PreOrder push_le.
Proof.
  split.
  - intros db. constructor; eauto.
  - intros db1 db2 db3 [R1 S1 E1] [R2 S2 E2]. constructor; [eauto| |].
    + intros id r H. apply S1 in H as (r' & H & L). apply S2 in H as (r'' & H & L'). eauto using result_le_trans.
    + intros id e H. apply E1 in H as (e' & H & L). apply E2 in H as (e'' & H & L'). eauto using event_le_trans.
Qed.

(** Rows updated in place keep their order. *)
Lemma first_where_update {R} (key : R -> string) (p : R -> bool) (f : R -> R) t id r :
  (forall x, key (f x) = key x) -> first_where (fun x => key x == id) t = Some r ->
  first_where (fun x => key x == id) (update_where p f t) = Some (if p r then f r else r).
Proof.
  intros Hk. induction t as [|x t IH]; [done|].
  change (update_where p f (x :: t)) with ((if p x then f x else x) :: update_where p f t). cbn [first_where].
  assert (E : key (if p x then f x else x) = key x) by (destruct (p x); auto). rewrite E.
  destruct (key x == id); [by intros [= ->]|apply IH].
Qed.

Lemma first_where_still {R} (p : R -> bool) t x r : first_where p t = Some r -> first_where p (t ++ [x]) = Some r.
Proof. induction t as [|y t IH]; [done|]. cbn. destruct (p y); auto. Qed.

(** An update of results that keeps the verdict. *)
Lemma update_results_le p f db :
  (forall r, rr_delivery_id (f r) = rr_delivery_id r) -> (forall id r, find_result id db = Some r -> p r = true -> result_le r (f r)) ->
  push_le db (db <| push_results ::= update_where p f |>).
Proof.
  intros Hk Hf. constructor; cbn; [by eauto| |by eauto].
  intros id r H. exists (if p r then f r else r). split; [by apply (first_where_update rr_delivery_id)|].
  destruct (p r) eqn:E; eauto.
Qed.

Lemma RecordReceipt_le i t db : push_le db (fst (RecordReceipt i t db)).
Proof.
  unfold RecordReceipt. destruct (2 ^ 63 <=? _); [done|].
  destruct (find_receipt (pi_DeliveryID i) db) as [r|]; [by destruct (same_push r i)|].
  constructor; cbn; eauto using first_where_still.
Qed.

Lemma insert_result_le r db : push_le db (insert_result r db).
Proof.
  unfold insert_result. destruct (find_result _ db); [done|]. constructor; cbn; [by eauto| |by eauto].
  intros id x H. exists x. split; [by apply first_where_still|done].
Qed.

Lemma insert_event_le id d p db : push_le db (insert_event_out id d p db).
Proof.
  unfold insert_event_out. destruct (exists_where _ _); [done|]. constructor; cbn; [by eauto..|].
  intros x e H. exists e. split; [by apply first_where_still|done].
Qed.

Lemma RecordResult_le r event db : push_le db (fst (RecordResult r event db)).
Proof.
  unfold RecordResult. apply transact_preserves; [done|]. intros u db' H. destruct event as [e|].
  - apply bind_ok in H as (payload & _ & [= _ <-]). etrans; [apply insert_result_le|apply insert_event_le].
  - injection H as _ <-. apply insert_result_le.
Qed.

Lemma RegisterFingerprint_results fp r db :
  push_receipts (fst (RegisterFingerprint fp r db)) = push_receipts db
  /\ push_results (fst (RegisterFingerprint fp r db)) = push_results db
  /\ push_events (fst (RegisterFingerprint fp r db)) = push_events db.
Proof. unfold RegisterFingerprint. destruct (registration_incomplete fp r); [done|]. destruct (_ == []); [done|]. by destruct (_ && _). Qed.

Lemma TransitionFingerprint_results id st db :
  push_receipts (fst (TransitionFingerprintState id st db)) = push_receipts db
  /\ push_results (fst (TransitionFingerprintState id st db)) = push_results db
  /\ push_events (fst (TransitionFingerprintState id st db)) = push_events db.
Proof. unfold TransitionFingerprintState. destruct (_ || _); [done|]. by destruct (_ =? 1). Qed.

Lemma same_tables_le db db' :
  push_receipts db' = push_receipts db /\ push_results db' = push_results db /\ push_events db' = push_events db -> push_le db db'.
Proof.
  intros (H1 & H2 & H3). constructor; unfold find_receipt, find_result, find_event; rewrite ?H1, ?H2, ?H3; eauto.
Qed.

Lemma MarkEventPublished_db id t db :
  fst (MarkEventPublished id t db)
  = db <| push_events ::= update_where (fun e => (pe_event_id e == id) && unpublished e) (fun e => e <| pe_published_at := Some (UnixMilli t) |>) |>.
Proof. unfold MarkEventPublished. by destruct (exists_where _ _). Qed.

Lemma published_le id t e :
  event_le e (if (pe_event_id e == id) && unpublished e then e <| pe_published_at := Some (UnixMilli t) |> else e).
Proof.
  destruct (_ && _) eqn:E; [|done]. apply andb_true_iff in E as [_ E]. apply bool_decide_eq_true in E.
  repeat split; auto. intros H. by destruct H.
Qed.

Lemma push_step_le db db' : push_step db db' -> push_le db db'.
Proof.
  destruct 1 as [i t|r event _ _|id t|r [Hs (row & Hrow & Hsev)]|t|id t|fp r|id st|t].
  - apply RecordReceipt_le.
  - apply RecordResult_le.
  - apply update_results_le; [done|]. intros; split; auto.
  - apply update_results_le; [done|]. intros id x Hx Hp. unfold pending_for in Hp. apply andb_true_iff in Hp as [Hid Hp].
    apply bool_decide_eq_true in Hid. assert (x = row) as ->.
    { assert (Hk : rr_delivery_id x = id) by (apply first_where_Some in Hx as [_ Hk]; by apply bool_decide_eq_true in Hk).
      rewrite <- Hk, Hid in Hx. congruence. }
    split; [done|]. right. split; [done|]. cbn. by rewrite Hsev.
  - apply update_results_le; [done|]. intros; split; auto.
  - rewrite MarkEventPublished_db. constructor; cbn; [by eauto..|]. intros x e H.
    eexists. split; [by apply (first_where_update pe_event_id)|]. apply published_le.
  - apply same_tables_le, RegisterFingerprint_results.
  - apply same_tables_le, TransitionFingerprint_results.
  - by apply same_tables_le.
Qed.

Lemma push_steps_le db db' : push_steps db db' -> push_le db db'.
Proof. induction 1 as [|db1 db2 db3 H _ IH]; [done|]. etrans; [by apply push_step_le|done]. Qed.

(** ** What every reachable database keeps *)

(** A result has its receipt, and a finding has its alert in the outbox. *)
Definition accounted (db : PushDB) (r : result_row) : Prop :=
  find_receipt (rr_delivery_id r) db <> None
  /\ ((rr_severity r = "none" /\ rr_status r ∈ ["clean"; "rejected_catalog"])
      \/ (rr_severity r ∈ ["high"; "low"]
          /\ (rr_status r = finding_status (rr_severity r) \/ (rr_status r = ResponsePending /\ rr_severity r = "high"))
          /\ find_event ("push-event-" ++ rr_finding_id r) db <> None)).

Record push_inv (db : PushDB) : Prop := mkPushInv {
  inv_receipts : NoDup (map rp_delivery_id (push_receipts db));
  inv_results : NoDup (map rr_delivery_id (push_results db));
  inv_events : NoDup (map pe_event_id (push_events db));
  inv_fingerprint_ids : NoDup (map fp_fingerprint_id (push_fingerprints db));
  inv_fingerprints : NoDup (map fp_fingerprint (push_fingerprints db));
  inv_accounted : forall r, r ∈ push_results db -> accounted db r }.

Lemma accounted_le db db' r r' : push_le db db' -> result_le r r' -> accounted db r -> accounted db' r'.
Proof.
  intros HL [HV HS] [Hr H].
  assert (E1 : rr_delivery_id r' = rr_delivery_id r) by exact (f_equal rr_delivery_id HV).
  assert (E2 : rr_severity r' = rr_severity r) by exact (f_equal rr_severity HV).
  assert (E3 : rr_finding_id r' = rr_finding_id r) by exact (f_equal rr_finding_id HV).
  split.
  - rewrite E1. destruct (find_receipt (rr_delivery_id r) db) eqn:E; [|done]. by rewrite (le_receipt _ _ HL _ _ E).
  - rewrite E2, E3. destruct H as [[Hn Hst]|(Hs & Hst & He)].
    + left. split; [done|]. destruct HS as [->|[Hp _]]; [done|]. unfold pending in Hp. apply bool_decide_eq_true in Hp.
      rewrite Hp in Hst. unfold ResponsePending in Hst. set_solver.
    + right. split; [done|]. split.
      * destruct HS as [->|[_ HS]]; [done|by left].
      * destruct (find_event _ db) as [e|] eqn:E; [|done]. apply (le_event _ _ HL) in E as (e' & -> & _). done.
Qed.

Lemma push_inv_empty : push_inv empty_push.
Proof. constructor; [apply base.NoDup_nil_2..|]. intros r H. by apply not_elem_of_nil in H. Qed.

(** The results of a step come from the results before it. *)
Lemma push_inv_results db db' :
  push_inv db -> push_le db db' ->
  NoDup (map rp_delivery_id (push_receipts db')) -> NoDup (map rr_delivery_id (push_results db')) ->
  NoDup (map pe_event_id (push_events db')) -> NoDup (map fp_fingerprint_id (push_fingerprints db')) ->
  NoDup (map fp_fingerprint (push_fingerprints db')) ->
  (forall r', r' ∈ push_results db' -> (exists r, r ∈ push_results db /\ result_le r r') \/ accounted db' r') -> push_inv db'.
Proof.
  intros HI HL H1 H2 H3 H4 H5 H6. constructor; [done..|]. intros r' Hr'. destruct (H6 r' Hr') as [(r & Hr & Hle)|H]; [|done].
  eapply accounted_le; [done..|]. by apply (inv_accounted _ HI).
Qed.

Lemma push_inv_receipt db i t : push_inv db -> push_inv (fst (RecordReceipt i t db)).
Proof.
  intros HI. pose proof (RecordReceipt_le i t db) as HL. revert HL. unfold RecordReceipt. destruct (2 ^ 63 <=? _); [done|].
  destruct (find_receipt (pi_DeliveryID i) db) as [r|] eqn:E; [by destruct (same_push r i)|]. intros HL.
  apply (push_inv_results db); cbn; first [done | apply HI | by eauto | idtac].
  apply NoDup_snoc_key; [apply HI|]. intros x Hx Hk. pose proof (proj1 (first_where_None _ _) E x Hx) as Hno.
  cbn beta in Hno. by apply bool_decide_eq_false in Hno.
Qed.

Lemma push_inv_update db p f :
  push_inv db -> (forall r, rr_delivery_id (f r) = rr_delivery_id r) ->
  (forall r, r ∈ push_results db -> p r = true -> result_le r (f r)) -> push_inv (db <| push_results ::= update_where p f |>).
Proof.
  intros HI Hk Hf. assert (HL : push_le db (db <| push_results ::= update_where p f |>)).
  { apply update_results_le; [done|]. intros id r Hr Hp. apply first_where_Some in Hr as [Hr _]. auto. }
  apply (push_inv_results db); cbn; first [done | apply HI | idtac].
  - apply NoDup_update_where; [done|apply HI].
  - intros r' Hr'. apply update_where_spec in Hr' as (r & Hr & ->). left. exists r. split; [done|]. destruct (p r) eqn:E; auto.
Qed.

Lemma push_inv_fingerprints db db' :
  push_inv db -> push_receipts db' = push_receipts db /\ push_results db' = push_results db /\ push_events db' = push_events db ->
  NoDup (map fp_fingerprint_id (push_fingerprints db')) -> NoDup (map fp_fingerprint (push_fingerprints db')) -> push_inv db'.
Proof.
  intros HI H H1 H2. pose proof (same_tables_le _ _ H) as HL. destruct H as (E1 & E2 & E3).
  apply (push_inv_results db); rewrite ?E1, ?E2, ?E3; first [done | apply HI | by eauto].
Qed.

Lemma find_fresh {R} (key : R -> string) id t :
  first_where (fun x => key x == id) t = None -> forall x, x ∈ t -> key x <> id.
Proof. intros E x Hx. pose proof (proj1 (first_where_None _ _) E x Hx) as Hno. cbn beta in Hno. by apply bool_decide_eq_false in Hno. Qed.

Lemma insert_result_rows r db x :
  x ∈ push_results (insert_result r db) -> x ∈ push_results db \/ x = new_result_row r.
Proof. unfold insert_result. destruct (find_result _ db); [by left|]. cbn. intros [H|H%list_elem_of_singleton]%elem_of_app; auto. Qed.

Lemma insert_result_NoDup r db :
  NoDup (map rr_delivery_id (push_results db)) -> NoDup (map rr_delivery_id (push_results (insert_result r db))).
Proof.
  intros H. unfold insert_result. destruct (find_result _ db) eqn:E; [done|]. cbn. apply NoDup_snoc_key; [done|].
  by apply (find_fresh rr_delivery_id).
Qed.

Lemma insert_event_NoDup id d p db :
  NoDup (map pe_event_id (push_events db)) -> NoDup (map pe_event_id (push_events (insert_event_out id d p db))).
Proof.
  intros H. unfold insert_event_out. destruct (exists_where _ _) eqn:E; [done|]. cbn. apply NoDup_snoc_key; [done|].
  intros x Hx Hk. apply (exists_where_false _ _) with (r := x) in E; [|done]. cbn beta in E. by apply bool_decide_eq_false in E.
Qed.

Lemma insert_event_found id d p db : find_event id (insert_event_out id d p db) <> None.
Proof.
  unfold find_event. intros H. unfold insert_event_out in H. destruct (exists_where _ _) eqn:E.
  - apply first_where_is_Some in E. rewrite H in E. by destruct E.
  - cbn in H. apply (find_fresh pe_event_id) with (x := mkEventOutRow id d p None) in H; [done|]. set_solver.
Qed.

(** The rows of a committed result. *)
Definition recorded (r : ScanResult) (event : option SecurityEvent) (db db' : PushDB) : Prop :=
  match event with
  | None => db' = insert_result r db
  | Some e => exists payload, Marshal_event e = Some payload
                /\ db' = insert_event_out (sx_EventID e) (sx_DeliveryID e) payload (insert_result r db)
  end.

Lemma RecordResult_ok r event db db' u : RecordResult r event db = (db', Ok u) -> recorded r event db db'.
Proof.
  unfold RecordResult. rewrite transact_ok. intros H. destruct event as [e|]; cbn in *.
  - apply bind_ok in H as (payload & Hp & [= _ <-]). exists payload. split; [|done]. by destruct (Marshal_event e) as [x|]; [injection Hp as ->|].
  - by injection H as _ <-.
Qed.

Lemma RecordResult_fail r event db : is_ok (snd (RecordResult r event db)) = false -> fst (RecordResult r event db) = db.
Proof. apply transact_fail. Qed.

Lemma new_row_accounted r event db db' :
  find_receipt (sr_DeliveryID r) db <> None -> recordable r event -> recorded r event db db' -> push_le db db' ->
  accounted db' (new_result_row r).
Proof.
  intros Hr Hrec Hdb HL. split.
  - cbn. destruct (find_receipt (sr_DeliveryID r) db) eqn:E; [|done]. by rewrite (le_receipt _ _ HL _ _ E).
  - destruct Hrec as [(H1 & H2 & _)|(H1 & H2 & e & -> & He & _)]; [by left|]. right. split; [done|]. split; [done|].
    destruct Hdb as (payload & _ & ->). cbn [new_result_row rr_finding_id]. rewrite <- He. apply insert_event_found.
Qed.

Lemma insert_tables r id d p db :
  push_receipts (insert_result r db) = push_receipts db /\ push_fingerprints (insert_result r db) = push_fingerprints db
  /\ push_events (insert_result r db) = push_events db
  /\ push_receipts (insert_event_out id d p db) = push_receipts db
  /\ push_fingerprints (insert_event_out id d p db) = push_fingerprints db
  /\ push_results (insert_event_out id d p db) = push_results db.
Proof. unfold insert_result, insert_event_out. destruct (find_result _ db), (exists_where _ _); done. Qed.

Lemma push_inv_record db r event :
  push_inv db -> find_receipt (sr_DeliveryID r) db <> None -> recordable r event -> push_inv (fst (RecordResult r event db)).
Proof.
  intros HI Hr Hrec. pose proof (RecordResult_le r event db) as HL.
  pose proof (RecordResult_fail r event db) as Hfail.
  destruct (RecordResult r event db) as [db' o] eqn:E. cbn [fst snd] in *.
  destruct o as [u|e|]; [|by rewrite Hfail|by rewrite Hfail].
  apply RecordResult_ok in E. pose proof (new_row_accounted _ _ _ _ Hr Hrec E HL) as Hnew.
  destruct event as [e|]; [destruct E as (payload & _ & ->)|unfold recorded in E; subst db'].
  - destruct (insert_tables r (sx_EventID e) (sx_DeliveryID e) payload (insert_result r db)) as (T1 & T2 & T3 & T4 & T5 & T6).
    destruct (insert_tables r (sx_EventID e) (sx_DeliveryID e) payload db) as (U1 & U2 & U3 & _).
    apply (push_inv_results db); [done|done|..]; rewrite ?T4, ?T5, ?T6, ?U1, ?U2; try apply HI.
    + apply insert_result_NoDup, HI.
    + apply insert_event_NoDup. rewrite U3. apply HI.
    + intros x [Hx| ->]%insert_result_rows; [left; eauto|by right].
  - destruct (insert_tables r "" "" "" db) as (U1 & U2 & U3 & _).
    apply (push_inv_results db); [done|done|..]; rewrite ?U1, ?U2, ?U3; try apply HI.
    + apply insert_result_NoDup, HI.
    + intros x [Hx| ->]%insert_result_rows; [left; eauto|by right].
Qed.

Lemma register_NoDup fp r db :
  push_inv db -> NoDup (map fp_fingerprint_id (push_fingerprints (fst (RegisterFingerprint fp r db))))
                 /\ NoDup (map fp_fingerprint (push_fingerprints (fst (RegisterFingerprint fp r db)))).
Proof.
  intros HI. unfold RegisterFingerprint. destruct (registration_incomplete fp r); [split; apply HI|].
  destruct (_ == []) eqn:E; [|destruct (_ && _); split; apply HI]. apply bool_decide_eq_true in E.
  assert (Hno : forall x, x ∈ push_fingerprints db -> fp_fingerprint_id x <> fr_FingerprintID r /\ fp_fingerprint x <> fp).
  { intros x Hx. destruct (decide (fp_fingerprint_id x = fr_FingerprintID r \/ fp_fingerprint x = fp)) as [H|H]; [|tauto].
    destruct (not_elem_of_nil x). rewrite <- E. apply rows_where_spec. split; [done|].
    apply orb_true_iff. destruct H; [left|right]; by apply bool_decide_eq_true. }
  split; cbn; apply NoDup_snoc_key; try apply HI; intros x Hx; apply Hno in Hx as [? ?]; done.
Qed.

Lemma transition_NoDup id st db :
  push_inv db -> NoDup (map fp_fingerprint_id (push_fingerprints (fst (TransitionFingerprintState id st db))))
                 /\ NoDup (map fp_fingerprint (push_fingerprints (fst (TransitionFingerprintState id st db)))).
Proof.
  intros HI. unfold TransitionFingerprintState. destruct (_ || _); [split; apply HI|].
  destruct (_ =? 1); split; cbn; apply NoDup_update_where; try done; apply HI.
Qed.

Lemma push_step_inv db db' : push_step db db' -> push_inv db -> push_inv db'.
Proof.
  intros Hs HI. destruct Hs as [i t|r event Hr Hrec|id t|r [Hst (row & Hrow & Hsev)]|t|id t|fp r|id st|t].
  - by apply push_inv_receipt.
  - by apply push_inv_record.
  - apply push_inv_update; [done..|]. split; auto.
  - apply push_inv_update; [done..|]. intros x Hx Hp. unfold pending_for in Hp. apply andb_true_iff in Hp as [Hid Hp].
    apply bool_decide_eq_true in Hid. assert (x = row) as ->.
    { apply first_where_Some in Hrow as [Hrow Hk]. apply bool_decide_eq_true in Hk.
      apply (key_unique rr_delivery_id (push_results db)); [apply HI|done|done|congruence]. }
    split; [done|]. right. split; [done|]. cbn. by rewrite Hsev.
  - apply push_inv_update; [done..|]. split; auto.
  - pose proof (push_step_le _ _ (step_published db id t)) as HL. rewrite MarkEventPublished_db in *.
    apply (push_inv_results db); cbn; first [done | apply HI | by eauto | idtac]. apply NoDup_update_where; [done|apply HI].
  - destruct (register_NoDup fp r db HI) as [H1 H2]. by apply (push_inv_fingerprints db); [|apply RegisterFingerprint_results|..].
  - destruct (transition_NoDup id st db HI) as [H1 H2]. by apply (push_inv_fingerprints db); [|apply TransitionFingerprint_results|..].
  - apply (push_inv_fingerprints db); [done|done|..]; apply NoDup_delete_where, HI.
Qed.

Lemma push_steps_inv db db' : push_steps db db' -> push_inv db -> push_inv db'.
Proof. induction 1 as [|db1 db2 db3 H _ IH]; [done|]. intros HI. apply IH. by apply (push_step_inv db1). Qed.
