(* ===== verification/PushRegistry.v ===== *)
(** * What the registry of fingerprints guarantees *)

From stdpp Require Import gmap.
From S2P Require Import Prelude GoText GoSha256 GoJson GoNet GoCodec LedgerModel Envelope GoTime PushStore PushScan PushWire PushInv.
From Stdlib Require Import Ascii.
Open Scope string_scope.
Open Scope Z_scope.
Open Scope go_scope.

(** A state only advances. *)
Definition state_le (from to : string) : Prop :=
  to = from \/ (from ∈ ["active"; "expired"] /\ to ∈ ["expired"; "revoked"]).

(** The same token, with a state that has advanced. *)
Definition fingerprint_le (x y : fingerprint_row) : Prop :=
  y = x <| fp_state := fp_state y |> /\ state_le (fp_state x) (fp_state y).

Lemma fingerprint_le_refl x : fingerprint_le x x.
Proof. split; [by destruct x|by left]. Qed.

(** A registration: complete, and kept at least until it expires. *)
Definition registered (x : fingerprint_row) : Prop :=
  Z.of_nat (length (fp_fingerprint x)) = 32 /\ fp_fingerprint_id x <> "" /\ fp_worker_id x <> ""
  /\ fp_issued_at x <= fp_expires_at x <= fp_retained_until x /\ fp_state x ∈ ["active"; "expired"; "revoked"].

Lemma registration_registered fp r : registration_incomplete fp r = false -> registered (registration_row fp r).
Proof.
  unfold registration_incomplete. intros H.
  apply orb_false_iff in H as [[[[[[H1 H2]%orb_false_iff _]%orb_false_iff _]%orb_false_iff H5]%orb_false_iff H6]%orb_false_iff H7].
  assert (Hne : forall x, x ∈ [fr_FingerprintID r; fr_Profile r; fr_LogicalSessionID r; fr_SessionLineageID r; fr_WorkerID r;
                               fr_WorkerStorageLineage r] -> x <> "").
  { intros x Hx E. rewrite <- not_true_iff_false in H2. apply H2, existsb_exists. exists x. rewrite <- list_elem_of_In.
    split; [done|by apply bool_decide_eq_true]. }
  unfold registered. cbn. split_and!; [lia|apply Hne; set_solver|apply Hne; set_solver|apply UnixMilli_mono; lia|apply UnixMilli_mono; lia|].
  destruct (fr_State r != "active") eqn:A1, (fr_State r != "expired") eqn:A2, (fr_State r != "revoked") eqn:A3; try done;
    rewrite ?negb_false_iff, ?bool_decide_eq_true in *; set_solver.
Qed.

Lemma register_rows fp r db :
  let '(db', o) := RegisterFingerprint fp r db in
  (db' = db \/ (is_ok o = true /\ registered (registration_row fp r)
                /\ push_fingerprints db' = (push_fingerprints db ++ [registration_row fp r])%list))
  /\ (is_ok o = true -> RegisterFingerprint fp r db' = (db', Ok tt)).
Proof.
  unfold RegisterFingerprint. destruct (registration_incomplete fp r) eqn:E; [by split; [left|]|].
  destruct (_ == []) eqn:E1.
  - split; [right; split; [done|split; [by apply registration_registered|done]]|]. intros _. cbn.
    apply bool_decide_eq_true in E1. unfold rows_where in *. rewrite filter_app, E1. cbn.
    rewrite (bool_decide_eq_true_2 (fr_FingerprintID r = fr_FingerprintID r)) by done. cbn.
    rewrite (bool_decide_eq_true_2 (registration_row fp r = registration_row fp r)) by done. done.
  - destruct (_ && _) eqn:E2; (split; [by left|]); [|done]. intros _. by rewrite E1, E2.
Qed.

Lemma transition_rows id st db :
  push_inv db ->
  let '(db', o) := TransitionFingerprintState id st db in
  (is_ok o = false -> db' = db)
  /\ (forall y, y ∈ push_fingerprints db' -> exists x, x ∈ push_fingerprints db /\ fingerprint_le x y)
  /\ (forall x, x ∈ push_fingerprints db -> exists y, y ∈ push_fingerprints db' /\ fingerprint_le x y).
Proof.
  intros HI. unfold TransitionFingerprintState. destruct (_ || _) eqn:Eg.
  { split; [done|]. split; eauto using fingerprint_le_refl. }
  apply orb_false_iff in Eg as [Hid Hst].
  assert (Hst' : st ∈ ["expired"; "revoked"]).
  { destruct (st != "expired") eqn:A1, (st != "revoked") eqn:A2; try done; rewrite ?negb_false_iff, ?bool_decide_eq_true in *; set_solver. }
  set (p := fun x => (fp_fingerprint_id x == id) && transition_allowed st (fp_state x)).
  assert (Hle : forall x, fingerprint_le x (if p x then x <| fp_state := st |> else x)).
  { intros x. destruct (p x) eqn:Ep; [|apply fingerprint_le_refl]. unfold p in Ep. apply andb_true_iff in Ep as [_ Ep].
    split; [done|]. cbn. unfold transition_allowed in Ep. apply orb_true_iff in Ep as [Ep|Ep].
    - right. split; [|done]. apply orb_true_iff in Ep as [Ep|Ep]; apply bool_decide_eq_true in Ep; set_solver.
    - apply andb_true_iff in Ep as [E1 E2]. apply bool_decide_eq_true in E1, E2. left. congruence. }
  assert (Hrows :
    (forall y, y ∈ update_where p (fun x => x <| fp_state := st |>) (push_fingerprints db) ->
               exists x, x ∈ push_fingerprints db /\ fingerprint_le x y)
    /\ (forall x, x ∈ push_fingerprints db ->
               exists y, y ∈ update_where p (fun x => x <| fp_state := st |>) (push_fingerprints db) /\ fingerprint_le x y)).
  { split.
    - intros y Hy. apply update_where_spec in Hy as (x & Hx & ->). eauto.
    - intros x Hx. eexists. split; [apply update_where_spec; by eauto|done]. }
  destruct (count_where p (push_fingerprints db) =? 1) eqn:Ec; (split; [|exact Hrows]); [done|]. intros _.
  cbn. rewrite update_where_id; [by destruct db|]. intros x Hx. destruct (p x) eqn:Ep; [|done]. exfalso.
  assert (Hc : count_where p (push_fingerprints db) = 1); [|lia].
  apply (count_where_key fp_fingerprint_id p id _ x); [apply HI|done|done|].
  intros y Hy. unfold p in Hy. apply andb_true_iff in Hy as [Hy _]. by apply bool_decide_eq_true in Hy.
Qed.

(** What a request may do to the fingerprints. *)
Definition guarded (h : RegistryHandler) (route : registry_route) (call : registry_call) (db db' : PushDB) (status : Z) : Prop :=
  (push_receipts db' = push_receipts db /\ push_results db' = push_results db /\ push_events db' = push_events db)
  /\ (status ∉ [200; 201] -> db' = db)
  /\ (registry_authorized h call = false -> db' = db /\ (route <> GetHealth -> route <> GetReady -> status = 401))
  /\ (forall x, x ∈ push_fingerprints db -> exists y, y ∈ push_fingerprints db' /\ fingerprint_le x y)
  /\ (forall y, y ∈ push_fingerprints db' -> registered y \/ exists x, x ∈ push_fingerprints db /\ fingerprint_le x y).

Lemma guarded_same h route call db status :
  (registry_authorized h call = false -> route <> GetHealth -> route <> GetReady -> status = 401) -> guarded h route call db db status.
Proof. intros H. split; [done|]. split; [done|]. split; [by auto|]. split; eauto using fingerprint_le_refl. Qed.

Lemma register_guarded h call db :
  let '(db', (status, text)) := registry_register h call db in
  guarded h PostFingerprints call db db' status /\ (status = 201 -> registry_register h call db' = (db', (status, text))).
Proof.
  unfold registry_register. destruct (registry_authorized h call) eqn:Ea; cbn [negb]; [|by split; [apply guarded_same|]].
  assert (Hbad : forall status, status <> 201 -> guarded h PostFingerprints call db db status) by (intros; apply guarded_same; congruence).
  destruct (decodeRegistryRequest decode_registry call) as [input|]; [|by split; [apply Hbad|]].
  destruct (_ || _); [by split; [apply Hbad|]|]. destruct (StdStrict _) as [digest|]; [|by split; [apply Hbad|]].
  pose proof (register_rows (bytes_of digest) (registration_of h input) db) as H.
  pose proof (RegisterFingerprint_results (bytes_of digest) (registration_of h input) db) as Ht.
  destruct (RegisterFingerprint _ _ db) as [db' o]. cbn [fst] in Ht. destruct H as [Hrows Hagain].
  destruct o as [[]|e|].
  - split; [|intros _; by rewrite Hagain]. split; [done|]. split; [set_solver|]. split; [congruence|].
    destruct Hrows as [->|(_ & Hreg & ->)]; [split; eauto using fingerprint_le_refl|]. split.
    + intros x Hx. exists x. split; [set_solver|apply fingerprint_le_refl].
    + intros y [Hy|Hy%list_elem_of_singleton]%elem_of_app; [right; eauto using fingerprint_le_refl|by left; subst].
  - destruct Hrows as [->|(? & _)]; [|done]. destruct (e == _); by split; [apply Hbad|].
  - destruct Hrows as [->|(? & _)]; [|done]. by split; [apply Hbad|].
Qed.

Lemma transition_guarded h id call db :
  push_inv db -> let '(db', (status, text)) := registry_transition h id call db in guarded h (PostFingerprintState id) call db db' status.
Proof.
  intros HI. unfold registry_transition. destruct (registry_authorized h call) eqn:Ea; cbn [negb]; [|by apply guarded_same].
  assert (Hbad : forall status, guarded h (PostFingerprintState id) call db db status) by (intros; apply guarded_same; congruence).
  destruct (negb _); [apply Hbad|]. destruct (decodeRegistryRequest decode_state call) as [state|]; [|apply Hbad].
  destruct (_ && _); [apply Hbad|]. pose proof (transition_rows id state db HI) as H.
  pose proof (TransitionFingerprint_results id state db) as Ht.
  destruct (TransitionFingerprintState id state db) as [db' o]. cbn [fst] in Ht. destruct H as (Hfail & H1 & H2).
  destruct o as [u|e|]; [|by rewrite Hfail..].
  split; [done|]. split; [set_solver|]. split; [congruence|]. split; [done|]. intros y Hy. right. auto.
Qed.

(** C36: A request to the registry changes only fingerprints, and only when it is answered with success;
    without the holder's token the two writing routes answer 401.  Every token known before is still known, with a state
    that only advances from active to expired to revoked, and a new one is complete and retained until it
    expires.  A registration that succeeded is answered in the same way again, and changes nothing. *)
Theorem registry_guards_fingerprints h ready route call db :
  push_inv db ->
  let '(db', (status, text)) := Registry_Handler h ready route call db in
  guarded h route call db db' status
  /\ (route = PostFingerprints -> status = 201 -> Registry_Handler h ready route call db' = (db', (status, text))).
Proof.
  intros HI. destruct route as [| | |id]; cbn [Registry_Handler].
  - by split; [apply guarded_same|].
  - destruct ready; by split; [apply guarded_same|].
  - pose proof (register_guarded h call db) as H. destruct (registry_register h call db) as [db' [status text]]. naive_solver.
  - pose proof (transition_guarded h id call db HI) as H. by destruct (registry_transition h id call db) as [db' [status text]].
Qed.

(** A registration of a token by its holder. *)
Definition sample_handler : RegistryHandler := mkRegistryHandler "holder-token" (24 * Hour).
Definition sample_call : registry_call :=
  mkRegistryCall "Bearer holder-token"
    (quoted "{'fingerprint':'AAAAAAAAAAAAAAAAAAAAAAAAAAAAAAAAAAAAAAAAAAA=','fingerprint_id':'fp-1','profile':'p','logical_session_id':'ls','session_lineage_id':'sl','worker_id':'w','worker_storage_lineage_id':'wl','worker_fence_epoch':1,'profile_generation':2,'issued_at':'2026-07-01T00:00:00Z','expires_at':'2026-07-01T01:00:00Z','state':'active'} ")
    None.

Lemma registry_guards_fingerprints_witness :
  snd (Registry_Handler sample_handler true PostFingerprints sample_call empty_push) = (201, "registered")
  /\ let '(db', (status, text)) := Registry_Handler sample_handler true PostFingerprints sample_call empty_push in
     guarded sample_handler PostFingerprints sample_call empty_push db' status
     /\ (PostFingerprints = PostFingerprints -> status = 201 ->
         Registry_Handler sample_handler true PostFingerprints sample_call db' = (db', (status, text))).
Proof.
  split; [vm_compute; reflexivity|].
  exact (registry_guards_fingerprints sample_handler true PostFingerprints sample_call empty_push push_inv_empty).
Defined.
