(* ===== verification/PushOutbox.v ===== *)
(** * The outbox of the push scanner

    What is recorded with a finding is what the sink is given, once it accepts it. *)

From stdpp Require Import gmap relations.
From S2P Require Import Prelude GoText GoSha256 GoJson GoCodec LedgerModel Envelope GoTime PushStore PushScan RawJsonFacts PushStoreFacts PushInv.
From Stdlib Require Import Ascii.
Open Scope string_scope.
Open Scope Z_scope.
Open Scope go_scope.

(** ** Events at rest *)

(** The row holds the encoding of the event. *)
Definition holds_event (row : event_out_row) (e : SecurityEvent) : Prop :=
  event_wellformed e /\ Marshal_event e = Some (pe_payload_json row) /\ sx_EventID e = pe_event_id row.
Definition outbox_wf (db : PushDB) : Prop := forall row, row ∈ push_events db -> exists e, holds_event row e.

(** The rows a flush takes. *)
Definition pending_rows (db : PushDB) : list event_out_row :=
  take 32 (fold_right insert_by_id [] (rows_where unpublished (push_events db))).

Lemma insert_by_id_perm e l : Permutation (insert_by_id e l) (e :: l).
Proof. induction l as [|x l IH]; [done|]. cbn. destruct (String.leb _ _); [done|]. rewrite IH. constructor. Qed.

Lemma sorted_perm l : Permutation (fold_right insert_by_id [] l) l.
Proof. induction l as [|x l IH]; [done|]. cbn. by rewrite insert_by_id_perm, IH. Qed.


Lemma decode_payloads_ok rows :
  (forall row, row ∈ rows -> exists e, holds_event row e) ->
  exists events, decode_payloads rows = Ok events /\ Forall2 holds_event rows events.
Proof.
  induction rows as [|row rows IH]; intros H; [by exists []|]. destruct (H row) as (e & He); [set_solver|].
  destruct IH as (events & Hd & HF); [set_solver|]. exists (e :: events). split; [|by constructor].
  cbn [decode_payloads]. destruct He as (Hw & Hm & _). rewrite (event_read_back e _ Hw Hm). cbn. by rewrite Hd.
Qed.

(** A well-formed event that is recorded is held. *)
Lemma record_outbox_wf r e db db' u :
  event_wellformed e -> outbox_wf db -> RecordResult r (Some e) db = (db', Ok u) -> outbox_wf db'.
Proof.
  intros He Hdb H. apply RecordResult_ok in H as (payload & Hp & ->). intros row Hrow.
  destruct (insert_tables r "" "" "" db) as (_ & _ & Ev & _). unfold insert_event_out in Hrow.
  destruct (exists_where _ _); [rewrite Ev in Hrow; by apply Hdb|]. cbn in Hrow. rewrite Ev in Hrow.
  apply elem_of_app in Hrow as [Hrow|Hrow%list_elem_of_singleton]; [by apply Hdb|].
  exists e. by subst row.
Qed.

(** ** Publication *)

Section Publish.
Context (env : environment) (publish : SecurityEvent -> option string) (Haccept : forall e, publish e = None).

(** Every row is a row of before, published if its id was among the events. *)
Lemma publish_all_spec events w :
  NoDup (map sx_EventID events) ->
  (forall e, e ∈ events -> exists_where (fun x => (pe_event_id x == sx_EventID e) && unpublished x) (push_events (sw_db w)) = true) ->
  let '(w', err) := publish_all env publish events w in
  err = None /\ sw_effects w' = (sw_effects w ++ map EPublish events)%list
  /\ forall row, row ∈ push_events (sw_db w) ->
       exists row', row' ∈ push_events (sw_db w') /\ event_le row row' /\ (pe_published_at row' = None -> pe_event_id row ∉ map sx_EventID events).
Proof.
  revert w. induction events as [|e events IH]; intros w Hn Hall; cbn [publish_all].
  { rewrite app_nil_r. split; [done|]. split; [done|]. intros row Hrow. exists row. split; [done|]. split; [done|]. intros _. apply not_elem_of_nil. }
  cbn [map] in Hn. apply list.NoDup_cons in Hn as [Hne Hn]. rewrite Haccept.
  set (w1 := (perform (EPublish e) w) <| sw_tick ::= S |>).
  change (now_ env (perform (EPublish e) w)) with (w1, en_clock env (sw_tick w)). cbv iota. unfold on_db.
  change (sw_db w1) with (sw_db w). unfold MarkEventPublished.
  rewrite (Hall e) by set_solver. cbv iota zeta.
  set (p := fun x => (pe_event_id x == sx_EventID e) && unpublished x).
  set (f := fun x => x <| pe_published_at := Some (UnixMilli (en_clock env (sw_tick w))) |>).
  set (w2 := w1 <| sw_db := _ |>).
  assert (Hall2 : forall e', e' ∈ events -> exists_where (fun x => (pe_event_id x == sx_EventID e') && unpublished x) (push_events (sw_db w2)) = true).
  { intros e' He'. specialize (Hall e' ltac:(set_solver)). apply exists_where_spec in Hall as (x & Hx & Hp). apply exists_where_spec.
    exists x. split; [|done]. change (push_events (sw_db w2)) with (update_where p f (push_events (sw_db w))). apply update_where_spec.
    exists x. split; [done|]. destruct (p x) eqn:E; [|done]. exfalso. unfold p in E. apply andb_true_iff in E as [E _], Hp as [Hp _].
    apply bool_decide_eq_true in E, Hp. apply Hne. rewrite <- E, Hp. apply list_elem_of_fmap. by exists e'. }
  specialize (IH w2 Hn Hall2). destruct (publish_all env publish events w2) as [w' err]. destruct IH as (-> & -> & Hrows).
  split; [done|]. split; [cbn; by rewrite <- app_assoc|]. intros row Hrow.
  destruct (Hrows (if p row then f row else row)) as (row' & Hr' & Hle & Hpub).
  { change (push_events (sw_db w2)) with (update_where p f (push_events (sw_db w))). apply update_where_spec. by exists row. }
  assert (Hle0 : event_le row (if p row then f row else row)) by apply (published_le (sx_EventID e) (en_clock env (sw_tick w)) row).
  exists row'. split; [done|]. split; [by eapply event_le_trans|]. intros Hnone. cbn [map]. rewrite not_elem_of_cons. split.
  - intros E. destruct (p row) eqn:Ep.
    + destruct Hle as (_ & _ & _ & Hkeep). rewrite Hkeep in Hnone by done. done.
    + unfold p in Ep. rewrite E, bool_decide_eq_true_2 in Ep by done. cbn in Ep. apply bool_decide_eq_false in Ep.
      destruct Hle as (_ & _ & _ & Hkeep). by rewrite Hkeep in Hnone.
  - intros Hin. apply (Hpub Hnone). destruct (p row); done.
Qed.
End Publish.

Lemma pending_rows_In db row : row ∈ pending_rows db -> row ∈ push_events db /\ unpublished row = true.
Proof.
  intros H. apply rows_where_spec. rewrite <- (sorted_perm (rows_where unpublished (push_events db))).
  unfold pending_rows in H. apply (subseteq_take 32 _ row H).
Qed.

Lemma pending_rows_NoDup db : NoDup (map pe_event_id (push_events db)) -> NoDup (map pe_event_id (pending_rows db)).
Proof.
  intros H. unfold pending_rows. rewrite <- firstn_map. eapply sublist_NoDup; [|apply sublist_take].
  rewrite (Permutation_map pe_event_id (sorted_perm _)). unfold rows_where.
  pose proof (NoDup_delete_where pe_event_id (fun r => negb (unpublished r)) (push_events db) H) as Hd. unfold delete_where in Hd.
  rewrite (filter_ext unpublished (fun r => negb (negb (unpublished r)))); [exact Hd|]. intros r. by rewrite negb_involutive.
Qed.

(** With a sink that accepts, a flush of an outbox of well-formed events succeeds, hands the sink the events of the
    first 32 unpublished rows, in the order of their ids and as they were recorded, and marks exactly what it handed over as published,
    while every row keeps its event. *)
Theorem outbox_delivers env publish w :
  en_Publish env = Some publish -> (forall e, publish e = None) -> NoDup (map pe_event_id (push_events (sw_db w))) -> outbox_wf (sw_db w) ->
  let '(w', err) := flushEvents env w in
  err = None
  /\ exists events, Forall2 holds_event (pending_rows (sw_db w)) events
       /\ sw_effects w' = (sw_effects w ++ map EPublish events)%list
       /\ forall row, row ∈ push_events (sw_db w) ->
            exists row', row' ∈ push_events (sw_db w') /\ event_le row row' /\ (row ∈ pending_rows (sw_db w) -> pe_published_at row' <> None).
Proof.
  intros Hp Ha Hn Hwf. unfold flushEvents, PendingEvents. fold (pending_rows (sw_db w)).
  destruct (decode_payloads_ok (pending_rows (sw_db w))) as (events & -> & HF).
  { intros row Hrow. apply pending_rows_In in Hrow as [Hrow _]. by apply Hwf. }
  rewrite Hp. assert (Hids : map sx_EventID events = map pe_event_id (pending_rows (sw_db w))).
  { clear -HF. induction HF as [|row e rows events (_ & _ & He) _ IH]; cbn; [done|]. by rewrite He, IH. }
  pose proof (publish_all_spec env publish Ha events w) as H. rewrite Hids in H. specialize (H (pending_rows_NoDup _ Hn)).
  destruct (publish_all env publish events w) as [w' err]. destruct H as (-> & He & Hrows).
  - intros e He. apply exists_where_spec.
    assert (Hin : sx_EventID e ∈ map pe_event_id (pending_rows (sw_db w))) by (rewrite <- Hids; apply list_elem_of_fmap; by exists e).
    apply list_elem_of_fmap in Hin as (row & Hid & Hrow). apply pending_rows_In in Hrow as [Hrow Hu]. exists row. split; [done|].
    rewrite Hu, andb_true_r. by apply bool_decide_eq_true.
  - split; [done|]. exists events. split; [done|]. split; [done|]. intros row Hrow. destruct (Hrows row Hrow) as (row' & H1 & H2 & H3).
    exists row'. split; [done|]. split; [done|]. intros Hpend Hnone. apply (H3 Hnone). apply list_elem_of_fmap. by exists row.
Qed.

(** An outbox of one event. *)
Definition outbox_event : SecurityEvent :=
  mkSecurityEvent "signal/push-tripwire-event/v1" "push-event-b" "alert_requested" "b" "d" "o/r" "refs/heads/main" "x" "y" "high"
    "seeded_canary_match" "" "p" 1 "" "" "" "" 0 0 0 0 0.
Definition outbox_world : world :=
  mkWorld (mkPushDB [] [] [] [mkEventOutRow "push-event-b" "d" (marshal (event_json outbox_event)) None]) 0 [].
Definition outbox_env : environment :=
  mkEnvironment (fun _ => inr (OtherError "")) (fun _ _ => inr "") (Some (fun _ => None)) (fun _ => 0).

Lemma outbox_delivers_witness :
  let '(w', err) := flushEvents outbox_env outbox_world in
  err = None
  /\ exists events, Forall2 holds_event (pending_rows (sw_db outbox_world)) events
       /\ sw_effects w' = (sw_effects outbox_world ++ map EPublish events)%list
       /\ forall row, row ∈ push_events (sw_db outbox_world) ->
            exists row', row' ∈ push_events (sw_db w') /\ event_le row row' /\ (row ∈ pending_rows (sw_db outbox_world) -> pe_published_at row' <> None).
Proof.
  refine (outbox_delivers outbox_env (fun _ => None) outbox_world _ _ _ _).
  - reflexivity.
  - reflexivity.
  - apply list.NoDup_singleton.
  - intros row Hrow. apply list_elem_of_singleton in Hrow as ->. exists outbox_event.
    split; [split; [repeat constructor|split; (split; [discriminate|reflexivity])]|split; reflexivity].
Defined.
