(* ===== verification/PushScanFacts.v ===== *)
(** * What the push scanner guarantees

    The scan of a push ends, and finds every issued token and every canary its
    material hides under at most the configured number of reversible encodings:
    the queue is a breadth-first search over the decodings, whose invariant is
    stated and kept here. *)

From stdpp Require Import gmap.
From S2P Require Import Prelude GoText GoSha256 GoJson GoCodec LedgerModel Envelope GoTime PushStore PushScan.
From Stdlib Require Import Ascii Sorting.Sorted.
Open Scope string_scope.
Open Scope Z_scope.
Open Scope go_scope.

Section Search.
Context (s : Scanner) (clock : nat -> Z) (i : PushIdentity) (db : PushDB).
Local Abbreviation max_candidates := (Z.to_nat (bd_MaxCandidates (sn_Bounds s))).

(** ** Termination *)

(** What [add_values] does to the queue: new values at its end, each new to the
    set and not empty; every value it was given is then in the set. *)
Lemma add_value_spec v depth queue seen queue' seen' :
  add_value s v depth (queue, seen) = Some (queue', seen') ->
  exists added, queue' = (queue ++ map (fun x => (x, depth)) added)%list
    /\ seen' = list_to_set added ∪ seen /\ (size seen' = length added + size seen)%nat
    /\ ((length added <= 1)%nat) /\ (forall x, x ∈ added -> x = v)
    /\ (v <> "" -> v ∈ seen') /\ ((added = [] \/ size seen < max_candidates)%nat).
Proof.
  unfold add_value. destruct ((v == "") || bool_decide (v ∈ seen)) eqn:E.
  - intros [= <- <-]. exists []. cbn. rewrite app_nil_r. repeat split; [set_solver|lia|set_solver| |by left].
    intros Hv. apply orb_true_iff in E as [E|E]; [by apply bool_decide_eq_true in E|by apply bool_decide_eq_true in E].
  - destruct (bd_MaxCandidates (sn_Bounds s) <=? Z.of_nat (size seen)) eqn:Em; [done|].
    intros [= <- <-]. exists [v]. apply orb_false_iff in E as [E1 E2]. apply bool_decide_eq_false in E2.
    cbn. repeat split; [set_solver| |lia|set_solver|set_solver|right; lia].
    rewrite size_union, size_singleton by set_solver. lia.
Qed.

Lemma add_values_spec vs depth queue seen queue' seen' :
  add_values s vs depth (queue, seen) = Some (queue', seen') ->
  exists added, queue' = (queue ++ map (fun x => (x, depth)) added)%list
    /\ seen' = list_to_set added ∪ seen /\ (size seen' = length added + size seen)%nat
    /\ (forall x, x ∈ added -> x ∈ vs) /\ (forall v, v ∈ vs -> v <> "" -> v ∈ seen')
    /\ (size seen <= max_candidates -> size seen' <= max_candidates)%nat.
Proof.
  revert queue seen. induction vs as [|v vs IH]; intros queue seen; cbn [add_values].
  - intros [= <- <-]. exists []. cbn. rewrite app_nil_r. repeat split; [set_solver|set_solver|set_solver|lia].
  - destruct (add_value s v depth (queue, seen)) as [[q1 s1]|] eqn:E; [|done]. cbn. intros H.
    apply add_value_spec in E as (a1 & -> & -> & Hs1 & Hl & Ha1 & Hv & Hm).
    apply IH in H as (a2 & -> & -> & Hs2 & Ha2 & Hvs & Hm2).
    exists (a1 ++ a2)%list. rewrite map_app, app_assoc, length_app. repeat split.
    + set_solver.
    + lia.
    + intros x [H|H]%elem_of_app; [apply Ha1 in H; set_solver|apply Ha2 in H; set_solver].
    + intros x [->|Hx]%elem_of_cons Hne; [apply Hv in Hne; set_solver|by apply Hvs].
    + intros H0. apply Hm2. destruct Hm as [->|Hm]; [cbn [length] in Hs1|]; lia.
Qed.

(** The fuel covers the values queued and those still to be queued. *)
Lemma scan_loop_ends fuel queue seen low tick :
  (size seen <= max_candidates)%nat -> (length queue + (max_candidates - size seen) < fuel)%nat ->
  snd (scan_loop s clock fuel i db queue seen low tick) <> Panic.
Proof.
  revert queue seen low tick. induction fuel as [|fuel IH]; intros queue seen low tick Hs Hf; [lia|]. cbn [scan_loop].
  destruct queue as [|[value depth] queue]; [done|]. cbn [length] in Hf.
  destruct (canaryPattern value); [done|].
  destruct (match_any s clock (value :: tokenRun value) db tick) as [tick' [a|]]; [done|].
  destruct (bd_MaxDecodeDepth (sn_Bounds s) <=? depth).
  - destruct (hasFullReversibleDecoding value); [done|]. apply IH; lia.
  - destruct (add_values s (reversibleDecodings value) (depth + 1) (queue, seen)) as [[queue' seen']|] eqn:E; [|done].
    apply add_values_spec in E as (added & -> & _ & Hsz & _ & _ & Hm). specialize (Hm Hs).
    apply IH; [done|]. rewrite length_app, length_map. lia.
Qed.

(** More fuel changes nothing. *)
Lemma scan_loop_more fuel extra queue seen low tick :
  (size seen <= max_candidates)%nat -> (length queue + (max_candidates - size seen) < fuel)%nat ->
  scan_loop s clock (fuel + extra) i db queue seen low tick = scan_loop s clock fuel i db queue seen low tick.
Proof.
  revert queue seen low tick. induction fuel as [|fuel IH]; intros queue seen low tick Hs Hf; [lia|]. cbn [scan_loop Nat.add].
  destruct queue as [|[value depth] queue]; [done|]. cbn [length] in Hf.
  destruct (canaryPattern value); [done|].
  destruct (match_any s clock (value :: tokenRun value) db tick) as [tick' [a|]]; [done|].
  destruct (bd_MaxDecodeDepth (sn_Bounds s) <=? depth).
  - destruct (hasFullReversibleDecoding value); [done|]. apply IH; lia.
  - destruct (add_values s (reversibleDecodings value) (depth + 1) (queue, seen)) as [[queue' seen']|] eqn:E; [|done].
    apply add_values_spec in E as (added & -> & _ & Hsz & _ & _ & Hm). specialize (Hm Hs).
    apply IH; [done|]. rewrite length_app, length_map. lia.
Qed.

Lemma start_covered inputs queue seen :
  add_values s inputs 0 ([], ∅) = Some (queue, seen) ->
  (size seen <= max_candidates)%nat /\ (length queue + (max_candidates - size seen) < scan_fuel s)%nat.
Proof.
  intros E. apply add_values_spec in E as (added & -> & _ & Hsz & _ & _ & Hm). rewrite size_empty in Hsz, Hm.
  specialize (Hm ltac:(lia)). cbn [app]. rewrite length_map. unfold scan_fuel. lia.
Qed.

Lemma scanValues_ends inputs tick : snd (scanValues s clock i inputs db tick) <> Panic.
Proof.
  unfold scanValues. destruct (add_values s inputs 0 ([], ∅)) as [[queue seen]|] eqn:E; [|done].
  apply start_covered in E as [H1 H2]. by apply scan_loop_ends.
Qed.

(** ** Completeness of the search *)

(** A value the inputs hide under [n] reversible encodings. *)
Inductive hides (inputs : list string) : Z -> string -> Prop :=
  | hides_input v : v ∈ inputs -> v <> "" -> hides inputs 0 v
  | hides_decoding n v d : hides inputs n v -> d ∈ reversibleDecodings v -> d <> "" -> hides inputs (n + 1) d.

(** A token with a fingerprint that is retained whenever the clock is read. *)
Definition issued (token : string) : Prop :=
  exists row, row ∈ push_fingerprints db /\ fp_fingerprint row = fingerprint_of (sn_FingerprintKey s) token
    /\ forall t, UnixMilli (clock t) <= fp_retained_until row.

(** A value that must be reported. *)
Definition exposed (v : string) : Prop :=
  canaryPattern v = true \/ exists token, token ∈ v :: tokenRun v /\ issued token.

Lemma match_candidate_issued token t : issued token -> MatchCandidate (sn_FingerprintKey s) token (clock t) db <> None.
Proof.
  intros (row & Hin & Hfp & Hret). unfold MatchCandidate.
  match goal with |- context [first_where ?p ?t] => destruct (first_where p t) eqn:E; [done|] end.
  pose proof (proj1 (first_where_None _ _) E row Hin) as Hno. cbn beta in Hno.
  apply andb_false_iff in Hno as [Hno|Hno]; [by apply bool_decide_eq_false in Hno|]. specialize (Hret t). lia.
Qed.

Lemma match_any_issued candidates token tick :
  token ∈ candidates -> issued token -> snd (match_any s clock candidates db tick) <> None.
Proof.
  revert tick. induction candidates as [|c cs IH]; intros tick Hin Hi; [by apply not_elem_of_nil in Hin|]. cbn [match_any].
  destruct (MatchCandidate _ c _ db) eqn:E; [done|].
  apply elem_of_cons in Hin as [<-|Hin]; [by apply (match_candidate_issued _ tick) in Hi|by apply IH].
Qed.

(** The depths in the queue grow by at most one. *)
Definition next_depth (a b : string * Z) : Prop := snd a <= snd b <= snd a + 1.

(** What holds of the values done, the queue and the set, before every step. *)
Record searched (past queue : list (string * Z)) (seen : gset string) : Prop := mkSearched {
  searched_seen : forall v, v ∈ seen -> exists k, (v, k) ∈ (past ++ queue)%list;
  searched_queue : StronglySorted next_depth queue;
  searched_done : forall x y, x ∈ past -> y ∈ queue -> snd x <= snd y;
  searched_closed : forall v k d, (v, k) ∈ past -> k < bd_MaxDecodeDepth (sn_Bounds s) -> d ∈ reversibleDecodings v -> d <> "" ->
                    exists k', k' <= k + 1 /\ (d, k') ∈ (past ++ queue)%list;
  searched_clean : forall v k, (v, k) ∈ past -> ~ exposed v }.

Lemma sorted_snoc queue value m added :
  StronglySorted next_depth ((value, m) :: queue) ->
  StronglySorted next_depth (queue ++ map (fun x => (x, m + 1)) added).
Proof.
  intros [Hs Hf]%StronglySorted_inv. induction queue as [|x queue IH]; cbn.
  - clear. induction added as [|a added IH]; cbn; constructor; [done|].
    apply List.Forall_map, List.Forall_forall. intros y _. unfold next_depth. cbn. lia.
  - apply StronglySorted_inv in Hs as [Hs Hx]. apply List.Forall_cons_iff in Hf as [Hm Hf].
    constructor; [by apply IH|]. apply List.Forall_app. split; [done|].
    apply List.Forall_map, List.Forall_forall. intros y _. unfold next_depth in *. cbn in *. lia.
Qed.

(** A step that queues the decodings of a value that is not exposed. *)
Lemma searched_step past value m queue seen added :
  searched past ((value, m) :: queue) seen -> ~ exposed value ->
  (m < bd_MaxDecodeDepth (sn_Bounds s) ->
     forall d, d ∈ reversibleDecodings value -> d <> "" -> d ∈ list_to_set (C := gset string) added ∪ seen) ->
  searched (past ++ [(value, m)]) (queue ++ map (fun x => (x, m + 1)) added) (list_to_set added ∪ seen).
Proof.
  intros [Hseen Hq Hd Hc Hcl] Hv Hdec.
  assert (Hdepth : forall x, x ∈ (past ++ (value, m) :: queue)%list -> snd x <= m + 1).
  { intros x [Hx|[->|Hx]%elem_of_cons]%elem_of_app; [|cbn; lia|].
    - specialize (Hd x (value, m) Hx ltac:(set_solver)). cbn in Hd. lia.
    - apply StronglySorted_inv in Hq as [_ Hf]. rewrite List.Forall_forall in Hf.
      specialize (Hf x). rewrite <- list_elem_of_In in Hf. apply Hf in Hx. unfold next_depth in Hx. cbn in Hx. lia. }
  assert (Hall : forall v, v ∈ list_to_set (C := gset string) added ∪ seen ->
            exists k, k <= m + 1 /\ (v, k) ∈ ((past ++ [(value, m)]) ++ queue ++ map (fun x => (x, m + 1)) added)%list).
  { intros v [Hin|Hin]%elem_of_union.
    - apply elem_of_list_to_set in Hin. exists (m + 1). split; [lia|]. rewrite !elem_of_app. right. right.
      apply list_elem_of_fmap. by exists v.
    - apply Hseen in Hin as [k Hk]. exists k. split; [by apply Hdepth in Hk|]. set_solver. }
  constructor.
  - intros v Hin. apply Hall in Hin as (k & _ & Hk). by exists k.
  - by apply (sorted_snoc _ value).
  - intros x y Hx Hy. assert (Hxm : snd x <= m).
    { apply elem_of_app in Hx as [Hx|Hx]; [apply (Hd x (value, m)); set_solver|].
      apply list_elem_of_singleton in Hx as ->. done. }
    apply elem_of_app in Hy as [Hy|Hy].
    + apply StronglySorted_inv in Hq as [_ Hf]. rewrite List.Forall_forall in Hf. rewrite list_elem_of_In in Hy.
      apply Hf in Hy. unfold next_depth in Hy. cbn in Hy. lia.
    + apply list_elem_of_fmap in Hy as (z & -> & _). cbn. lia.
  - intros v k d [Hin|Hin]%elem_of_app Hk Hin' Hne.
    + destruct (Hc v k d Hin Hk Hin' Hne) as (k' & Hle & Hk'). exists k'. split; [done|]. set_solver.
    + apply list_elem_of_singleton in Hin as [= -> ->]. by apply Hall, Hdec.
  - intros v k [Hin|Hin]%elem_of_app; [by apply (Hcl v k)|]. by apply list_elem_of_singleton in Hin as [= -> ->].
Qed.

(** A loop that ends without a high finding has searched everything it queued. *)
Lemma scan_loop_searched fuel past queue seen low tick f :
  searched past queue seen -> snd (scan_loop s clock fuel i db queue seen low tick) = Ok f -> fd_Severity f <> "high" ->
  exists past' seen', searched past' [] seen' /\ forall x, x ∈ (past ++ queue)%list -> x ∈ past'.
Proof.
  revert past queue seen low tick. induction fuel as [|fuel IH]; intros past queue seen low tick HI; [done|]. cbn [scan_loop].
  destruct queue as [|[value depth] queue]; [intros _ _; exists past, seen; rewrite app_nil_r; done|].
  destruct (canaryPattern value) eqn:Ec; [intros [= <-] H; by destruct H|].
  destruct (match_any s clock (value :: tokenRun value) db tick) as [tick' o] eqn:Em.
  destruct o as [a|]; [intros [= <-] H; by destruct H|].
  assert (Hv : ~ exposed value).
  { intros [H|(token & Hin & Hi)]; [by rewrite H in Ec|].
    apply (match_any_issued _ _ tick Hin) in Hi. by rewrite Em in Hi. }
  assert (Hsub : forall added x, x ∈ (past ++ (value, depth) :: queue)%list ->
            x ∈ ((past ++ [(value, depth)]) ++ queue ++ map (fun y => (y, depth + 1)) added)%list) by set_solver.
  destruct (bd_MaxDecodeDepth (sn_Bounds s) <=? depth) eqn:Ed.
  - destruct (hasFullReversibleDecoding value); [done|]. intros Hr Hf.
    pose proof (searched_step _ _ _ _ _ [] HI Hv ltac:(lia)) as HI'. cbn [map] in HI'. rewrite app_nil_r in HI'.
    replace (list_to_set (C := gset string) [] ∪ seen) with seen in HI' by set_solver.
    destruct (IH _ _ _ _ _ HI' Hr Hf) as (past' & seen' & HI2 & Hin). exists past', seen'. split; [done|].
    intros x Hx. apply Hin. specialize (Hsub [] x Hx). cbn [map] in Hsub. by rewrite app_nil_r in Hsub.
  - destruct (add_values s (reversibleDecodings value) (depth + 1) (queue, seen)) as [[queue' seen']|] eqn:E; [|done].
    apply add_values_spec in E as (added & -> & -> & _ & _ & Hall & _). intros Hr Hf.
    pose proof (searched_step _ _ _ _ _ added HI Hv (fun _ => Hall)) as HI'.
    destruct (IH _ _ _ _ _ HI' Hr Hf) as (past' & seen' & HI2 & Hin). exists past', seen'. split; [done|]. auto.
Qed.

(** A searched space has every hidden value, at no more than its depth. *)
Lemma searched_hides inputs past seen n v :
  searched past [] seen -> (forall v, v ∈ inputs -> v <> "" -> (v, 0) ∈ past) ->
  hides inputs n v -> n <= bd_MaxDecodeDepth (sn_Bounds s) -> exists k, k <= n /\ (v, k) ∈ past.
Proof.
  intros HI Hin. induction 1 as [v Hv Hne|n v d _ IH Hd Hne]; intros Hn; [exists 0; auto with lia|].
  destruct IH as (k & Hk & Hk'); [lia|].
  destruct (searched_closed _ _ _ HI v k d Hk' ltac:(lia) Hd Hne) as (k' & Hle & H'). rewrite app_nil_r in H'. exists k'. auto with lia.
Qed.

Lemma sorted_inputs added : StronglySorted next_depth (map (fun x => (x, 0)) added).
Proof.
  induction added as [|a added IH]; cbn; constructor; [done|].
  apply List.Forall_map, List.Forall_forall. intros y _. unfold next_depth. cbn. lia.
Qed.

Lemma in_inputs x added : x ∈ map (fun y : string => (y, 0)) added <-> exists v, x = (v, 0) /\ v ∈ added.
Proof. apply list_elem_of_fmap. Qed.

Lemma searched_start added : searched [] (map (fun x => (x, 0)) added) (list_to_set added ∪ ∅).
Proof.
  constructor; [|apply sorted_inputs|set_solver..].
  intros w Hw. exists 0. apply in_inputs. exists w. split; [done|]. set_solver.
Qed.

Lemma scanValues_complete inputs tick n v f :
  hides inputs n v -> n <= bd_MaxDecodeDepth (sn_Bounds s) -> exposed v ->
  snd (scanValues s clock i inputs db tick) = Ok f -> fd_Severity f = "high".
Proof.
  intros Hh Hn He. unfold scanValues.
  destruct (add_values s inputs 0 ([], ∅)) as [[queue seen]|] eqn:E; [|done].
  apply add_values_spec in E as (added & -> & -> & _ & _ & Hall & _). cbn [app]. intros Hr.
  destruct (decide (fd_Severity f = "high")) as [H|Hf]; [done|].
  destruct (scan_loop_searched _ [] _ _ _ _ _ (searched_start added) Hr Hf) as (past & seen' & HI & Hin).
  destruct (searched_hides inputs _ _ n v HI) as (k & _ & Hk); [|done|done|by destruct (searched_clean _ _ _ HI v k Hk)].
  intros w Hw Hne. apply Hin, in_inputs. exists w. split; [done|]. specialize (Hall w Hw Hne). set_solver.
Qed.
End Search.

Ltac no_panic := repeat (apply bind_no_panic; [auto with panic|first [intros [? ?] | intros ?]; cbv zeta]); try done.

Lemma commit_values_ends s commits total : commit_values s commits total <> Panic.
Proof.
  revert total. induction commits as [|c commits IH]; intros total; cbn [commit_values]; [done|]. no_panic.
Qed.

Lemma file_values_ends s files total : file_values s files total <> Panic.
Proof.
  revert total. induction files as [|f files IH]; intros total; cbn [file_values]; [done|]. no_panic.
Qed.
#[local] Hint Resolve commit_values_ends file_values_ends : panic.

Lemma material_values_ends s m : material_values s m <> Panic.
Proof. unfold material_values. cbv zeta. no_panic. Qed.

(** C33: The scan of any material ends: its loop returns before the fuel, one more than the number of values
    it may queue, is used up, and any larger fuel gives the same answer. *)
Theorem push_scan_terminates s clock i db :
  (forall m tick, snd (scanMaterial s clock i m db tick) <> Panic)
  /\ (forall inputs queue seen low tick extra, add_values s inputs 0 ([], ∅) = Some (queue, seen) ->
       scan_loop s clock (scan_fuel s + extra) i db queue seen low tick = scan_loop s clock (scan_fuel s) i db queue seen low tick).
Proof.
  split.
  - intros m tick. unfold scanMaterial. pose proof (material_values_ends s m) as H.
    destruct (material_values s m) as [values|e|]; [apply scanValues_ends|done|done].
  - intros inputs queue seen low tick extra E. apply start_covered in E as [H1 H2]. by apply scan_loop_more.
Qed.
