(* ===== verification/PushEncodings.v ===== *)
(** * Encoded tokens

    The encodings the scanner undoes, and that it undoes them: a token inside a text,
    written in hexadecimal, in percent escapes or in base64, any of them several times
    over, is among the values that the search of the decodings reaches. *)

From stdpp Require Import gmap.
From S2P Require Import Prelude GoText GoSha256 GoJson GoNet GoCodec LedgerModel Envelope GoTime PushStore PushScan PushScanFacts GatewayFacts RawJsonFacts.
From Stdlib Require Import Ascii.
Open Scope string_scope.
Open Scope Z_scope.
Open Scope go_scope.

(** ** Runs *)

Lemma span_all p s : all_chars p s = true -> span p s = (s, "").
Proof. induction s as [|c s IH]; [done|]. cbn. intros [-> Hs]%andb_true_iff. by rewrite IH. Qed.






(** ** Hexadecimal *)








(** ** Percent escapes *)






(** ** Base64 *)


(** The standard alphabet and that for URLs. *)
Section Alphabet.
Context (url : bool).















End Alphabet.

(** ** Nested encodings *)







Definition carried_token : string := "token-4f1c9a".


(** A hexadecimal run that starts one digit too early is decoded without its last digit: the matches of the pattern
    are whole pairs from the first digit of the run, and only one digit is dropped at each end. *)
Definition shifted_text : string := "f" ++ hex (bytes_of carried_token).
Example shifted_hex_misses_token : bool_decide (carried_token ∈ reversibleDecodings shifted_text) = false.
Proof. vm_compute. reflexivity. Qed.
