(* ===== verification/PushProps.v ===== *)
(** * The push scanner, end to end

    Every step of the scanner and of the registry is a sequence of operations of
    the store, so its database keeps the invariant; a delivery is acknowledged only
    when its result is durable, and a result that is not high was reached by a
    complete search. *)

From stdpp Require Import gmap relations.
From S2P Require Import Prelude GoText GoSha256 GoJson GoNet GoCodec LedgerModel Envelope GoTime PushStore PushScan PushWire PushInv PushScanFacts.
From Stdlib Require Import Ascii.
Open Scope string_scope.
Open Scope Z_scope.
Open Scope go_scope.

Section Program.
Context (s : Scanner) (env : environment).

(** ** Side effects *)

Local Arguments RecordResponseAttempt : simpl never.
Local Arguments CompleteResponse : simpl never.
Local Arguments RecordReceipt : simpl never.
Local Arguments RecordResult : simpl never.

Lemma publish_all_steps publish events w :
  push_steps (sw_db w) (sw_db (fst (publish_all env publish events w))).
Proof.
  revert w. induction events as [|e events IH]; intros w; cbn [publish_all]; [done|].
  destruct (publish e); [done|]. unfold on_db. cbn.
  pose proof (step_published (sw_db w) (sx_EventID e) (en_clock env (sw_tick w))) as Hs.
  destruct (MarkEventPublished _ _ (sw_db w)) as [db r] eqn:E. cbn in *.
  destruct r; [eapply rtc_l; [done|apply (IH (mkWorld db _ _))]|by apply rtc_once|by apply rtc_once].
Qed.

Lemma flushEvents_steps w : push_steps (sw_db w) (sw_db (fst (flushEvents env w))).
Proof. unfold flushEvents. destruct (PendingEvents (sw_db w)); [destruct (en_Publish env); [apply publish_all_steps|done]|done|done]. Qed.

(** The result the scanner holds is the one of the database. *)
Definition held (r : ScanResult) (db : PushDB) : Prop :=
  exists row, find_result (sr_DeliveryID r) db = Some row /\ rr_severity row = sr_Severity r.

Lemma held_le r db db' : push_le db db' -> held r db -> held r db'.
Proof.
  intros HL (row & Hrow & Hs). apply (le_result _ _ HL) in Hrow as (row' & Hrow & [HV _]). exists row'. split; [done|].
  apply verdict_severity in HV. congruence.
Qed.

Lemma completeResponse_steps i r w :
  held r (sw_db w) -> push_steps (sw_db w) (sw_db (fst (completeResponse env i r w))).
Proof.
  intros Hheld. unfold completeResponse, on_db. cbn.
  pose proof (step_attempt (sw_db w) (sr_DeliveryID r) (en_clock env (sw_tick w))) as Hs.
  destruct (RecordResponseAttempt _ _ (sw_db w)) as [db o] eqn:E. cbn in Hs |- *.
  destruct o; [|by apply rtc_once|by apply rtc_once].
  destruct (en_Respond env _ _) as [response|e]; [|by apply rtc_once].
  destruct (validateResponse _ _) as [times|e|]; [|by apply rtc_once|by apply rtc_once].
  eapply rtc_l; [done|]. apply rtc_once.
  match goal with |- context [CompleteResponse ?x] => set (c := x) end.
  assert (Hc : completion c db).
  { split; [done|]. by apply (held_le r (sw_db w) db); [apply push_step_le|]. }
  pose proof (step_complete db c Hc) as Hs2. destruct (CompleteResponse c db) as [db2 o2]. exact Hs2.
Qed.

Lemma runSideEffects_steps i r w :
  held r (sw_db w) -> push_steps (sw_db w) (sw_db (fst (runSideEffects env i r w))).
Proof.
  intros Hheld. unfold runSideEffects. pose proof (flushEvents_steps w) as Hf.
  destruct (flushEvents env w) as [w1 o]. cbn in Hf. destruct (sr_Status r == ResponsePending); [|done].
  pose proof (completeResponse_steps i r w1) as Hc. apply (held_le _ _ (sw_db w1)) in Hheld; [|by apply push_steps_le].
  specialize (Hc Hheld). destruct (completeResponse env i r w1) as [w2 [c e]]. cbn in Hc.
  destruct e; by etrans.
Qed.

(** The result handed back is of the delivery it was called with. *)
Lemma completeResponse_delivery i r w : sr_DeliveryID (fst (snd (completeResponse env i r w))) = sr_DeliveryID r.
Proof.
  unfold completeResponse, on_db. cbn. destruct (RecordResponseAttempt _ _ (sw_db w)) as [db o]. destruct o; [|done|done].
  destruct (en_Respond env _ _) as [response|e]; [|done]. destruct (validateResponse _ _) as [times|e|]; [|done|done].
  cbn. by destruct (CompleteResponse _ db).
Qed.

Lemma runSideEffects_delivery i r w : sr_DeliveryID (fst (snd (runSideEffects env i r w))) = sr_DeliveryID r.
Proof.
  unfold runSideEffects. destruct (flushEvents env w) as [w1 o]. destruct (sr_Status r == ResponsePending); [|done].
  pose proof (completeResponse_delivery i r w1) as H. destruct (completeResponse env i r w1) as [w2 [c e]]. by destruct e.
Qed.

(** ** Findings *)

Lemma scan_loop_severity fuel i db queue seen low tick f :
  fd_Severity low ∈ [""; "low"] -> snd (scan_loop s (en_clock env) fuel i db queue seen low tick) = Ok f ->
  fd_Severity f ∈ [""; "low"; "high"].
Proof.
  revert queue seen low tick. induction fuel as [|fuel IH]; intros queue seen low tick Hl; [done|]. cbn [scan_loop].
  destruct queue as [|[value depth] queue]; [intros [= <-]; set_solver|].
  destruct (canaryPattern value); [intros [= <-]; cbn; set_solver|].
  destruct (match_any s (en_clock env) (value :: tokenRun value) db tick) as [tick' [a|]]; [intros [= <-]; cbn; set_solver|].
  match goal with |- context [if ?c then lowFinding s i ?r else low] => assert (Hl' : fd_Severity (if c then lowFinding s i r else low) ∈ [""; "low"]) by (destruct c; [cbn; set_solver|done]) end.
  destruct (bd_MaxDecodeDepth (sn_Bounds s) <=? depth).
  - destruct (hasFullReversibleDecoding value); [done|]. by apply IH.
  - destruct (add_values s (reversibleDecodings value) (depth + 1) (queue, seen)) as [[queue' seen']|]; [|done]. by apply IH.
Qed.

Lemma find_in_severity i answer w : fd_Severity (snd (find_in s env i answer w)) ∈ [""; "low"; "high"].
Proof.
  unfold find_in. destruct answer as [m|[code|text]]; [|cbn; set_solver..].
  destruct (negb (exactMaterialIdentity m i)); [cbn; set_solver|]. destruct (negb (mt_Complete m)); [cbn; set_solver|].
  unfold scanMaterial. destruct (material_values s m) as [values|e|]; [|cbn; set_solver..]. unfold scanValues.
  destruct (add_values s values 0 ([], ∅)) as [[queue seen]|]; [|cbn; set_solver].
  pose proof (scan_loop_severity (scan_fuel s) i (sw_db w) queue seen no_finding (sw_tick w)) as H.
  destruct (scan_loop s (en_clock env) _ i (sw_db w) queue seen no_finding (sw_tick w)) as [tick [f|e|]]; cbn; [|set_solver..].
  apply H; [cbn; set_solver|done].
Qed.

Lemma find_in_db i answer w : sw_db (fst (find_in s env i answer w)) = sw_db w.
Proof.
  unfold find_in. destruct answer as [m|[code|text]]; [|done..].
  destruct (negb (exactMaterialIdentity m i)); [done|]. destruct (negb (mt_Complete m)); [done|].
  destruct (scanMaterial _ _ _ _ _ _) as [tick [f|e|]]; done.
Qed.

(** The result of a finding can be recorded with its alert. *)
Lemma finding_recordable i r f w w1 r1 w2 r2 event :
  fd_Severity f ∈ [""; "low"; "high"] ->
  finding_result env r f w = (w1, r1) -> request_alert env i r1 f w1 = (w2, (r2, event)) ->
  sr_DeliveryID r = pi_DeliveryID i ->
  recordable r2 event /\ sr_DeliveryID r2 = pi_DeliveryID i /\ sw_db w2 = sw_db w
  /\ sr_Severity r2 = (if fd_Severity f == "" then "none" else fd_Severity f).
Proof.
  intros Hf. unfold finding_result, request_alert. destruct (fd_Severity f == "") eqn:E.
  - intros [= <- <-] [= <- <- <-] Hd. split; [|done]. left. cbn. repeat split; [set_solver].
  - apply bool_decide_eq_false in E. assert (Hsev : fd_Severity f ∈ ["high"; "low"]) by set_solver. clear Hf.
    unfold now_. cbn -[String.append slo_deadline].
    match goal with |- context [if ?c then _ else (if ?d then _ else _)] => destruct c eqn:Ec; [|destruct d eqn:Ed] end;
      intros [= <- <-] [= <- <- <-] Hd; (split; [|done]); right; cbn -[String.append]; (split; [done|]); (split; [|by eexists; split; [|split; [|symmetry]]]).
    + right. split; [done|]. apply andb_true_iff in Ec as [Ec _]. by apply bool_decide_eq_true in Ec.
    + by left.
    + by left.
Qed.

(** ** A delivery *)

Lemma RecordReceipt_found i t db v : snd (RecordReceipt i t db) = Ok v -> find_receipt (pi_DeliveryID i) (fst (RecordReceipt i t db)) <> None.
Proof.
  unfold RecordReceipt. destruct (2 ^ 63 <=? _); [done|].
  destruct (find_receipt (pi_DeliveryID i) db) as [r|] eqn:E; [destruct (negb _); [done|]; cbn; congruence|].
  cbn. intros _ H. apply (find_fresh rp_delivery_id) with (x := new_receipt i t) in H; [done|]. set_solver.
Qed.

(** After a result is recorded, it is held, if the delivery had none. *)
Lemma recorded_held r event db db' :
  find_result (sr_DeliveryID r) db = None -> recorded r event db db' -> held r db'.
Proof.
  intros Hno Hdb. assert (H : held r (insert_result r db)).
  { unfold insert_result. rewrite Hno. exists (new_result_row r). split; [|done]. unfold find_result in *. cbn.
    induction (push_results db) as [|x t IH]; cbn in *; [by rewrite bool_decide_eq_true_2|].
    destruct (rr_delivery_id x == sr_DeliveryID r); [done|auto]. }
  destruct event as [e|]; [|unfold recorded in Hdb; by subst db']. destruct Hdb as (payload & _ & ->). eapply held_le; [apply insert_event_le|done].
Qed.

Definition cataloged (i : PushIdentity) : bool :=
  exists_where (fun x => x == pi_Repository i) (sn_Repositories s) && exists_where (fun x => x == pi_Ref i) (sn_Refs s).
Definition material_request (i : PushIdentity) : MaterialRequest :=
  mkMaterialRequest WireVersion (pi_DeliveryID i) (pi_Repository i) (pi_Ref i) (pi_Before i) (pi_After i).

(** What a finding records as the severity. *)
Definition recorded_severity (f : Finding) : string := if fd_Severity f == "" then "none" else fd_Severity f.

(** The outcome of a delivery: nothing is recorded and an error says so, or its
    result is in the database. *)
Definition delivery_outcome (i : PushIdentity) (severity : string) (w w' : world) (r : ScanResult) (e : option string) : Prop :=
  (sr_DeliveryID r = "" /\ e <> None /\ sw_db w' = sw_db w)
  \/ (sr_DeliveryID r = pi_DeliveryID i /\ push_steps (sw_db w) (sw_db w')
      /\ exists row, find_result (pi_DeliveryID i) (sw_db w') = Some row /\ rr_severity row = severity).

(** A recorded result, and the side effects after it. *)
Lemma record_outcome i r event w :
  find_receipt (pi_DeliveryID i) (sw_db w) <> None -> find_result (pi_DeliveryID i) (sw_db w) = None ->
  sr_DeliveryID r = pi_DeliveryID i -> recordable r event ->
  let '(w1, recorded) := on_db (RecordResult r event) w in
  match recorded with
  | Ok _ => push_steps (sw_db w) (sw_db w1) /\ held r (sw_db w1)
  | _ => sw_db w1 = sw_db w
  end.
Proof.
  intros Hrec Hno Hid Hr. unfold on_db.
  assert (Hs : push_step (sw_db w) (fst (RecordResult r event (sw_db w)))) by (constructor; [by rewrite Hid|done]).
  pose proof (RecordResult_fail r event (sw_db w)) as Hfail.
  destruct (RecordResult r event (sw_db w)) as [db' o] eqn:E. cbn in *. destruct o as [u| |]; [|by rewrite Hfail..].
  split; [by apply rtc_once|]. apply RecordResult_ok in E. apply (recorded_held r event (sw_db w)); [by rewrite Hid|done].
Qed.

Lemma side_effects_outcome i r w w1 :
  push_steps (sw_db w) (sw_db w1) -> held r (sw_db w1) -> sr_DeliveryID r = pi_DeliveryID i ->
  let '(w2, (r2, e)) := runSideEffects env i r w1 in delivery_outcome i (sr_Severity r) w w2 r2 e.
Proof.
  intros Hs Hheld Hid. pose proof (runSideEffects_steps i r w1 Hheld) as H. pose proof (runSideEffects_delivery i r w1) as Hd.
  destruct (runSideEffects env i r w1) as [w2 [r2 e]]. cbn in H, Hd. right. split; [congruence|]. split; [by etrans|].
  apply (held_le r (sw_db w1) (sw_db w2)) in Hheld as (row & Hrow & Hsev); [|by apply push_steps_le]. exists row. by rewrite <- Hid.
Qed.

Lemma error_of_fail {A} (r : res A) : is_ok r = false -> error_of r <> None.
Proof. by destruct r. Qed.

(** The world in which the material is searched. *)
Definition scan_world (i : PushIdentity) (w : world) : world := fst (now_ env (perform (EMaterial (material_request i)) w)).

Lemma scan_delivery_outcome i started receiptAt w :
  find_receipt (pi_DeliveryID i) (sw_db w) <> None -> find_result (pi_DeliveryID i) (sw_db w) = None ->
  let severity := if cataloged i then recorded_severity (snd (find_in s env i (en_Material env (material_request i)) (scan_world i w)))
                  else "none" in
  let '(w', (r, e)) := scan_delivery s env i started receiptAt w in delivery_outcome i severity w w' r e.
Proof.
  intros Hrec Hno. unfold scan_delivery. rewrite <- negb_andb. fold (cataloged i). destruct (cataloged i); cbv iota zeta.
  - fold (material_request i). change (now_ env (perform (EMaterial (material_request i)) w))
      with (scan_world i w, en_clock env (sw_tick w)). cbv iota.
    pose proof (find_in_severity i (en_Material env (material_request i)) (scan_world i w)) as Hsev.
    pose proof (find_in_db i (en_Material env (material_request i)) (scan_world i w)) as Hdb.
    destruct (find_in s env i _ (scan_world i w)) as [w1 f]. cbn [fst snd] in *.
    change (now_ env w1) with (w1 <| sw_tick ::= S |>, en_clock env (sw_tick w1)). cbv iota.
    match goal with |- context [finding_result env ?r f ?w] => set (r0 := r); set (w2 := w) end.
    destruct (finding_result env r0 f w2) as [w3 r1] eqn:E1. destruct (request_alert env i r1 f w3) as [w4 [r2 event]] eqn:E2.
    destruct (finding_recordable i r0 f w2 w3 r1 w4 r2 event Hsev E1 E2 eq_refl) as (Hr & Hid & Hw & Hs2).
    assert (Ew : sw_db w4 = sw_db w) by (rewrite Hw; exact Hdb).
    pose proof (record_outcome i r2 event w4) as H. rewrite Ew in H. specialize (H Hrec Hno Hid Hr).
    destruct (on_db (RecordResult r2 event) w4) as [w5 [u|x|]].
    + destruct H as [Hst Hheld]. pose proof (side_effects_outcome i r2 w w5 Hst Hheld Hid) as Ho.
      destruct (runSideEffects env i r2 w5) as [w6 [r3 e]]. unfold recorded_severity. by rewrite <- Hs2.
    + left. done.
    + left. done.
  - match goal with |- context [RecordResult ?x None] => set (r0 := x) end.
    pose proof (record_outcome i r0 None w Hrec Hno eq_refl) as H.
    assert (Hr : recordable r0 None) by (left; repeat split; cbn; set_solver). specialize (H Hr).
    destruct (on_db (RecordResult r0 None) w) as [w5 [u|x|]].
    + destruct H as [Hst (row & Hrow & Hsv)]. right. split; [done|]. split; [done|]. by exists row.
    + left. done.
    + left. done.
Qed.

Lemma load_result_held id db r : load_result id db = Some r -> sr_DeliveryID r = id /\ held r db.
Proof.
  unfold load_result. destruct (find_result id db) as [row|] eqn:E; [|done]. destruct (find_receipt id db) as [d|]; [|done].
  intros [= <-]. pose proof E as E'. apply first_where_Some in E' as [_ Hk]. apply bool_decide_eq_true in Hk. cbn. split; [done|].
  exists row. cbn. by rewrite Hk.
Qed.

Lemma load_result_none id db : find_receipt id db <> None -> load_result id db = None -> find_result id db = None.
Proof. unfold load_result. destruct (find_result id db), (find_receipt id db); done. Qed.

(** The database and the world after the receipt. *)
Definition received (i : PushIdentity) (w : world) : world :=
  fst (on_db (RecordReceipt i (en_clock env (sw_tick w))) (fst (now_ env w))).

Lemma Process_cases i w :
  let '(w', (r, e)) := Process s env i w in
  (r = zero_result /\ e <> None /\ (w' = w \/ w' = received i w))
  \/ (exists severity, delivery_outcome i severity (received i w) w' r e
      /\ (load_result (pi_DeliveryID i) (sw_db (received i w)) = None ->
          severity = if cataloged i
                     then recorded_severity (snd (find_in s env i (en_Material env (material_request i)) (scan_world i (received i w))))
                     else "none")).
Proof.
  unfold Process. destruct (incomplete s); [left; auto|].
  change (now_ env w) with (w <| sw_tick ::= S |>, en_clock env (sw_tick w)). cbv iota.
  pose proof (RecordReceipt_found i (en_clock env (sw_tick w)) (sw_db w)) as Hfound.
  destruct (on_db (RecordReceipt i (en_clock env (sw_tick w))) (w <| sw_tick ::= S |>)) as [w1 o] eqn:E.
  assert (Ew : w1 = received i w).
  { unfold received. change (fst (now_ env w)) with (w <| sw_tick ::= S |>). by rewrite E. }
  assert (Ho : snd (RecordReceipt i (en_clock env (sw_tick w)) (sw_db w)) = o
               /\ sw_db w1 = fst (RecordReceipt i (en_clock env (sw_tick w)) (sw_db w))).
  { unfold on_db in E. change (sw_db (w <| sw_tick ::= S |>)) with (sw_db w) in E.
    destruct (RecordReceipt i _ (sw_db w)) as [db o']. injection E as <- <-. done. }
  destruct Ho as [Ho Hdb]. rewrite <- Ew. destruct o as [[[receiptAt observed] replay]|x|]; [|left; auto..].
  assert (Hrec : find_receipt (pi_DeliveryID i) (sw_db w1) <> None) by (rewrite Hdb; eapply Hfound, Ho).
  destruct (load_result (pi_DeliveryID i) (sw_db w1)) as [existing|] eqn:El.
  - apply load_result_held in El as [Hid Hheld].
    pose proof (side_effects_outcome i existing w1 w1 (rtc_refl _ _) Hheld Hid) as H.
    destruct (runSideEffects env i existing w1) as [w2 [r2 e]]. right. by exists (sr_Severity existing).
  - pose proof (scan_delivery_outcome i (en_clock env (sw_tick w)) receiptAt w1 Hrec (load_result_none _ _ Hrec El)) as H.
    destruct (scan_delivery s env i _ receiptAt w1) as [w2 [r2 e]]. right. eexists. split; [exact H|done].
Qed.

Lemma received_step i w : push_steps (sw_db w) (sw_db (received i w)).
Proof.
  unfold received, on_db. cbn. pose proof (step_receipt (sw_db w) i (en_clock env (sw_tick w))) as H.
  destruct (RecordReceipt i _ (sw_db w)). by apply rtc_once.
Qed.

Lemma received_results i w : push_results (sw_db (received i w)) = push_results (sw_db w).
Proof.
  unfold received, on_db. cbn. unfold RecordReceipt. destruct (2 ^ 63 <=? _); [done|].
  destruct (find_receipt _ _) as [r|]; [by destruct (negb _)|done].
Qed.

Lemma Process_steps i w : push_steps (sw_db w) (sw_db (fst (Process s env i w))).
Proof.
  pose proof (Process_cases i w) as H. pose proof (received_step i w) as Hr. destruct (Process s env i w) as [w' [r e]]. cbn [fst].
  unfold delivery_outcome in H.
  destruct H as [(_ & _ & [-> | ->])|(severity & [(_ & _ & ->)|(_ & Hs & _)] & _)]; [done..|]. by etrans.
Qed.

(** ** Maintenance *)

Lemma reconcile_one_steps id w : push_steps (sw_db w) (sw_db (fst (reconcile_one env id w))).
Proof.
  unfold reconcile_one. destruct (load_identity id (sw_db w)) as [i|e|]; [|done|done].
  destruct (load_result id (sw_db w)) as [r|] eqn:E; [|done]. apply load_result_held in E as [_ Hheld].
  pose proof (completeResponse_steps i r w Hheld) as H. by destruct (completeResponse env i r w) as [w' [r' e]].
Qed.

Lemma reconcile_all_steps ids w : push_steps (sw_db w) (sw_db (fst (reconcile_all env ids w))).
Proof.
  revert w. induction ids as [|id ids IH]; intros w; cbn [reconcile_all]; [done|].
  pose proof (reconcile_one_steps id w) as H. destruct (reconcile_one env id w) as [w1 e]. pose proof (IH w1) as H1.
  destruct (reconcile_all env ids w1) as [w2 errors]. by etrans.
Qed.

Lemma Reconcile_steps w : push_steps (sw_db w) (sw_db (fst (Reconcile env w))).
Proof.
  unfold Reconcile. pose proof (flushEvents_steps w) as H. destruct (flushEvents env w) as [w1 e]. cbn in H |- *.
  match goal with |- context [reconcile_all env ?ids ?w2] =>
    pose proof (reconcile_all_steps ids w2) as H2; destruct (reconcile_all env ids w2) as [w3 errors] end.
  cbn in *. etrans; [done|]. eapply rtc_l; [apply (step_overdue _ (en_clock env (sw_tick w1)))|done].
Qed.

Lemma Startup_steps m w : push_steps (sw_db w) (sw_db (fst (Startup env m w))).
Proof.
  unfold Startup. destruct (maintenance_invalid m); [done|]. cbn.
  match goal with |- context [Reconcile env ?w1] => pose proof (Reconcile_steps w1) as H; destruct (Reconcile env w1) end.
  cbn in *. eapply rtc_l; [apply (step_prune _ (en_clock env (sw_tick w)))|done].
Qed.

Lemma RunDue_steps m w : push_steps (sw_db w) (sw_db (fst (RunDue env m w))).
Proof.
  unfold RunDue. destruct (maintenance_invalid m); [done|]. destruct (_ || _); [done|]. cbn.
  set (db1 := if negb (_ <? mn_nextFingerprintPrune m) then _ else _).
  assert (H1 : push_steps (sw_db w) db1) by (unfold db1; destruct (negb _); [apply rtc_once, step_prune|done]).
  destruct (negb (_ <? mn_nextReconcile m)); [|done].
  match goal with |- context [Reconcile env ?w1] => pose proof (Reconcile_steps w1) as H; destruct (Reconcile env w1) end.
  by etrans.
Qed.

(** ** Deliveries *)

Lemma consume_steps data sequence w : push_steps (sw_db w) (sw_db (fst (consume s env data sequence w))).
Proof.
  unfold consume. destruct (Unmarshal_signal data) as [signal|]; [|done]. destruct sequence as [seq|]; [|done].
  destruct (negb _); [done|]. destruct (IdentityFromSignal signal seq) as [i|e|]; [|done|done].
  pose proof (Process_steps i w) as H. destruct (Process s env i w) as [w' [r [e|]]]; [|done]. by destruct (_ == "").
Qed.
End Program.

(** ** The registry *)

Lemma registry_steps h ready route call db : push_steps db (fst (Registry_Handler h ready route call db)).
Proof.
  destruct route as [| | |id]; cbn [Registry_Handler]; [done|by destruct ready|..].
  - unfold registry_register. destruct (negb _); [done|]. destruct (decodeRegistryRequest _ call) as [input|]; [|done].
    destruct (_ || _); [done|]. destruct (StdStrict _) as [digest|]; [|done].
    pose proof (step_register db (bytes_of digest) (registration_of h input)) as H.
    destruct (RegisterFingerprint _ _ db) as [db' [u|e|]]; cbn in *; [by apply rtc_once| |by apply rtc_once].
    destruct (e == _); by apply rtc_once.
  - unfold registry_transition. destruct (negb _); [done|]. destruct (negb _); [done|].
    destruct (decodeRegistryRequest _ call) as [state|]; [|done]. destruct (_ && _); [done|].
    pose proof (step_transition db id state) as H.
    destruct (TransitionFingerprintState id state db) as [db' [u|e|]]; cbn in *; by apply rtc_once.
Qed.

(** ** Runs of the command *)

(** A step of the command: a delivery, maintenance, or a request to the
    registry. *)
Inductive push_run : PushDB -> PushDB -> Prop :=
  | run_consume s env data sequence w : push_run (sw_db w) (sw_db (fst (consume s env data sequence w)))
  | run_startup env m w : push_run (sw_db w) (sw_db (fst (Startup env m w)))
  | run_due env m w : push_run (sw_db w) (sw_db (fst (RunDue env m w)))
  | run_registry h ready route call db : push_run db (fst (Registry_Handler h ready route call db)).

Lemma push_run_steps db db' : rtc push_run db db' -> push_steps db db'.
Proof.
  induction 1 as [|db1 db2 db3 H _ IH]; [done|]. etrans; [|done]. destruct H.
  - apply consume_steps.
  - apply Startup_steps.
  - apply RunDue_steps.
  - apply registry_steps.
Qed.

(** C34: In every database the scanner reaches, deliveries, events, fingerprint ids and fingerprints
    are unique, every result has the receipt of its delivery, its status fits its severity, and every
    finding has its alert in the outbox. *)
Theorem push_database_invariant db : rtc push_run empty_push db -> push_inv db.
Proof. intros H. apply push_run_steps in H. apply (push_steps_inv _ _ H), push_inv_empty. Qed.

(** C35: Whatever the scanner does later, a receipt stays as it was recorded, the verdict on a delivery
    does not change and its status moves at most once, from waiting for the broker to its finding, and an
    event stays in the outbox with the payload and the time it was first published. *)
Theorem push_verdict_final db db' : rtc push_run db db' -> push_le db db'.
Proof. intros H. by apply push_steps_le, push_run_steps. Qed.

(** ** Searches *)

Lemma received_fingerprints env i w : push_fingerprints (sw_db (received env i w)) = push_fingerprints (sw_db w).
Proof.
  unfold received, on_db. cbn. unfold RecordReceipt. destruct (2 ^ 63 <=? _); [done|].
  destruct (find_receipt _ _) as [r|]; [by destruct (negb _)|done].
Qed.

Lemma exposed_fingerprints s clock db db' v : push_fingerprints db' = push_fingerprints db -> exposed s clock db v -> exposed s clock db' v.
Proof. intros E. unfold exposed, issued. by rewrite E. Qed.

(** The material was complete, and no exposed value is hidden in it. *)
Definition quiet_material (s : Scanner) (clock : nat -> Z) (db : PushDB) (i : PushIdentity) (answer : Material + material_error) : Prop :=
  exists m values, answer = inl m /\ exactMaterialIdentity m i = true /\ mt_Complete m = true /\ material_values s m = Ok values
    /\ forall n v, hides values n v -> n <= bd_MaxDecodeDepth (sn_Bounds s) -> ~ exposed s clock db v.

Lemma find_in_quiet s env i answer w :
  fd_Severity (snd (find_in s env i answer w)) <> "high" -> quiet_material s (en_clock env) (sw_db w) i answer.
Proof.
  unfold find_in. destruct answer as [m|[code|text]]; [|intros H; by destruct H..].
  destruct (exactMaterialIdentity m i) eqn:E1; cbn [negb]; [|intros H; by destruct H].
  destruct (mt_Complete m) eqn:E2; cbn [negb]; [|intros H; by destruct H].
  unfold scanMaterial. destruct (material_values s m) as [values|e|] eqn:E3; [|intros H; by destruct H..]. intros H.
  exists m, values. repeat split; [done..|]. intros n v Hh Hn He.
  pose proof (scanValues_complete s (en_clock env) i (sw_db w) values (sw_tick w) n v) as Hc.
  destruct (scanValues s (en_clock env) i values (sw_db w) (sw_tick w)) as [tick [f|e|]]; cbn in H; [|by destruct H..].
  destruct H. by apply Hc.
Qed.

(** A push outside the catalog is recorded as such, and nobody is asked about it. *)
Lemma Process_uncataloged s env i w :
  find_result (pi_DeliveryID i) (sw_db w) = None -> cataloged s i = false ->
  let w' := fst (Process s env i w) in
  sw_effects w' = sw_effects w /\
  forall row, find_result (pi_DeliveryID i) (sw_db w') = Some row -> rr_status row = "rejected_catalog" /\ rr_severity row = "none".
Proof.
  intros Hno Hc. cbv zeta. unfold Process. destruct (incomplete s); [split; [done|]; cbn; congruence|].
  change (now_ env w) with (w <| sw_tick ::= S |>, en_clock env (sw_tick w)). cbv iota.
  set (w0 := w <| sw_tick ::= S |>). set (t := en_clock env (sw_tick w)).
  assert (Hr : push_results (fst (RecordReceipt i t (sw_db w))) = push_results (sw_db w)) by (rewrite <- (received_results env i w); unfold received, on_db; cbn; by destruct (RecordReceipt i _ (sw_db w))).
  assert (Eo : on_db (RecordReceipt i t) w0 = (w0 <| sw_db := fst (RecordReceipt i t (sw_db w)) |>, snd (RecordReceipt i t (sw_db w)))).
  { unfold on_db. change (sw_db w0) with (sw_db w). by destruct (RecordReceipt i t (sw_db w)). }
  rewrite Eo. clear Eo. destruct (RecordReceipt i t (sw_db w)) as [db1 o]. cbn [fst snd] in *.
  assert (Hn1 : find_result (pi_DeliveryID i) db1 = None) by (unfold find_result; by rewrite Hr).
  destruct o as [[[receiptAt observed] replay]|x|]; cbn [fst sw_db sw_effects]; [|split; [done|]; intros row Hrow; change (find_result (pi_DeliveryID i) db1 = Some row) in Hrow; congruence..].
  cbv zeta iota. change (sw_db (w0 <| sw_db := db1 |>)) with db1. unfold load_result. rewrite Hn1. unfold scan_delivery. rewrite <- negb_andb. fold (cataloged s i). rewrite Hc. cbn [negb].
  unfold on_db, RecordResult, transact. cbn [fst snd sw_db sw_effects]. split; [done|].
  match goal with |- context [insert_result ?x _] => set (r := x) end. intros row Hrow.
  change (find_result (pi_DeliveryID i) (insert_result r db1) = Some row) in Hrow. unfold insert_result in Hrow.
  change (sr_DeliveryID r) with (pi_DeliveryID i) in Hrow. rewrite Hn1 in Hrow. unfold find_result in Hrow, Hn1.
  apply first_where_Some in Hrow as [Hin Hk]. apply elem_of_app in Hin as [Hin|Hin].
  - rewrite first_where_None in Hn1. rewrite Hn1 in Hk by done. done.
  - apply list_elem_of_singleton in Hin. by subst row.
Qed.

(** C31: When the first processing of a delivery records anything but a high finding, then either the push
    is outside the catalog, the verdict says so and nobody was asked for its material, or the broker had
    answered with the complete material of that push, within the bounds, and neither a canary nor an issued
    token is hidden in it under at most [MaxDecodeDepth] reversible encodings. *)
Theorem quiet_results_were_searched s env i w row :
  find_result (pi_DeliveryID i) (sw_db w) = None ->
  let w' := fst (Process s env i w) in
  find_result (pi_DeliveryID i) (sw_db w') = Some row -> rr_severity row <> "high" ->
  if cataloged s i
  then quiet_material s (en_clock env) (sw_db w) i (en_Material env (material_request i))
  else rr_status row = "rejected_catalog" /\ sw_effects w' = sw_effects w.
Proof.
  intros Hno. destruct (cataloged s i) eqn:Hc.
  2: { destruct (Process_uncataloged s env i w Hno Hc) as [He Hr]. intros w' Hrow _. split; [by apply Hr|done]. }
  cbv zeta. pose proof (Process_cases s env i w) as H. destruct (Process s env i w) as [w' [r e]]. cbn [fst]. intros Hrow Hsev.
  assert (Hrcv : find_result (pi_DeliveryID i) (sw_db (received env i w)) = None).
  { unfold find_result in *. by rewrite received_results. }
  destruct H as [(_ & _ & [-> | ->])|(severity & Ho & Hs)]; [congruence..|].
  rewrite Hc in Hs. assert (El : load_result (pi_DeliveryID i) (sw_db (received env i w)) = None) by (unfold load_result; by rewrite Hrcv).
  specialize (Hs El). destruct Ho as [(_ & _ & E)|(_ & _ & row' & Hrow' & Hsev')]; [rewrite E in Hrow; congruence|].
  assert (row' = row) as -> by congruence.
  assert (Hq : quiet_material s (en_clock env) (sw_db (received env i w)) i (en_Material env (material_request i))).
  { apply (find_in_quiet s env i _ (scan_world env i (received env i w))). intros Hf. apply Hsev. rewrite Hsev', Hs. unfold recorded_severity.
    by rewrite Hf. }
  destruct Hq as (m & values & ? & ? & ? & ? & Hall). exists m, values. repeat split; [done..|]. intros n v Hh Hn He.
  apply (Hall n v Hh Hn). by apply (exposed_fingerprints _ _ (sw_db w)), He; apply received_fingerprints.
Qed.

(** ** Acknowledgements *)

Lemma identity_delivery signal seq i :
  IdentityFromSignal signal seq = Ok i -> pi_DeliveryID i = m_SourceDeliveryID (sg_Meta signal) /\ pi_DeliveryID i <> "".
Proof.
  unfold IdentityFromSignal. intros H. apply bind_ok in H as ([] & Hg & [= <-]). apply guard_err_ok in Hg. cbn. split; [done|].
  apply orb_false_iff in Hg as [[[[[[[_ Hd]%orb_false_iff _]%orb_false_iff _]%orb_false_iff _]%orb_false_iff _]%orb_false_iff _]%orb_false_iff _].
  by apply bool_decide_eq_false in Hd.
Qed.

(** C30: A message is acknowledged only when it is not a push, or when the result of its delivery is
    in the database, with its receipt and, for a finding, its alert; a message that cannot be a signed push is
    discarded without any change; and a message is redelivered only when no result was recorded. *)
Theorem push_acknowledged_durable s env data sequence w :
  push_inv (sw_db w) ->
  let '(w', reply) := consume s env data sequence w in
  match reply with
  | MsgAck => exists signal, Unmarshal_signal data = Some signal
                /\ (m_SourceEvent (sg_Meta signal) = "push" ->
                    exists row, find_result (m_SourceDeliveryID (sg_Meta signal)) (sw_db w') = Some row /\ accounted (sw_db w') row)
  | MsgTerm => w' = w
  | MsgNak delay => delay = scanRetryDelay /\ push_results (sw_db w') = push_results (sw_db w)
  end.
Proof.
  intros HI. pose proof (consume_steps s env data sequence w) as Hst. revert Hst. unfold consume.
  destruct (Unmarshal_signal data) as [signal|]; [|done]. destruct sequence as [seq|]; [|done].
  destruct (m_SourceEvent (sg_Meta signal) != "push") eqn:Ep.
  { intros _. exists signal. split; [done|]. intros E. by rewrite E in Ep. }
  destruct (IdentityFromSignal signal seq) as [i|e|] eqn:Ei; [|done|done].
  apply identity_delivery in Ei as [Hid Hne]. pose proof (Process_cases s env i w) as H.
  pose proof (received_results env i w) as Hres. destruct (Process s env i w) as [w' [r e]].
  destruct H as [(-> & He & Hw)|(severity & Ho & _)].
  - destruct e as [e|]; [|done]. cbn. intros _. split; [done|]. by destruct Hw as [-> | ->].
  - destruct Ho as [(Hd & He & Edb)|(Hd & Hs & row & Hrow & _)].
    + destruct e as [e|]; [|done]. rewrite Hd. cbn. intros _. split; [done|]. by rewrite Edb.
    + rewrite bool_decide_eq_false_2 by congruence.
      assert (Hgoal : push_steps (sw_db w) (sw_db w') -> exists signal0, Some signal = Some signal0
                /\ (m_SourceEvent (sg_Meta signal0) = "push" ->
                    exists row, find_result (m_SourceDeliveryID (sg_Meta signal0)) (sw_db w') = Some row /\ accounted (sw_db w') row)).
      { intros Hst. exists signal. split; [done|]. intros _. rewrite <- Hid. exists row. split; [done|].
        apply (inv_accounted _ (push_steps_inv _ _ Hst HI)). by apply first_where_Some in Hrow as [? _]. }
      by destruct e.
Qed.

(** ** Samples *)

(** A scanner, a clock that moves one second at each reading, and a broker that hands
    out the material of a push and halts the issuance. *)
Definition sample_sha : string := "0123456789abcdef0123456789abcdef01234567".
Definition sample_scanner : Scanner :=
  mkScanner "0123456789abcdef0123456789abcdef" (mkScanBounds 10 10 50 2 1000 1000) "profile" 1 zero_attribution ["owner/repo"] ["refs/heads/main"].
Definition sample_clock (n : nat) : Z := 1782864000 * Second + Z.of_nat n * Second.
Definition sample_material (message : string) (r : MaterialRequest) : Material + material_error :=
  inl (mkMaterial WireVersion (mq_DeliveryID r) (mq_Repository r) (mq_Ref r) (mq_Before r) (mq_After r) true
         (mkMaterialBounds 1 0 (len message)) (Some [mkCommit sample_sha message]) None "").
Definition sample_env (message : string) : environment :=
  mkEnvironment (sample_material message)
    (fun _ r => inl (mkResponseResult WireVersion (rq_FindingID r) false (Some [mkActionResult "halt_issuance" "halted" (sample_clock 20)])))
    (Some (fun _ => None)) sample_clock.
Definition sample_push : string :=
  quoted "{'meta':{'source':'github','source_event':'push','source_delivery_id':'d-1','namespace':'owner/repo','source_ref':'refs/heads/main','source_before_revision':'0123456789abcdef0123456789abcdef01234567','source_after_revision':'0123456789abcdef0123456789abcdef01234567','received_at':'2026-07-01T00:00:00Z','authentication':{'method':'github_hmac_sha256','verified':true}},'payload':{}}".
Definition sample_world : world := mkWorld empty_push 0 [].

(** A canary in hexadecimal, and one in base64 inside hexadecimal. *)
Definition hex_canary : string := "505231302d43524544454e5449414c2d43414e4152593a736563726574".
Definition summary (w : world) : list (string * string * string) :=
  map (fun r => (rr_status r, rr_severity r, rr_reason_code r)) (push_results (sw_db w)).

Example consume_canary :
  let '(w, reply) := consume sample_scanner (sample_env ("see " ++ hex_canary)) sample_push (Some 7) sample_world in
  (summary w, reply, length (sw_effects w), map (fun e => pe_published_at e != None) (push_events (sw_db w)))
  = ([("finding_high", "high", "seeded_canary_match")], MsgAck, 3%nat, [true]).
Proof. vm_compute. reflexivity. Qed.

Example consume_clean :
  let '(w, reply) := consume sample_scanner (sample_env "fix a typo") sample_push (Some 7) sample_world in
  (summary w, reply, length (push_events (sw_db w))) = ([("clean", "none", "clean")], MsgAck, 0%nat).
Proof. vm_compute. reflexivity. Qed.

Definition sample_identity : PushIdentity :=
  mkPushIdentity "d-1" "owner/repo" "refs/heads/main" sample_sha sample_sha None None (1782864000 * Second) 7.
Definition scanned (message : string) : PushDB := sw_db (fst (Process sample_scanner (sample_env message) sample_identity sample_world)).

Lemma push_database_invariant_witness :
  push_inv (sw_db (fst (consume sample_scanner (sample_env ("see " ++ hex_canary)) sample_push (Some 7) sample_world))).
Proof. exact (push_database_invariant _ (rtc_once _ _ (run_consume sample_scanner (sample_env ("see " ++ hex_canary)) sample_push (Some 7) sample_world))). Defined.

Lemma push_verdict_final_witness :
  push_le (scanned "fix a typo")
    (sw_db (fst (consume sample_scanner (sample_env ("see " ++ hex_canary)) sample_push (Some 8) (mkWorld (scanned "fix a typo") 9 [])))).
Proof. exact (push_verdict_final _ _ (rtc_once _ _ (run_consume sample_scanner (sample_env ("see " ++ hex_canary)) sample_push (Some 8) (mkWorld (scanned "fix a typo") 9 [])))). Defined.

Lemma quiet_results_were_searched_witness :
  quiet_material sample_scanner sample_clock empty_push sample_identity (sample_material "fix a typo" (material_request sample_identity)).
Proof.
  refine (quiet_results_were_searched sample_scanner (sample_env "fix a typo") sample_identity sample_world
            (default (new_result_row zero_result) (find_result "d-1" (scanned "fix a typo"))) _ _ _).
  - reflexivity.
  - vm_compute. reflexivity.
  - vm_compute. discriminate.
Defined.

Lemma push_acknowledged_durable_witness :
  let '(w', reply) := consume sample_scanner (sample_env "fix a typo") sample_push (Some 7) sample_world in
  match reply with
  | MsgAck => exists signal, Unmarshal_signal sample_push = Some signal
                /\ (m_SourceEvent (sg_Meta signal) = "push" ->
                    exists row, find_result (m_SourceDeliveryID (sg_Meta signal)) (sw_db w') = Some row /\ accounted (sw_db w') row)
  | MsgTerm => w' = sample_world
  | MsgNak delay => delay = scanRetryDelay /\ push_results (sw_db w') = push_results (sw_db sample_world)
  end.
Proof. exact (push_acknowledged_durable sample_scanner (sample_env "fix a typo") sample_push (Some 7) sample_world push_inv_empty). Defined.
