(* ===== verification/RouteResolver.v ===== *)
(** * The route resolver

    [internal/routeresolver]: the route table of a deployment, which maps the
    domain facts that emitters state to an agent type, a mode and the ledger
    snapshot that admits them.  The decoder of the YAML text of a table is a
    parameter; the text of an error omits the values the source interpolates. *)

From S2P Require Import Prelude GoText GoSha256 GoJson LedgerModel.
From stdpp Require Import gmap.
From Stdlib Require Import Ascii.
Open Scope string_scope.
Open Scope Z_scope.
Open Scope go_scope.

(** ** The table *)

Record RouteEntry := mkRouteEntry {
  re_Fact : string; re_AgentType : string; re_Mode : string; re_RouteID : string; re_RouteSnapshotID : string;
  re_ContractRevision : string }.
#[export] Instance RouteEntry_eta : Eta RouteEntry := fun r =>
  mkRouteEntry (re_Fact r) (re_AgentType r) (re_Mode r) (re_RouteID r) (re_RouteSnapshotID r) (re_ContractRevision r).
#[export] Instance RouteEntry_eq_dec : EqDecision RouteEntry.
Proof. solve_decision. Defined.

Record RouteConfig := mkRouteConfig { rc_Version : Z; rc_Routes : list RouteEntry }.

Definition Fact (event : Event) : string :=
  if Action event == "" then EventKind event else EventKind event ++ "." ++ Action event.

(** [[a-z][a-z0-9_]*] *)
Definition fact_part (s : string) : bool :=
  match s with
  | EmptyString => false
  | String c r => is_lower c && all_chars (fun x => is_lower x || is_digit x || is_char "_"%char x) r
  end.
Definition factPattern (s : string) : bool :=
  match cut_at "."%char s with
  | None => fact_part s
  | Some (kind, action) => fact_part kind && fact_part action
  end.
Definition kebabPattern : string -> bool := kebabIdentifier.
Definition snakePattern : string -> bool := snakeIdentifier.

Definition forbiddenFields : list string :=
  ["image"; "release"; "generation"; "digest"; "broker_run"; "broker_run_id"; "resolved_release";
   "resolved_release_generation"; "resolved_release_digest"].

(** The checks of one route, after those of its fact. *)
Definition validate_entry (route : RouteEntry) : res unit :=
  _ ← guard_err (negb (kebabPattern (re_AgentType route))) "route agent_type must be a bounded kebab-case identifier";
  _ ← guard_err (negb (snakePattern (re_Mode route))) "route mode must be a bounded snake_case identifier";
  let hasRouteID := re_RouteID route != "" in
  let hasSnapshotID := re_RouteSnapshotID route != "" in
  _ ← guard_err (Bool.eqb hasRouteID hasSnapshotID) "route requires exactly one of route_id or route_snapshot_id";
  _ ← guard_err (hasRouteID && negb (kebabPattern (re_RouteID route))) "route route_id must be a bounded kebab-case identifier";
  _ ← guard_err (hasSnapshotID && (256 <? len (re_RouteSnapshotID route))) "route route_snapshot_id is oversized";
  guard_err (256 <? len (re_ContractRevision route)) "route contract_revision is oversized".

(** The loop over the routes; [seen] are the facts before. *)
Fixpoint validate_routes (seen : gset string) (routes : list RouteEntry) : res unit :=
  match routes with
  | [] => Ok tt
  | route :: rest =>
      _ ← guard_err (negb (factPattern (re_Fact route))) "route fact is not a bounded domain-fact identifier";
      _ ← guard_err (bool_decide (re_Fact route ∈ seen)) "route config declares duplicate fact";
      _ ← validate_entry route;
      validate_routes ({[re_Fact route]} ∪ seen) rest
  end.

Definition RouteConfig_Validate (c : RouteConfig) : res unit :=
  _ ← guard_err (rc_Version c <=? 0) "route config version must be positive";
  _ ← guard_err (rc_Routes c == []) "route config must declare at least one route";
  validate_routes ∅ (rc_Routes c).

(** A missing key of the map reads as the empty text. *)
Fixpoint bind_routes (snapshotByRouteID : gmap string string) (routes : list RouteEntry) : res (list RouteEntry) :=
  match routes with
  | [] => Ok []
  | route :: rest =>
      route' ← if re_RouteID route == "" then Ok route
               else
                 let snapshotID := default "" (snapshotByRouteID !! re_RouteID route) in
                 _ ← guard_err (snapshotID == "") "route references route_id without a dispatcher activation";
                 Ok (route <| re_RouteID := "" |> <| re_RouteSnapshotID := snapshotID |>);
      rest' ← bind_routes snapshotByRouteID rest;
      Ok (route' :: rest')
  end.

Definition BindSnapshots (c : RouteConfig) (snapshotByRouteID : gmap string string) : res RouteConfig :=
  _ ← RouteConfig_Validate c;
  routes ← bind_routes snapshotByRouteID (rc_Routes c);
  let bound := mkRouteConfig (rc_Version c) routes in
  _ ← RouteConfig_Validate bound;
  Ok bound.

(** ** The revision *)

(** [sort.Slice] by fact; the facts of a valid table are distinct, so there is
    one sorted order. *)
Fixpoint insert_entry (r : RouteEntry) (l : list RouteEntry) : list RouteEntry :=
  match l with
  | [] => [r]
  | x :: l' => if String.ltb (re_Fact r) (re_Fact x) then r :: l else x :: insert_entry r l'
  end.
Definition sort_entries (l : list RouteEntry) : list RouteEntry := fold_right insert_entry [] l.

Definition omitempty (name value : string) : list (string * json) := if value == "" then [] else [(name, JStr value)].

Definition entry_json (r : RouteEntry) : json :=
  JObj ([("fact", JStr (re_Fact r)); ("agent_type", JStr (re_AgentType r)); ("mode", JStr (re_Mode r))]
        ++ omitempty "route_id" (re_RouteID r) ++ omitempty "route_snapshot_id" (re_RouteSnapshotID r)
        ++ [("contract_revision", JStr (re_ContractRevision r))])%list.

(** [json.Marshal(config)] of a table with routes. *)
Definition Marshal_config (c : RouteConfig) : string :=
  marshal (JObj [("version", JNum (fmt_d (rc_Version c))); ("routes", JArr (map entry_json (rc_Routes c)))]).

Definition Revision (c : RouteConfig) : res string :=
  _ ← RouteConfig_Validate c;
  let canonical := mkRouteConfig (rc_Version c) (sort_entries (rc_Routes c)) in
  Ok ("routecfg:v" ++ fmt_d (rc_Version c) ++ ":" ++ sha256_hex (Marshal_config canonical)).

(** ** The resolver *)

Record Resolver := mkResolver { rv_revision : string; rv_byFact : gmap string RouteEntry }.

Section New.
Context `{GoUnicode}.

(** The interface [ModeCatalog]; [None] is a nil catalog. *)
Definition ModeCatalog : Type := string -> string -> bool.

Definition carries_field (lowered field : string) : bool :=
  Contains lowered (String quote_mark (field ++ String quote_mark "")).

Fixpoint index_routes (catalog : ModeCatalog) (routes : list RouteEntry) (byFact : gmap string RouteEntry)
    : res (gmap string RouteEntry) :=
  match routes with
  | [] => Ok byFact
  | route :: rest =>
      _ ← guard_err (negb (catalog (re_AgentType route) (re_Mode route))) "route selects mode not declared by AgentType";
      index_routes catalog rest (<[re_Fact route := route]> byFact)
  end.

Definition New (c : RouteConfig) (catalog : option ModeCatalog) : res Resolver :=
  match catalog with
  | None => Err "route resolver requires a mode catalog"
  | Some catalog =>
      _ ← RouteConfig_Validate c;
      _ ← guard_err (existsb (fun r => (re_RouteID r != "") || (re_RouteSnapshotID r == "")) (rc_Routes c))
            "route must be bound to a dispatcher-minted route_snapshot_id before resolver construction";
      let lowered := ToLower unicode_lower (Marshal_config c) in
      _ ← guard_err (existsb (carries_field lowered) forbiddenFields) "route config must not carry selection field";
      revision ← Revision c;
      byFact ← index_routes catalog (rc_Routes c) ∅;
      Ok (mkResolver revision byFact)
  end.
End New.

(** [sort.Strings]. *)
Fixpoint insert_string (s : string) (l : list string) : list string :=
  match l with
  | [] => [s]
  | x :: l' => if String.leb s x then s :: l else x :: insert_string s l'
  end.
Definition sort_strings (l : list string) : list string := fold_right insert_string [] l.

Definition RouteSnapshotIDs (r : Resolver) : list string :=
  sort_strings (elements (list_to_set (map (fun kv => re_RouteSnapshotID (snd kv)) (map_to_list (rv_byFact r))) : gset string)).

(** The routing decision for a fact. *)
Record Resolution := mkResolution { rn_Matched : bool; rn_RouteSnapshotID : string; rn_Binding : AgentBinding }.

(** The interface of the ingress. *)
Class RouteResolver (R : Type) := Resolve_fact : R -> Event -> res Resolution.

Definition Resolve_route (r : Resolver) (event : Event) : res Resolution :=
  match rv_byFact r !! Fact event with
  | None => Ok (mkResolution false "" zero_binding)
  | Some route =>
      Ok (mkResolution true (re_RouteSnapshotID route)
            (mkAgentBinding (re_AgentType route) (re_Mode route) (re_ContractRevision route) 0 "" "" "" 0))
  end.
#[export] Instance Resolver_Resolve : RouteResolver Resolver := Resolve_route.

(** ** The catalog *)

Definition StaticCatalog : Type := gmap string (gset string).

(** Iteration over the map is in the order of [map_to_list]; only which error is
    reported first depends on it. *)
Definition NewStaticCatalog (declared : gmap string (list string)) : res StaticCatalog :=
  fold_left (fun acc kv =>
    catalog ← acc;
    let '(agentType, modes) := kv in
    _ ← guard_err (negb (kebabPattern agentType)) "catalog agent_type must be a bounded kebab-case identifier";
    _ ← guard_err (existsb (fun m => negb (snakePattern m)) modes) "catalog mode must be a bounded snake_case identifier";
    Ok (<[agentType := list_to_set modes]> catalog)) (map_to_list declared) (Ok ∅).

Definition Declares (catalog : StaticCatalog) (agentType mode : string) : bool :=
  match catalog !! agentType with None => false | Some set => bool_decide (mode ∈ set) end.

Definition YouKnowMeCuratorCatalog : res StaticCatalog :=
  match NewStaticCatalog {[ "youknowme-curator" := ["process_intake"; "reconcile"] ]} with Ok c => Ok c | _ => Panic end.

(** [yaml.NewDecoder] with [KnownFields(true)], into a [Config]. *)
Class YamlConfig := yaml_Decode : string -> option RouteConfig.

Definition ParseConfig `{YamlConfig} (raw : string) : res RouteConfig :=
  config ← of_option "decode route config" (yaml_Decode raw);
  _ ← RouteConfig_Validate config;
  Ok config.
