(* ===== verification/Shadow.v ===== *)
(** * Shadow admission

    [internal/shadowadmit], [internal/shadowingress], [internal/shadowingresscmd]
    and [internal/routeactivatecmd], with the activation of routes in
    [cmd/github-task-dispatcher/main.go]: domain facts from local processes are
    admitted into the work ledger under a route the deployment chooses.  The
    files of the host, the credentials of a peer, the clock and the random ids
    are parameters.  The text of an error omits the values the source
    interpolates. *)

From S2P Require Import Prelude GoText GoSha256 GoJson GoNet LedgerModel LedgerStore Config WorkRouter RouteResolver.
From stdpp Require Import gmap.
From Stdlib Require Import Ascii.
Open Scope string_scope.
Open Scope Z_scope.
Open Scope go_scope.

(** ** The admission service: [shadowadmit.go] *)

Record Candidate := mkCandidate { cd_RouteSnapshotID : string; cd_Event : Event; cd_Binding : AgentBinding }.

Record ShadowOutcome := mkShadowOutcome {
  so_WorkItemID : string; so_EventID : string; so_Duplicate : bool; so_AgentType : string; so_AgentMode : string;
  so_TypeContractRevision : string; so_Launched : bool }.

Definition ErrDisabled : string := "shadow admission is disabled".

(** [Admit] of a service that is enabled or not. *)
Definition Shadow_Admit (enabled : bool) (c : Candidate) (now : Z) (work_id event_id : string) (db : Ledger)
    : Ledger * res ShadowOutcome :=
  if negb enabled then (db, Err ErrDisabled)
  else if cd_RouteSnapshotID c == "" then (db, Err "shadow admission requires a route snapshot id")
  else match RejectAdmissionSelection (cd_Binding c) with
       | Err e => (db, Err ("shadow admission: " ++ e))
       | Panic => (db, Panic)
       | Ok _ =>
           match AdmitWithAgent (cd_RouteSnapshotID c) (cd_Event c) (cd_Binding c) now work_id event_id db with
           | (db', Err e) => (db', Err e)
           | (db', Panic) => (db', Panic)
           | (db', Ok result) =>
               let item := ar_WorkItem result in
               (db', Ok (mkShadowOutcome (wi_ID item) (ar_EventID result) (ar_Duplicate result) (wi_AgentType item)
                           (wi_AgentMode item) (wi_TypeContractRevision item) false))
           end
       end.

(** ** The envelope: [envelope.go] *)

Definition MaxEnvelopeBytes : Z := 64 * 1024.
Definition ErrEnvelopeTooLarge : string := "shadow ingress envelope exceeds bound".
Definition ErrUnauthorizedPeer : string := "shadow ingress peer is not authorized".

Record ShadowEnvelope := mkShadowEnvelope {
  se_SignalID : string; se_SourceDeliveryID : string; se_TransportStream : string; se_TransportSeq : Z;
  se_Source : string; se_Namespace : string; se_ObjectKind : string; se_ObjectID : string; se_EventKind : string;
  se_Action : string; se_ActorClass : string; se_SourceRevision : string; se_PayloadDigest : string;
  se_EvidenceRef : string }.
#[export] Instance ShadowEnvelope_eta : Eta ShadowEnvelope := fun e =>
  mkShadowEnvelope (se_SignalID e) (se_SourceDeliveryID e) (se_TransportStream e) (se_TransportSeq e) (se_Source e)
    (se_Namespace e) (se_ObjectKind e) (se_ObjectID e) (se_EventKind e) (se_Action e) (se_ActorClass e)
    (se_SourceRevision e) (se_PayloadDigest e) (se_EvidenceRef e).

Definition zero_envelope : ShadowEnvelope := mkShadowEnvelope "" "" "" 0 "" "" "" "" "" "" "" "" "" "".

Definition envelope_fields : list string :=
  ["signal_id"; "source_delivery_id"; "transport_stream"; "transport_sequence"; "source"; "namespace"; "object_kind";
   "object_id"; "event_kind"; "action"; "actor_class"; "source_revision"; "payload_digest"; "evidence_ref"].

Definition set_envelope (n : string) (v : json) (e : ShadowEnvelope) : option ShadowEnvelope :=
  if n == "signal_id" then x ← decode_string v (se_SignalID e); Some (e <| se_SignalID := x |>)
  else if n == "source_delivery_id" then x ← decode_string v (se_SourceDeliveryID e); Some (e <| se_SourceDeliveryID := x |>)
  else if n == "transport_stream" then x ← decode_string v (se_TransportStream e); Some (e <| se_TransportStream := x |>)
  else if n == "transport_sequence" then x ← decode_uint v (se_TransportSeq e); Some (e <| se_TransportSeq := x |>)
  else if n == "source" then x ← decode_string v (se_Source e); Some (e <| se_Source := x |>)
  else if n == "namespace" then x ← decode_string v (se_Namespace e); Some (e <| se_Namespace := x |>)
  else if n == "object_kind" then x ← decode_string v (se_ObjectKind e); Some (e <| se_ObjectKind := x |>)
  else if n == "object_id" then x ← decode_string v (se_ObjectID e); Some (e <| se_ObjectID := x |>)
  else if n == "event_kind" then x ← decode_string v (se_EventKind e); Some (e <| se_EventKind := x |>)
  else if n == "action" then x ← decode_string v (se_Action e); Some (e <| se_Action := x |>)
  else if n == "actor_class" then x ← decode_string v (se_ActorClass e); Some (e <| se_ActorClass := x |>)
  else if n == "source_revision" then x ← decode_string v (se_SourceRevision e); Some (e <| se_SourceRevision := x |>)
  else if n == "payload_digest" then x ← decode_string v (se_PayloadDigest e); Some (e <| se_PayloadDigest := x |>)
  else x ← decode_string v (se_EvidenceRef e); Some (e <| se_EvidenceRef := x |>).

(** The fields the ledger needs; Go iterates over a map, and only which error is
    reported depends on the order. *)
Definition required_fields (e : ShadowEnvelope) : list string :=
  [se_SourceDeliveryID e; se_TransportStream e; se_Source e; se_Namespace e; se_ObjectKind e; se_ObjectID e;
   se_EventKind e; se_SourceRevision e; se_PayloadDigest e; se_EvidenceRef e].

Fixpoint check_required (values : list string) : res unit :=
  match values with
  | [] => Ok tt
  | value :: rest =>
      _ ← guard_err (value == "") "shadow ingress envelope missing field";
      _ ← guard_err (512 <? len value) "shadow ingress envelope field is oversized";
      check_required rest
  end.

Definition ShadowEnvelope_Validate (e : ShadowEnvelope) : res unit :=
  _ ← check_required (required_fields e);
  _ ← guard_err (existsb (fun value => 512 <? len value) [se_SignalID e; se_Action e; se_ActorClass e])
        "shadow ingress envelope field is oversized";
  guard_err (se_TransportSeq e =? 0) "shadow ingress envelope requires a positive transport sequence".

Definition ShadowEnvelope_Event (e : ShadowEnvelope) (now : Z) : Event :=
  mkEvent (se_SignalID e) (se_SourceDeliveryID e) (se_TransportStream e) (se_TransportSeq e) (se_Source e)
    (se_Namespace e) (se_ObjectKind e) (se_ObjectID e) (se_EventKind e) (se_Action e) (se_ActorClass e)
    (se_SourceRevision e) "" "" "" "" "" "" 0 None (se_PayloadDigest e) (se_EvidenceRef e) now.

Section Ingress.
Context `{GoFloat}.

(** The second [Decode] succeeds when another value starts after the first. *)
Definition trailing_value (rest : string) : bool :=
  match parse_first rest with
  | Some (v, _) => negb (bool_decide (decode_any v = None))
  | None => false
  end.

Definition DecodeEnvelope (raw : string) : res ShadowEnvelope :=
  if MaxEnvelopeBytes <? len raw then Err ErrEnvelopeTooLarge
  else match parse_first raw with
       | None => Err "decode shadow ingress envelope"
       | Some (v, rest) =>
           match decode_struct envelope_fields true set_envelope v zero_envelope with
           | None => Err "decode shadow ingress envelope"
           | Some envelope =>
               _ ← guard_err (trailing_value rest) "shadow ingress envelope has trailing content";
               _ ← ShadowEnvelope_Validate envelope;
               Ok envelope
           end
       end.

(** ** The server: [server.go] and [peercred_linux.go] *)

Record IngressConfig := mkIngressConfig { ig_Enabled : bool; ig_SocketPath : string; ig_AllowedUIDs : list Z }.

Definition authorizeUID (own peer : Z) (allowed : list Z) : res unit :=
  match allowed with
  | [] => guard_err (negb (peer =? own)) ErrUnauthorizedPeer
  | _ => guard_err (negb (existsb (fun uid => peer =? uid) allowed)) ErrUnauthorizedPeer
  end.

(** A connection: the credentials the kernel reports for the peer, the bytes it
    sends and how its stream ends. *)
Record connection := mkConnection { cn_Ucred : res Z; cn_Body : string; cn_ReadError : option string }.

Definition authorize (own : Z) (conn : connection) (allowed : list Z) : res unit :=
  uid ← cn_Ucred conn; authorizeUID own uid allowed.

Record IngressResult := mkIngressResult {
  rs_Matched : bool; rs_WorkItemID : string; rs_EventID : string; rs_Duplicate : bool; rs_Launched : bool }.

Definition newline : string := String (byte_of 10) "".
Definition result_text (r : IngressResult) : string :=
  marshal (JObj [("matched", JBool (rs_Matched r)); ("work_item_id", JStr (rs_WorkItemID r));
                 ("event_id", JStr (rs_EventID r)); ("duplicate", JBool (rs_Duplicate r));
                 ("launched", JBool (rs_Launched r))]) ++ newline.
Definition error_text (cause : string) : string := marshal (JObj [("error", JStr cause)]) ++ newline.

(** What is written back; a refused peer and a failed read get no reply. *)
Inductive ingress_reply :=
  | NoReply
  | ErrorReply (cause : string)
  | ResultReply (r : IngressResult).
Definition reply_text (r : ingress_reply) : string :=
  match r with NoReply => "" | ErrorReply cause => error_text cause | ResultReply r => result_text r end.

Section Server.
Context {R : Type} `{RouteResolver R}.

Record Server := mkServer { sv_cfg : IngressConfig; sv_admit_enabled : bool; sv_resolver : option R }.

(** A call through a nil interface panics. *)
Definition resolve_with (resolver : option R) (event : Event) : res Resolution :=
  match resolver with Some r => Resolve_fact r event | None => Panic end.

(** The admission of a decoded envelope; [Panic] of a callee ends the process. *)
Definition admit_envelope (server : Server) (envelope : ShadowEnvelope) (now admitted : Z) (work_id event_id : string)
    (db : Ledger) : Ledger * res ingress_reply :=
  let event := ShadowEnvelope_Event envelope now in
  match resolve_with (sv_resolver server) event with
  | Err e => (db, Ok (ErrorReply e))
  | Panic => (db, Panic)
  | Ok resolution =>
      if negb (rn_Matched resolution) then (db, Ok (ResultReply (mkIngressResult false "" "" false false)))
      else
        let candidate := mkCandidate (rn_RouteSnapshotID resolution) event (AdmissionBinding (rn_Binding resolution)) in
        match Shadow_Admit (sv_admit_enabled server) candidate admitted work_id event_id db with
        | (db', Err e) => (db', Ok (ErrorReply e))
        | (db', Panic) => (db', Panic)
        | (db', Ok outcome) =>
            (db', Ok (ResultReply (mkIngressResult true (so_WorkItemID outcome) (so_EventID outcome)
                                     (so_Duplicate outcome) (so_Launched outcome))))
        end
  end.

Definition handle (server : Server) (own : Z) (conn : connection) (now admitted : Z) (work_id event_id : string)
    (db : Ledger) : Ledger * res ingress_reply :=
  match authorize own conn (ig_AllowedUIDs (sv_cfg server)) with
  | Err _ => (db, Ok NoReply)
  | Panic => (db, Panic)
  | Ok _ =>
      match ReadAll_limit (MaxEnvelopeBytes + 1) (cn_Body conn) (cn_ReadError conn) with
      | inr _ => (db, Ok NoReply)
      | inl raw =>
          match DecodeEnvelope raw with
          | Err e => (db, Ok (ErrorReply e))
          | Panic => (db, Panic)
          | Ok envelope => admit_envelope server envelope now admitted work_id event_id db
          end
      end
  end.

Section Files.
Context `{FileSystem}.

Definition validateSocketPath (path : string) : res unit :=
  _ ← guard_err (path == "") "shadow ingress socket path is required when enabled";
  _ ← guard_err (negb (IsAbs path)) "shadow ingress socket path must be absolute";
  match os_Stat (Dir path) with
  | NotExist | StatError _ => Err "shadow ingress socket directory"
  | Stat info =>
      _ ← guard_err (negb (fi_IsDir info)) "shadow ingress socket directory is not a directory";
      guard_err (negb (Z.land (fi_Perm info) 18 =? 0)) "shadow ingress socket directory is group/world-writable"
  end.

(** Whether the path was removed, with the error. *)
Definition clearStaleSocket (path : string) : bool * res unit :=
  match os_Lstat path with
  | NotExist => (false, Ok tt)
  | StatError _ => (false, Err "shadow ingress inspect socket path")
  | Stat info =>
      if negb (fi_IsSocket info)
      then (false, Err "shadow ingress socket path exists and is not a unix socket; refusing to remove")
      else match os_Remove path with
           | Ok _ => (true, Ok tt)
           | Err _ => (false, Err "shadow ingress clear stale socket")
           | Panic => (false, Panic)
           end
  end.

(** A nil service or resolver is [None]; the service is whether it is enabled. *)
Definition NewServer (cfg : IngressConfig) (enrol : option bool) (resolver : option R) : res Server :=
  match enrol with
  | None => Err "shadow ingress requires a shadowadmit service"
  | Some enabled =>
      _ ← (if ig_Enabled cfg then
             _ ← guard_err (match resolver with Some _ => false | None => true end)
                   "shadow ingress requires a deployment-owned route resolver when enabled";
             validateSocketPath (ig_SocketPath cfg)
           else Ok tt);
      Ok (mkServer cfg enabled resolver)
  end.

(** [Serve] up to its listener: whether it starts listening. *)
Definition Serve_start (server : Server) : bool * res unit :=
  if negb (ig_Enabled (sv_cfg server)) then (false, Ok tt)
  else if negb (sv_admit_enabled server) then (false, Err "shadow ingress enabled but shadowadmit service is disabled")
  else match clearStaleSocket (ig_SocketPath (sv_cfg server)) with
       | (_, Ok _) => (true, Ok tt)
       | (_, e) => (false, e)
       end.
End Files.
End Server.
End Ingress.

Arguments Server : clear implicits.

(** ** The wiring: [shadowingresscmd/run.go] *)

(** A service that can serve: its server and the revision it reports. *)
Record ShadowService := mkShadowService { ss_server : Server Resolver; ss_revision : string }.

Section Build.
Context `{GoUnicode} `{YamlConfig} `{FileSystem}.

(** Every snapshot of the table is active. *)
Fixpoint verify_snapshots (ids : list string) (db : Ledger) : res unit :=
  match ids with
  | [] => Ok tt
  | id :: rest =>
      _ ← guard_err (negb (RouteSnapshotExists id db))
            "route config references route snapshot that is not active in the ledger";
      verify_snapshots rest db
  end.

(** [None] in the result is a disabled ingress; a nil map of snapshots is
    [None]. *)
Definition BuildWithStoreAndSnapshots (cfg : ShadowAdmissionConfig) (snapshotByRouteID : option (gmap string string))
    (catalog : option ModeCatalog) (db : Ledger) : res (option ShadowService) :=
  if negb (sc_Enabled cfg) || negb (si_Enabled (sc_Ingress cfg)) then Ok None
  else
    _ ← guard_err (si_RouteConfigPath (sc_Ingress cfg) == "")
          "shadow ingress requires shadow_admission.ingress.route_config_path when enabled";
    raw ← os_ReadFile (si_RouteConfigPath (sc_Ingress cfg));
    routeCfg ← ParseConfig raw;
    routeCfg ← match snapshotByRouteID with Some m => BindSnapshots routeCfg m | None => Ok routeCfg end;
    resolver ← New routeCfg catalog;
    _ ← verify_snapshots (RouteSnapshotIDs resolver) db;
    server ← NewServer (mkIngressConfig true (si_SocketPath (sc_Ingress cfg)) (si_AllowedUIDs (sc_Ingress cfg)))
               (Some true) (Some resolver);
    Ok (Some (mkShadowService server (rv_revision resolver))).

Definition BuildWithStore (cfg : ShadowAdmissionConfig) (catalog : option ModeCatalog) (db : Ledger)
    : res (option ShadowService) := BuildWithStoreAndSnapshots cfg None catalog db.

(** [Build] with the ledger [workledger.Open] finds at a path. *)
Definition Build (cfg : ShadowAdmissionConfig) (catalog : option ModeCatalog) (open : string -> res Ledger)
    : res (option ShadowService) :=
  if negb (sc_Enabled cfg) || negb (si_Enabled (sc_Ingress cfg)) then Ok None
  else
    _ ← guard_err (sc_DatabasePath cfg == "") "shadow ingress requires shadow_admission.database_path when enabled";
    db ← open (sc_DatabasePath cfg);
    BuildWithStore cfg catalog db.
End Build.

(** ** Activation: [routeactivatecmd/run.go] *)

Record ActivateOptions := mkActivateOptions {
  op_RouteDefinitionJSON : string; op_Executor : ExecutorDescriptor; op_AllowSupersede : bool }.

Record ActivateOutcome := mkActivateOutcome {
  ao_RouteSnapshotID : string; ao_RouteID : string; ao_Digest : string; ao_AlreadyActive : bool; ao_Superseded : bool;
  ao_PreviousRouteSnapshotID : string }.

(** What is decided before the write: the definition, its digest and the active
    snapshot of its route. *)
Definition activation_preflight (opts : ActivateOptions) (db : Ledger)
    : res (RouteDefinition * string * option snapshot_row) :=
  definition ← DecodeRouteDefinition (op_RouteDefinitionJSON opts);
  _ ← ExecutorDescriptor_Validate (op_Executor opts);
  _ ← guard_err (rd_ExecutorID definition != ed_ID (op_Executor opts))
        "route definition executor_id does not match executor descriptor id";
  wantDigest ← activationDigest definition (op_Executor opts);
  let active := ActiveRouteSnapshot (rd_ID definition) db in
  _ ← guard_err (match active with Some a => (sn_digest a != wantDigest) && negb (op_AllowSupersede opts) | None => false end)
        "route already has a different active snapshot; refusing to supersede without an explicit transition";
  Ok (definition, wantDigest, active).

Definition RunWithStore (opts : ActivateOptions) (now : Z) (new_id : string) (db : Ledger) : Ledger * res ActivateOutcome :=
  match activation_preflight opts db with
  | Err e => (db, Err e)
  | Panic => (db, Panic)
  | Ok (definition, wantDigest, active) =>
      match Register NewRegistry (Some (DescriptorExecutor (op_Executor opts))) with
      | (registry, Ok _) =>
          match ActivateRoute (fun id => x ← Resolve registry id; Ok (Descriptor x)) definition now new_id db with
          | (db', Ok snapshot) =>
              let same := match active with Some a => sn_digest a == wantDigest | None => false end in
              let superseded := match active with Some a => sn_digest a != wantDigest | None => false end in
              (db', Ok (mkActivateOutcome (rs_ID snapshot) (rs_RouteID snapshot) (rs_Digest snapshot) same superseded
                          (if superseded then match active with Some a => sn_id a | None => "" end else "")))
          | (db', Err e) => (db', Err ("activate route: " ++ e))
          | (db', Panic) => (db', Panic)
          end
      | (_, Err e) => (db, Err ("register executor descriptor: " ++ e))
      | (_, Panic) => (db, Panic)
      end
  end.

(** [%t] of a bool, and the report of an activation. *)
Definition fmt_t (b : bool) : string := if b then "true" else "false".
Definition WriteOutcome (o : ActivateOutcome) : string :=
  "route_snapshot_id=" ++ ao_RouteSnapshotID o ++ newline ++ "route_id=" ++ ao_RouteID o ++ newline
  ++ "digest=" ++ ao_Digest o ++ newline ++ "already_active=" ++ fmt_t (ao_AlreadyActive o) ++ newline
  ++ "superseded=" ++ fmt_t (ao_Superseded o) ++ newline
  ++ (if ao_Superseded o then "previous_route_snapshot_id=" ++ ao_PreviousRouteSnapshotID o ++ newline else "").

(** ** Startup: [activateRoutes] of the dispatcher *)

Section Startup.
Context `{FileSystem}.

(** The clock and the minted id of each activation are given with it. *)
Fixpoint activateRoutes (activations : list (RouteActivation * (Z * string))) (snapshotByRouteID : gmap string string)
    (db : Ledger) : Ledger * res (gmap string string) :=
  match activations with
  | [] => (db, Ok snapshotByRouteID)
  | (activation, (now, new_id)) :: rest =>
      match os_ReadFile (ra_RouteDefinitionPath activation) with
      | Err _ => (db, Err "read route definition")
      | Panic => (db, Panic)
      | Ok routeJSON =>
          let kind := if ra_ExecutorKind activation == "" then ExecutorDeterministicTool else ra_ExecutorKind activation in
          match RunWithStore (mkActivateOptions routeJSON
                  (mkExecutorDescriptor (ra_ExecutorID activation) kind (ra_ExecutorVersion activation))
                  (ra_AllowSupersede activation)) now new_id db with
          | (db', Err _) => (db', Err "activate route")
          | (db', Panic) => (db', Panic)
          | (db', Ok outcome) =>
              let previous := default "" (snapshotByRouteID !! ao_RouteID outcome) in
              if (previous != "") && (previous != ao_RouteSnapshotID outcome)
              then (db', Err "route activated more than one snapshot")
              else activateRoutes rest (<[ao_RouteID outcome := ao_RouteSnapshotID outcome]> snapshotByRouteID) db'
          end
      end
  end.
End Startup.
