(* ===== verification/RouteResolverFacts.v ===== *)
(** * What the route resolver guarantees

    The revision of a route table does not depend on the order of its routes and
    identifies its content; a resolver is exactly the lookup of a fact in the
    table it was built from. *)

From stdpp Require Import sorting gmap.
From Stdlib Require Import OrdersEx Ascii.
From S2P Require Import Prelude GoText GoSha256 GoJson LedgerModel LedgerModelFacts RouteResolver.
Open Scope string_scope.
Open Scope Z_scope.
Open Scope go_scope.

(** ** The order of strings *)

Lemma ltb_lt a b : String.ltb a b = true <-> String_as_OT.lt a b.
Proof. unfold String.ltb, String_as_OT.lt. change (String_as_OT.compare a b) with (String.compare a b). destruct (String.compare a b); done. Qed.

Lemma ltb_trans a b c : String.ltb a b = true -> String.ltb b c = true -> String.ltb a c = true.
Proof. rewrite !ltb_lt. apply String_as_OT.lt_strorder. Qed.

Lemma ltb_total a b : a <> b -> String.ltb b a = negb (String.ltb a b).
Proof.
  intros Hn. unfold String.ltb. rewrite (String.compare_antisym b a).
  destruct (String.compare a b) eqn:E; try done. by apply String.compare_eq_iff in E.
Qed.

(** ** The canonical order of a table *)

Lemma insert_entry_comm a b l :
  re_Fact a <> re_Fact b -> insert_entry a (insert_entry b l) = insert_entry b (insert_entry a l).
Proof.
  intros Hn. pose proof (ltb_total _ _ Hn) as Ht. induction l as [|x l IH]; simpl.
  - rewrite Ht. by destruct (String.ltb (re_Fact a) (re_Fact b)).
  - destruct (String.ltb (re_Fact a) (re_Fact x)) eqn:Ea, (String.ltb (re_Fact b) (re_Fact x)) eqn:Eb; simpl.
    + rewrite Ht. destruct (String.ltb (re_Fact a) (re_Fact b)); simpl; by rewrite ?Ea, ?Eb.
    + rewrite Ea, Ht. destruct (String.ltb (re_Fact a) (re_Fact b)) eqn:Eab; simpl; [by rewrite Eb|].
      rewrite (ltb_trans _ _ _ Ht Ea) in Eb. done.
    + rewrite Eb. destruct (String.ltb (re_Fact a) (re_Fact b)) eqn:Eab; simpl; [|by rewrite Ea].
      rewrite (ltb_trans _ _ _ Eab Eb) in Ea. done.
    + by rewrite Ea, Eb, IH.
Qed.

Lemma insert_entry_perm a l : insert_entry a l ≡ₚ a :: l.
Proof. induction l as [|x l IH]; simpl; [done|]. destruct (String.ltb _ _); [done|]. rewrite IH. constructor. Qed.

Lemma sort_entries_perm l : sort_entries l ≡ₚ l.
Proof. induction l as [|x l IH]; simpl; [done|]. by rewrite insert_entry_perm, IH. Qed.

Lemma sort_entries_canonical l l' : l ≡ₚ l' -> NoDup (map re_Fact l) -> sort_entries l = sort_entries l'.
Proof.
  induction 1 as [|x l l' _ IH|x y l|l1 l2 l3 P1 IH1 P2 IH2]; simpl; intros Hn; [done|..].
  - apply list.NoDup_cons in Hn as [_ Hn]. by rewrite IH.
  - apply list.NoDup_cons in Hn as [Hx _]. apply insert_entry_comm. intros E. apply Hx. rewrite E. by left.
  - rewrite IH1 by done. apply IH2. by rewrite <- P1.
Qed.

(** ** What validation establishes *)

Record valid_entry (r : RouteEntry) : Prop := {
  ve_fact : factPattern (re_Fact r) = true;
  ve_type : kebabPattern (re_AgentType r) = true;
  ve_mode : snakePattern (re_Mode r) = true;
  ve_one : (re_RouteID r = "" <-> re_RouteSnapshotID r <> "");
  ve_route : re_RouteID r = "" \/ kebabPattern (re_RouteID r) = true;
  ve_snapshot : len (re_RouteSnapshotID r) <= 256;
  ve_revision : len (re_ContractRevision r) <= 256 }.

Lemma validate_entry_ok r : factPattern (re_Fact r) = true -> validate_entry r = Ok tt <-> valid_entry r.
Proof.
  intros Hf. unfold validate_entry. split.
  - intros H. open_guards H. split_bools. constructor; try done.
    + destruct (decide (re_RouteID r = "")) as [E|E], (decide (re_RouteSnapshotID r = "")) as [E'|E'];
        rewrite ?E, ?E' in *; repeat case_bool_decide; try done; naive_solver.
    + destruct (decide (re_RouteID r = "")) as [E|E]; [by left|right].
      rewrite (bool_decide_eq_false_2 _ E) in *. cbn in *. by apply negb_false_iff.
    + destruct (decide (re_RouteSnapshotID r = "")) as [E|E]; [by rewrite E|].
      rewrite (bool_decide_eq_false_2 _ E) in *. cbn in *. lia.
  - intros [V1 V2 V3 V4 V5 V6 V7]. rewrite V2, V3. cbn.
    destruct (decide (re_RouteID r = "")) as [E|E].
    + rewrite (bool_decide_eq_true_2 _ E), (bool_decide_eq_false_2 (re_RouteSnapshotID r = "")) by by apply V4. cbn.
      rewrite (proj2 (Z.ltb_ge _ _)) by done. cbn. by rewrite (proj2 (Z.ltb_ge _ _)).
    + rewrite (bool_decide_eq_false_2 _ E). destruct (decide (re_RouteSnapshotID r = "")) as [E'|E']; [|naive_solver].
      rewrite (bool_decide_eq_true_2 _ E'). cbn. destruct V5 as [?|V5]; [done|]. rewrite V5. cbn.
      by rewrite (proj2 (Z.ltb_ge _ _)).
Qed.

Lemma validate_routes_ok seen l :
  validate_routes seen l = Ok tt <->
  Forall valid_entry l /\ NoDup (map re_Fact l) /\ (forall r, r ∈ l -> re_Fact r ∉ seen).
Proof.
  revert seen. induction l as [|r l IH]; intros seen; simpl.
  { split; [|done]. intros _. split; [constructor|]. split; [constructor|]. intros r Hr. by apply elem_of_nil in Hr. }
  split.
  - intros H. open_guards H. split_bools. pose proof G1 as V. rewrite validate_entry_ok in V by done.
    apply IH in H as (F & N & S). split_and!; [by constructor| |].
    + constructor; [|done]. intros (x & E & Hx)%list_elem_of_fmap. apply (S x Hx). set_solver.
    + intros x [->|Hx]%elem_of_cons; [done|]. specialize (S x Hx). set_solver.
  - intros (F & N & S). apply List.Forall_cons_iff in F as [V F]. apply list.NoDup_cons in N as [Nr N].
    rewrite (ve_fact _ V). cbn. rewrite bool_decide_eq_false_2 by (apply S; by left). cbn.
    rewrite (proj2 (validate_entry_ok r (ve_fact _ V)) V). cbn. apply IH. split_and!; [done..|].
    intros x Hx. assert (re_Fact x <> re_Fact r) by (intros E; apply Nr; rewrite <- E; by apply list_elem_of_fmap_2).
    specialize (S x (proj2 (elem_of_cons _ _ _) (or_intror Hx))). set_solver.
Qed.

(** A table is valid exactly when its version is positive, it has routes, and
    these are well formed with distinct facts. *)
Record valid_table (c : RouteConfig) : Prop := {
  vt_version : 0 < rc_Version c;
  vt_routes : rc_Routes c <> [];
  vt_entries : Forall valid_entry (rc_Routes c);
  vt_facts : NoDup (map re_Fact (rc_Routes c)) }.

Lemma RouteConfig_Validate_ok c : RouteConfig_Validate c = Ok tt <-> valid_table c.
Proof.
  unfold RouteConfig_Validate. split.
  - intros H. open_guards H. split_bools. apply validate_routes_ok in H as (F & N & _). by constructor; [lia|..].
  - intros [V1 V2 V3 V4]. rewrite (proj2 (Z.leb_gt _ _)) by done. cbn. rewrite bool_decide_eq_false_2 by done. cbn.
    apply validate_routes_ok. split_and!; [done..|]. intros r _. set_solver.
Qed.

Lemma valid_table_perm v l l' : l ≡ₚ l' -> valid_table (mkRouteConfig v l) -> valid_table (mkRouteConfig v l').
Proof.
  intros P [V1 V2 V3 V4]. cbn in *. constructor; cbn; [done| |by rewrite <- P|by rewrite <- P].
  intros ->. by apply Permutation_nil_r in P.
Qed.

(** ** The revision of a table *)

(** The texts of a table; a YAML document is UTF-8. *)
Definition entry_text (r : RouteEntry) : Prop :=
  Forall (fun s => ValidString s = true)
    [re_Fact r; re_AgentType r; re_Mode r; re_RouteID r; re_RouteSnapshotID r; re_ContractRevision r].
Definition table_text (c : RouteConfig) : Prop := Forall entry_text (rc_Routes c).

Definition table_json (c : RouteConfig) : json :=
  JObj [("version", JNum (fmt_d (rc_Version c))); ("routes", JArr (map entry_json (rc_Routes c)))].

Lemma wf_omitempty h n s : ValidString n = true -> ValidString s = true ->
  Forall (fun kv => ValidString (fst kv) = true /\ wf_json h (snd kv)) (omitempty n s).
Proof. intros Hn Hs. unfold omitempty. case_bool_decide; repeat constructor; done. Qed.

Lemma wf_entry h r : entry_text r -> wf_json (S h) (entry_json r).
Proof.
  intros H. unfold entry_text in H. rewrite !List.Forall_cons_iff in H. destruct H as (H1 & H2 & H3 & H4 & H5 & H6 & _).
  constructor. rewrite !List.Forall_app. split_and!; [..|repeat constructor; done]; [repeat constructor; done|..];
    apply wf_omitempty; done.
Qed.

Lemma wf_table c : table_text c -> wf_json 3 (table_json c).
Proof.
  intros H. constructor. apply List.Forall_cons; [split; [done|constructor]|]. apply List.Forall_cons; [|constructor].
  split; [done|]. constructor. apply List.Forall_map. eapply List.Forall_impl; [|exact H]. intros r. apply wf_entry.
Qed.

Lemma omitempty_inj n s s' l l' :
  (omitempty n s ++ l = omitempty n s' ++ l')%list -> (forall v, head l <> Some (n, v)) -> (forall v, head l' <> Some (n, v)) ->
  s = s' /\ l = l'.
Proof.
  unfold omitempty. intros E H H'. repeat case_bool_decide; cbn in E; subst; [done|..].
  - by destruct (H (JStr s')).
  - by destruct (H' (JStr s)).
  - by injection E as -> ->.
Qed.

Lemma entry_json_inj r r' : entry_json r = entry_json r' -> r = r'.
Proof.
  destruct r as [f a m i s c], r' as [f' a' m' i' s' c']. unfold entry_json. cbn [re_Fact re_AgentType re_Mode re_RouteID re_RouteSnapshotID re_ContractRevision app].
  intros E. injection E as -> -> -> E.
  apply omitempty_inj in E as [-> E]; [|intros v; unfold omitempty; by case_bool_decide..].
  apply omitempty_inj in E as [-> E]; [|done..]. by injection E as ->.
Qed.

Lemma Marshal_config_inj c c' : table_text c -> table_text c' -> Marshal_config c = Marshal_config c' -> c = c'.
Proof.
  intros T T' E. change (marshal (table_json c) = marshal (table_json c')) in E.
  apply (f_equal parse_json) in E. rewrite !(parse_json_marshal 3) in E by (try apply wf_table; done).
  injection E as Ev Er. apply fmt_d_inj in Ev. apply (list_fmap_eq_inj _) in Er; [|intros r r'; apply entry_json_inj].
  destruct c, c'. cbn in *. by subst.
Qed.

Lemma sha256_hex_length x : String.length (sha256_hex x) = 64%nat.
Proof. pose proof (sha256_hex_shape x) as [_ H]. unfold len in H. lia. Qed.

(** Two different texts with one digest. *)
Definition sha256_collision : Prop := exists a b, a <> b /\ sha256_hex a = sha256_hex b.

(** The revision of a route table is attributable: it exists exactly for
    valid tables, does not depend on the order of the routes, and two tables
    with the same revision have the same version and the same routes, unless
    SHA-256 collides. *)
Theorem revision_identifies_table c c' :
  table_text c -> table_text c' -> RouteConfig_Validate c = Ok tt ->
  (rc_Version c = rc_Version c' /\ rc_Routes c ≡ₚ rc_Routes c' -> Revision c = Revision c') /\
  (Revision c = Revision c' -> (rc_Version c = rc_Version c' /\ rc_Routes c ≡ₚ rc_Routes c') \/ sha256_collision).
Proof.
  intros T T' V. split.
  - intros [Ev P]. pose proof V as V'. apply RouteConfig_Validate_ok in V'. destruct c as [v l], c' as [v' l'].
    cbn [rc_Version rc_Routes] in *. subst v'. unfold Revision. rewrite V.
    rewrite (proj2 (RouteConfig_Validate_ok _) (valid_table_perm v l l' P V')). cbn [mbind res_bind rc_Version rc_Routes].
    by rewrite (sort_entries_canonical l l' P (vt_facts _ V')).
  - unfold Revision. rewrite V. cbn [mbind res_bind]. destruct (RouteConfig_Validate c') as [u|e|]; [|done..]. cbn [mbind res_bind].
    set (d := mkRouteConfig _ (sort_entries (rc_Routes c))). set (d' := mkRouteConfig _ (sort_entries (rc_Routes c'))).
    intros E. apply (f_equal (fun r => match r with Ok s => s | _ => "" end)) in E. cbv beta iota in E.
    rewrite <- !sapp_assoc in E.
    apply sapp_inj_len in E as [_ E]; [|by rewrite !sha256_hex_length].
    destruct (decide (Marshal_config d = Marshal_config d')) as [Em|Em]; [left|right; by eexists _, _].
    apply Marshal_config_inj in Em.
    + injection Em as Ev Er. split; [done|]. by rewrite <- (sort_entries_perm (rc_Routes c)), Er, sort_entries_perm.
    + unfold table_text. cbn [d rc_Routes]. by rewrite (sort_entries_perm (rc_Routes c)).
    + unfold table_text. cbn [d' rc_Routes]. by rewrite (sort_entries_perm (rc_Routes c')).
Qed.

(** ** The resolver *)

Section Resolver.
Context `{GoUnicode}.

Lemma index_routes_ok catalog l m m' :
  index_routes catalog l m = Ok m' -> NoDup (map re_Fact l) ->
  Forall (fun r => catalog (re_AgentType r) (re_Mode r) = true) l /\
  forall f, m' !! f = match first_where (fun r => re_Fact r == f) l with Some r => Some r | None => m !! f end.
Proof.
  revert m. induction l as [|r l IH]; simpl; intros m Hi Hn.
  { simplify_eq. split; [constructor|done]. }
  open_guards Hi. split_bools. apply list.NoDup_cons in Hn as [Hr Hn]. apply IH in Hi as [F L]; [|done].
  split; [by constructor|]. intros f. rewrite L. case_bool_decide as Ef.
  - subst f. rewrite lookup_insert_eq. destruct (first_where _ l) as [x|] eqn:E; [|done].
    apply first_where_Some in E as [Hx E]. split_bools. destruct Hr. rewrite <- E. by apply list_elem_of_fmap_2.
  - by rewrite lookup_insert_ne.
Qed.

(** What a resolver was built from. *)
Record built_from (c : RouteConfig) (catalog : ModeCatalog) (r : Resolver) : Prop := {
  bf_valid : valid_table c;
  bf_bound : forall x, x ∈ rc_Routes c -> re_RouteID x = "" /\ re_RouteSnapshotID x <> "";
  bf_declared : forall x, x ∈ rc_Routes c -> catalog (re_AgentType x) (re_Mode x) = true;
  bf_revision : Revision c = Ok (rv_revision r);
  bf_lookup : forall f, rv_byFact r !! f = first_where (fun x => re_Fact x == f) (rc_Routes c) }.

Lemma New_built c catalog r : New c (Some catalog) = Ok r -> built_from c catalog r.
Proof.
  unfold New. intros Hn. open_guards Hn. apply bind_ok in Hn as (revision & Hr & Hn). apply bind_ok in Hn as (m & Hm & Hn).
  injection Hn as <-. apply RouteConfig_Validate_ok in G as V. apply index_routes_ok in Hm as [F L]; [|apply V].
  constructor; cbn [rv_revision rv_byFact]; [done| | |done|].
  - intros x Hx. apply exists_where_false with (r := x) in G0; [|done]. split_bools. done.
  - intros x Hx. by apply (proj1 (list.Forall_forall _ _) F).
  - intros f. rewrite L. by destruct (first_where _ _).
Qed.
End Resolver.

(** *** The snapshots of a table *)

Lemma insert_string_perm s l : insert_string s l ≡ₚ s :: l.
Proof. induction l as [|x l IH]; simpl; [done|]. destruct (String.leb _ _); [done|]. rewrite IH. constructor. Qed.
Lemma sort_strings_perm l : sort_strings l ≡ₚ l.
Proof. induction l as [|x l IH]; simpl; [done|]. by rewrite insert_string_perm, IH. Qed.

Lemma RouteSnapshotIDs_spec r id :
  id ∈ RouteSnapshotIDs r <-> exists f x, rv_byFact r !! f = Some x /\ re_RouteSnapshotID x = id.
Proof.
  unfold RouteSnapshotIDs. rewrite sort_strings_perm, elem_of_elements, elem_of_list_to_set, list_elem_of_fmap. split.
  - intros ([f x] & -> & Hx%elem_of_map_to_list). by exists f, x.
  - intros (f & x & Hx & <-). exists (f, x). split; [done|]. by apply elem_of_map_to_list.
Qed.

Lemma RouteSnapshotIDs_NoDup r : NoDup (RouteSnapshotIDs r).
Proof. unfold RouteSnapshotIDs. rewrite sort_strings_perm. apply NoDup_elements. Qed.

(** The route of a fact, and the decision it stands for. *)
Definition route_for (c : RouteConfig) (event : Event) : option RouteEntry :=
  first_where (fun x => re_Fact x == Fact event) (rc_Routes c).
Definition decision (route : option RouteEntry) : Resolution :=
  match route with
  | None => mkResolution false "" zero_binding
  | Some x => mkResolution true (re_RouteSnapshotID x)
                (mkAgentBinding (re_AgentType x) (re_Mode x) (re_ContractRevision x) 0 "" "" "" 0)
  end.

Section Refinement.
Context `{GoUnicode}.

(** C29: a resolver refines the table it was built from: it answers every event
    with the one route of its fact, or with no match; a matched route is bound
    to a snapshot, its mode is declared by the catalog and its binding selects no
    release, digest, run or pull request; and the snapshots it reports are
    exactly those of the routes, each once. *)
Theorem resolver_refines_table c catalog r event :
  New c (Some catalog) = Ok r ->
  Resolve_fact r event = Ok (decision (route_for c event)) /\
  (forall x, route_for c event = Some x ->
     catalog (re_AgentType x) (re_Mode x) = true /\ re_RouteSnapshotID x <> "" /\
     RejectAdmissionSelection (rn_Binding (decision (Some x))) = Ok tt) /\
  (forall id, id ∈ RouteSnapshotIDs r <-> exists x, x ∈ rc_Routes c /\ re_RouteSnapshotID x = id) /\
  NoDup (RouteSnapshotIDs r).
Proof.
  intros B%New_built. split_and!.
  - unfold Resolve_fact, Resolver_Resolve, Resolve_route. rewrite (bf_lookup _ _ _ B). fold (route_for c event). by destruct (route_for c event).
  - intros x Hx. apply first_where_Some in Hx as [Hx _]. split_and!; [by apply (bf_declared _ _ _ B)|by apply (bf_bound _ _ _ B)|done].
  - intros id. rewrite RouteSnapshotIDs_spec. split.
    + intros (f & x & Hx & <-). rewrite (bf_lookup _ _ _ B) in Hx. apply first_where_Some in Hx as [Hx _]. by exists x.
    + intros (x & Hx & <-). exists (re_Fact x), x. split; [|done]. rewrite (bf_lookup _ _ _ B).
      apply (first_where_key re_Fact); [|done]. apply (bf_valid _ _ _ B).
  - apply RouteSnapshotIDs_NoDup.
Qed.
End Refinement.

(** *** A table *)

#[local] Instance plain_lower : GoUnicode := id.

Definition upload_route : RouteEntry :=
  mkRouteEntry "upload.completed" "youknowme-curator" "process_intake" "" "route-0b" "contract-v1".
Definition due_route : RouteEntry :=
  mkRouteEntry "youknowme.reconciliation_due" "youknowme-curator" "reconcile" "" "route-0c" "contract-v1".
Definition curator_table : RouteConfig := mkRouteConfig 1 [upload_route; due_route].
Definition curator_catalog : ModeCatalog :=
  match YouKnowMeCuratorCatalog with Ok c => Declares c | _ => fun _ _ => false end.
Definition upload_completed : Event :=
  mkEvent "signal-1" "delivery-1" "SIGNALS" 7 "youknowme" "uploads" "upload" "upload-42"
    "upload" "completed" "human" "rev-1" "" "" "" "" "" "" 0 None "sha256:00" "jetstream://SIGNALS/7" 0.

Lemma curator_table_text : table_text curator_table /\ table_text (mkRouteConfig 1 [due_route; upload_route]).
Proof. split; repeat constructor. Qed.

Lemma revision_identifies_table_witness :
  Revision curator_table = Revision (mkRouteConfig 1 [due_route; upload_route]).
Proof.
  apply (revision_identifies_table curator_table (mkRouteConfig 1 [due_route; upload_route])
           (proj1 curator_table_text) (proj2 curator_table_text)); [vm_compute; reflexivity|].
  split; [reflexivity|apply perm_swap].
Defined.

Lemma resolver_refines_table_witness :
  exists r, New curator_table (Some curator_catalog) = Ok r /\
    Resolve_fact r upload_completed = Ok (decision (Some upload_route)) /\ "route-0c" ∈ RouteSnapshotIDs r.
Proof.
  assert (Ok_new : is_ok (New curator_table (Some curator_catalog)) = true) by (vm_compute; reflexivity).
  destruct (New curator_table (Some curator_catalog)) as [r|e|] eqn:E; [|discriminate Ok_new..].
  destruct (resolver_refines_table curator_table curator_catalog r upload_completed E) as (H1 & _ & H3 & _).
  exists r. split; [reflexivity|]. split; [exact H1|]. apply H3. exists due_route. split; [right; left|reflexivity].
Defined.
