(* ===== verification/ShadowFacts.v ===== *)
(** * What shadow admission guarantees

    The ingress admits facts under the routes of the deployment and starts no
    work; a fact sent again is a duplicate; a service that is built serves only
    active routes; the activation of a route is idempotent and fails closed. *)

From stdpp Require Import relations gmap.
From Stdlib Require Import Ascii.
From S2P Require Import Prelude GoText GoSha256 GoJson GoNet LedgerModel LedgerModelFacts LedgerStore LedgerInv LedgerOps LedgerAdmission LedgerRefs LedgerOutcomes Envelope Config WorkRouter RouteResolver RouteResolverFacts Shadow.
Open Scope string_scope.
Open Scope Z_scope.
Open Scope go_scope.

Implicit Types db : Ledger.

(** ** Admission starts no work *)

(** No attempt starts and no lease is taken. *)
Definition starts_nothing db db' : Prop :=
  (forall a, a ∈ executor_attempts db' -> live_attempt (aw_state a) = true -> a ∈ executor_attempts db) /\
  (forall l, l ∈ serialization_leases db' -> l ∈ serialization_leases db).

Lemma starts_nothing_same db db' :
  executor_attempts db' = executor_attempts db -> serialization_leases db' = serialization_leases db -> starts_nothing db db'.
Proof. intros E1 E2. split; [rewrite E1|rewrite E2]; done. Qed.

Lemma starts_nothing_refl db : starts_nothing db db.
Proof. by apply starts_nothing_same. Qed.

Lemma starts_nothing_trans db1 db2 db3 : starts_nothing db1 db2 -> starts_nothing db2 db3 -> starts_nothing db1 db3.
Proof. intros [A1 L1] [A2 L2]. split; auto. Qed.

Lemma supersede_starts_nothing route key id now db : starts_nothing db (supersede route key id now db).
Proof.
  split; cbn.
  - intros a (x & Hx & ->)%update_where_spec Hl. destruct (_ && _) eqn:E; [done|exact Hx].
  - intros l [Hl _]%delete_where_spec. done.
Qed.

Lemma admit_failed sid e b now w v db db' r :
  AdmitWithAgent sid e b now w v db = (db', r) -> is_ok r = false -> db' = db.
Proof.
  unfold AdmitWithAgent. intros E Hr. assert (Hf : is_ok (admit_event sid e None b now w v db).2 = false) by by rewrite E.
  assert (Hd : (admit_event sid e None b now w v db).1 = db) by by apply transact_fail. by rewrite E in Hd.
Qed.

Lemma admit_starts_nothing sid e b now w v db : starts_nothing db (admit_event sid e None b now w v db).1.
Proof.
  destruct (admit_event sid e None b now w v db) as [db' r] eqn:H. cbn. destruct r as [out|er|].
  2,3: rewrite (admit_failed _ _ _ _ _ _ _ _ _ H) by done; apply starts_nothing_refl.
  apply admit_ok in H. destruct H as [|s d item db1 db2 db3 Ha Hf Hp Hop Hv]; [apply starts_nothing_refl|].
  assert (S3 : starts_nothing db2 db3).
  { unfold insert_event in Hv. open_guards Hv. simplify_eq. by apply starts_nothing_same. }
  cbn in Hop. simplify_eq. eapply starts_nothing_trans; [|exact S3].
  unfold place_item in Hp. destruct (find_revision _ _ _ _); [simplify_eq; apply starts_nothing_refl|].
  apply bind_ok in Hp as (d0 & H0 & Hp). assert (S0 : starts_nothing db d0).
  { unfold insert_item in H0. open_guards H0. simplify_eq. by apply starts_nothing_same. }
  injection Hp as _ <-. eapply starts_nothing_trans; [exact S0|].
  destruct (Supersede _); [apply supersede_starts_nothing|apply starts_nothing_refl].
Qed.

(** ** The ingress *)

Section Ingress.
Context `{GoFloat} {R : Type} `{RouteResolver R}.

(** A connection whose peer is authorized and whose bytes are an envelope. *)
Definition presents (server : Server R) (own : Z) (conn : connection) (envelope : ShadowEnvelope) : Prop :=
  authorize own conn (ig_AllowedUIDs (sv_cfg server)) = Ok tt /\
  exists raw, ReadAll_limit (MaxEnvelopeBytes + 1) (cn_Body conn) (cn_ReadError conn) = inl raw /\
    DecodeEnvelope raw = Ok envelope.

(** The admission a matched fact stands for: the route and the binding are those
    of the resolver. *)
Definition admission_of (resolution : Resolution) (envelope : ShadowEnvelope) (now admitted : Z) (w v : string) db
    : Ledger * res AdmissionResult :=
  AdmitWithAgent (rn_RouteSnapshotID resolution) (ShadowEnvelope_Event envelope now)
    (AdmissionBinding (rn_Binding resolution)) admitted w v db.

Definition admitted_reply (result : AdmissionResult) : ingress_reply :=
  ResultReply (mkIngressResult true (wi_ID (ar_WorkItem result)) (ar_EventID result) (ar_Duplicate result) false).

(** What one connection does to the ledger, and what it is told. *)
Inductive handled (server : Server R) (own : Z) (conn : connection) (now admitted : Z) (w v : string) db
    : Ledger -> ingress_reply -> Prop :=
  | handled_silent :
      (forall envelope, ~ presents server own conn envelope) -> handled server own conn now admitted w v db db NoReply
  | handled_error cause : handled server own conn now admitted w v db db (ErrorReply cause)
  | handled_unmatched envelope resolution :
      presents server own conn envelope ->
      resolve_with (sv_resolver server) (ShadowEnvelope_Event envelope now) = Ok resolution ->
      rn_Matched resolution = false ->
      handled server own conn now admitted w v db db (ResultReply (mkIngressResult false "" "" false false))
  | handled_admitted envelope resolution db' result :
      presents server own conn envelope ->
      resolve_with (sv_resolver server) (ShadowEnvelope_Event envelope now) = Ok resolution ->
      rn_Matched resolution = true -> rn_RouteSnapshotID resolution <> "" -> sv_admit_enabled server = true ->
      admission_of resolution envelope now admitted w v db = (db', Ok result) ->
      handled server own conn now admitted w v db db' (admitted_reply result).

Lemma binding_selects_nothing b : RejectAdmissionSelection (AdmissionBinding b) = Ok tt.
Proof. done. Qed.

(** The outcome of a call: a reply, or a panic of a callee with nothing done. *)
Definition replies server own conn now admitted w v db db' (r : res ingress_reply) : Prop :=
  match r with
  | Ok reply => handled server own conn now admitted w v db db' reply
  | Err _ => False
  | Panic => db' = db
  end.

Lemma admit_envelope_replies server own conn envelope now admitted w v db :
  presents server own conn envelope ->
  let '(db', r) := admit_envelope server envelope now admitted w v db in replies server own conn now admitted w v db db' r.
Proof.
  intros Hp. unfold admit_envelope. cbv zeta.
  destruct (resolve_with _ _) as [resolution|e|] eqn:Er; [|apply handled_error|done].
  destruct (rn_Matched resolution) eqn:Em; cbn [negb]; [|by eapply handled_unmatched].
  unfold Shadow_Admit. destruct (sv_admit_enabled server) eqn:Ee; cbn [negb]; [|apply handled_error].
  cbn [cd_RouteSnapshotID cd_Binding cd_Event]. case_bool_decide as Hs; [apply handled_error|].
  rewrite binding_selects_nothing. fold (admission_of resolution envelope now admitted w v db).
  destruct (admission_of _ _ _ _ _ _ _) as [db1 [result|e|]] eqn:Ea.
  - by eapply handled_admitted.
  - rewrite (admit_failed _ _ _ _ _ _ _ _ _ Ea) by done. apply handled_error.
  - by apply (admit_failed _ _ _ _ _ _ _ _ _ Ea).
Qed.

Lemma handle_replies server own conn now admitted w v db :
  let '(db', r) := handle server own conn now admitted w v db in replies server own conn now admitted w v db db' r.
Proof.
  unfold handle. destruct (authorize _ _ _) as [[]|e|] eqn:Ea; [| |done].
  2: { apply handled_silent. intros env [E _]. congruence. }
  destruct (ReadAll_limit _ _ _) as [raw|e] eqn:Er.
  2: { apply handled_silent. intros env (_ & raw & E & _). congruence. }
  destruct (DecodeEnvelope raw) as [envelope|e|] eqn:Ed; [|apply handled_error|done].
  apply admit_envelope_replies. split; [done|]. by exists raw.
Qed.

Lemma handled_moves server own conn now admitted w v db db' reply :
  handled server own conn now admitted w v db db' reply -> newID_format "work" w = true ->
  starts_nothing db db' /\ (db' = db \/ ledger_step db db').
Proof.
  intros Hh Hw. destruct Hh as [| | |envelope resolution db' result _ _ _ _ _ Ha];
    try (split; [apply starts_nothing_refl|by left]).
  pose proof (step_admit (rn_RouteSnapshotID resolution) (ShadowEnvelope_Event envelope now) None
                (AdmissionBinding (rn_Binding resolution)) admitted w v db Hw) as St.
  pose proof (admit_starts_nothing (rn_RouteSnapshotID resolution) (ShadowEnvelope_Event envelope now)
                (AdmissionBinding (rn_Binding resolution)) admitted w v db) as Sn.
  unfold admission_of, AdmitWithAgent in Ha. rewrite Ha in St, Sn. by split; [|right].
Qed.

(** C27: a connection to the shadow ingress either leaves the ledger unchanged,
    or its peer is authorized, its bytes are one bounded envelope, and the ledger
    moves by the admission of that fact under the snapshot and the agent the
    deployment maps it to; it never starts an attempt or takes a lease, and the
    reply never reports a launch. *)
Theorem ingress_only_admits server own conn now admitted w v db :
  newID_format "work" w = true ->
  let '(db', r) := handle server own conn now admitted w v db in
  starts_nothing db db' /\ (db' = db \/ ledger_step db db') /\
  (forall reply, r = Ok reply -> handled server own conn now admitted w v db db' reply) /\
  (forall result, r = Ok (ResultReply result) -> rs_Launched result = false).
Proof.
  intros Hw. pose proof (handle_replies server own conn now admitted w v db) as Hh.
  destruct (handle server own conn now admitted w v db) as [db' [reply|e|]]; cbn in Hh; [|done|subst db'].
  - destruct (handled_moves _ _ _ _ _ _ _ _ _ _ Hh Hw) as [S1 S2]. split_and!; [done|done| |].
    + intros reply' [= <-]. done.
    + intros result [= ->]. by inversion Hh.
  - split_and!; [apply starts_nothing_refl|by left|done..].
Qed.
End Ingress.

(** ** Replay *)

(** A resolver whose decision does not depend on the time of reception. *)
Class StableResolver (R : Type) `{RouteResolver R} :=
  resolve_stable : forall (r : R) e t, Resolve_fact r (e <| ReceivedAt := t |>) = Resolve_fact r e.

#[export] Instance Resolver_stable : StableResolver Resolver.
Proof. intros r e t. reflexivity. Qed.

Lemma redelivers_received e t : redelivers e (e <| ReceivedAt := t |>).
Proof. constructor; reflexivity. Qed.

Lemma presents_unique `{GoFloat} {R} `{RouteResolver R} (server : Server R) own conn e1 e2 :
  presents server own conn e1 -> presents server own conn e2 -> e1 = e2.
Proof. intros (_ & r1 & R1 & D1) (_ & r2 & R2 & D2). congruence. Qed.

Section Replay.
Context `{GoFloat} {R : Type} `{StableResolver R}.

Lemma resolve_with_stable (resolver : option R) envelope now now' :
  resolve_with resolver (ShadowEnvelope_Event envelope now') = resolve_with resolver (ShadowEnvelope_Event envelope now).
Proof. destruct resolver as [r|]; [|done]. apply (resolve_stable r (ShadowEnvelope_Event envelope now) now'). Qed.

(** A matched admission is what the server answers. *)
Lemma handle_admitted server own conn envelope resolution now admitted w v db db' result :
  presents server own conn envelope ->
  resolve_with (sv_resolver server) (ShadowEnvelope_Event envelope now) = Ok resolution ->
  rn_Matched resolution = true -> rn_RouteSnapshotID resolution <> "" -> sv_admit_enabled server = true ->
  admission_of resolution envelope now admitted w v db = (db', Ok result) ->
  handle server own conn now admitted w v db = (db', Ok (admitted_reply result)).
Proof.
  intros (Ha & raw & Hr & Hd) Hs Hm Hi He Hx. unfold handle. rewrite Ha, Hr, Hd. unfold admit_envelope. cbv zeta.
  rewrite Hs, Hm. cbn [negb]. unfold Shadow_Admit. rewrite He. cbn [negb cd_RouteSnapshotID cd_Binding cd_Event].
  rewrite (bool_decide_eq_false_2 _ Hi), binding_selects_nothing.
  fold (admission_of resolution envelope now admitted w v db). by rewrite Hx.
Qed.

(** An emitter may send a fact again: the same bytes, received at any later
    time, are answered with the same work item and event as a duplicate, and the
    ledger does not change. *)
Theorem ingress_replay server own conn now admitted w v db db' r now' admitted' w' v' :
  handle server own conn now admitted w v db = (db', Ok (ResultReply r)) -> rs_Matched r = true ->
  handle server own conn now' admitted' w' v' db' =
    (db', Ok (ResultReply (mkIngressResult true (rs_WorkItemID r) (rs_EventID r) true false))).
Proof.
  intros Eh Hm. pose proof (handle_replies server own conn now admitted w v db) as Hh. rewrite Eh in Hh. cbn in Hh.
  remember (ResultReply r) as reply eqn:E.
  destruct Hh as [| |? ? ? ? ?|envelope resolution db' result Hp Hs Hr Hi He Ha]; [done|done|by injection E as <-|].
  injection E as <-. cbn [rs_WorkItemID rs_EventID]. unfold admission_of, AdmitWithAgent in Ha.
  destruct (redelivery_replays _ _ (ShadowEnvelope_Event envelope now') _ _ _ _ _ _ _ _ admitted' w' v' Ha
              (redelivers_received _ now')) as (item & Hid & Hx); [done|].
  rewrite (handle_admitted _ _ _ envelope resolution _ _ _ _ _ db' (mkAdmissionResult item (ar_EventID result) true));
    try done; [|by rewrite resolve_with_stable with (now := now)].
  unfold admitted_reply. cbn. by rewrite Hid.
Qed.
End Replay.

(** ** Routes without a contract revision *)

(** An agent bound without a contract revision is refused. *)
Lemma unversioned_binding ty mode : ty <> "" ->
  exists e, forall sid ev now w v db, AdmitWithAgent sid ev (mkAgentBinding ty mode "" 0 "" "" "" 0) now w v db = (db, Err e).
Proof.
  intros Ht. assert (exists e, AgentBinding_Validate (mkAgentBinding ty mode "" 0 "" "" "" 0) = Err e) as [e He].
  { unfold AgentBinding_Validate, AgentBinding_Zero. rewrite bool_decide_eq_false_2 by (intros [=]; done).
    cbn [ab_AgentType ab_Mode ab_TypeContractRevision]. destruct (kebabIdentifier ty), (snakeIdentifier mode); by eexists. }
  exists e. intros. unfold AdmitWithAgent, admit_event, transact, AdmissionBinding.
  change (RejectAdmissionSelection _) with (Ok tt). cbn [mbind res_bind ab_AgentType ab_Mode ab_TypeContractRevision]. by rewrite He.
Qed.

Section Unversioned.
Context `{GoFloat} `{GoUnicode}.

(** Although the table may leave out the contract revision of a route, a fact
    of such a route is never admitted: the ledger requires a contract revision
    wherever an agent is bound, so the emitter is always answered with an
    error and the ledger never changes. *)
Theorem unversioned_route_admits_nothing c catalog r cfg enabled own conn envelope x now admitted w v db :
  New c (Some catalog) = Ok r -> presents (mkServer cfg enabled (Some r)) own conn envelope ->
  route_for c (ShadowEnvelope_Event envelope now) = Some x -> re_ContractRevision x = "" ->
  exists cause, handle (mkServer cfg enabled (Some r)) own conn now admitted w v db = (db, Ok (ErrorReply cause)).
Proof.
  intros B%New_built (Ha & raw & Hr & Hd) Hx Hc.
  assert (Hs : Resolve_fact r (ShadowEnvelope_Event envelope now) = Ok (decision (Some x))).
  { unfold Resolve_fact, Resolver_Resolve, Resolve_route. rewrite (bf_lookup _ _ _ B). unfold route_for in Hx. by rewrite Hx. }
  apply first_where_Some in Hx as [Hx _].
  assert (Hk : kebabPattern (re_AgentType x) = true)
    by apply (ve_type x), (proj1 (list.Forall_forall _ _) (vt_entries _ (bf_valid _ _ _ B))), Hx.
  destruct (unversioned_binding (re_AgentType x) (re_Mode x)) as [e He]; [by intros E; rewrite E in Hk|].
  unfold handle. rewrite Ha, Hr, Hd. unfold admit_envelope. cbv zeta. cbn [sv_resolver resolve_with]. rewrite Hs.
  cbn [rn_Matched decision negb]. unfold Shadow_Admit. destruct (sv_admit_enabled _); cbn [negb]; [|by eexists].
  cbn [cd_RouteSnapshotID cd_Binding cd_Event rn_Binding decision]. case_bool_decide; [by eexists|].
  rewrite binding_selects_nothing. unfold AdmissionBinding. cbn [ab_AgentType ab_Mode ab_TypeContractRevision].
  rewrite Hc, He. by eexists.
Qed.
End Unversioned.

(** ** Building the service *)

(** A route of the table as written, and as bound to the activated snapshots. *)
Definition bound_to (ids : gmap string string) (x y : RouteEntry) : Prop :=
  (re_RouteID x = "" /\ y = x) \/
  (exists id, ids !! re_RouteID x = Some id /\ id <> "" /\ y = x <| re_RouteID := "" |> <| re_RouteSnapshotID := id |>).

Lemma bind_routes_ok ids l l' : bind_routes ids l = Ok l' -> Forall2 (bound_to ids) l l'.
Proof.
  revert l'. induction l as [|x l IH]; cbn; intros l' E; [injection E as <-; constructor|].
  apply bind_ok in E as (y & Ey & E). apply bind_ok in E as (l1 & El & E). injection E as <-.
  constructor; [|by apply IH]. case_bool_decide as Ei; [left; by simplify_eq|right].
  open_guards Ey. split_bools. destruct (ids !! re_RouteID x) as [id|] eqn:Eid; cbn in *; [|done]. by exists id; simplify_eq.
Qed.

Lemma BindSnapshots_ok c ids c' :
  BindSnapshots c ids = Ok c' -> Forall2 (bound_to ids) (rc_Routes c) (rc_Routes c') /\ rc_Version c' = rc_Version c.
Proof.
  unfold BindSnapshots. intros E. open_guards E. apply bind_ok in E as (l & El & E). open_guards E. injection E as <-.
  split; [by apply bind_routes_ok|done].
Qed.

Lemma verify_snapshots_ok ids db : verify_snapshots ids db = Ok tt -> forall id, id ∈ ids -> RouteSnapshotExists id db = true.
Proof.
  induction ids as [|x ids IH]; cbn; intros E id Hi; [by apply elem_of_nil in Hi|].
  open_guards E. split_bools. apply elem_of_cons in Hi as [->|Hi]; [done|by apply IH].
Qed.

Section Build.
Context `{GoUnicode} `{YamlConfig} `{FileSystem}.

(** A directory only its owner can write. *)
Definition private_directory (path : string) : Prop :=
  IsAbs path = true /\ exists info, os_Stat (Dir path) = Stat info /\ fi_IsDir info = true /\ Z.land (fi_Perm info) 18 = 0.

Lemma validateSocketPath_ok path : validateSocketPath path = Ok tt -> private_directory path.
Proof.
  unfold validateSocketPath. intros E. open_guards E. split_bools. split; [done|].
  destruct (os_Stat (Dir path)) as [| |info]; [done..|]. exists info. open_guards E. split_bools. done.
Qed.

(** The ingress fails closed: a service is built only from a valid table
    that the catalog declares, with every route bound to a snapshot that is
    active in the ledger, the activated one where the table names a stable
    route, and only on a socket in a directory that no other user can write. *)
Theorem service_fails_closed cfg ids catalog db svc :
  BuildWithStoreAndSnapshots cfg ids catalog db = Ok (Some svc) ->
  exists raw written c modes r,
    os_ReadFile (si_RouteConfigPath (sc_Ingress cfg)) = Ok raw /\ ParseConfig raw = Ok written /\ catalog = Some modes /\
    built_from c modes r /\ match ids with None => c = written | Some m => Forall2 (bound_to m) (rc_Routes written) (rc_Routes c) end /\
    (forall x, x ∈ rc_Routes c -> RouteSnapshotExists (re_RouteSnapshotID x) db = true) /\
    private_directory (si_SocketPath (sc_Ingress cfg)) /\
    svc = mkShadowService (mkServer (mkIngressConfig true (si_SocketPath (sc_Ingress cfg)) (si_AllowedUIDs (sc_Ingress cfg)))
                             true (Some r)) (rv_revision r).
Proof.
  unfold BuildWithStoreAndSnapshots. destruct (_ || _); [done|]. intros E. open_guards E.
  apply bind_ok in E as (raw & Hraw & E). apply bind_ok in E as (written & Hw & E). apply bind_ok in E as (c & Hc & E).
  apply bind_ok in E as (r & Hn & E). open_guards E. apply bind_ok in E as (server & Hs & E). injection E as <-.
  destruct catalog as [modes|]; [|done]. apply New_built in Hn as B.
  unfold NewServer in Hs. cbn [ig_Enabled ig_SocketPath] in Hs. open_guards Hs. injection Hs as <-.
  exists raw, written, c, modes, r. split_and!; try done.
  - destruct ids as [m|]; [by apply BindSnapshots_ok in Hc as [? _]|by injection Hc].
  - intros x Hx. apply (verify_snapshots_ok _ _ G0), RouteSnapshotIDs_spec. exists (re_Fact x), x. split; [|done].
    rewrite (bf_lookup _ _ _ B). apply (first_where_key re_Fact); [apply (bf_valid _ _ _ B)|done].
  - by apply validateSocketPath_ok.
Qed.
End Build.

(** ** Activation *)

Lemma activation_preflight_ok opts db definition dg active :
  activation_preflight opts db = Ok (definition, dg, active) ->
  DecodeRouteDefinition (op_RouteDefinitionJSON opts) = Ok definition /\
  ExecutorDescriptor_Validate (op_Executor opts) = Ok tt /\ rd_ExecutorID definition = ed_ID (op_Executor opts) /\
  activationDigest definition (op_Executor opts) = Ok dg /\ active = ActiveRouteSnapshot (rd_ID definition) db /\
  (forall a, active = Some a -> sn_digest a <> dg -> op_AllowSupersede opts = true).
Proof.
  unfold activation_preflight. intros E. apply bind_ok in E as (def & Hd & E). open_guards E.
  apply bind_ok in E as (dg' & Hg & E). open_guards E. simplify_eq. split_bools. split_and!; try done.
  intros a Ha Hn. rewrite Ha in *. rewrite bool_decide_eq_false_2 in * by done. cbn in *. by apply negb_false_iff.
Qed.

(** The registry of the command holds the descriptor it was given. *)
Lemma activation_saves opts definition now id db :
  ExecutorDescriptor_Validate (op_Executor opts) = Ok tt -> rd_ExecutorID definition = ed_ID (op_Executor opts) ->
  exists registry, Register NewRegistry (Some (DescriptorExecutor (op_Executor opts))) = (registry, Ok tt) /\
    ActivateRoute (fun i => x ← Resolve registry i; Ok (Descriptor x)) definition now id db
    = saveRoute definition (op_Executor opts) now id db.
Proof.
  intros Hv He. unfold Register. cbn [Descriptor executor_descriptor]. rewrite Hv. unfold NewRegistry. rewrite lookup_empty. eexists. split; [done|].
  unfold ActivateRoute, Resolve. rewrite He, lookup_insert_eq. done.
Qed.



Lemma saveRoute_route d ex now id db db' s : saveRoute d ex now id db = (db', Ok s) -> rs_RouteID s = rd_ID d.
Proof.
  unfold saveRoute. rewrite transact_ok. intros H. open_guards H. apply bind_ok in H as (dg & _ & H). cbv zeta in H.
  destruct (first_where _ _) as [x|] eqn:Ef.
  - apply first_where_Some in Ef as [_ Hx]. split_bools. by simplify_eq.
  - apply bind_ok in H as (d1 & _ & H). apply bind_ok in H as (d2 & _ & H). by simplify_eq.
Qed.



Lemma active_with_only db route dg r :
  ledger_refs db -> first_where (active_with route dg) (route_snapshots db) = Some r ->
  exists a, ActiveRouteSnapshot route db = Some a /\ sn_id a = sn_id r /\ sn_digest a = dg.
Proof.
  intros Hrf Hf. apply first_where_Some in Hf as [Hr Hw]. unfold active_with in Hw. split_bools.
  unfold ActiveRouteSnapshot. destruct (first_where _ _) as [a|] eqn:Ea.
  - apply first_where_Some in Ea as [Ha Hw]. split_bools. exists a.
    rewrite (rf_active _ _ _ Hrf a r) by (done || congruence). done.
  - rewrite first_where_None in Ea. specialize (Ea r Hr). apply andb_false_iff in Ea as [Ea|Ea]; [by apply bool_decide_eq_false in Ea|congruence].
Qed.


(** ** Startup *)

Lemma first_where_update_other {A} (p q : A -> bool) (f : A -> A) t :
  (forall r, p r = true -> q r = false /\ q (f r) = false) -> first_where q (update_where p f t) = first_where q t.
Proof.
  intros Hq. unfold update_where. induction t as [|x t IH]; cbn; [done|]. rewrite IH.
  destruct (p x) eqn:E; [|done]. destruct (Hq x E) as [-> ->]. done.
Qed.

Lemma first_where_snoc_other {A} (q : A -> bool) t r : q r = false -> first_where q (t ++ [r]) = first_where q t.
Proof. intros Hq. induction t as [|x t IH]; cbn; [by rewrite Hq|]. by destruct (q x). Qed.

(** Saving a route leaves the active snapshots of the others. *)
Lemma saveRoute_other d ex now id db db' s route :
  saveRoute d ex now id db = (db', Ok s) -> route <> rd_ID d -> ActiveRouteSnapshot route db' = ActiveRouteSnapshot route db.
Proof.
  unfold saveRoute. rewrite transact_ok. intros H Hn. open_guards H. apply bind_ok in H as (dg & _ & H). cbv zeta in H.
  destruct (first_where _ _) as [x|]; [by simplify_eq|].
  apply bind_ok in H as (d1 & H1 & H). apply bind_ok in H as (d2 & H2 & H). injection H as _ <-.
  unfold insert_snapshot in H2. open_guards H2. injection H2 as <-. unfold retire_where in H1. open_guards H1. injection H1 as <-.
  unfold ActiveRouteSnapshot. cbn [route_snapshots with_field]. rewrite first_where_snoc_other.
  - apply first_where_update_other. intros r Hr. split_bools. cbn. by rewrite bool_decide_eq_false_2 by congruence.
  - cbn. by rewrite bool_decide_eq_false_2.
Qed.

(** An activation moves the ledger by one operation. *)
Lemma RunWithStore_step opts now id db db' out :
  RunWithStore opts now id db = (db', Ok out) ->
  exists def s, saveRoute def (op_Executor opts) now id db = (db', Ok s) /\ ao_RouteID out = rd_ID def /\ ao_RouteSnapshotID out = rs_ID s.
Proof.
  unfold RunWithStore. destruct (activation_preflight opts db) as [[[def dg] active]|e|] eqn:Ep; [|done..].
  apply activation_preflight_ok in Ep as (_ & Hv & He & _).
  destruct (activation_saves opts def now id db Hv He) as (registry & Hreg & Hact). rewrite Hreg, Hact.
  destruct (saveRoute def (op_Executor opts) now id db) as [db1 [s|e|]] eqn:Es; [|done..]. intros [= <- <-].
  exists def, s. split_and!; [done| |done]. by apply (saveRoute_route _ _ _ _ _ _ _ Es).
Qed.

Definition active_as (m : gmap string string) db : Prop :=
  forall route id, m !! route = Some id -> exists a, ActiveRouteSnapshot route db = Some a /\ sn_id a = id.

Section Startup.
Context `{FileSystem}.

Lemma activateRoutes_active acts m db db' m' :
  reachable db -> active_as m db -> activateRoutes acts m db = (db', Ok m') -> rtc ledger_step db db' /\ active_as m' db'.
Proof.
  revert m db. induction acts as [|[activation [now id]] acts IH]; intros m db Hre Hm E; cbn in E.
  { injection E as <- <-. split; [apply rtc_refl|done]. }
  destruct (os_ReadFile _) as [raw|e|]; [|done..].
  destruct (RunWithStore _ _ _ _) as [db1 [out|e|]] eqn:Er; [|done..].
  apply RunWithStore_step in Er as (def & s & Es & Hroute & Hid).
  match type of Es with saveRoute _ ?ex _ _ _ = _ => set (x := ex) in Es end. destruct (_ && _); [done|].
  assert (St : ledger_step db db1) by (pose proof (step_save def x now id db) as St; by rewrite Es in St).
  assert (Hre1 : reachable db1) by (unfold reachable in *; by eapply rtc_r).
  apply IH in E as [Hs Ha]; [|done|].
  - split; [by eapply rtc_l|done].
  - intros route i Hl. destruct (decide (route = ao_RouteID out)) as [->|Hne].
    + rewrite lookup_insert_eq in Hl. injection Hl as <-.
      pose proof (saveRoute_ok _ _ _ _ _ _ _ Es) as (dg & _ & _ & _ & _ & _ & r & Hf & Hr).
      destruct (active_with_only _ _ _ _ (reachable_refs _ Hre1) Hf) as (a & Ha & Hai & _). exists a.
      rewrite Hroute. split; [done|congruence].
    + rewrite lookup_insert_ne in Hl by done. rewrite (saveRoute_other _ _ _ _ _ _ _ route Es) by congruence. by apply Hm.
Qed.

Context `{GoUnicode} `{YamlConfig}.

(** The startup of the dispatcher is consistent: activating the routes of
    the deployment moves the ledger along its operations, every snapshot it hands
    on is the active one of its route, and an ingress built from them serves each
    route the table names by its stable id under exactly that snapshot. *)
Theorem startup_serves_activated acts db db' m cfg catalog svc :
  reachable db -> activateRoutes acts ∅ db = (db', Ok m) ->
  BuildWithStoreAndSnapshots cfg (Some m) catalog db' = Ok (Some svc) ->
  rtc ledger_step db db' /\
  exists written r, sv_resolver (ss_server svc) = Some r /\
    (exists raw, os_ReadFile (si_RouteConfigPath (sc_Ingress cfg)) = Ok raw /\ ParseConfig raw = Ok written) /\
    forall x, x ∈ rc_Routes written -> re_RouteID x <> "" ->
      exists a, ActiveRouteSnapshot (re_RouteID x) db' = Some a /\
        rv_byFact r !! re_Fact x = Some (x <| re_RouteID := "" |> <| re_RouteSnapshotID := sn_id a |>).
Proof.
  intros Hre Ha Hb. apply activateRoutes_active in Ha as [Hs Hact]; [|done|intros ? ? Hl; by rewrite lookup_empty in Hl].
  split; [done|]. revert Hb. unfold BuildWithStoreAndSnapshots. destruct (_ || _); [done|]. intros E. open_guards E.
  apply bind_ok in E as (raw & Hraw & E). apply bind_ok in E as (written & Hw & E). apply bind_ok in E as (c & Hc & E).
  apply bind_ok in E as (r & Hn & E). open_guards E. apply bind_ok in E as (server & Hsv & E). injection E as <-.
  destruct catalog as [modes|]; [|done]. apply New_built in Hn as B. apply BindSnapshots_ok in Hc as [Hc _].
  unfold NewServer in Hsv. open_guards Hsv. injection Hsv as <-.
  exists written, r. split; [done|]. split; [by exists raw|]. intros x Hx Hid.
  apply list_elem_of_lookup_1 in Hx as [i Hi]. destruct (Forall2_lookup_l _ _ _ _ _ Hc Hi) as (y & Hy & Hb).
  destruct Hb as [[Hb _]|(id & Hl & _ & ->)]; [done|]. destruct (Hact _ _ Hl) as (a & Ha & <-). exists a. split; [done|].
  rewrite (bf_lookup _ _ _ B). apply list_elem_of_lookup_2 in Hy.
  apply (first_where_key re_Fact _ _ (vt_facts _ (bf_valid _ _ _ B)) Hy).
Qed.
End Startup.

(** ** A concrete deployment *)

#[local] Instance sample_numbers : GoFloat := Some.
#[local] Instance sample_lower : GoUnicode := id.

Definition intake_route : RouteDefinition :=
  mkRouteDefinition "upload-intake" 1 "1.0.0" "curator_launch_v1"
    (mkAdmissionPolicy (Some ["youknowme"]) (Some ["uploads"]) (Some ["upload"]) (Some ["upload"]) (Some ["completed"]))
    (mkConcurrencyPolicy "object" true) (mkRetryPolicy 3 (Some [Minute; 5 * Minute])).
Definition intake_entry : RouteEntry :=
  mkRouteEntry "upload.completed" "youknowme-curator" "process_intake" "upload-intake" "" "contract-v1".
Definition intake_table : RouteConfig := mkRouteConfig 1 [intake_entry].

#[local] Instance intake_yaml : YamlConfig := fun _ => Some intake_table.
#[local] Instance intake_files : FileSystem := {|
  os_Stat := fun _ => Stat (mkFileInfo true false false 488);
  os_Lstat := fun _ => NotExist;
  os_ReadFile := fun path => Ok (if path == "/etc/intake.json" then Marshal_route intake_route else "routes");
  os_Remove := fun _ => Ok tt |}.

Definition intake_activation : RouteActivation := mkRouteActivation "/etc/intake.json" "curator_launch_v1" "" "v1" false.
Definition intake_config : ShadowAdmissionConfig :=
  mkShadowAdmissionConfig true "/var/ledger.db" (mkShadowIngressConfig true "/run/plane/intake.sock" [1000] "/etc/routes.yaml")
    [intake_activation] (mkWorkItemLauncherConfig false "" "" "" "" []).
Definition intake_options : ActivateOptions :=
  mkActivateOptions (Marshal_route intake_route) (mkExecutorDescriptor "curator_launch_v1" ExecutorDeterministicTool "v1") false.
Definition intake_ledger : Ledger := (RunWithStore intake_options t0 "route-0b" empty_ledger).1.
Definition intake_resolver (revision : string) : Resolver :=
  match New (mkRouteConfig 1 [mkRouteEntry "upload.completed" "youknowme-curator" "process_intake" "" "route-0b" revision])
          (Some curator_catalog) with Ok r => r | _ => mkResolver "" ∅ end.
Definition intake_server (revision : string) : Server Resolver :=
  mkServer (mkIngressConfig true "/run/plane/intake.sock" [1000]) true (Some (intake_resolver revision)).
Definition intake_text : string := quoted (
  "{'signal_id':'s1','source_delivery_id':'d1','transport_stream':'local','transport_sequence':3,'source':'youknowme',"
  ++ "'namespace':'uploads','object_kind':'upload','object_id':'upload-42','event_kind':'upload','action':'completed',"
  ++ "'actor_class':'system','source_revision':'rev-1','payload_digest':'sha256:00','evidence_ref':'ykm://upload-42'}").
Definition intake_conn : connection := mkConnection (Ok 1000) intake_text None.
Definition intake_envelope : ShadowEnvelope :=
  mkShadowEnvelope "s1" "d1" "local" 3 "youknowme" "uploads" "upload" "upload-42" "upload" "completed" "system" "rev-1"
    "sha256:00" "ykm://upload-42".

Lemma intake_presents server : ig_AllowedUIDs (sv_cfg server) = [1000] -> presents (R := Resolver) server 0 intake_conn intake_envelope.
Proof.
  intros E. split; [unfold authorize; rewrite E; reflexivity|]. exists intake_text. split; vm_compute; reflexivity.
Qed.

(** Trailing bytes that are not a value are not noticed. *)
Example trailing_garbage_accepted :
  DecodeEnvelope (intake_text ++ "}]") = Ok intake_envelope /\ is_ok (DecodeEnvelope (intake_text ++ "{}")) = false.
Proof. split; vm_compute; reflexivity. Qed.

(** A fact that is named like a selection field is refused by the scan of the
    encoded table. *)
Example forbidden_fact_refused :
  is_ok (RouteConfig_Validate (mkRouteConfig 1 [mkRouteEntry "release" "youknowme-curator" "reconcile" "" "route-0b" "r"])) = true /\
  is_ok (New (mkRouteConfig 1 [mkRouteEntry "release" "youknowme-curator" "reconcile" "" "route-0b" "r"]) (Some curator_catalog)) = false.
Proof. split; vm_compute; reflexivity. Qed.

Abbreviation intake_run := (handle (intake_server "contract-v1") 0 intake_conn t0 t0 "work-0a" "event-0a" intake_ledger).

Lemma intake_reply : intake_run.2 = Ok (ResultReply (mkIngressResult true "work-0a" "event-0a" false false)).
Proof. vm_compute. reflexivity. Qed.

Lemma ingress_only_admits_witness :
  handled (intake_server "contract-v1") 0 intake_conn t0 t0 "work-0a" "event-0a" intake_ledger intake_run.1
    (ResultReply (mkIngressResult true "work-0a" "event-0a" false false)).
Proof.
  pose proof (ingress_only_admits (intake_server "contract-v1") 0 intake_conn t0 t0 "work-0a" "event-0a" intake_ledger eq_refl) as H.
  pose proof intake_reply as E. destruct intake_run as [db' r]. cbn [fst snd] in *. apply H. exact E.
Defined.

Lemma ingress_replay_witness :
  handle (intake_server "contract-v1") 0 intake_conn (t0 + Hour) (t0 + Hour) "work-0b" "event-0b" intake_run.1 =
    (intake_run.1, Ok (ResultReply (mkIngressResult true "work-0a" "event-0a" true false))).
Proof.
  pose proof (ingress_replay (intake_server "contract-v1") 0 intake_conn t0 t0 "work-0a" "event-0a" intake_ledger) as H.
  pose proof intake_reply as E. destruct intake_run as [db' r]. cbn [fst snd] in *. subst r.
  exact (H db' _ (t0 + Hour) (t0 + Hour) "work-0b" "event-0b" eq_refl eq_refl).
Defined.

Lemma unversioned_route_admits_nothing_witness :
  exists cause, handle (intake_server "") 0 intake_conn t0 t0 "work-0a" "event-0a" intake_ledger
    = (intake_ledger, Ok (ErrorReply cause)).
Proof.
  set (x := mkRouteEntry "upload.completed" "youknowme-curator" "process_intake" "" "route-0b" "").
  apply (unversioned_route_admits_nothing (mkRouteConfig 1 [x]) curator_catalog (intake_resolver "")
           (mkIngressConfig true "/run/plane/intake.sock" [1000]) true 0 intake_conn intake_envelope x).
  - vm_compute. reflexivity.
  - apply intake_presents. reflexivity.
  - reflexivity.
  - reflexivity.
Defined.


Abbreviation started := (activateRoutes [(intake_activation, (t0, "route-0b"))] ∅ empty_ledger).

Lemma started_service : match started with
  | (db', Ok m) => match BuildWithStoreAndSnapshots intake_config (Some m) (Some curator_catalog) db' with Ok (Some _) => true | _ => false end
  | _ => false end = true.
Proof. vm_compute. reflexivity. Qed.

Lemma startup_serves_activated_witness :
  exists m svc r a, started.2 = Ok m /\
    BuildWithStoreAndSnapshots intake_config (Some m) (Some curator_catalog) started.1 = Ok (Some svc) /\
    sv_resolver (ss_server svc) = Some r /\ ActiveRouteSnapshot "upload-intake" started.1 = Some a /\
    rv_byFact r !! "upload.completed" = Some (intake_entry <| re_RouteID := "" |> <| re_RouteSnapshotID := sn_id a |>).
Proof.
  pose proof (startup_serves_activated [(intake_activation, (t0, "route-0b"))] empty_ledger) as H.
  pose proof started_service as S. destruct started as [db' [m|e|]]; [|discriminate S..]. cbn [fst snd].
  destruct (BuildWithStoreAndSnapshots _ _ _ _) as [[svc|]|e|] eqn:B; [|discriminate S..].
  destruct (H db' m intake_config (Some curator_catalog) svc (rtc_refl _ _) eq_refl B) as (_ & written & r & Hr & (raw & _ & Hp) & Hx).
  injection Hp as <-. destruct (Hx intake_entry) as (a & Ha & Hl); [left|discriminate|].
  exists m, svc, r, a. split_and!; [reflexivity|exact B|exact Hr|exact Ha|exact Hl].
Defined.

Lemma service_fails_closed_witness :
  exists svc r c modes, match started.2 with Ok m => BuildWithStoreAndSnapshots intake_config (Some m) (Some curator_catalog) started.1 | _ => Panic end
    = Ok (Some svc) /\ sv_resolver (ss_server svc) = Some r /\ built_from c modes r.
Proof.
  pose proof started_service as S. destruct started as [db' [m|e|]]; [|discriminate S..]. cbn [fst snd].
  destruct (BuildWithStoreAndSnapshots _ _ _ _) as [[svc|]|e|] eqn:B; [|discriminate S..].
  destruct (service_fails_closed _ _ _ _ _ B) as (raw & written & c & modes & r & _ & _ & _ & Hb & _ & _ & _ & ->).
  eexists _, r, c, modes. split; [reflexivity|]. split; [reflexivity|exact Hb].
Defined.
