(* ===== verification/Observer.v ===== *)
(** * The signal observer

    [internal/observer/observer.go] and the loop of [cmd/signal-observer/main.go]: every signal is
    decoded, logged and acknowledged, and counted under bounded labels; the connection is retried
    with a bounded backoff.  Logging, timing histograms and the HTTP listener are not modelled. *)

From stdpp Require Import gmap.
From S2P Require Import Prelude GoText GoJson LedgerModel Envelope DispatchPolicy EventBus Shadow.
Open Scope string_scope.
Open Scope Z_scope.
Open Scope go_scope.

(** ** Metrics *)

Record ObserverMetrics := mkObserverMetrics {
  om_messages : gmap (string * string * string) Z; om_redeliveries : Z; om_lastAck : option Z; om_pending : Z; om_ackPending : Z;
  om_errors : gmap (string * string) Z; om_allowedRoutes : list string; om_ready : bool }.
#[export] Instance ObserverMetrics_eta : Eta ObserverMetrics := fun m =>
  mkObserverMetrics (om_messages m) (om_redeliveries m) (om_lastAck m) (om_pending m) (om_ackPending m) (om_errors m) (om_allowedRoutes m) (om_ready m).

Definition NewObserverMetrics (routes : list string) : ObserverMetrics := mkObserverMetrics ∅ 0 None 0 0 ∅ routes false.

(** [Inc] of the counter with these labels. *)
Definition inc {K} `{Countable K} (k : K) (counters : gmap K Z) : gmap K Z := <[k := default 0 (counters !! k) + 1]> counters.

(** What the program distinguishes of an error. *)
Inductive dependency_error := DeadlineExceeded | OtherError.

Definition normalizedError (e : dependency_error) : string := match e with DeadlineExceeded => "timeout" | OtherError => "other" end.

Definition boundedOperation (value : string) : string :=
  if one_of value ["connect"; "subscribe"; "ready"; "fetch"; "metadata"; "decode"; "term"; "ack"] then value else "other".

Definition source_label (value : string) : string := if (value == "github") || (value == "manual") then value else "other".
Definition route_label (m : ObserverMetrics) (value : string) : string := if one_of value (om_allowedRoutes m) then value else "other".

Definition count_message (labels : string * string * string) (m : ObserverMetrics) : ObserverMetrics := m <| om_messages ::= inc labels |>.
Definition count_error (operation reason : string) (m : ObserverMetrics) : ObserverMetrics := m <| om_errors ::= inc (operation, reason) |>.

Definition Metrics_Error (operation : string) (e : dependency_error) (m : ObserverMetrics) : ObserverMetrics :=
  count_error (boundedOperation operation) (normalizedError e) m.

Definition Metrics_SetReady (ready : bool) (pending ackPending : Z) (m : ObserverMetrics) : ObserverMetrics :=
  m <| om_ready := ready |> <| om_pending := pending |> <| om_ackPending := ackPending |>.

(** [GET /readyz]: the bodies are raw string literals, which end in a backslash and an n. *)
Definition observer_readyz (m : ObserverMetrics) : Z * string :=
  if om_ready m then (200, "{" ++ quote "status" ++ ":" ++ quote "ready" ++ "}\n")
  else (503, "{" ++ quote "error" ++ ":" ++ quote "not_ready" ++ "}\n").

(** ** One delivery *)

Record ObservedDelivery := mkObservedDelivery {
  od_Data : string; od_Metadata : option (Z * Z); od_AckSync : option dependency_error; od_Term : option dependency_error }.

Inductive settlement := Acknowledged | Terminated.

Definition Process (d : ObservedDelivery) (now : Z) (m : ObserverMetrics) : ObserverMetrics * settlement * bool :=
  let m := match od_Metadata d with None => count_error "metadata" "other" m | Some _ => m end in
  let m := match od_Metadata d with Some (_, n) => if 1 <? n then m <| om_redeliveries ::= Z.succ |> else m | None => m end in
  match Unmarshal_signal (od_Data d) with
  | None =>
      let m := count_error "decode" "invalid_json" (count_message ("unknown", "unknown", "malformed") m) in
      (match od_Term d with Some e => count_error "term" (normalizedError e) m | None => m end, Terminated, false)
  | Some signal =>
      let labels outcome := (source_label (m_Source (sg_Meta signal)), route_label m (m_RouteID (sg_Meta signal)), outcome) in
      match od_AckSync d with
      | Some e => (count_error "ack" (normalizedError e) (count_message (labels "ack_failed") m), Acknowledged, false)
      | None => (count_message (labels "acknowledged") m <| om_lastAck := Some now |>, Acknowledged, true)
      end
  end.

(** ** The loop *)

Definition observerFetchWait : Z := 2 * Second.
Definition retryInitial : Z := Second.
Definition retryMaximum : Z := 30 * Second.

Definition nextBackoff (value : Z) : Z := let value := value * 2 in if retryMaximum <? value then retryMaximum else value.

Inductive observer_fetch :=
  | ObserverTimeout
  | ObserverFailed (e : dependency_error)
  | Observed (d : ObservedDelivery).

Section Loop.
Context {J : Type} `{JetStream J} (stream : string) (subjects : list string) (subject durable : string) (once : bool).

Record observer_state := mkObserverState {
  ob_js : J; ob_bus : option Bus; ob_consumer : option Consumer; ob_backoff : Z; ob_metrics : ObserverMetrics }.
#[export] Instance observer_state_eta : Eta observer_state := fun s =>
  mkObserverState (ob_js s) (ob_bus s) (ob_consumer s) (ob_backoff s) (ob_metrics s).

(** What one iteration is answered: dialling, the kind of any error, the pending acknowledgements and the fetch. *)
Record observer_inputs := mkObserverInputs {
  oi_dial : bool; oi_error : dependency_error; oi_ackPending : Z; oi_fetch : observer_fetch; oi_now : Z }.

Inductive observer_step_result :=
  | Iterated (slept : Z) (s : observer_state)
  | Returned (s : observer_state).

Definition initial_observer (j : J) (routes : list string) : observer_state :=
  mkObserverState j None None retryInitial (NewObserverMetrics routes).

(** [retry] and the next backoff. *)
Definition retrying (operation : string) (e : dependency_error) (s : observer_state) : observer_step_result :=
  Iterated (ob_backoff s) (s <| ob_metrics ::= Metrics_Error operation e |> <| ob_backoff ::= nextBackoff |>).

Definition disconnected (s : observer_state) : observer_state :=
  s <| ob_metrics ::= Metrics_SetReady false 0 0 |> <| ob_consumer := None |> <| ob_bus := None |>.

(** With a bus and a consumer. *)
Definition observer_poll (consumer : Consumer) (i : observer_inputs) (s : observer_state) : observer_step_result :=
  match Consumer_Ready consumer (ob_js s) with
  | Ok (_, pending) =>
      let s := s <| ob_metrics ::= Metrics_SetReady true pending (oi_ackPending i) |> <| ob_backoff := retryInitial |> in
      match oi_fetch i with
      | ObserverTimeout => Iterated 0 s
      | ObserverFailed e => retrying "fetch" e (disconnected s)
      | Observed d =>
          let '(m, _, ok) := Process d (oi_now i) (ob_metrics s) in
          let s := s <| ob_metrics := m |> in
          if ok && once then Returned s else Iterated 0 s
      end
  | _ => retrying "ready" (oi_error i) (disconnected s)
  end.

Definition observer_step (i : observer_inputs) (s : observer_state) : observer_step_result :=
  let connected :=
    match ob_bus s with
    | Some bus => (s, Some bus)
    | None =>
        if negb (oi_dial i) then (s, None)
        else match Connect stream subjects (ob_js s) with
        | (j, Ok bus) => (s <| ob_js := j |> <| ob_bus := Some bus |>, Some bus)
        | (j, _) => (s <| ob_js := j |>, None)
        end
    end in
  match connected with
  | (s, None) => retrying "connect" (oi_error i) s
  | (s, Some bus) =>
      match ob_consumer s with
      | Some consumer => observer_poll consumer i s
      | None =>
          match NewObserverConsumer bus subject durable (ob_js s) with
          | (j, Ok consumer) => observer_poll consumer i (s <| ob_js := j |> <| ob_consumer := Some consumer |>)
          | (j, _) => retrying "subscribe" (oi_error i) (s <| ob_js := j |> <| ob_bus := None |>)
          end
      end
  end.
End Loop.
