(* ===== verification/ObserverFacts.v ===== *)
(** * What the observer guarantees

    Whatever signals it is delivered and however its dependencies fail, the observer's metrics
    keep to a finite set of labels, its retries to their bounds, and its readiness to a consumer
    it holds; every delivery is counted once and only an undecodable one is terminated. *)

From stdpp Require Import gmap.
From S2P Require Import Prelude GoText GoJson LedgerModel Envelope DispatchPolicy DispatchFacts EventBus EventBusFacts Observer.
Open Scope string_scope.
Open Scope Z_scope.
Open Scope go_scope.

(** ** Labels *)

Definition sources : list string := ["github"; "manual"; "other"; "unknown"].
Definition outcomes : list string := ["acknowledged"; "ack_failed"; "malformed"].
Definition operations : list string := ["connect"; "subscribe"; "ready"; "fetch"; "metadata"; "decode"; "term"; "ack"; "other"].
Definition known_routes (routes : list string) : list string := "other" :: "unknown" :: routes.
Definition reasons : list string := ["timeout"; "other"; "invalid_json"].

(** The labels under which anything may be counted. *)
Record bounded_labels (routes : list string) (m : ObserverMetrics) : Prop := {
  bl_messages : forall s r o n, om_messages m !! (s, r, o) = Some n -> s ∈ sources /\ r ∈ known_routes routes /\ o ∈ outcomes;
  bl_errors : forall op r n, om_errors m !! (op, r) = Some n -> op ∈ operations /\ r ∈ reasons;
  bl_routes : om_allowedRoutes m = routes }.

Lemma inc_keys {K} `{Countable K} (k k' : K) (c : gmap K Z) n : inc k c !! k' = Some n -> k' = k \/ exists n', c !! k' = Some n'.
Proof. unfold inc. destruct (decide (k' = k)) as [->|Hk]; [auto|]. rewrite lookup_insert_ne by congruence. eauto. Qed.

Lemma source_label_bounded v : source_label v ∈ sources.
Proof. unfold source_label, sources. case_match eqn:E; [apply orb_true_iff in E as [E%bool_decide_eq_true|E%bool_decide_eq_true]|]; subst; set_solver. Qed.

Lemma route_label_bounded routes m v : bounded_labels routes m -> route_label m v ∈ known_routes routes.
Proof.
  intros H. unfold route_label, known_routes. rewrite (bl_routes _ _ H).
  destruct (one_of v routes) eqn:E; [apply one_of_elem in E|]; set_solver.
Qed.

Lemma bounded_operation v : boundedOperation v ∈ operations.
Proof. unfold boundedOperation. case_match eqn:E; [apply one_of_elem in E|]; set_solver. Qed.

Lemma normalized_bounded e : normalizedError e ∈ reasons.
Proof. destruct e; set_solver. Qed.

Lemma initial_bounded routes : bounded_labels routes (NewObserverMetrics routes).
Proof. split; [| |done]; intros *; simpl; rewrite lookup_empty; discriminate. Qed.

Lemma count_message_bounded routes s r o m :
  s ∈ sources -> r ∈ known_routes routes -> o ∈ outcomes -> bounded_labels routes m -> bounded_labels routes (count_message (s, r, o) m).
Proof.
  intros Hs Hr Ho H. split; [|exact (bl_errors _ _ H)|exact (bl_routes _ _ H)].
  intros s' r' o' n [E|[n' E]]%inc_keys; [injection E as -> -> ->; auto|exact (bl_messages _ _ H _ _ _ _ E)].
Qed.

Lemma count_error_bounded routes op r m : op ∈ operations -> r ∈ reasons -> bounded_labels routes m -> bounded_labels routes (count_error op r m).
Proof.
  intros Ho Hr H. split; [exact (bl_messages _ _ H)| |exact (bl_routes _ _ H)].
  intros op' r' n [E|[n' E]]%inc_keys; [injection E as -> ->; auto|exact (bl_errors _ _ H _ _ _ E)].
Qed.

(** The gauges are not labelled. *)
Lemma bounded_same routes m m' :
  om_messages m' = om_messages m -> om_errors m' = om_errors m -> om_allowedRoutes m' = om_allowedRoutes m -> bounded_labels routes m -> bounded_labels routes m'.
Proof. intros E1 E2 E3 [H1 H2 H3]. split; rewrite ?E1, ?E2, ?E3; assumption. Qed.

Ltac known := unfold sources, outcomes, known_routes, operations, reasons; set_solver.

Create HintDb labels.
#[export] Hint Resolve source_label_bounded bounded_operation normalized_bounded count_message_bounded count_error_bounded route_label_bounded : labels.
#[export] Hint Extern 1 (_ ∈ _) => known : labels.

Lemma process_bounded routes d now m m' st ok : Process d now m = (m', st, ok) -> bounded_labels routes m -> bounded_labels routes m'.
Proof.
  intros E H. revert E. unfold Process.
  set (m1 := match od_Metadata d with Some _ => _ | None => _ end).
  assert (H1 : bounded_labels routes m1).
  { unfold m1. destruct (od_Metadata d) as [[? n]|]; [|auto with labels]. destruct (1 <? n); [|done]. by apply (bounded_same _ m). }
  clearbody m1. clear m H.
  destruct (Unmarshal_signal (od_Data d)); [destruct (od_AckSync d)|]; intros E; injection E as <- <- <-.
  - auto with labels.
  - apply (bounded_same _ (count_message (source_label (m_Source (sg_Meta s)), route_label m1 (m_RouteID (sg_Meta s)), "acknowledged") m1)); auto with labels.
  - destruct (od_Term d); auto with labels.
Qed.

(** ** Every delivery is counted once *)

Definition total (counters : gmap (string * string * string) Z) : Z := map_fold (fun _ n acc => n + acc) 0 counters.

Lemma total_insert k n c : c !! k = None -> total (<[k := n]> c) = n + total c.
Proof. intros Hk. unfold total. rewrite map_fold_insert_L; [done|intros; lia|done]. Qed.

Lemma total_inc k c : total (inc k c) = total c + 1.
Proof.
  unfold inc. destruct (c !! k) as [n|] eqn:E; simpl; [|rewrite total_insert by done; lia].
  pose proof (total_insert k n (delete k c) (lookup_delete_eq c k)) as T. rewrite insert_delete_id in T by done.
  rewrite <- insert_delete_eq, total_insert by apply lookup_delete_eq. lia.
Qed.

(** A delivery adds one to the messages, under the outcome it had; only an undecodable one is terminated. *)
Lemma delivery_counted_once d now m m' st ok :
  Process d now m = (m', st, ok) ->
  total (om_messages m') = total (om_messages m) + 1 /\
  (st = Terminated <-> Unmarshal_signal (od_Data d) = None) /\
  (ok = true <-> st = Acknowledged /\ od_AckSync d = None) /\
  om_ready m' = om_ready m.
Proof.
  unfold Process. set (m1 := match od_Metadata d with Some _ => _ | None => _ end).
  assert (H1 : om_messages m1 = om_messages m /\ om_ready m1 = om_ready m).
  { unfold m1. destruct (od_Metadata d) as [[? n]|]; [destruct (1 <? n)|]; done. }
  clearbody m1. destruct H1 as [<- <-].
  destruct (Unmarshal_signal (od_Data d)); [destruct (od_AckSync d)|destruct (od_Term d)]; intros E; injection E as <- <- <-;
    simpl; rewrite total_inc; split_and!; try done; split; try done; by intros [??].
Qed.

(** ** The loop *)

Lemma next_backoff_bounds v : retryInitial <= v <= retryMaximum -> retryInitial <= nextBackoff v <= retryMaximum.
Proof. unfold nextBackoff, retryInitial, retryMaximum, Second. intros. case_match eqn:E; simpl in *; lia. Qed.

Section Loop.
Context {J : Type} `{JetStream J} (stream : string) (subjects : list string) (subject durable : string) (once : bool) (routes : list string).

Abbreviation state := (@observer_state J).
Abbreviation result := (@observer_step_result J).
Abbreviation step := (observer_step stream subjects subject durable once).

(** The states between two iterations, and after the last one. *)
Inductive observing (j : J) : state -> Prop :=
  | observing_start : observing j (initial_observer j routes)
  | observing_next s i slept s' : observing j s -> step i s = Iterated slept s' -> observing j s'
  | observing_last s i s' : observing j s -> step i s = Returned s' -> observing j s'.

(** What holds between iterations: a consumer is held exactly with a bus, and the observer is ready only while it holds one. *)
Record observer_invariant (s : state) : Prop := {
  oi_labels : bounded_labels routes (ob_metrics s);
  oi_backoff : retryInitial <= ob_backoff s <= retryMaximum;
  oi_bus : is_Some (ob_bus s) <-> is_Some (ob_consumer s);
  oi_ready : om_ready (ob_metrics s) = true -> is_Some (ob_consumer s) }.

Definition step_state (r : result) : state := match r with Iterated _ s | Returned s => s end.
Definition step_sleep (r : result) : Z := match r with Iterated slept _ => slept | Returned _ => 0 end.

(** The state an iteration leaves is right and its sleep within the bounds. *)
Definition step_right (r : result) : Prop := observer_invariant (step_state r) /\ 0 <= step_sleep r <= retryMaximum.

Lemma retrying_right op e s : observer_invariant s -> step_right (retrying op e s).
Proof.
  intros [H1 H2 H3 H4]. split; [split; simpl; auto using next_backoff_bounds|simpl; unfold retryInitial, Second in H2; lia].
  apply count_error_bounded; auto with labels.
Qed.

Lemma disconnected_right s : bounded_labels routes (ob_metrics s) -> retryInitial <= ob_backoff s <= retryMaximum -> observer_invariant (disconnected s).
Proof.
  intros H1 H2. split; simpl; [|done| |done].
  - by apply (bounded_same _ (ob_metrics s)).
  - by split; intros [? ?].
Qed.

Lemma poll_right consumer i s :
  bounded_labels routes (ob_metrics s) -> retryInitial <= ob_backoff s <= retryMaximum -> is_Some (ob_bus s) -> is_Some (ob_consumer s) ->
  step_right (observer_poll once consumer i s).
Proof.
  intros H1 H2 H3 H4. unfold observer_poll.
  destruct (Consumer_Ready consumer (ob_js s)) as [[c pending]| |]; [|apply retrying_right, disconnected_right; done..].
  set (s1 := s <| ob_metrics ::= _ |> <| ob_backoff := _ |>).
  assert (L : bounded_labels routes (ob_metrics s1)) by (by apply (bounded_same _ (ob_metrics s))).
  assert (B : retryInitial <= ob_backoff s1 <= retryMaximum) by (unfold s1, retryInitial, retryMaximum, Second; simpl; lia).
  destruct (oi_fetch i) as [|e|d]; [|by apply retrying_right, disconnected_right|].
  - split; [split; simpl; [exact L|exact B|tauto|auto]|unfold retryMaximum, Second; simpl; lia].
  - destruct (Process d (oi_now i) (ob_metrics s1)) as [[m st] ok] eqn:E. apply (process_bounded routes) in E; [|exact L].
    assert (I : observer_invariant (s1 <| ob_metrics := m |>)) by (split; simpl; [exact E|exact B|tauto|auto]).
    destruct (ok && once); split; try exact I; unfold retryMaximum, Second; simpl; lia.
Qed.

Lemma step_right_kept i s : observer_invariant s -> step_right (step i s).
Proof.
  intros I. pose proof I as [H1 H2 H3 H4]. unfold observer_step. destruct (ob_bus s) as [bus|] eqn:Eb.
  - destruct (ob_consumer s) as [c|] eqn:Ec; [apply poll_right; rewrite ?Eb, ?Ec; eauto|].
    destruct (proj1 H3 ltac:(eauto)) as [? ?]; discriminate.
  - assert (Ec : ob_consumer s = None) by (destruct (ob_consumer s); [destruct (proj2 H3 ltac:(eauto)); discriminate|done]).
    assert (Er : om_ready (ob_metrics s) = false) by (destruct (om_ready (ob_metrics s)); [destruct (H4 eq_refl); congruence|done]).
    destruct (negb (oi_dial i)); [by apply retrying_right|].
    destruct (Connect stream subjects (ob_js s)) as [j [bus| |]]; simpl; rewrite ?Ec.
    + destruct (NewObserverConsumer bus subject durable j) as [j' [c| |]]; [apply poll_right; simpl; eauto|..];
        apply retrying_right; split; simpl; rewrite ?Ec, ?Er; done.
    + apply retrying_right; split; simpl; rewrite ?Eb, ?Ec, ?Er; done.
    + apply retrying_right; split; simpl; rewrite ?Eb, ?Ec, ?Er; done.
Qed.

Lemma observing_step j s i : observing j s -> observing j (step_state (step i s)).
Proof. intros Hs. destruct (step i s) eqn:E; [by eapply observing_next|by eapply observing_last]. Qed.

Lemma initial_right j : observer_invariant (initial_observer j routes).
Proof.
  split; [apply initial_bounded|simpl; unfold retryInitial, retryMaximum, Second; lia|simpl; by split; intros [? ?]|done].
Qed.

Lemma observing_right j s : observing j s -> observer_invariant s.
Proof.
  induction 1 as [|s i slept s' _ IH E|s i s' _ IH E]; [apply initial_right|..];
    apply (step_right_kept i) in IH; rewrite E in IH; apply IH.
Qed.

(** C39: The observer's metrics stay within their types whatever it is sent: on any server, after any run of iterations with
    any deliveries (decodable or not) and any failures of dialling, subscribing, inspecting, fetching or acknowledging,
    every message counter is labelled by a source, a configured route (or "other"/"unknown") and an outcome of the fixed
    lists and every error counter by a fixed operation and reason, so a publisher cannot grow the series; the backoff is
    between one and thirty seconds; the observer holds a consumer exactly when it holds a connection and is ready only
    while it does; and the next iteration never sleeps longer than the maximum. *)
Theorem observer_well_formed (j : J) (s : state) :
  observing j s ->
  (forall source route outcome n, om_messages (ob_metrics s) !! (source, route, outcome) = Some n ->
     source ∈ sources /\ route ∈ known_routes routes /\ outcome ∈ outcomes) /\
  (forall operation reason n, om_errors (ob_metrics s) !! (operation, reason) = Some n -> operation ∈ operations /\ reason ∈ reasons) /\
  retryInitial <= ob_backoff s <= retryMaximum /\
  (is_Some (ob_bus s) <-> is_Some (ob_consumer s)) /\
  (om_ready (ob_metrics s) = true -> is_Some (ob_consumer s)) /\
  forall i, 0 <= step_sleep (step i s) <= retryMaximum.
Proof.
  intros Hs%observing_right. split_and!; [apply (bl_messages _ _ (oi_labels _ Hs))|apply (bl_errors _ _ (oi_labels _ Hs))|apply Hs..|].
  intros i. apply (step_right_kept i s Hs).
Qed.
End Loop.

(** ** An observer at work *)

(** It subscribes and is sent an undecodable message, then one of an unknown source, then the server goes away. *)
Definition sent (data : string) : observer_fetch := Observed (mkObservedDelivery data (Some (1, 2)) None None).
Definition working_inputs (f : observer_fetch) : observer_inputs := mkObserverInputs true OtherError 0 f 5.

Abbreviation work := (observer_step (J := gmap (string * string) NatsConsumer) "SIGNALS" [] "signals.>" "observer" false).
Abbreviation after1 := (step_state (work (working_inputs (sent "{")) (initial_observer ∅ ["deploy"]))).
Abbreviation after2 := (step_state (work (working_inputs (sent (quoted "{'meta':{'source':'gitlab','route_id':'deploy'},'payload':1}"))) after1)).
Abbreviation after3 := (step_state (work (working_inputs (ObserverFailed DeadlineExceeded)) after2)).

Lemma observer_well_formed_witness :
  om_messages (ob_metrics after3) !! ("other", "deploy", "acknowledged") = Some 1 /\
  om_errors (ob_metrics after3) !! ("fetch", "timeout") = Some 1 /\
  om_ready (ob_metrics after2) = true /\ om_ready (ob_metrics after3) = false /\
  retryInitial <= ob_backoff after3 <= retryMaximum.
Proof.
  split; [vm_compute; reflexivity|]. split; [vm_compute; reflexivity|]. split; [vm_compute; reflexivity|]. split; [vm_compute; reflexivity|].
  apply (observer_well_formed "SIGNALS" [] "signals.>" "observer" false ["deploy"] (∅ : gmap (string * string) NatsConsumer) after3).
  apply observing_step, observing_step, observing_step, observing_start.
Defined.

(** The readiness bodies, served as JSON, are not JSON texts. *)
Lemma readyz_not_json m : parse_json (snd (observer_readyz m)) = None.
Proof. unfold observer_readyz. destruct (om_ready m); vm_compute; reflexivity. Qed.
