(* ===== verification/GatewayMetrics.v ===== *)
(** * The gateway's counters and readiness

    The metrics of [internal/gateway/server.go], what a request adds to them and the readiness endpoint.  Labels
    are bounded by the functions of the source; three reasons of rejection are not in their list and are counted
    as "other". *)

From stdpp Require Import gmap.
From S2P Require Import Prelude GoText GoSha256 GoJson GoNet LedgerModel Envelope DispatchPolicy Config Gateway DispatchFacts Observer ObserverFacts.
Open Scope string_scope.
Open Scope Z_scope.
Open Scope go_scope.

Record GatewayMetrics := mkGatewayMetrics {
  gm_requests : gmap (string * string * string * string) Z; gm_readiness : Z; gm_dependencyErrors : gmap (string * string) Z }.
#[export] Instance GatewayMetrics_eta : Eta GatewayMetrics := fun m => mkGatewayMetrics (gm_requests m) (gm_readiness m) (gm_dependencyErrors m).
Definition newMetrics : GatewayMetrics := mkGatewayMetrics ∅ 0 ∅.

Definition boundedRoute (value : string) : string := if value == "" then "unknown" else value.
Definition boundedSource (value : string) : string := if one_of value ["github"; "manual"] then value else "other".
Definition boundedResult (value : string) : string := if one_of value ["accepted"; "ignored"; "rejected"] then value else "other".
Definition gateway_reasons : list string :=
  [""; "ping"; "action_filtered"; "invalid_body"; "unknown_source"; "missing_manual_token"; "bad_manual_token"; "missing_github_secret";
   "bad_github_signature"; "invalid_github_payload"; "repository_not_allowed"; "event_not_allowed"; "action_not_allowed"; "publish_failed"; "rejected"].
Definition boundedReason (value : string) : string := if one_of value gateway_reasons then value else "other".

Definition request_labels (route : Route) (result reason : string) : string * string * string * string :=
  (boundedRoute (gr_ID route), boundedSource (gr_Source route), boundedResult result, boundedReason reason).
Definition metrics_add (route : Route) (result reason : string) (m : GatewayMetrics) : GatewayMetrics :=
  m <| gm_requests ::= inc (request_labels route result reason) |>.
Definition dependency_failed (reason : string) (m : GatewayMetrics) : GatewayMetrics := m <| gm_dependencyErrors ::= inc ("nats", reason) |>.

(** [GET /readyz]: [checked] is what the publisher answers, [None] when it cannot be asked. *)
Definition gateway_ready (checked : option (res unit)) (m : GatewayMetrics) : GatewayMetrics * Response :=
  match checked with
  | Some (Ok _) => (m <| gm_readiness := 1 |>, mkResponse 200 [("status", "ready")])
  | _ => (dependency_failed "unavailable" (m <| gm_readiness := 0 |>), mkResponse StatusServiceUnavailable [("error", "not_ready")])
  end.

Section Counted.
Context `{Environ} (lower : string -> string).

(** What [handleRoute] adds; [failure] is the error of the publisher when it fails. *)
Definition handleRoute_counts (publish : string -> Signal -> bool) (failure : dependency_error) (signal_id : string) (now : Z) (r : Request) (route : Route)
    (m : GatewayMetrics) : GatewayMetrics :=
  match readJSONBody r (gr_MaxBodyBytes route) with
  | None => metrics_add route "rejected" "invalid_body" m
  | Some body =>
      match admit_request lower r route body with
      | inr e => metrics_add route "rejected" (rj_reason e) m
      | inl a =>
          if ar_ignore a then metrics_add route "ignored" (ar_ignoreReason a) m
          else if publish (Subject route) (signal_of signal_id now route a body) then metrics_add route "accepted" "" m
          else dependency_failed (normalizedError failure) (metrics_add route "rejected" "publish_failed" m)
      end
  end.

Definition body_field (name : string) (response : Response) : option string :=
  option_map snd (first_where (fun f => fst f == name) (rp_Body response)).

(** The result a response reports. *)
Definition reported (response : Response) : string := match body_field "status" response with Some s => s | None => "rejected" end.
Definition reported_reason (response : Response) : string :=
  match body_field "error" response, body_field "reason" response with Some e, _ => e | None, Some e => e | _, _ => "" end.

(** Every request is counted once, under the result and the reason its response reports. *)
Lemma request_counted_once publish failure id now r route m :
  let '(_, response) := handleRoute lower publish id now r route in
  gm_requests (handleRoute_counts publish failure id now r route m) =
    inc (request_labels route (reported response) (reported_reason response)) (gm_requests m)
  /\ gm_readiness (handleRoute_counts publish failure id now r route m) = gm_readiness m.
Proof.
  unfold handleRoute, handleRoute_counts. destruct (readJSONBody r _) as [body|]; [|done].
  destruct (admit_request lower r route body) as [a|e]; [|done]. destruct (ar_ignore a); [done|].
  destruct (publish _ _); done.
Qed.
End Counted.

(** Rejections of pushes and CI events by identity share the label "other". *)
Lemma identity_reasons_collapse :
  map boundedReason ["ref_not_allowed"; "invalid_push_identity"; "invalid_ci_identity"] = ["other"; "other"; "other"].
Proof. reflexivity. Qed.
