(* ===== verification/Startup.v ===== *)
(** * Processes: the dispatcher's startup, its loops and its commands

    [cmd/github-task-dispatcher/main.go] and the construction of the release pipeline in
    [internal/resumeupload/service.go].  A process works on its host: the dispatcher database, the
    work ledger, which is in the same file, and the JetStream server.  Flags, files, the environment and the
    decoding of the configuration are inputs; listeners, signals and logging are not modelled. *)

From stdpp Require Import gmap.
From S2P Require Import Prelude GoText GoSha256 GoJson GoNet LedgerModel LedgerStore Envelope DispatchPolicy Config DispatchStore Terminal ExternalWait CIRepair DispatchLoop Broker Release WorkRouter EventBus Recovery RouteResolver Shadow.
Open Scope string_scope.
Open Scope Z_scope.
Open Scope go_scope.

Definition Millisecond : Z := 1000000.

(** ** The release pipeline *)

Definition release_route : RouteDefinition :=
  mkRouteDefinition "resume-builder-release-upload" 1 "1.0.0" UploadExecutorID
    (mkAdmissionPolicy (Some ["github"]) (Some [Repository]) (Some ["release"]) (Some ["release"]) (Some ["published"]))
    (mkConcurrencyPolicy SerializeObject false)
    (mkRetryPolicy 5 (Some [Minute; 5 * Minute; 15 * Minute; Hour])).

Record ReleaseService := mkReleaseService { rv_registry : gmap string executor; rv_consumer : Consumer; rv_interval : Z }.

Section Release.
Context `{NetURL} `{Environ} `{FileSystem} {J : Type} `{JetStream J}.

(** The transports of the clients, made from the key and the configuration; [key_error] is what the parser of the private key refuses. *)
Record release_clients := mkReleaseClients {
  cl_key_error : string -> option string;
  cl_DownloadVerified : string -> ReleaseOperation -> res string;
  cl_Upload : YKMConfig -> string -> string -> string -> res uploadResponse;
  cl_now : Z }.

Definition ykm_config (cfg : WorkRouterConfig) : YKMConfig :=
  mkYKMConfig (wr_YKMURL cfg) (wr_YKMAuthMode cfg) (os_Getenv (wr_YKMClientIDEnv cfg)) (os_Getenv (wr_YKMClientSecretEnv cfg))
    (os_Getenv (wr_YKMLocalSecretEnv cfg)).

Fixpoint register_all (registry : gmap string executor) (executors : list executor) : res (gmap string executor) :=
  match executors with
  | [] => Ok registry
  | x :: rest =>
      match Register registry (Some x) with
      | (registry, Ok _) => register_all registry rest
      | (_, Err e) => Err ("register WorkItem executor: " ++ e)
      | (_, Panic) => Panic
      end
  end.

(** The key, the configuration of the upload and the registry: everything that is checked before the ledger changes. *)
Definition release_registry (clients : release_clients) (cfg : WorkRouterConfig) (additional : list executor) : res (gmap string executor) :=
  let ykm := ykm_config cfg in
  match os_ReadFile (wr_GitHubPrivateKeyPath cfg), YKMConfig_Validate ykm with
  | Ok key, Ok _ =>
      if key == "" then Err "resume-release pipeline secrets are unavailable"
      else match cl_key_error clients key with
      | Some e => Err ("resume-release GitHub App private key is invalid: " ++ e)
      | None =>
          match Register NewRegistry (Some (UploadExecutor (mkUploadExecutor (cl_DownloadVerified clients key) (cl_Upload clients ykm) (cl_now clients)))) with
          | (registry, Ok _) => register_all registry additional
          | (_, Err e) => Err ("register resume upload executor: " ++ e)
          | (_, Panic) => Panic
          end
      end
  | Panic, _ => Panic
  | _, Panic => Panic
  | _, _ => Err "resume-release pipeline secrets are unavailable"
  end.

(** [resumeupload.Build] with the dispatcher's store and bus; the times and the id of the activation are inputs. *)
Definition Release_Build (clients : release_clients) (cfg : WorkRouterConfig) (bus : Bus) (additional : list executor) (now recovered : Z)
    (new_id : string) (ledger : Ledger) (j : J) : Ledger * J * res (option ReleaseService) :=
  if negb (wr_Enabled cfg) then (ledger, j, Ok None)
  else match release_registry clients cfg additional with
  | Err e => (ledger, j, Err e)
  | Panic => (ledger, j, Panic)
  | Ok registry =>
      match ActivateRoute (fun id => x ← Resolve registry id; Ok (Descriptor x)) release_route now new_id ledger with
      | (ledger, Err e) => (ledger, j, Err ("activate resume-builder release route: " ++ e))
      | (ledger, Panic) => (ledger, j, Panic)
      | (ledger, Ok _) =>
          match RecoverInterrupted recovered ledger with
          | (ledger, Err e) => (ledger, j, Err ("recover resume-release ledger: " ++ e))
          | (ledger, Panic) => (ledger, j, Panic)
          | (ledger, Ok _) =>
              match NewConsumer bus (mkConsumerConfig (wr_Subject cfg) (wr_Durable cfg) (2 * Minute) 16 5 0) j with
              | (j, Err e) => (ledger, j, Err ("create resume-release consumer: " ++ e))
              | (j, Panic) => (ledger, j, Panic)
              | (j, Ok consumer) => (ledger, j, Ok (Some (mkReleaseService registry consumer (250 * Millisecond))))
              end
          end
      end
  end.
End Release.

(** *** Its loops *)

(** What a fetch of the ingress loop returned. *)
Inductive release_fetched :=
  | ReleaseTimeout
  | ReleaseFetchFailed
  | ReleaseFetched (d : release_delivery).

(** One iteration of the ingress loop, with the pause before the next; the error of a delivery is only logged. *)
Definition ingress_step (hydrate : Z -> Z -> Z -> res ReleaseOperation) (stream : string) (got : release_fetched) (now : Z)
    (work_id event_id : string) (s : router_state) : router_state * res Z :=
  match got with
  | ReleaseTimeout => (s, Ok 0)
  | ReleaseFetchFailed => (s, Ok Second)
  | ReleaseFetched d =>
      match WorkRouter.Process hydrate stream d now work_id event_id s with
      | (s, Panic) => (s, Panic)
      | (s, _) => (s, Ok 0)
      end
  end.

(** How a tick of the executor loop ends: the loop waits for the next tick, has been cancelled, or has not ended within the fuel. *)
Inductive tick_end := TickOver | TickCancelled | TickRunning.

(** A tick of [runExecutorLoop]: [WorkOne] until it has no work, fails or the context is cancelled; the [i]-th call reads the time and the
    fresh id [clock i], and [cancelled i] is what the context answers after it. *)
Fixpoint executor_tick (registry : gmap string executor) (clock : nat -> Z * string) (cancelled : nat -> bool) (fuel i : nat) (s : router_state)
    : router_state * res tick_end :=
  match fuel with
  | O => (s, Ok TickRunning)
  | S fuel =>
      let '(now, id) := clock i in
      match WorkOne registry now id s with
      | (s, Panic) => (s, Panic)
      | (s, Ok true) => if cancelled i then (s, Ok TickCancelled) else executor_tick registry clock cancelled fuel (S i) s
      | (s, _) => (s, Ok TickOver)
      end
  end.

(** ** The dispatcher *)

(** Its metrics, as far as its health endpoints and its gauges read them. *)
Record DispatchMetrics := mkDispatchMetrics { dm_isReady : bool; dm_disabled : bool; dm_lifecycle : list (string * Z); dm_oldestAge : Z }.
#[export] Instance DispatchMetrics_eta : Eta DispatchMetrics := fun m =>
  mkDispatchMetrics (dm_isReady m) (dm_disabled m) (dm_lifecycle m) (dm_oldestAge m).

Definition NewMetrics : DispatchMetrics := mkDispatchMetrics false false (map (fun state => (state, 0)) lifecycleStates) 0.
Definition SetReady (v : bool) (m : DispatchMetrics) : DispatchMetrics := m <| dm_isReady := v |>.
Definition SetDisabled (m : DispatchMetrics) : DispatchMetrics := m <| dm_disabled := true |> <| dm_isReady := false |>.
Definition Refresh (now : Z) (db : DB) (m : DispatchMetrics) : DispatchMetrics :=
  let stats := Stats now db in m <| dm_lifecycle := ss_Counts stats |> <| dm_oldestAge := ss_OldestAge stats |>.

(** [GET /readyz]: status and body. *)
Definition readyz (m : DispatchMetrics) : Z * string :=
  if dm_isReady m then (200, "{" ++ quote "status" ++ ":" ++ quote "ready" ++ "}" ++ newline)
  else if dm_disabled m then (503, "{" ++ quote "error" ++ ":" ++ quote "disabled" ++ "}" ++ newline)
  else (503, "{" ++ quote "error" ++ ":" ++ quote "not_ready" ++ "}" ++ newline).

Section Process.
Context `{NetURL} `{Environ} `{FileSystem} `{GoUnicode} `{YamlConfig} {J : Type} `{JetStream J}.

Record host := mkHost { h_db : DB; h_ledger : Ledger; h_js : J }.

(** The parts of a running dispatcher. *)
Record dispatcher := mkDispatcher {
  ds_policy : CIRepairPolicy; ds_broker : Broker; ds_ingress : option ShadowService; ds_release : option ReleaseService; ds_consumer : Consumer }.

(** The times and ids a start reads, one for each activation, and whether the files of the database and the connection to the server can be
    opened. *)
Record start_inputs := mkStartInputs {
  in_open : res unit; in_activations : nat -> Z * string; in_dial : res unit; in_route_now : Z; in_route_id : string; in_recovered : Z;
  in_clients : release_clients; in_catalog : option ModeCatalog }.

Definition launcher (cfg : ShadowAdmissionConfig) (launch : string -> string -> string -> string -> bres LaunchResult) : list executor :=
  if wl_Enabled (sc_Launcher cfg) then [LaunchExecutor (mkLaunchExecutor (sc_Launcher cfg) (Some launch))] else [].

(** [runDisabledStandby]: the store is prepared, the health endpoints report a disabled process. *)
Definition runDisabledStandby (inputs : start_inputs) (h : host) (m : DispatchMetrics) : host * res DispatchMetrics :=
  match in_open inputs with
  | Err e => (h, Err ("initialize standby job store: " ++ e))
  | Panic => (h, Panic)
  | Ok _ => (mkHost (OpenStore (h_db h)) (h_ledger h) (h_js h), Ok (SetDisabled m))
  end.

(** What [main] does with an enabled configuration, up to its loops. *)
Definition dispatcher_start (launch : Broker -> string -> string -> string -> string -> bres LaunchResult) (cfg : Config) (inputs : start_inputs)
    (h : host) : host * res dispatcher :=
  let dc := cf_Dispatcher cfg in
  let token := os_Getenv (dc_BrokerTokenEnv dc) in
  let reporter := os_Getenv (dc_ReporterBrokerTokenEnv dc) in
  if token == "" then (h, Err "broker token is not set")
  else if (dc_ReporterBrokerURL dc != "") && (reporter == "") then (h, Err "reporter broker token is not set")
  else match in_open inputs with
  | Err _ => (h, Err "open job store failed")
  | Panic => (h, Panic)
  | Ok _ =>
    let db := OpenStore (h_db h) in
    let h := mkHost db (h_ledger h) (h_js h) in
    match ConfigureCIRepair (repair_policy dc) with
    | Err _ => (h, Err "configure CI repair lifecycle failed")
    | Panic => (h, Panic)
    | Ok policy =>
      match AssertRecoveryComplete (dc_Durable dc) (dc_RecoveryStartSequence dc) db with
      | Err _ => (h, Err "dispatcher recovery gate failed")
      | Panic => (h, Panic)
      | Ok _ =>
        match activateRoutes (imap (fun i a => (a, in_activations inputs i)) (sc_RouteActivations (cf_ShadowAdmission cfg))) ∅ (h_ledger h) with
        | (ledger, Err _) => (mkHost db ledger (h_js h), Err "dispatcher route activation failed")
        | (ledger, Panic) => (mkHost db ledger (h_js h), Panic)
        | (ledger, Ok snapshots) =>
          match BuildWithStoreAndSnapshots (cf_ShadowAdmission cfg) (Some snapshots) (in_catalog inputs) ledger with
          | Err _ => (mkHost db ledger (h_js h), Err "build shadow ingress failed")
          | Panic => (mkHost db ledger (h_js h), Panic)
          | Ok ingress =>
            match in_dial inputs with
            | Err _ => (mkHost db ledger (h_js h), Err "connect event bus failed")
            | Panic => (mkHost db ledger (h_js h), Panic)
            | Ok _ =>
              match Connect (Config.nc_Stream (cf_NATS cfg)) (Config.nc_Subjects (cf_NATS cfg)) (h_js h) with
              | (j, Err _) => (mkHost db ledger j, Err "connect event bus failed")
              | (j, Panic) => (mkHost db ledger j, Panic)
              | (j, Ok bus) =>
                let broker := mkBroker (dc_BrokerURL dc) token (dc_ReporterBrokerURL dc) reporter in
                match Release_Build (in_clients inputs) (cf_WorkRouter cfg) bus (launcher (cf_ShadowAdmission cfg) (launch broker))
                        (in_route_now inputs) (in_recovered inputs) (in_route_id inputs) ledger j with
                | (ledger, j, Err _) => (mkHost db ledger j, Err "build resume-release pipeline failed")
                | (ledger, j, Panic) => (mkHost db ledger j, Panic)
                | (ledger, j, Ok release) =>
                  match NewConsumer bus (mkConsumerConfig (dc_Subject dc) (dc_Durable dc) (30 * Second) 64 10 (dc_RecoveryStartSequence dc)) j with
                  | (j, Err _) => (mkHost db ledger j, Err "create dispatcher consumer failed")
                  | (j, Panic) => (mkHost db ledger j, Panic)
                  | (j, Ok consumer) => (mkHost db ledger j, Ok (mkDispatcher policy broker ingress release consumer))
                  end
                end
              end
            end
          end
        end
      end
    end
  end.

(** ** Its loops *)

(** One message of [runFetchLoop]: what the fetch returned. *)
Inductive fetched :=
  | FetchTimeout
  | FetchFailed
  | FetchedDelivery (d : Delivery).

Definition fetch_step (routes : list RepositoryTaskRoute) (consumer : Consumer) (store_ready : res unit) (got : fetched) (now : Z) (h : host)
    (m : DispatchMetrics) : host * list DispatchLoop.ack * DispatchMetrics :=
  match got with
  | FetchTimeout => (h, [], SetReady (is_ok (Consumer_Ready consumer (h_js h)) && is_ok store_ready) m)
  | FetchFailed => (h, [], SetReady false m)
  | FetchedDelivery d =>
      let '(db, acks, _) := DispatchLoop.Process routes d now (h_db h) in (mkHost db (h_ledger h) (h_js h), acks, SetReady true m)
  end.

(** One tick of [worker]: [RunOne] until it has no work or fails, at most [fuel] times; then the gauges.  The result tells
    whether the inner loop ended. *)
Fixpoint drain (policy : CIRepairPolicy) (broker : BrokerClient) (fuel : nat) (now : Z) (w : world) : world * bool :=
  match fuel with
  | O => (w, false)
  | S fuel =>
      match RunOne policy broker now w with
      | (w, Ok true) => drain policy broker fuel now w
      | (w, _) => (w, true)
      end
  end.

Definition worker_tick (policy : CIRepairPolicy) (broker : BrokerClient) (fuel : nat) (now : Z) (w : world) (m : DispatchMetrics)
    : world * DispatchMetrics :=
  let '(w, _) := drain policy broker fuel now w in (w, Refresh now (w_db w) m).
End Process.
