(* ===== verification/Commands.v ===== *)
(** * The operator's commands

    The subcommands of [cmd/github-task-dispatcher/main.go]: [recover], [recovery-metadata],
    [reconcile-failed-launch] and [reconcile-report].  Parsed flags are inputs, as is what the configuration
    file decodes to.  Error texts omit interpolated and wrapped values. *)

From stdpp Require Import gmap.
From S2P Require Import Prelude GoText GoSha256 GoJson GoNet LedgerModel LedgerStore Envelope DispatchPolicy Config DispatchStore Terminal ExternalWait CIRepair DispatchLoop Broker EventBus Recovery Shadow Startup.
Open Scope string_scope.
Open Scope Z_scope.
Open Scope go_scope.

(** The flags of the four commands; [None] when the flag package refuses the arguments. *)
Record recover_flags := mkRecoverFlags { fl_config : string; fl_manifest : Z; fl_recovery_id : string; fl_execute : bool; fl_NArg : Z }.
Record reconcile_flags := mkReconcileFlags {
  fr_config : string; fr_job_id : Z; fr_broker_run_id : string; fr_idempotency_key : string; fr_execute : bool; fr_NArg : Z }.

(** The answers of the host to a command: whether the database and the connection can be opened, and the clock. *)
Record command_inputs := mkCommandInputs { ci_open : res unit; ci_dial : res unit; ci_now : Z; ci_clock : moment -> Z }.

Section Commands.
Context `{NetURL} `{GoDuration} `{Environ} `{FileSystem} `{HttpClient} `{GoFloat} `{GoUnicode} {J : Type} `{JetStream J}.
Context (read_config : string -> res Config) (fetch : Consumer -> Z -> J -> J * res Delivery).

Definition config_Load (path : string) : res Config := decoded ← read_config path; load_config decoded.

Definition regular_file (path missing irregular : string) : res unit :=
  match os_Stat path with
  | Stat info => guard_err (negb (fi_IsRegular info)) irregular
  | _ => Err missing
  end.

(** Executed commands open the store, which migrates it; others open it read-only. *)
Definition open_for (execute : bool) (opened : res unit) (context : string) (db : DB) : DB * res unit :=
  match opened with
  | Ok _ => (if execute then OpenStore db else db, Ok tt)
  | Err _ => (db, Err context)
  | Panic => (db, Panic)
  end.

(** What [runRecovery] checks before it opens anything. *)
Definition recovery_preflight (flags : option recover_flags) : res (recover_flags * Config) :=
  f ← of_option "usage: github-task-dispatcher recover" flags;
  _ ← guard_err ((fl_config f == "") || (fl_recovery_id f == "") || negb (fl_NArg f =? 0)) "usage: github-task-dispatcher recover";
  cfg ← match config_Load (fl_config f) with Ok cfg => Ok cfg | Err _ => Err "load recovery config" | Panic => Panic end;
  let dc := cf_Dispatcher cfg in
  _ ← guard_err (negb (dc_Enabled dc)) "recovery requires an enabled dispatcher configuration while the service is stopped";
  _ ← guard_err (negb (dc_RecoveryStartSequence dc =? (fl_manifest f + 1) mod 2 ^ 64))
        "dispatcher recovery_start_sequence must equal manifest sequence + 1";
  _ ← regular_file (dc_DatabasePath dc) "stat restored dispatcher database" "restored dispatcher database must be a regular file";
  Ok (f, cfg).

Definition status_client (url token : string) : StatusClient :=
  let b := mkBroker url token "" "" in mkStatusClient (Broker_Status b) (Broker_TerminalResult b).

(** The host, the calls to the broker and the report that is written. *)
Definition runRecovery (flags : option recover_flags) (inputs : command_inputs) (h : host) : host * list call * res RecoveryReport :=
  match recovery_preflight flags with
  | Err e => (h, [], Err e)
  | Panic => (h, [], Panic)
  | Ok (f, cfg) =>
      let dc := cf_Dispatcher cfg in
      match open_for (fl_execute f) (ci_open inputs) "open restored dispatcher database" (h_db h) with
      | (db, Err e) => (mkHost db (h_ledger h) (h_js h), [], Err e)
      | (db, Panic) => (mkHost db (h_ledger h) (h_js h), [], Panic)
      | (db, Ok _) =>
          let refuse e := (mkHost db (h_ledger h) (h_js h), [], Err e) in
          match ConfigureCIRepair (repair_policy dc) with
          | Err _ => refuse "configure recovery CI repair lifecycle"
          | Panic => (mkHost db (h_ledger h) (h_js h), [], Panic)
          | Ok policy =>
              let opts := mkRecoveryOptions (fl_recovery_id f) (dc_Durable dc) (dc_Subject dc) (fl_manifest f) (fl_execute f) in
              let token := os_Getenv (dc_BrokerTokenEnv dc) in
              let run (bus : Bus) (connected : bool) (j : J) :=
                let stream := NATSStream bus fetch in
                let '(w, j, _, report, r) :=
                  Run policy (status_client (dc_BrokerURL dc) token) (dc_RepositoryTaskRoutes dc) 0 (ci_clock inputs) connected opts (mkWorld db []) j in
                (mkHost (w_db w) (h_ledger h) j, w_calls w, _ ← r; Ok report) in
              if negb (fl_execute f) then run (mkBus "") false (h_js h)
              else if token == "" then refuse "broker token is not set"
              else match ci_dial inputs with
              | Err _ => refuse "connect recovery event bus"
              | Panic => (mkHost db (h_ledger h) (h_js h), [], Panic)
              | Ok _ =>
                  match Connect (Config.nc_Stream (cf_NATS cfg)) (Config.nc_Subjects (cf_NATS cfg)) (h_js h) with
                  | (j, Err _) => (mkHost db (h_ledger h) j, [], Err "connect recovery event bus")
                  | (j, Panic) => (mkHost db (h_ledger h) j, [], Panic)
                  | (j, Ok bus) => run bus true j
                  end
              end
          end
      end
  end.

(** The database path, or [None] when the arguments are refused. *)
Definition runRecoveryMetadata (database : option string) (narg : Z) (inputs : command_inputs) (h : host (J := J)) : host * res (Z * Z * Z) :=
  let checked :=
    path ← of_option "usage: github-task-dispatcher recovery-metadata" database;
    _ ← guard_err ((path == "") || negb (narg =? 0)) "usage: github-task-dispatcher recovery-metadata";
    regular_file path "stat dispatcher database" "dispatcher database must be a regular file" in
  match checked with
  | Err e => (h, Err e)
  | Panic => (h, Panic)
  | Ok _ =>
      match open_for true (ci_open inputs) "open dispatcher database" (h_db h) with
      | (db, Ok _) => (mkHost db (h_ledger h) (h_js h), Ok (RecoveryMetadata db))
      | (db, Err e) => (mkHost db (h_ledger h) (h_js h), Err e)
      | (db, Panic) => (mkHost db (h_ledger h) (h_js h), Panic)
      end
  end.

Definition reconcile_preflight (usage : string) (keyed : bool) (flags : option reconcile_flags) : res (reconcile_flags * Config) :=
  f ← of_option usage flags;
  _ ← guard_err ((fr_config f == "") || (fr_job_id f <? 1) || (fr_broker_run_id f == "") || (keyed && (fr_idempotency_key f == "")) || negb (fr_NArg f =? 0)) usage;
  cfg ← match config_Load (fr_config f) with Ok cfg => Ok cfg | Err _ => Err "load dispatcher config" | Panic => Panic end;
  Ok (f, cfg).

(** A store method run on the opened database. *)
Definition with_store {A} (execute : bool) (inputs : command_inputs) (f : DB -> DB * res A) (h : host (J := J)) : host * res A :=
  match open_for execute (ci_open inputs) "open dispatcher database" (h_db h) with
  | (db, Ok _) => let '(db, r) := f db in (mkHost db (h_ledger h) (h_js h), r)
  | (db, Err e) => (mkHost db (h_ledger h) (h_js h), Err e)
  | (db, Panic) => (mkHost db (h_ledger h) (h_js h), Panic)
  end.

Definition runFailedLaunchReconciliation (flags : option reconcile_flags) (inputs : command_inputs) (h : host (J := J)) : host * list call * res Job :=
  let checked :=
    '(f, cfg) ← reconcile_preflight "usage: github-task-dispatcher reconcile-failed-launch" false flags;
    let dc := cf_Dispatcher cfg in
    _ ← guard_err (os_Getenv (dc_BrokerTokenEnv dc) == "") "broker token is not set";
    _ ← regular_file (dc_DatabasePath dc) "stat dispatcher database" "dispatcher database must be a regular file";
    Ok (f, dc) in
  match checked with
  | Err e => (h, [], Err e)
  | Panic => (h, [], Panic)
  | Ok (f, dc) =>
      let run := fr_broker_run_id f in
      match sc_TerminalResult (status_client (dc_BrokerURL dc) (os_Getenv (dc_BrokerTokenEnv dc))) run with
      | inr _ => (h, [CTerminal run], Err "fetch broker terminal result")
      | inl terminal =>
          let '(h, r) := with_store (fr_execute f) inputs (ReconcileFailedLaunch (fr_job_id f) run terminal (fr_execute f) (ci_now inputs)) h in
          (h, [CTerminal run], r)
      end
  end.

Definition runReportReconciliation (flags : option reconcile_flags) (inputs : command_inputs) (h : host (J := J)) : host * res outbox_row :=
  let checked :=
    '(f, cfg) ← reconcile_preflight "usage: github-task-dispatcher reconcile-report" true flags;
    _ ← regular_file (dc_DatabasePath (cf_Dispatcher cfg)) "stat dispatcher database" "dispatcher database must be a regular file";
    Ok f in
  match checked with
  | Err e => (h, Err e)
  | Panic => (h, Panic)
  | Ok f => with_store (fr_execute f) inputs
              (ReconcileBlockedReport (fr_job_id f) (fr_broker_run_id f) (fr_idempotency_key f) (fr_execute f) (ci_now inputs)) h
  end.
End Commands.
