(* ===== verification/RecoveryFacts.v ===== *)
(** * Facts about recovery

    The evidence tables change only through the operations of a recovery run; a run
    moves the database along steps of the store and asks the broker only for status and terminal
    results; what its success and its failure leave. *)

From stdpp Require Import relations.
From S2P Require Import Prelude GoText GoSha256 GoJson GoNet LedgerModel Envelope DispatchPolicy DispatchStore Terminal ExternalWait CIRepair DispatchLoop EventBus Recovery DispatchFacts DispatchInv DispatchSteps LoopFacts.
Open Scope string_scope.
Open Scope Z_scope.
Open Scope go_scope.

(** ** The evidence tables *)

Definition evidence (db : DB) := (recovery_runs db, recovery_jobs db, recovery_reconciliations db).

(** [quiet f]: the operation leaves the evidence as it is. *)
Definition quiet {A} (f : DB -> DB * res A) : Prop := forall db, evidence (f db).1 = evidence db.

Lemma transact_quiet {A} (body : DB -> res (A * DB)) :
  (forall db a db', body db = Ok (a, db') -> evidence db' = evidence db) -> quiet (transact body).
Proof. intros Hb db. apply (transact_preserves (fun d => evidence d = evidence db)); [done|]. eauto. Qed.

Lemma transact_rolled_back {A} (body : DB -> res (A * DB)) db db' r :
  transact body db = (db', r) -> (forall a, r <> Ok a) -> db' = db.
Proof. unfold transact. destruct (body db) as [[a d]|e|]; naive_solver. Qed.

Lemma exec_jobs_quiet p f op : quiet (exec_jobs p f op).
Proof. done. Qed.

(** The successful end of a transaction: only what computes a database is kept on the way. *)
Ltac quiet_body HO :=
  repeat match type of HO with
  | (_ ≫= _) = Ok _ =>
      let x := fresh "x" in let X := fresh "X" in
      apply bind_ok in HO as (x & X & HO);
      match type of x with DB => idtac | (_ * DB)%type => idtac | _ => clear X; try clear x end
  | (let _ := _ in _) = Ok _ => progress cbv zeta in HO
  | (let '(_, _) := ?x in _) = Ok _ => destruct x
  | (if ?x then _ else _) = Ok _ => destruct x
  | match ?x with _ => _ end = Ok _ => destruct x
  | Ok _ = Ok _ => injection HO; clear HO; intros; subst
  | Err _ = Ok _ => discriminate HO
  end.

Section Quiet.
Context `{NetURL}.

Lemma insert_terminal_quiet row db db' : insert_terminal row db = Ok db' -> evidence db' = evidence db.
Proof. unfold insert_terminal. intros HO. quiet_body HO; done. Qed.

Lemma insert_outbox_quiet id v b k now db db' : insert_outbox id v b k now db = Ok db' -> evidence db' = evidence db.
Proof. unfold insert_outbox. intros HO. quiet_body HO; done. Qed.

Lemma QueueTerminalResult_quiet job r now : quiet (QueueTerminalResult job r now).
Proof.
  apply transact_quiet. intros db a db' HO. quiet_body HO.
  repeat match goal with
  | X : insert_terminal _ _ = Ok _ |- _ => apply insert_terminal_quiet in X
  | X : insert_outbox _ _ _ _ _ _ = Ok _ |- _ => apply insert_outbox_quiet in X
  end. unfold evidence in *. simpl. congruence.
Qed.

Lemma QueuePreOutboxFailure_quiet job stage reason now : quiet (QueuePreOutboxFailure job stage reason now).
Proof. intros db. apply QueueTerminalResult_quiet. Qed.

Lemma MarkPreOutboxFailure_quiet id s due m now : quiet (MarkPreOutboxFailure id s due m now).
Proof. intros db. unfold MarkPreOutboxFailure. by case_match. Qed.

Lemma MarkStatus_quiet id s due m now : quiet (MarkStatus id s due m now).
Proof. intros db. unfold MarkStatus. by repeat case_match. Qed.

Lemma DeferRepositoryRunExternalResume_quiet job due failure now : quiet (DeferRepositoryRunExternalResume job due failure now).
Proof. apply exec_jobs_quiet. Qed.

Lemma ReconcileRepositoryRunExternalResume_quiet job now : quiet (ReconcileRepositoryRunExternalResume job now).
Proof. apply transact_quiet. intros db a db' HO. by quiet_body HO. Qed.

Lemma RecordRepositoryRunExternalWait_quiet policy job wait now : quiet (RecordRepositoryRunExternalWait policy job wait now).
Proof. apply transact_quiet. intros db a db' HO. quiet_body HO; by quiet_body X. Qed.

Lemma BeginCIWait_quiet job pull branch head model deadline now initial : quiet (BeginCIWait job pull branch head model deadline now initial).
Proof.
  apply transact_quiet. intros db a db' HO. quiet_body HO.
  assert (E : evidence x = evidence db) by (destruct (exists_where _ (ci_tasks db)); by quiet_body X).
  destruct (exists_where _ (ci_reconciliations x)); exact E.
Qed.

Lemma wake_task_quiet head now t db : evidence (wake_task head now t db).1 = evidence db.
Proof. unfold wake_task, queue_reconciliation. by repeat case_match. Qed.

Lemma wake_tasks_quiet head now ts db : evidence (wake_tasks head now ts db).1 = evidence db.
Proof.
  revert db. induction ts as [|t ts IH]; intros db; [done|]. cbn [wake_tasks].
  pose proof (wake_task_quiet head now t db) as E1. destruct (wake_task head now t db) as [db1 q1].
  specialize (IH db1). destruct (wake_tasks head now ts db1). simpl in *. congruence.
Qed.

Lemma RecordCIEvent_quiet signal now : quiet (RecordCIEvent signal now).
Proof.
  intros db. unfold RecordCIEvent. do 2 (case_match; [done|]). revert db. apply transact_quiet. intros db a db' HO.
  apply bind_ok in HO as (pull & _ & HO). cbv zeta in HO. destruct (exists_where _ (ci_events db)); [by simplify_eq|].
  match type of HO with context [wake_tasks ?h ?n ?ts ?d] =>
    pose proof (wake_tasks_quiet h n ts d) as E; destruct (wake_tasks h n ts d) as [db2 q2] end.
  by injection HO as -> ->.
Qed.

Lemma RecordRepositoryRunExternalWake_quiet signal now : quiet (RecordRepositoryRunExternalWake signal now).
Proof. intros db. unfold RecordRepositoryRunExternalWake. by repeat case_match. Qed.

Lemma record_quiet rid did o seq c now : quiet (record rid did o seq c now).
Proof.
  apply transact_quiet. intros db a db' HO. quiet_body HO.
  all: assert (E : evidence x = evidence db) by (destruct (rid != ""); [unfold record_replayed in X|]; by quiet_body X).
  - done.
  - unfold insert_job. by repeat case_match.
Qed.

Lemma process_quiet routes delivery now rid term db : evidence (process routes delivery now rid term db).1.1 = evidence db.
Proof.
  unfold process. destruct (d_StreamSequence delivery) as [seq|e|]; [|done..]. destruct (seq =? 0); [done|].
  destruct (Unmarshal_signal _) as [signal|]; [|done].
  set (r1 := if _ && _ then RecordCIEvent signal now db else (db, Ok false)).
  assert (E1 : evidence r1.1 = evidence db) by (unfold r1; case_match; [apply RecordCIEvent_quiet|done]).
  destruct r1 as [db1 [b1|e1|]]; [|done..]. cbn [fst] in E1.
  set (r2 := if routeOwnsRepository _ _ then RecordRepositoryRunExternalWake signal now db1 else (db1, Ok false)).
  assert (E2 : evidence r2.1 = evidence db1) by (unfold r2; case_match; [apply RecordRepositoryRunExternalWake_quiet|done]).
  destruct r2 as [db2 [b2|e2|]]; [|by rewrite <- E1..]. cbn [fst] in E2.
  destruct (Select signal routes) as [selected outcome]. set (r3 := if rid == "" then _ else _).
  assert (E3 : evidence r3.1 = evidence db2).
  { unfold r3, Record_, RecordRecovery. repeat case_match; try done; apply record_quiet. }
  destruct r3 as [db3 [b3|e3|]]; cbn [fst] in E3; rewrite <- E1, <- E2, <- E3; [|done..].
  by destruct (d_AckSync delivery) as [[]|e|].
Qed.
End Quiet.

(** ** Quiet programs *)

Definition quiet_prog {A} (m : prog A) : Prop := forall w, evidence (w_db (m w).1) = evidence (w_db w).

Lemma quiet_ret {A} (a : A) : quiet_prog (mret a).
Proof. done. Qed.

Lemma quiet_bind {A B} (m : prog A) (f : A -> prog B) : quiet_prog m -> (forall a, quiet_prog (f a)) -> quiet_prog (m ≫= f).
Proof.
  intros Hm Hf w. unfold mbind, prog_bind. specialize (Hm w). destruct (m w) as [w1 [a|e|]]; [|done..]. by rewrite Hf.
Qed.

Lemma quiet_store {A} (f : DB -> DB * res A) : quiet f -> quiet_prog (store f).
Proof. intros Hf w. specialize (Hf (w_db w)). unfold store. by destruct (f (w_db w)). Qed.

Lemma quiet_ask {A} c (answer : bres A) : quiet_prog (ask c answer).
Proof. done. Qed.

Lemma quiet_lift {A} (r : res A) : quiet_prog (lift r).
Proof. done. Qed.

#[local] Hint Resolve QueueTerminalResult_quiet QueuePreOutboxFailure_quiet MarkPreOutboxFailure_quiet MarkStatus_quiet
  DeferRepositoryRunExternalResume_quiet ReconcileRepositoryRunExternalResume_quiet RecordRepositoryRunExternalWait_quiet
  BeginCIWait_quiet : core.

Ltac quiet_run :=
  repeat first [ apply quiet_ret | apply quiet_lift | apply quiet_ask | apply quiet_store; solve [eauto]
               | apply quiet_bind; [|intros ?] | progress cbv zeta | case_match ].

Section QuietPrograms.
Context `{NetURL} (policy : CIRepairPolicy) (broker : BrokerClient).

Lemma reconcilePreOutboxFailure_quiet job s stage failure retryable now :
  quiet_prog (reconcilePreOutboxFailure job s stage failure retryable now).
Proof. unfold reconcilePreOutboxFailure. quiet_run. Qed.
#[local] Hint Resolve reconcilePreOutboxFailure_quiet : core.

Lemma ReconcileStatusFailure_quiet job failure now : quiet_prog (ReconcileStatusFailure job failure now).
Proof. unfold ReconcileStatusFailure. quiet_run; auto. Qed.

Lemma project_terminal_quiet job now : quiet_prog (project_terminal policy broker job now).
Proof. unfold project_terminal. quiet_run; auto. Qed.
#[local] Hint Resolve project_terminal_quiet : core.

Lemma ReconcileStatusResult_quiet job status now : quiet_prog (ReconcileStatusResult policy broker job status now).
Proof. unfold ReconcileStatusResult. quiet_run; auto. Qed.
End QuietPrograms.

(** ** The phases of a run *)

Lemma wrapped_world {A} context (m : prog A) w : (wrapped context m w).1 = (m w).1.
Proof. unfold wrapped. by destruct (m w) as [w' [a|e|]]. Qed.

Lemma wrapped_ok {A} context (m : prog A) w w' a : wrapped context m w = (w', Ok a) -> m w = (w', Ok a).
Proof. unfold wrapped. by destruct (m w) as [w1 [x|e|]]. Qed.

Lemma follows_wrapped `{NetURL} {A} P context (m : prog A) : follows P m -> follows P (wrapped context m).
Proof. intros Hm w. rewrite wrapped_world. apply Hm. Qed.

Lemma quiet_wrapped {A} context (m : prog A) : quiet_prog m -> quiet_prog (wrapped context m).
Proof. intros Hm w. rewrite wrapped_world. apply Hm. Qed.

Section Phases.
Context `{NetURL} {S C : Type} `{ReplayStream S C}.
Context (policy : CIRepairPolicy) (broker : StatusClient) (routes : list RepositoryTaskRoute) (timeout : Z) (now : moment -> Z).

Lemma replay_effect id consumer pending i n s db :
  let db' := (replay routes timeout now id consumer pending i n s db).1.1.2 in
  rtc store_step db db' /\ evidence db' = evidence db.
Proof.
  revert i s db. induction n as [|n IH]; intros i s db; [done|]. cbn [replay].
  destruct (stream_Fetch consumer (fetch_timeout timeout) s) as [s1 [delivery|e|]]; [|done..].
  assert (Hp : rtc store_step db (ProcessRecovery routes id delivery (now (AtReplay i)) db).1.1
               /\ evidence (ProcessRecovery routes id delivery (now (AtReplay i)) db).1.1 = evidence db).
  { unfold ProcessRecovery. case_match; [done|]. split; [apply process_steps|apply process_quiet]. }
  destruct (ProcessRecovery routes id delivery (now (AtReplay i)) db) as [[db1 acks] [u|e|]]; cbn [fst] in Hp; [|done..].
  specialize (IH (Datatypes.S i) s1 db1). destruct (replay _ _ _ _ _ _ _ _ _ _) as [[[s2 db2] rest] r]. cbn [fst snd] in *.
  destruct Hp as [S1 E1], IH as [S2 E2]. split; [by etrans|congruence].
Qed.

Lemma reconcile_job_reads id i job : follows reads (reconcile_job policy broker now id i job).
Proof.
  unfold reconcile_job. cbv zeta. apply follows_bind; [by apply follows_ask|]. intros [status|failure];
    (apply follows_bind; [apply follows_wrapped; first [apply ReconcileStatusResult_reads|apply ReconcileStatusFailure_reads]|]);
    intros state; apply follows_wrapped, follows_store; intros d; apply one_step; constructor.
Qed.

Lemma reconcile_jobs_reads id i jobs : follows reads (reconcile_jobs policy broker now id i jobs).
Proof.
  revert i. induction jobs as [|job jobs IH]; intros i; [apply follows_ret|]. apply follows_bind; [apply reconcile_job_reads|auto].
Qed.

(** [reading w w']: the database moves along steps of the store, and the broker is only asked. *)
Definition reading (w w' : world) : Prop :=
  rtc store_step (w_db w) (w_db w') /\ exists cs, w_calls w' = (w_calls w ++ cs)%list /\ Forall reads cs.

#[export] Instance reading_preorder : PreOrder reading.
Proof.
  split.
  - intros w. split; [reflexivity|]. exists []. by rewrite app_nil_r.
  - intros w1 w2 w3 [S1 (c1 & E1 & F1)] [S2 (c2 & E2 & F2)]. split; [by etrans|]. exists (c1 ++ c2)%list.
    rewrite E2, E1, app_assoc. split; [done|]. by apply Forall_app.
Qed.

Lemma reading_db w db : rtc store_step (w_db w) db -> reading w (w <| w_db := db |>).
Proof. intros HS. split; [done|]. exists []. by rewrite app_nil_r. Qed.

Lemma reading_follows {A} (m : prog A) w : follows reads m -> reading w (m w).1.
Proof. intros Hm. split; [apply Hm|by apply follows_calls]. Qed.

Lemma finish_reading opts jobs report w : reading w (finish_recovery policy broker now opts jobs report w).1.
Proof.
  unfold finish_recovery. cbv zeta.
  set (m := (_ ≫= _) : prog _). assert (Hm : reading w (m w).1).
  { apply reading_follows, follows_bind; [apply reconcile_jobs_reads|]. intros _.
    apply follows_wrapped, follows_store. intros d. apply one_step. constructor. }
  destruct (m w) as [w1 [[run outcomes]|e|]]; cbn [fst] in *; [|done..]. by case_match.
Qed.

Lemma execute_reading opts start report w s : reading w (execute_recovery policy broker routes timeout now opts start report w s).1.1.1.1.
Proof.
  unfold execute_recovery. cbv zeta.
  match goal with |- context [wrapped ?c ?m w] => assert (Hm : reading w (wrapped c m w).1) end.
  { apply reading_follows, follows_wrapped, follows_store. intros d. apply one_step. constructor. }
  destruct (wrapped _ _ w) as [w1 [jobs|e|]]; cbn [fst] in Hm; [|done..].
  destruct (stream_Reset _ _ _ s) as [s1 [[consumer pending]|e|]]; [|done..].
  pose proof (replay_effect (ro_RecoveryID opts) consumer pending 0 (Z.to_nat pending) s1 (w_db w1)) as Hr.
  destruct (replay _ _ _ _ _ _ _ _ _ _) as [[[s2 db2] acks] [u|e|]]; cbn [fst snd] in Hr; destruct Hr as [Hr _].
  - match goal with |- context [finish_recovery ?a ?b ?c ?o ?j ?rep ?v] => pose proof (finish_reading o j rep v) as Hf;
      destruct (finish_recovery a b c o j rep v) as [w3 [rep3 r3]] end.
    cbn [fst] in *. etrans; [exact Hm|]. etrans; [by apply reading_db|]. done.
  - etrans; [exact Hm|]. by apply reading_db.
  - etrans; [exact Hm|]. by apply reading_db.
Qed.
End Phases.

(** ** The marker of a run *)

(** An incomplete run with this id and manifest sequence. *)
Definition marked (id : string) (manifest : Z) (db : DB) : Prop :=
  exists row, row ∈ recovery_runs db /\ rr_id row = id /\ rr_status row = RecoveryIncomplete /\ rr_manifest_sequence row = manifest.

(** No other run is incomplete. *)
Definition only_open (id : string) (db : DB) : Prop :=
  forall row, row ∈ recovery_runs db -> rr_status row = RecoveryIncomplete -> rr_id row = id.

Definition unique_ids (db : DB) : Prop := NoDup (map rr_id (recovery_runs db)).

Lemma unique_runs_ids db : db_unique db -> unique_ids db.
Proof.
  intros U. assert (U1 : unique_rows run_imm differ (recovery_runs db)) by apply U. clear U. revert U1. unfold unique_ids, unique_rows.
  induction (recovery_runs db) as [|r t IH]; cbn; intros U; [apply base.NoDup_nil_2|]. inversion U as [|? ? F U']; subst.
  apply base.NoDup_cons_2; [|by apply IH]. intros Hin. apply list_elem_of_fmap in Hin as (x & E & Hx).
  rewrite List.Forall_forall in F. apply (F (run_imm x)); [|exact E]. apply in_map. by apply list_elem_of_In.
Qed.

Lemma incomplete_run_spec id r : incomplete_run id r = true <-> rr_id r = id /\ rr_status r = RecoveryIncomplete.
Proof. unfold incomplete_run. rewrite andb_true_iff, !bool_decide_eq_true. done. Qed.

Lemma marked_blocks id m d start db : marked id m db -> exists e, AssertRecoveryComplete d start db = Err e.
Proof.
  intros (row & Hr & _ & Hs & _). unfold AssertRecoveryComplete.
  assert (0 < count_where (fun r => rr_status r == RecoveryIncomplete) (recovery_runs db)) as Hc.
  { eapply count_where_pos; [exact Hr|]. by apply bool_decide_eq_true. }
  destruct (count_where _ _ =? 0) eqn:E; [lia|]. eexists. reflexivity.
Qed.

Lemma marked_evidence id m db db' : recovery_runs db' = recovery_runs db -> marked id m db -> marked id m db'.
Proof. unfold marked. by intros ->. Qed.

(** Updates that keep what marks a run. *)
Lemma marked_update id m p f db db' :
  recovery_runs db' = update_where p f (recovery_runs db) ->
  (forall r, rr_id (f r) = rr_id r /\ rr_status (f r) = rr_status r /\ rr_manifest_sequence (f r) = rr_manifest_sequence r) ->
  marked id m db -> marked id m db'.
Proof.
  intros E Hf (row & Hr & Hi & Hs & Hm). destruct (Hf row) as (F1 & F2 & F3).
  exists (if p row then f row else row). rewrite E. split; [apply update_where_spec; eauto|].
  destruct (p row); rewrite ?F1, ?F2, ?F3; done.
Qed.

Lemma FailRecovery_marked id e i m db : marked i m db -> marked i m (FailRecovery id e db).1.
Proof. eapply marked_update; [reflexivity|]. done. Qed.

Lemma BeginRecovery_db id d m now db :
  (BeginRecovery id d m now db).1 = db
  \/ (marked id m (BeginRecovery id d m now db).1 /\ (forall r, r ∈ recovery_runs db -> rr_id r <> id)
      /\ exists row, rr_id row = id /\ rr_durable row = d /\ rr_status row = RecoveryIncomplete /\ rr_restored_job_count row = -1
           /\ (BeginRecovery id d m now db).1 = db <| recovery_runs := (recovery_runs db ++ [row])%list |>).
Proof.
  unfold BeginRecovery. destruct (_ || _); [by left|]. destruct (negb _); [by left|]. cbv zeta. destruct (high_bit m || _); [by left|].
  destruct (exists_where (fun r => rr_id r == id) (recovery_runs db)) eqn:E; cbn [negb fst]; [by left|]. right. split_and!.
  - eexists. split; [cbn; apply elem_of_app; right; apply list_elem_of_singleton; reflexivity|]. done.
  - by apply exists_where_fresh.
  - by eexists (mkRecoveryRow id d m _ (-1) _ RecoveryIncomplete _ _ _).
Qed.

Lemma BeginRecovery_ok id d m now db db' u :
  BeginRecovery id d m now db = (db', Ok u) ->
  id <> "" /\ checkpoint db = m /\ high_bit m = false /\ high_bit ((m + 1) mod 2 ^ 64) = false /\ only_open id db'
  /\ exists row, row ∈ recovery_runs db' /\ rr_id row = id /\ rr_durable row = d /\ rr_manifest_sequence row = m
       /\ rr_start_sequence row = (m + 1) mod 2 ^ 64.
Proof.
  unfold BeginRecovery. destruct ((id == "") || _) eqn:E0; [done|]. destruct (negb (checkpoint db =? m)) eqn:E1; [done|]. cbv zeta.
  destruct (high_bit m || _) eqn:E2; [done|]. set (db1 := if negb _ then _ else _). intros HB. injection HB as <- HO.
  apply bind_ok in HO as (run & Hrun & HO). apply bind_unit_ok in HO as [G HO]. destruct u. apply guard_err_ok in G, HO.
  destruct (first_where (fun r => rr_id r == id) (recovery_runs db1)) as [row|] eqn:Ef; [|done]. injection Hrun as <-.
  apply first_where_Some in Ef as [Hin Hid%bool_decide_eq_true].
  apply orb_false_iff in E0 as [E0 _]. apply bool_decide_eq_false in E0. apply orb_false_iff in E2 as [E2 E3].
  apply negb_false_iff, Z.eqb_eq in E1. apply orb_false_iff in G as [G _]. apply orb_false_iff in G as [G G3].
  apply orb_false_iff in G as [G1 G2]. apply negb_false_iff, Z.eqb_eq in G2, G3. apply negb_false_iff, bool_decide_eq_true in G1.
  apply negb_false_iff, Z.eqb_eq in HO. rewrite count_where_zero in HO. split_and!; try done.
  - intros x Hx Hs. specialize (HO x Hx). apply andb_false_iff in HO as [HO|HO].
    + by apply bool_decide_eq_false in HO.
    + by apply negb_false_iff, bool_decide_eq_true in HO.
  - exists row. done.
Qed.

Lemma PrepareRecoveryJobs_marked id i m db : marked i m db -> marked i m (PrepareRecoveryJobs id db).1.
Proof.
  intros HM. unfold PrepareRecoveryJobs. apply transact_preserves; [done|]. intros jobs db' HO.
  apply bind_ok in HO as (run & _ & HO). apply bind_ok in HO as (db1 & H1 & HO). injection HO as _ <-.
  destruct (rr_restored_job_count run <? 0); [|by injection H1 as <-].
  apply bind_ok in H1 as (u & _ & H1). injection H1 as <-. eapply marked_update; [reflexivity| |exact HM]. done.
Qed.

Lemma PrepareRecoveryJobs_error id db db' r : PrepareRecoveryJobs id db = (db', r) -> (forall jobs, r <> Ok jobs) -> db' = db.
Proof. apply transact_rolled_back. Qed.

(** The jobs handed out are frozen, and the first time they include every restored job. *)
Lemma PrepareRecoveryJobs_ok id db db' jobs :
  PrepareRecoveryJobs id db = (db', Ok jobs) ->
  exists run, run ∈ recovery_runs db /\ rr_id run = id /\ rr_status run = RecoveryIncomplete
    /\ recovery_reconciliations db' = recovery_reconciliations db /\ checkpoint db' = checkpoint db
    /\ (rr_restored_job_count run < 0 -> RecoveryJobs db ⊆ jobs)
    /\ exists count, recovery_runs db' = update_where (fun r => (rr_id r == id) && (rr_restored_job_count r =? -1))
                                          (fun r => r <| rr_restored_job_count := count |>) (recovery_runs db)
         \/ recovery_runs db' = recovery_runs db.
Proof.
  unfold PrepareRecoveryJobs. intros E. apply transact_ok in E. apply bind_ok in E as (run & Hrun & HO).
  destruct (first_where _ _) as [x|] eqn:Ef; [|done]. injection Hrun as ->.
  apply first_where_Some in Ef as [Hin [Hid Hs]%incomplete_run_spec]. exists run.
  apply bind_ok in HO as (db1 & H1 & HO). injection HO as <- <-.
  destruct (rr_restored_job_count run <? 0) eqn:Ec.
  - apply bind_ok in H1 as (u & _ & H1). injection H1 as <-. split_and!; try done; [|eexists; left; reflexivity].
    intros _ job Hj. cbn. unfold RecoveryJobs in Hj. apply list_elem_of_fmap in Hj as (j & -> & Hj).
    apply list_elem_of_fmap. exists (mkRecoveryJobRow id (job_of false j)). split; [done|].
    apply rows_where_spec. split; [apply elem_of_app; right; apply list_elem_of_fmap; by exists j|]. by apply bool_decide_eq_true.
  - injection H1 as <-. split_and!; try done; [lia|]. exists 0. by right.
Qed.

Definition recorded (id : string) (job : Job) (db : DB) : Prop :=
  exists row, row ∈ recovery_reconciliations db /\ rc_recovery_id row = id /\ rc_job_id row = jb_ID job.

(** The tables of the runs and of the frozen jobs. *)
Definition frozen (db : DB) := (recovery_runs db, recovery_jobs db).

Lemma evidence_frozen db db' : evidence db' = evidence db -> frozen db' = frozen db /\ recovery_reconciliations db' = recovery_reconciliations db.
Proof. unfold evidence, frozen. intros E. injection E as -> -> ->. done. Qed.

Lemma RecordReconciliation_effect id job b state now db :
  let '(db', r) := RecordReconciliation id job b state now db in
  frozen db' = frozen db /\ recovery_reconciliations db ⊆ recovery_reconciliations db' /\ (r = Ok tt -> recorded id job db').
Proof.
  destruct (RecordReconciliation id job b state now db) as [db' r] eqn:E. unfold RecordReconciliation in E.
  destruct r as [[]|e|]; [|apply transact_rolled_back in E as ->; [by split_and!|done]..].
  apply transact_ok in E. apply bind_unit_ok in E as [_ E]. apply bind_unit_ok in E as [_ E]. destruct (_ =? 1) eqn:Ec.
  - injection E as <-. split_and!; [done..|]. intros _. apply Z.eqb_eq in Ec.
    destruct (exists_where (fun r => (rc_recovery_id r == id) && (rc_job_id r =? jb_ID job)) (recovery_reconciliations db)) eqn:Ex.
    + apply exists_where_spec in Ex as (x & Hx & Hp). apply andb_true_iff in Hp as [H1%bool_decide_eq_true H2%Z.eqb_eq]. by exists x.
    + rewrite exists_where_false, <- count_where_zero in Ex. lia.
  - apply bind_ok in E as (db1 & H1 & E). apply bind_unit_ok in E as [_ E].
    assert (F : evidence db1 = evidence db).
    { destruct (state == StateLaunched); [|destruct (state == StateReportPending)]; by quiet_body H1. }
    apply evidence_frozen in F as [F1 F2]. injection E as <-. unfold frozen in *. cbn. rewrite <- F2. split_and!; [done|set_solver|].
    intros _. eexists. split; [apply elem_of_app; right; apply list_elem_of_singleton; reflexivity|]. done.
Qed.

(** ** Completion *)

Lemma insert_by_job_perm r rows : insert_by_job r rows ≡ₚ r :: rows.
Proof.
  induction rows as [|x rows IH]; cbn; [done|]. destruct (rc_job_id r <? rc_job_id x); [done|]. rewrite IH. apply Permutation_swap.
Qed.

Lemma ordered_perm rows acc : fold_left (fun l r => insert_by_job r l) rows acc ≡ₚ rows ++ acc.
Proof.
  revert acc. induction rows as [|r rows IH]; intros acc; cbn; [done|]. rewrite IH, insert_by_job_perm. by rewrite Permutation_middle.
Qed.

Definition completed (replays now : Z) (r : recovery_row) : recovery_row :=
  r <| rr_replay_count := replays |> <| rr_status := RecoveryCompleted |> <| rr_error := "" |> <| rr_completed_at := Some (UnixMilli now) |>.

(** With its marker in place a run is completed, or nothing changes. *)
Lemma CompleteRecovery_effect id m n now db :
  unique_ids db -> marked id m db ->
  match CompleteRecovery id n now db with
  | (db', Ok (run, outcomes)) =>
      (exists replays, recovery_runs db' = update_where (incomplete_run id) (completed replays now) (recovery_runs db))
      /\ checkpoint db' = checkpoint db /\ Z.of_nat (length outcomes) = n /\ rn_Status run = RecoveryCompleted
      /\ (forall job, recorded id job db -> exists o, o ∈ outcomes /\ rl_JobID o = jb_ID job)
  | (db', Err _) => db' = db
  | (_, Panic) => False
  end.
Proof.
  intros U (row & Hin & Hid & Hs & _). unfold CompleteRecovery. destruct (negb _) eqn:En; [done|]. apply negb_false_iff, Z.eqb_eq in En. cbv zeta.
  assert (Hp : incomplete_run id row = true) by (by apply incomplete_run_spec).
  assert (count_where (incomplete_run id) (recovery_runs db) = 1) as ->.
  { eapply (count_where_key rr_id _ id); [done|exact Hin|done|]. by intros x [E _]%incomplete_run_spec. }
  set (replays := count_where _ (recovery_replayed_messages db)). set (db' := db <| recovery_runs ::= _ |>).
  assert (U' : unique_ids db').
  { unfold unique_ids in *. cbn. rewrite update_where_column; [done|]. done. }
  assert (Hin' : completed replays now row ∈ recovery_runs db').
  { cbn. apply update_where_spec. exists row. split; [done|]. by rewrite Hp. }
  change (expectOne 1 "complete recovery") with (@Ok unit tt). unfold mbind, res_bind. unfold RecoveryEvidence.
  pose proof (first_where_key rr_id (recovery_runs db') _ U' Hin') as Ef. change (rr_id (completed replays now row)) with (rr_id row) in Ef. rewrite Hid in Ef.
  rewrite Ef. cbn [of_option].
  split_and!; [by exists replays|done| |done|].
  - rewrite length_map, (Permutation_length (ordered_perm _ [])), app_nil_r. exact En.
  - intros job (x & Hx & Hr & Hj). exists (reconciliation_of x). split; [|exact Hj]. apply list_elem_of_fmap. exists x. split; [done|].
    rewrite ordered_perm, app_nil_r. apply rows_where_spec. split; [exact Hx|]. by apply bool_decide_eq_true.
Qed.

(** ** Reconciliation of the frozen jobs *)

(** [reconciling m]: runs and frozen jobs stay, and no reconciliation is lost. *)
Definition reconciling (db db' : DB) : Prop := frozen db' = frozen db /\ recovery_reconciliations db ⊆ recovery_reconciliations db'.

#[export] Instance reconciling_preorder : PreOrder reconciling.
Proof.
  split; [by split|]. intros a b c [F1 R1] [F2 R2]. split; [congruence|]. by etrans.
Qed.

Lemma reconciling_evidence db db' : evidence db' = evidence db -> reconciling db db'.
Proof. intros [E1 E2]%evidence_frozen. split; [done|]. by rewrite E2. Qed.

Lemma recorded_reconciling id job db db' : reconciling db db' -> recorded id job db -> recorded id job db'.
Proof. intros [_ R] (row & Hr & E). exists row. split; [by apply R|done]. Qed.

Section Reconciling.
Context `{NetURL} (policy : CIRepairPolicy) (broker : StatusClient) (now : moment -> Z).

Lemma conclude_effect context id job b state t w :
  let '(w', r) := wrapped context (store (RecordReconciliation id job b state t)) w in
  reconciling (w_db w) (w_db w') /\ (r = Ok tt -> recorded id job (w_db w')).
Proof.
  unfold wrapped, store. pose proof (RecordReconciliation_effect id job b state t (w_db w)) as HR.
  destruct (RecordReconciliation id job b state t (w_db w)) as [db' [[]|e|]]; destruct HR as (F & R & O); (split; [by split|]); auto; done.
Qed.

Lemma reconcile_job_effect id i job w :
  let '(w', r) := reconcile_job policy broker now id i job w in
  reconciling (w_db w) (w_db w') /\ (r = Ok tt -> recorded id job (w_db w')).
Proof.
  unfold reconcile_job. cbv zeta. unfold mbind at 1, prog_bind at 1, ask. set (w1 := w <| w_trace := _ |>).
  assert (HW : reconciling (w_db w) (w_db w1)) by reflexivity.
  destruct (sc_Status broker (jb_BrokerRunID job)) as [status|failure]; unfold mbind, prog_bind.
  - pose proof (quiet_wrapped ("reconcile restored job " ++ fmt_d (jb_ID job)) _ (ReconcileStatusResult_quiet policy (as_broker broker) job status (now (AtReconcile i))) w1) as Q.
    destruct (wrapped _ _ w1) as [w2 [state|e|]]; cbn [fst] in Q; apply reconciling_evidence in Q; [|by split; [etrans|]..].
    match goal with |- context [wrapped ?c (store (RecordReconciliation ?id ?j ?b ?st ?t)) w2] => pose proof (conclude_effect c id j b st t w2) as HC end.
    destruct (wrapped _ _ w2) as [w3 r]. destruct HC as [HC HO]. split; [|done]. by do 2 (etrans; [eassumption|]).
  - pose proof (quiet_wrapped ("reconcile restored job " ++ fmt_d (jb_ID job) ++ " status failure") _ (ReconcileStatusFailure_quiet job failure (now (AtReconcile i))) w1) as Q.
    destruct (wrapped _ _ w1) as [w2 [state|e|]]; cbn [fst] in Q; apply reconciling_evidence in Q; [|by split; [etrans|]..].
    match goal with |- context [wrapped ?c (store (RecordReconciliation ?id ?j ?b ?st ?t)) w2] => pose proof (conclude_effect c id j b st t w2) as HC end.
    destruct (wrapped _ _ w2) as [w3 r]. destruct HC as [HC HO]. split; [|done]. by do 2 (etrans; [eassumption|]).
Qed.

Lemma reconcile_jobs_effect id i jobs w :
  let '(w', r) := reconcile_jobs policy broker now id i jobs w in
  reconciling (w_db w) (w_db w') /\ (r = Ok tt -> forall job, job ∈ jobs -> recorded id job (w_db w')).
Proof.
  revert i w. induction jobs as [|job jobs IH]; intros i w; cbn [reconcile_jobs].
  { split; [reflexivity|]. intros _ job Hj. by apply elem_of_nil in Hj. }
  unfold mbind, prog_bind. pose proof (reconcile_job_effect id i job w) as HJ.
  destruct (reconcile_job _ _ _ id i job w) as [w1 [[]|e|]]; destruct HJ as [R1 O1]; [|done..].
  specialize (IH (Datatypes.S i) w1). destruct (reconcile_jobs _ _ _ _ _ _ w1) as [w2 r]. destruct IH as [R2 O2].
  split; [by etrans|]. intros Hr x [->|Hx]%elem_of_cons; [|by apply O2]. eapply recorded_reconciling; [exact R2|]. by apply O1.
Qed.
End Reconciling.
