(* ===== verification/RecoveryProps.v ===== *)
(** * Properties of recovery

    A run of the recovery never launches, a dry run changes nothing, success means that every
    restored job was reconciled and that the dispatcher may start, and failure keeps the
    dispatcher from starting.  A run that failed after its replay advanced the checkpoint can never
    be completed. *)

From stdpp Require Import relations.
From Stdlib Require Import Ascii.
From S2P Require Import Prelude GoText GoSha256 GoJson GoNet LedgerModel Envelope DispatchPolicy DispatchStore Terminal ExternalWait CIRepair DispatchLoop EventBus Recovery DispatchFacts DispatchInv DispatchSteps LoopFacts DispatchProps RecoveryFacts.
Open Scope string_scope.
Open Scope Z_scope.
Open Scope go_scope.

Section Run.
Context `{NetURL} {S C : Type} `{ReplayStream S C}.
Context (policy : CIRepairPolicy) (broker : StatusClient) (routes : list RepositoryTaskRoute) (timeout : Z) (now : moment -> Z).

(** A run is refused with nothing changed, fails to begin, or is executed. *)
Lemma run_cases connected opts w s :
  let start := (checkpoint (w_db w) + 1) mod 2 ^ 64 in
  let began := BeginRecovery (ro_RecoveryID opts) (ro_Durable opts) (checkpoint (w_db w)) (now AtBegin) (w_db w) in
  let res := Run policy broker routes timeout now connected opts w s in
  (exists report r, res = (w, s, [], report, r) /\ (ro_Execute opts = true -> r <> Ok tt))
  \/ (ro_Execute opts = true /\ checkpoint (w_db w) = ro_ManifestSequence opts /\ first_where unreconcilable (RecoveryJobs (w_db w)) = None /\
      ((exists report r, res = (w <| w_db := began.1 |>, s, [], report, r) /\ r <> Ok tt)
       \/ (began.2 = Ok tt /\ exists report, res = record_failure (ro_RecoveryID opts)
             (execute_recovery policy broker routes timeout now opts start report (w <| w_db := began.1 |>) s)))).
Proof.
  cbv zeta. unfold Run. destruct (_ || _); [left; by do 2 eexists|]. cbn [RecoveryMetadata].
  destruct (negb (checkpoint (w_db w) =? _)) eqn:E; [left; by do 2 eexists|].
  destruct (first_where _ _) as [job|] eqn:Ef; [left; by do 2 eexists|].
  destruct (ro_Execute opts); cbn [negb]; [|left; by do 2 eexists]. destruct (negb connected); [left; by do 2 eexists|].
  right. apply negb_false_iff, Z.eqb_eq in E. do 3 (split; [done|]). unfold wrapped, store.
  destruct (BeginRecovery _ _ _ _ _) as [db1 [[]|e|]]; cbn [fst snd].
  - right. split; [done|]. by eexists.
  - left. by do 2 eexists.
  - left. by do 2 eexists.
Qed.

(** What the executed part leaves, when every incomplete run with this id has manifest sequence [m]. *)
Definition settled (opts : RecoveryOptions) (w : world) (report : RecoveryReport) (w' : world) : Prop :=
  (exists run, run ∈ recovery_runs (w_db w) /\ incomplete_run (ro_RecoveryID opts) run = true)
  /\ (exists count replays t, recovery_runs (w_db w') =
       update_where (incomplete_run (ro_RecoveryID opts)) (completed replays t)
         (update_where (fun r => (rr_id r == ro_RecoveryID opts) && (rr_restored_job_count r =? -1)) (fun r => r <| rr_restored_job_count := count |>)
            (recovery_runs (w_db w)))
     \/ recovery_runs (w_db w') = update_where (incomplete_run (ro_RecoveryID opts)) (completed replays t) (recovery_runs (w_db w)))
  /\ rt_Status report = RecoveryCompleted /\ Z.of_nat (length (rt_Reconciliations report)) = rt_RestoredNonterminalJobs report
  /\ ((forall run, run ∈ recovery_runs (w_db w) -> rr_id run = ro_RecoveryID opts -> rr_restored_job_count run < 0) ->
      forall job, job ∈ RecoveryJobs (w_db w) -> exists o, o ∈ rt_Reconciliations report /\ rl_JobID o = jb_ID job).

Lemma finish_effect opts m jobs report w :
  db_unique (w_db w) -> marked (ro_RecoveryID opts) m (w_db w) ->
  let '(w', (report', r)) := finish_recovery policy broker now opts jobs report w in
  match r with
  | Ok _ =>
      (exists replays t, recovery_runs (w_db w') = update_where (incomplete_run (ro_RecoveryID opts)) (completed replays t) (recovery_runs (w_db w)))
      /\ rt_Status report' = RecoveryCompleted /\ Z.of_nat (length (rt_Reconciliations report')) = Z.of_nat (length jobs)
      /\ rt_RestoredNonterminalJobs report' = rt_RestoredNonterminalJobs report
      /\ (forall job, job ∈ jobs -> exists o, o ∈ rt_Reconciliations report' /\ rl_JobID o = jb_ID job)
  | _ => marked (ro_RecoveryID opts) m (w_db w')
  end.
Proof.
  intros U HM. unfold finish_recovery. cbv zeta. unfold mbind, prog_bind.
  pose proof (reconcile_jobs_reads policy broker now (ro_RecoveryID opts) 0 jobs w) as [HS _].
  pose proof (reconcile_jobs_effect policy broker now (ro_RecoveryID opts) 0 jobs w) as HR.
  destruct (reconcile_jobs _ _ _ _ _ _ w) as [w1 r1]. destruct HR as [[F R] HO]. unfold frozen in F. injection F as F _.
  assert (HM1 : marked (ro_RecoveryID opts) m (w_db w1)) by (by eapply marked_evidence).
  assert (U1 : unique_ids (w_db w1)) by (eapply unique_runs_ids, db_le_unique; [by apply store_steps_le|done]).
  destruct r1 as [[]|e|]; [|done..]. unfold wrapped, store.
  pose proof (CompleteRecovery_effect (ro_RecoveryID opts) m (Z.of_nat (length jobs)) (now AtComplete) (w_db w1) U1 HM1) as HC.
  destruct (CompleteRecovery _ _ _ _) as [db2 [[run outcomes]|e|]]; [|by subst db2|done].
  destruct HC as ((replays & E) & _ & L & St & O). rewrite L, Z.eqb_refl. cbn. rewrite F in E. split_and!; eauto.
Qed.

Lemma execute_effect opts m start report w s :
  db_unique (w_db w) -> (forall x, x ∈ recovery_runs (w_db w) -> incomplete_run (ro_RecoveryID opts) x = true -> rr_manifest_sequence x = m) ->
  let '(w', s', acks, report', r) := execute_recovery policy broker routes timeout now opts start report w s in
  match r with
  | Ok _ => settled opts w report' w'
  | _ => w_db w' = w_db w \/ marked (ro_RecoveryID opts) m (w_db w')
  end.
Proof.
  intros U Hman. unfold execute_recovery. cbv zeta. unfold wrapped at 1, store at 1.
  destruct (PrepareRecoveryJobs (ro_RecoveryID opts) (w_db w)) as [db1 r1] eqn:EP. destruct r1 as [jobs|e|].
  2-3: left; by eapply PrepareRecoveryJobs_error.
  assert (U1 : db_unique db1).
  { eapply db_le_unique; [|exact U]. rewrite <- (f_equal fst EP : _ = db1). apply PrepareRecoveryJobs_le. }
  pose proof (PrepareRecoveryJobs_ok _ _ _ _ EP) as (run & Hin & Hid & Hst & _ & _ & HJ & count & Hruns).
  assert (HM : marked (ro_RecoveryID opts) m (w_db w)).
  { exists run. split_and!; try done. apply Hman; [done|]. by apply incomplete_run_spec. }
  apply (PrepareRecoveryJobs_marked (ro_RecoveryID opts)) in HM. rewrite EP in HM. cbn [fst] in HM.
  set (report1 := report <| rt_RestoredNonterminalJobs := _ |>). cbn [w_db].
  destruct (stream_Reset _ _ _ s) as [s1 [[consumer pending]|e|]]; [|by right..].
  pose proof (replay_effect routes timeout now (ro_RecoveryID opts) consumer pending 0 (Z.to_nat pending) s1 db1) as HR.
  change (w_db (w <| w_db := db1 |>)) with db1.
  destruct (replay _ _ _ _ _ _ _ _ _ _) as [[[s2 db2] acks] r2]. cbn [fst snd] in HR. destruct HR as [HS HE].
  apply evidence_frozen in HE as [F2 _]. unfold frozen in F2. injection F2 as F2 _.
  assert (HM2 : marked (ro_RecoveryID opts) m db2) by (by eapply marked_evidence).
  assert (U2 : db_unique db2) by (eapply db_le_unique; [by apply store_steps_le|done]).
  destruct r2 as [u|e|]; [|by right..].
  pose proof (finish_effect opts m jobs report1 (w <| w_db := db1 |> <| w_db := db2 |>) U2 HM2) as HF.
  destruct (finish_recovery _ _ _ _ _ _ _) as [w3 [report3 r3]]. destruct r3 as [u3|e|]; [|by right..].
  destruct HF as ((replays & t & E) & Hs & HL & HN & HO). cbn [w_db] in E. split_and!.
  - exists run. split; [done|]. by apply incomplete_run_spec.
  - exists count, replays, t. change (w_db (w <| w_db := db1 |> <| w_db := db2 |>)) with db2 in E.
    rewrite E, F2. destruct Hruns as [->| ->]; auto.
  - done.
  - by rewrite HL, HN.
  - intros Hneg job Hj. apply HO, HJ; [by apply Hneg|done].
Qed.

(** A settled run is completed, and every other run is as it was. *)
Lemma settled_rows opts w report w' :
  settled opts w report w' ->
  exists g, recovery_runs (w_db w') = map g (recovery_runs (w_db w))
    /\ forall x, rr_id (g x) = rr_id x /\ rr_durable (g x) = rr_durable x /\ rr_start_sequence (g x) = rr_start_sequence x
         /\ rr_status (g x) = if incomplete_run (ro_RecoveryID opts) x then RecoveryCompleted else rr_status x.
Proof.
  intros (_ & (count & replays & t & [E|E]) & _); rewrite E; unfold update_where; [rewrite map_map|]; eexists; (split; [reflexivity|]);
    intros x; cbv beta.
  - set (y := if (rr_id x == _) && _ then _ else x).
    assert (Y : incomplete_run (ro_RecoveryID opts) y = incomplete_run (ro_RecoveryID opts) x /\ rr_id y = rr_id x /\ rr_durable y = rr_durable x
      /\ rr_start_sequence y = rr_start_sequence x /\ rr_status y = rr_status x) by (unfold y; by destruct (_ && _)).
    destruct Y as (Y0 & Y1 & Y2 & Y3 & Y4). rewrite <- Y0, <- Y1, <- Y2, <- Y3, <- Y4. by destruct (incomplete_run (ro_RecoveryID opts) y).
  - by destruct (incomplete_run (ro_RecoveryID opts) x).
Qed.

Definition completed_for (durable : string) (start : Z) (r : recovery_row) : bool :=
  (rr_durable r == durable) && (rr_start_sequence r =? start) && (rr_status r == RecoveryCompleted).

Lemma settled_opens opts start w report w' :
  unique_ids (w_db w) -> only_open (ro_RecoveryID opts) (w_db w) ->
  (exists row, row ∈ recovery_runs (w_db w) /\ rr_id row = ro_RecoveryID opts /\ rr_durable row = ro_Durable opts
     /\ rr_start_sequence row = start) ->
  (forall x, x ∈ recovery_runs (w_db w) -> completed_for (ro_Durable opts) start x = false) ->
  settled opts w report w' -> AssertRecoveryComplete (ro_Durable opts) start (w_db w') = Ok tt.
Proof.
  intros U HO (row & Hin & Hi & Hd & Hst) Hnone HX. destruct (settled_rows _ _ _ _ HX) as (g & E & Hg). destruct HX as ((run & Hr & Hp) & _).
  assert (run = row) as -> by (apply incomplete_run_spec in Hp as [Hp _]; eapply (key_unique rr_id); [exact U|done|done|congruence]). unfold AssertRecoveryComplete.
  assert (count_where (fun r => rr_status r == RecoveryIncomplete) (recovery_runs (w_db w')) = 0) as ->.
  { apply count_where_zero. rewrite E. intros x' (x & -> & Hx)%list_elem_of_fmap. destruct (Hg x) as (_ & _ & _ & ->).
    apply bool_decide_eq_false. destruct (incomplete_run _ x) eqn:Ei; [done|]. intros Hs.
    enough (incomplete_run (ro_RecoveryID opts) x = true) by congruence. apply incomplete_run_spec. split; [by apply HO|done]. }
  cbn. destruct (start =? 0); [done|]. fold (completed_for (ro_Durable opts) start).
  erewrite (count_where_key_in rr_id _ (ro_RecoveryID opts) _ (g row)); [done| | | |].
  - rewrite E. unfold unique_ids in U. rewrite map_map. erewrite map_ext; [exact U|]. intros x. apply Hg.
  - rewrite E. apply list_elem_of_fmap. by exists row.
  - destruct (Hg row) as (_ & G1 & G2 & G3). unfold completed_for. rewrite G1, G2, G3, Hp, Hd, Hst, Z.eqb_refl.
    by rewrite !bool_decide_eq_true_2.
  - rewrite E. intros x' (x & -> & Hx)%list_elem_of_fmap Hc. destruct (Hg x) as (G0 & G1 & G2 & G3). rewrite G0.
    unfold completed_for in Hc. rewrite G1, G2, G3 in Hc. destruct (incomplete_run _ x) eqn:Ei; [by apply incomplete_run_spec in Ei as [Ei _]|].
    specialize (Hnone x Hx). unfold completed_for in Hnone. congruence.
Qed.

(** ** What a run does *)

Lemma run_reading connected opts w s :
  let '(w', s', acks, report, r) := Run policy broker routes timeout now connected opts w s in
  reading w w' /\ (ro_Execute opts = false -> w' = w /\ s' = s /\ acks = []).
Proof.
  destruct (run_cases connected opts w s) as [(report & r & -> & _)|(Hx & _ & _ & HR)].
  { split; [|done]. split; [reflexivity|]. exists []. by rewrite app_nil_r. }
  assert (HB : forall db r, BeginRecovery (ro_RecoveryID opts) (ro_Durable opts) (checkpoint (w_db w)) (now AtBegin) (w_db w) = (db, r) ->
            reading w (w <| w_db := db |>)).
  { intros db r E. apply reading_db. rewrite <- (f_equal fst E : _ = db). apply one_step. constructor. }
  destruct (BeginRecovery _ _ _ _ _) as [db1 r1]. specialize (HB db1 r1 eq_refl). cbn [fst snd] in HR.
  destruct HR as [(report & r & -> & _)|(_ & report & ->)]; [split; [done|congruence]|].
  pose proof (execute_reading policy broker routes timeout now opts ((checkpoint (w_db w) + 1) mod 2 ^ 64) report (w <| w_db := db1 |>) s) as HX.
  destruct (execute_recovery _ _ _ _ _ _ _ _ _ _) as [[[[w2 s2] acks] report2] [u|e|]]; cbn [fst] in HX;
    (split; [|congruence]); [by etrans| |by etrans]. do 2 (etrans; [eassumption|]). unfold store. cbn. apply reading_db, one_step, step_fail_recovery.
Qed.

(** C13: Recovery never launches, resumes or comments: whatever the broker and the stream answer, a run takes the database along
    operations of the store and asks the broker only for statuses and terminal results; without [--execute] it changes neither the
    database nor the stream and asks nobody. *)
Theorem recovery_only_reads connected opts w s :
  let '(w', s', acks, report, r) := Run policy broker routes timeout now connected opts w s in
  reading w w' /\ (ro_Execute opts = false -> w' = w /\ s' = s /\ acks = []).
Proof. apply run_reading. Qed.

(** The executed part of a run that began. *)
Lemma began_effect opts w s report :
  store_reachable (w_db w) ->
  let began := BeginRecovery (ro_RecoveryID opts) (ro_Durable opts) (checkpoint (w_db w)) (now AtBegin) (w_db w) in
  let w1 := w <| w_db := began.1 |> in
  began.2 = Ok tt ->
  let '(w', s', acks, report', r) := record_failure (ro_RecoveryID opts)
    (execute_recovery policy broker routes timeout now opts ((checkpoint (w_db w) + 1) mod 2 ^ 64) report w1 s) in
  match r with
  | Ok _ => settled opts w1 report' w'
  | _ => w_db w' = w_db w \/ marked (ro_RecoveryID opts) (checkpoint (w_db w)) (w_db w')
  end.
Proof.
  intros HU. cbv zeta.
  pose proof (BeginRecovery_db (ro_RecoveryID opts) (ro_Durable opts) (checkpoint (w_db w)) (now AtBegin) (w_db w)) as HD.
  pose proof (BeginRecovery_le (ro_RecoveryID opts) (ro_Durable opts) (checkpoint (w_db w)) (now AtBegin) (w_db w)) as HL.
  destruct (BeginRecovery _ _ _ _ _) as [db1 r1] eqn:EB. cbn [fst snd] in *. intros ->.
  apply BeginRecovery_ok in EB as (_ & _ & _ & _ & HO & row & Hin & Hid & _ & Hm & _).
  assert (U1 : db_unique db1) by (eapply db_le_unique; [exact HL|by apply reachable_unique]).
  assert (Hman : forall x, x ∈ recovery_runs db1 -> incomplete_run (ro_RecoveryID opts) x = true -> rr_manifest_sequence x = checkpoint (w_db w)).
  { intros x Hx [Hi _]%incomplete_run_spec. rewrite <- Hm. f_equal. eapply (key_unique rr_id); [by apply unique_runs_ids|done|done|congruence]. }
  pose proof (execute_effect opts _ ((checkpoint (w_db w) + 1) mod 2 ^ 64) report (w <| w_db := db1 |>) s U1 Hman) as HX.
  destruct (execute_recovery _ _ _ _ _ _ _ _ _ _) as [[[[w2 s2] acks] report2] [u|e|]]; cbn [record_failure w_db].
  - done.
  - unfold store. cbn. destruct HX as [HX|HX]; [|right; by apply FailRecovery_marked]. cbn in HX. rewrite HX.
    destruct (exists_where (incomplete_run (ro_RecoveryID opts)) (recovery_runs db1)) eqn:Ei.
    + right. apply exists_where_spec in Ei as (x & Hx & Hp). pose proof (Hman x Hx Hp) as Hmx.
      apply incomplete_run_spec in Hp as [Hp1 Hp2]. apply FailRecovery_marked. by exists x.
    + rewrite exists_where_false in Ei. left. unfold FailRecovery. cbn. rewrite (update_where_id _ _ _ Ei).
      destruct HD as [->|(HM & _)]; [by destruct (w_db w)|]. destruct HM as (x & Hx & Hi & Hs & _).
      specialize (Ei x Hx). enough (incomplete_run (ro_RecoveryID opts) x = true) by congruence. by apply incomplete_run_spec.
  - destruct HX as [HX|HX]; [|by right]. cbn in HX. rewrite HX. destruct HD as [->|(HM & _)]; [by left|by right].
Qed.

Lemma failed_run connected opts w s :
  store_reachable (w_db w) ->
  let '(w', s', acks, report, r) := Run policy broker routes timeout now connected opts w s in
  r = Ok tt \/ w_db w' = w_db w \/ marked (ro_RecoveryID opts) (checkpoint (w_db w)) (w_db w').
Proof.
  intros HU. destruct (run_cases connected opts w s) as [(report & r & -> & _)|(Hx & _ & _ & HR)]; [auto|].
  destruct HR as [(report & r & -> & _)|(HB & report & ->)].
  - cbn. destruct (BeginRecovery_db (ro_RecoveryID opts) (ro_Durable opts) (checkpoint (w_db w)) (now AtBegin) (w_db w)) as [->|(HM & _)]; auto.
  - pose proof (began_effect opts w s report HU HB) as HX.
    destruct (record_failure _ _) as [[[[w2 s2] acks] report2] [[]|e|]]; auto.
Qed.

(** A recovery that does not succeed fails closed: either the database is exactly as it was, or its marker is left incomplete, and the
    gate the dispatcher passes before it creates its consumer refuses every configuration. *)
Theorem failed_recovery_blocks_startup connected opts w s w' s' acks report r :
  store_reachable (w_db w) -> Run policy broker routes timeout now connected opts w s = (w', s', acks, report, r) -> r <> Ok tt ->
  w_db w' = w_db w \/ forall durable start, exists e, AssertRecoveryComplete durable start (w_db w') = Err e.
Proof.
  intros HU E Hr. pose proof (failed_run connected opts w s HU) as HF. rewrite E in HF. destruct HF as [HF|[HF|HF]]; [done|by left|right].
  intros d start. by eapply marked_blocks.
Qed.

(** A recovery that succeeds was executed against the manifest it was given, reconciled every restored job - the report of a first run names each of
    them, and never more than it restored - and opens the gate of the dispatcher for the durable and the start sequence of the run. *)
Theorem recovery_success_opens connected opts w s w' s' acks report :
  store_reachable (w_db w) -> ro_Execute opts = true ->
  Run policy broker routes timeout now connected opts w s = (w', s', acks, report, Ok tt) ->
  checkpoint (w_db w) = ro_ManifestSequence opts
  /\ rt_Status report = RecoveryCompleted /\ Z.of_nat (length (rt_Reconciliations report)) = rt_RestoredNonterminalJobs report
  /\ ((forall run, run ∈ recovery_runs (w_db w) -> rr_id run <> ro_RecoveryID opts) ->
      forall job, job ∈ RecoveryJobs (w_db w) -> unreconcilable job = false /\ exists o, o ∈ rt_Reconciliations report /\ rl_JobID o = jb_ID job)
  /\ ((forall run, run ∈ recovery_runs (w_db w) -> completed_for (ro_Durable opts) ((ro_ManifestSequence opts + 1) mod 2 ^ 64) run = false) ->
      AssertRecoveryComplete (ro_Durable opts) ((ro_ManifestSequence opts + 1) mod 2 ^ 64) (w_db w') = Ok tt).
Proof.
  intros HU Hx E. destruct (run_cases connected opts w s) as [(rep & r & E2 & Hr)|(_ & Hc & Hnone & HR)].
  { rewrite E in E2. injection E2; intros <- *; by destruct (Hr Hx). }
  destruct HR as [(rep & r & E2 & Hr)|(HB & rep & E2)]; [rewrite E in E2; injection E2; intros <- *; done|].
  pose proof (began_effect opts w s rep HU HB) as HX. rewrite <- E2, E in HX. rewrite <- Hc.
  pose proof (BeginRecovery_db (ro_RecoveryID opts) (ro_Durable opts) (checkpoint (w_db w)) (now AtBegin) (w_db w)) as HD.
  pose proof (BeginRecovery_le (ro_RecoveryID opts) (ro_Durable opts) (checkpoint (w_db w)) (now AtBegin) (w_db w)) as HL.
  destruct (BeginRecovery _ _ _ _ _) as [db1 r1] eqn:EB. cbn [fst snd] in *. subst r1.
  apply BeginRecovery_ok in EB as (_ & _ & _ & _ & HO & row & Hin & Hid & Hd & Hm & Hst).
  assert (U1 : unique_ids db1) by (apply unique_runs_ids; eapply db_le_unique; [exact HL|by apply reachable_unique]).
  pose proof HX as (_ & _ & Hs & HN & HJ). split_and!; [done..| |].
  - intros Hfresh job Hj. destruct HD as [->|(_ & _ & new & Hi & _ & _ & Hcount & ->)]; [by destruct (Hfresh row Hin)|].
    rewrite first_where_None in Hnone. split; [by apply Hnone|]. apply HJ; [|exact Hj]. cbn. intros x [Hx'|Hx']%elem_of_app Ei.
    + by destruct (Hfresh x Hx').
    + apply list_elem_of_singleton in Hx' as ->. lia.
  - intros Hnc. eapply (settled_opens opts _ (w <| w_db := db1 |>)); [exact U1|exact HO| | |exact HX].
    + by exists row.
    + cbn. destruct HD as [->|(_ & _ & new & _ & _ & Hsn & _ & ->)]; [done|]. intros x [Hx'|Hx']%elem_of_app; [by apply Hnc|].
      apply list_elem_of_singleton in Hx' as ->. unfold completed_for. rewrite Hsn. by rewrite andb_false_r.
Qed.

(** ** Interrupted runs

    The marker of an interrupted run carries the checkpoint it began at; each replayed message moves the checkpoint on. *)


End Run.

Section Interrupted.
Context `{NetURL} {S C : Type} `{ReplayStream S C}.



End Interrupted.

(** ** A concrete recovery: one launched job, two messages after the checkpoint *)

(** A stream that hands out the deliveries it is given. *)
#[local] Instance scripted : ReplayStream (list (res Delivery)) unit :=
  {| stream_Reset := fun _ _ _ s => (s, Ok (tt, Z.of_nat (length s)));
     stream_Fetch := fun _ _ s => match s with r :: rest => (rest, r) | [] => ([], Err "timeout") end |}.

Definition replayed (n : Z) : Delivery :=
  mkDelivery (Ok n) (quoted ("{'meta':{'source':'github','source_event':'ping','source_delivery_id':'replay-" ++ fmt_d n ++ "'},'payload':{}}")) (Ok tt).

Definition sample_status : StatusClient :=
  mkStatusClient (fun run => inl (mkRunStatus "" run "running" None false)) (fun _ => inr (PlainErr "no result yet")).
Definition no_repair : CIRepairPolicy := mkCIRepairPolicy 0 0 0.
Definition sample_options : RecoveryOptions := mkRecoveryOptions "restore-1" "dispatcher" "signals.>" 5 true.
Definition sample_world : world := mkWorld db_launched [].
Abbreviation sample_run s :=
  (@Run sample_url (list (res Delivery)) unit scripted no_repair sample_status [] 0 (fun _ => T1) true sample_options sample_world s).
Definition good_stream : list (res Delivery) := [Ok (replayed 6); Ok (replayed 7)].
Definition broken_stream : list (res Delivery) := [Ok (replayed 6); Err "nats: connection closed"].

Example recovery_ex :
  let '(w, s, acks, report, r) := sample_run good_stream in
  r = Ok tt /\ rt_ReplayCount report = 2 /\ map rl_JobID (rt_Reconciliations report) = [1] /\ acks = [AckSync; AckSync] /\ w_calls w = [CStatus "run-1"]
  /\ checkpoint (w_db w) = 7 /\ AssertRecoveryComplete "dispatcher" 6 (w_db w) = Ok tt.
Proof. vm_compute. by split_and!. Qed.

Example interrupted_ex :
  let '(w, s, acks, report, r) := sample_run broken_stream in
  r = Err "fetch replay message 2 of 2: nats: connection closed" /\ checkpoint (w_db w) = 6 /\ map rr_status (recovery_runs (w_db w)) = [RecoveryIncomplete].
Proof. vm_compute. by split_and!. Qed.

Lemma run_parts {A B C D E} (x : A * B * C * D * E) : x = (x.1.1.1.1, x.1.1.1.2, x.1.1.2, x.1.2, x.2).
Proof. by destruct x as [[[[a b] c] d] e]. Qed.

Lemma good_result : sample_run good_stream =
  ((sample_run good_stream).1.1.1.1, (sample_run good_stream).1.1.1.2, (sample_run good_stream).1.1.2, (sample_run good_stream).1.2, Ok tt).
Proof.
  assert ((sample_run good_stream).2 = Ok tt) as <- by (vm_compute; reflexivity). apply run_parts.
Qed.

Lemma broken_result : (sample_run broken_stream).2 <> Ok tt /\ checkpoint (w_db (sample_run broken_stream).1.1.1.1) <> checkpoint (w_db sample_world).
Proof. split; vm_compute; discriminate. Qed.

Lemma fresh_runs : recovery_runs (w_db sample_world) = [].
Proof. vm_compute. reflexivity. Qed.

Lemma recovery_success_opens_witness :
  rt_Status (sample_run good_stream).1.2 = RecoveryCompleted
  /\ AssertRecoveryComplete (ro_Durable sample_options) ((ro_ManifestSequence sample_options + 1) mod 2 ^ 64) (w_db (sample_run good_stream).1.1.1.1) = Ok tt.
Proof.
  pose proof (recovery_success_opens no_repair sample_status [] 0 (fun _ => T1) true sample_options sample_world good_stream
    _ _ _ _ reachable_launched eq_refl good_result) as (_ & Hs & _ & _ & Ho).
  split; [exact Hs|]. apply Ho. intros run Hrun. rewrite fresh_runs in Hrun. exfalso. exact (proj1 (elem_of_nil run) Hrun).
Defined.

Lemma failed_recovery_blocks_startup_witness :
  w_db (sample_run broken_stream).1.1.1.1 = w_db sample_world
  \/ forall durable start, exists e, AssertRecoveryComplete durable start (w_db (sample_run broken_stream).1.1.1.1) = Err e.
Proof.
  exact (failed_recovery_blocks_startup no_repair sample_status [] 0 (fun _ => T1) true sample_options sample_world broken_stream
    _ _ _ _ _ reachable_launched (run_parts _) (proj1 broken_result)).
Defined.


(** ** Two more ways to stay closed *)

Section Ready.
Context `{NetURL} (policy : CIRepairPolicy) (broker : StatusClient) (now : moment -> Z).

(** A restored job whose run is ready for review enters the CI wait, which is not a state a reconciliation may record: the run fails after the job
    has moved. *)
Lemma ready_job_fails_recovery id i job w status w1 :
  sc_Status broker (jb_BrokerRunID job) = inl status ->
  ReconcileStatusResult policy (as_broker broker) job status (now (AtReconcile i)) (w <| w_trace := (w_trace w ++ [(w_db w, CStatus (jb_BrokerRunID job))])%list |>)
    = (w1, Ok StateCIWaiting) ->
  exists e, reconcile_job policy broker now id i job w = (w1, Err e).
Proof.
  intros E1 E2. unfold reconcile_job, mbind, prog_bind, ask. cbv zeta. rewrite E1. unfold wrapped at 1. rewrite E2. unfold wrapped, store.
  assert (ER : exists e, RecordReconciliation id job (st_Status status) StateCIWaiting (now (AtRecord i)) (w_db w1) = (w_db w1, Err e)).
  { unfold RecordReconciliation, transact. destruct (((jb_Status job != StateLaunched) && (jb_Status job != StateExternalWaiting)) || (jb_BrokerRunID job == "")); eexists; reflexivity. }
  destruct ER as [e ->]. eexists. f_equal. by destruct w1.
Qed.
End Ready.

(** A second recovery of the same durable from the same manifest completes, and then the gate, which asks for exactly one, closes. *)
Example second_recovery_closes :
  let first := sample_run [] in
  let second := @Run sample_url _ _ scripted no_repair sample_status [] 0 (fun _ => T1) true (sample_options <| ro_RecoveryID := "restore-2" |>)
                  first.1.1.1.1 [] in
  first.2 = Ok tt /\ second.2 = Ok tt
  /\ AssertRecoveryComplete "dispatcher" 6 (w_db first.1.1.1.1) = Ok tt
  /\ AssertRecoveryComplete "dispatcher" 6 (w_db second.1.1.1.1) = Err "dispatcher recovery configuration has no matching completed recovery".
Proof. vm_compute. by split_and!. Qed.
