(* ===== verification/StartupFacts.v ===== *)
(** * Facts about the processes

    What a start of the dispatcher has established when it succeeds, and how it interlocks with the
    recovery command: a recovery that failed stops every start, a recovery that
    succeeded lets the same configuration start. *)

From stdpp Require Import relations gmap.
From S2P Require Import Prelude GoText GoSha256 GoJson GoNet LedgerModel LedgerStore LedgerInv LedgerOps LedgerRefs LedgerOutcomes Envelope DispatchPolicy Config DispatchStore Terminal ExternalWait CIRepair DispatchLoop Broker Release WorkRouter EventBus EventBusFacts Recovery RouteResolver Shadow ShadowFacts Startup Commands DispatchFacts DispatchInv DispatchSteps LoopFacts DispatchProps ConfigFacts BrokerFacts RecoveryFacts RecoveryProps.
Open Scope string_scope.
Open Scope Z_scope.
Open Scope go_scope.

(** ** The release pipeline *)

Section Release.
Context `{NetURL} `{Environ} `{FileSystem} {J : Type} `{JetStream J}.

(** Nothing is running: no active item and no lease. *)
Definition at_rest (ledger : Ledger) : Prop :=
  (forall r, r ∈ work_items ledger -> it_state r <> StateActive) /\ serialization_leases ledger = [].

Lemma RecoverInterrupted_at_rest now ledger : at_rest (RecoverInterrupted now ledger).1.
Proof.
  split; [|done]. cbn. intros r (x & Hx & ->)%update_where_spec. destruct (it_state x == StateActive) eqn:E; [done|].
  by apply bool_decide_eq_false in E.
Qed.

(** The pipeline a build hands out. *)
Definition pipeline_ready (cfg : WorkRouterConfig) (bus : Bus) (ledger : Ledger) (svc : ReleaseService) : Prop :=
  at_rest ledger
  /\ (exists x, rv_registry svc !! UploadExecutorID = Some (UploadExecutor x))
  /\ (exists a dg, ActiveRouteSnapshot (rd_ID release_route) ledger = Some a
        /\ activationDigest release_route (mkExecutorDescriptor UploadExecutorID ExecutorDeterministicTool "v1") = Ok dg /\ sn_digest a = dg)
  /\ rv_consumer svc = mkConsumer (bus_stream bus) (wr_Durable cfg).

Lemma register_all_keeps registry executors registry' id x :
  register_all registry executors = Ok registry' -> registry !! id = Some x -> registry' !! id = Some x.
Proof.
  revert registry. induction executors as [|y ys IH]; intros registry E Hl; cbn in E; [by injection E as <-|].
  unfold Register in E. destruct (ExecutorDescriptor_Validate (Descriptor y)) as [u|e|]; [|done..].
  destruct (registry !! ed_ID (Descriptor y)) eqn:Ey; [done|]. apply IH in E; [done|]. rewrite lookup_insert_ne; [done|]. congruence.
Qed.

Lemma register_upload u : Register NewRegistry (Some (UploadExecutor u)) = (<[UploadExecutorID := UploadExecutor u]> ∅, Ok tt).
Proof. unfold Register, NewRegistry. rewrite lookup_empty. reflexivity. Qed.

Lemma release_registry_upload clients cfg additional registry :
  release_registry clients cfg additional = Ok registry -> exists x, registry !! UploadExecutorID = Some (UploadExecutor x).
Proof.
  unfold release_registry. destruct (os_ReadFile _) as [key|e|], (YKMConfig_Validate (ykm_config cfg)) as [u|e'|]; try done. cbv zeta.
  destruct (key == ""); [done|]. destruct (cl_key_error clients key); [done|].
  rewrite register_upload. intros E. eexists. eapply register_all_keeps; [exact E|]. apply lookup_insert_eq.
Qed.

(** A build that hands out a pipeline has activated its route and put the ledger at rest; every build moves the ledger along its operations. *)
Lemma Release_Build_effect clients cfg bus additional now recovered new_id ledger (j : J) :
  reachable ledger ->
  let '(ledger', j', r) := Release_Build clients cfg bus additional now recovered new_id ledger j in
  rtc ledger_step ledger ledger'
  /\ match r with
     | Ok None => wr_Enabled cfg = false /\ ledger' = ledger /\ j' = j
     | Ok (Some svc) => wr_Enabled cfg = true /\ pipeline_ready cfg bus ledger' svc
     | _ => True
     end.
Proof.
  intros HU. unfold Release_Build. destruct (wr_Enabled cfg) eqn:Een; cbn [negb]; [|by split].
  destruct (release_registry clients cfg additional) as [registry|e|] eqn:Er; [|by split..].
  apply release_registry_upload in Er as [x Hx].
  unfold ActivateRoute, Resolve. change (rd_ExecutorID release_route) with UploadExecutorID. rewrite Hx. cbn [of_option mbind res_bind].
  change (Descriptor (UploadExecutor x)) with (mkExecutorDescriptor UploadExecutorID ExecutorDeterministicTool "v1").
  pose proof (step_save release_route (mkExecutorDescriptor UploadExecutorID ExecutorDeterministicTool "v1") now new_id ledger) as S1.
  destruct (saveRoute _ _ _ _ _) as [l1 [snapshot|e|]] eqn:Es; cbn [fst] in S1; [|split; [by apply rtc_once|done]..].
  assert (HU1 : reachable l1) by (unfold reachable in *; by eapply rtc_r).
  pose proof (step_recover recovered l1) as S2. pose proof (RecoverInterrupted_at_rest recovered l1) as HR.
  destruct (RecoverInterrupted recovered l1) as [l2 r2] eqn:E2. cbn [fst] in S2, HR.
  assert (Hsnap : route_snapshots l2 = route_snapshots l1) by (by injection E2 as <- _). assert (exists n, r2 = Ok n) as [n ->] by (injection E2 as _ <-; eauto).
  destruct (NewConsumer _ _ j) as [j1 [consumer|e|]] eqn:En; (split; [eapply rtc_l; [exact S1|by apply rtc_once]|]); [|done..].
  split; [done|]. split_and!; [done|by exists x| |by apply NewConsumer_ok in En as (-> & _)].
  apply saveRoute_ok in Es as (dg & _ & _ & _ & Hdg & _ & r & Hf & _).
  destruct (active_with_only _ _ _ _ (reachable_refs _ HU1) Hf) as (a & Ha & _ & Had). exists a, dg.
  unfold ActiveRouteSnapshot in *. rewrite Hsnap. split_and!; done.
Qed.
End Release.

(** ** The gate *)

Lemma OpenStore_evidence db : evidence (OpenStore db) = evidence db.
Proof. reflexivity. Qed.

Lemma gate_evidence durable start db db' : evidence db' = evidence db -> AssertRecoveryComplete durable start db' = AssertRecoveryComplete durable start db.
Proof. unfold evidence, AssertRecoveryComplete. intros E. injection E as -> _ _. reflexivity. Qed.

Section Start.
Context `{NetURL} `{Environ} `{FileSystem} `{GoUnicode} `{YamlConfig} {J : Type} `{JetStream J}.

(** What a start has established when it succeeds. *)
Record started (cfg : Config) (h h' : host (J := J)) (d : dispatcher) : Prop := mkStarted {
  st_opened : h_db h' = OpenStore (h_db h);
  st_gate : AssertRecoveryComplete (dc_Durable (cf_Dispatcher cfg)) (dc_RecoveryStartSequence (cf_Dispatcher cfg)) (h_db h') = Ok tt;
  st_policy : CIRepairPolicy_Validate (ds_policy d) = Ok tt;
  st_ledger : rtc ledger_step (h_ledger h) (h_ledger h');
  st_release : wr_Enabled (cf_WorkRouter cfg) = true ->
    exists svc, ds_release d = Some svc /\ pipeline_ready (cf_WorkRouter cfg) (mkBus (Config.nc_Stream (cf_NATS cfg))) (h_ledger h') svc;
  st_consumer : exists info n, js_ConsumerInfo (Config.nc_Stream (cf_NATS cfg)) (dc_Durable (cf_Dispatcher cfg)) (h_js h') = Found (info, n)
    /\ nc_FilterSubject info = dc_Subject (cf_Dispatcher cfg) /\ nc_AckPolicy info = AckExplicit
    /\ (0 < dc_RecoveryStartSequence (cf_Dispatcher cfg) ->
        nc_DeliverPolicy info = DeliverByStartSequence /\ nc_OptStartSeq info = dc_RecoveryStartSequence (cf_Dispatcher cfg)) }.

Lemma ConfigureCIRepair_valid p policy : ConfigureCIRepair p = Ok policy -> CIRepairPolicy_Validate policy = Ok tt.
Proof.
  unfold ConfigureCIRepair. intros E. cbv zeta in E. apply bind_ok in E as ([] & Hv & E). by injection E as <-.
Qed.

Lemma activateRoutes_steps acts m db : reachable db -> rtc ledger_step db (activateRoutes acts m db).1.
Proof.
  revert m db. induction acts as [|[activation [now id]] acts IH]; intros m db HU; cbn; [reflexivity|].
  destruct (os_ReadFile _) as [raw|e|]; [|reflexivity..].
  set (opts := mkActivateOptions _ _ _).
  assert (HS : rtc ledger_step db (RunWithStore opts now id db).1).
  { unfold RunWithStore. destruct (activation_preflight opts db) as [[[def dg] active]|e|]; [|reflexivity..].
    destruct (Register _ _) as [reg [u|e|]]; [|reflexivity..]. unfold ActivateRoute. destruct (_ ≫= _) as [ex|e|]; [|reflexivity..].
    pose proof (step_save def ex now id db) as S1. destruct (saveRoute _ _ _ _ _) as [l [s|e|]]; by apply rtc_once. }
  destruct (RunWithStore opts now id db) as [db1 [out|e|]]; cbn [fst] in HS; [|done..]. case_match; [done|].
  etrans; [exact HS|]. apply IH. unfold reachable in *. by etrans.
Qed.

(** A start that stops early. *)
Ltac stopped := cbn; split_and!; [by auto|first [done|apply rtc_refl]|intros ?; first [done|by split_and!]|done].

Lemma start_effect `{!JetStreamLaws J} launch cfg inputs h :
  reachable (h_ledger h) ->
  let '(h', r) := dispatcher_start launch cfg inputs h in
  (h_db h' = h_db h \/ h_db h' = OpenStore (h_db h)) /\ rtc ledger_step (h_ledger h) (h_ledger h')
  /\ (AssertRecoveryComplete (dc_Durable (cf_Dispatcher cfg)) (dc_RecoveryStartSequence (cf_Dispatcher cfg)) (h_db h) <> Ok tt ->
      h_ledger h' = h_ledger h /\ h_js h' = h_js h /\ is_ok r = false)
  /\ match r with Ok d => started cfg h h' d | _ => True end.
Proof.
  intros HU. unfold dispatcher_start. cbv zeta. destruct (os_Getenv _ == ""); [stopped|].
  destruct (_ && _); [stopped|]. destruct (in_open inputs) as [u|e|]; [|stopped..].
  destruct (ConfigureCIRepair _) as [policy|e|] eqn:Ep; [|stopped..]. apply ConfigureCIRepair_valid in Ep.
  rewrite (gate_evidence _ _ (h_db h) _ (OpenStore_evidence (h_db h))).
  destruct (AssertRecoveryComplete _ _ (h_db h)) as [[]|e|] eqn:Eg; [|stopped..]. cbn [h_ledger h_js].
  match goal with |- context [activateRoutes ?a ?m (h_ledger h)] => pose proof (activateRoutes_steps a m (h_ledger h) HU) as S1;
    destruct (activateRoutes a m (h_ledger h)) as [l1 [snapshots|e|]] end; cbn [fst] in S1; [|stopped..].
  destruct (BuildWithStoreAndSnapshots _ _ _ l1) as [ingress|e|]; [|stopped..].
  destruct (in_dial inputs) as [u2|e|]; [|stopped..].
  destruct (Connect _ _ (h_js h)) as [j1 [bus|e|]] eqn:Ec; [|stopped..].
  assert (bus = mkBus (Config.nc_Stream (cf_NATS cfg))) as ->.
  { unfold Connect in Ec. destruct (ensureStream _ _ _) as [j2 [u3|e|]]; cbn in Ec; congruence. }
  assert (HU1 : reachable l1) by (unfold reachable in *; by etrans).
  match goal with |- context [Release_Build ?c ?w ?b ?a ?n ?r ?i l1 j1] => pose proof (Release_Build_effect c w b a n r i l1 j1 HU1) as HB;
    destruct (Release_Build c w b a n r i l1 j1) as [[l2 j2] r2] end.
  destruct HB as [S2 HB]. assert (S3 : rtc ledger_step (h_ledger h) l2) by (by etrans).
  destruct r2 as [release|e|]; [|stopped..].
  destruct (NewConsumer _ _ j2) as [j3 [consumer|e|]] eqn:En; [|stopped..].
  cbn [h_db h_ledger h_js]. split_and!; [by right|exact S3|done|]. constructor; cbn.
  - reflexivity.
  - by rewrite (gate_evidence _ _ (h_db h) _ (OpenStore_evidence (h_db h))).
  - exact Ep.
  - exact S3.
  - intros Hen. destruct release as [svc|]; [|by destruct HB as [HB _]; congruence]. exists svc. split; [done|apply HB].
  - apply NewConsumer_ok in En as (_ & _ & _ & _ & En). apply ensureConsumer_configured in En as (info & n & Hi & Hc & _).
    exists info, n. split; [exact Hi|]. destruct Hc as (_ & Hf & Ha & _ & _ & _ & Hs). done.
Qed.

(** C17: A dispatcher that starts has passed every check in order: no recovery is incomplete and the one its configuration asks for is completed, its repair policy is
    valid, the routes were activated along operations of the ledger, an enabled release pipeline has its route active and found the ledger at rest, and its consumer
    exists with its subject, explicit acknowledgement and recovery start. *)
Theorem startup_checked `{!JetStreamLaws J} launch cfg inputs h h' d :
  reachable (h_ledger h) -> dispatcher_start launch cfg inputs h = (h', Ok d) -> started cfg h h' d.
Proof. intros HU E. pose proof (start_effect launch cfg inputs h HU) as HS. rewrite E in HS. apply HS. Qed.
End Start.

(** ** The commands *)

Section Commands.
Context `{NetURL} `{GoDuration} `{Environ} `{FileSystem} `{HttpClient} `{GoFloat} `{GoUnicode} `{YamlConfig} {J : Type} `{JetStream J}.
Context (read_config : string -> res Config) (fetch : Consumer -> Z -> J -> J * res Delivery).

(** The gate comes before anything but the store. *)
Lemma start_gated launch cfg inputs (h : host (J := J)) :
  AssertRecoveryComplete (dc_Durable (cf_Dispatcher cfg)) (dc_RecoveryStartSequence (cf_Dispatcher cfg)) (h_db h) <> Ok tt ->
  let '(h', r) := dispatcher_start launch cfg inputs h in is_ok r = false /\ h_ledger h' = h_ledger h /\ h_js h' = h_js h.
Proof.
  intros Hg. unfold dispatcher_start. cbv zeta. destruct (os_Getenv _ == ""); [done|].
  destruct (_ && _); [done|]. destruct (in_open inputs) as [u|e|]; [|done..].
  destruct (ConfigureCIRepair _) as [policy|e|]; [|done..].
  rewrite (gate_evidence _ _ (h_db h) _ (OpenStore_evidence (h_db h))). by destruct (AssertRecoveryComplete _ _ (h_db h)) as [[]|e|].
Qed.

(** The command refuses before the recovery runs, or hands over to it. *)
Lemma runRecovery_cases flags inputs (h : host (J := J)) :
  let '(h', calls, r) := runRecovery read_config fetch flags inputs h in
  (calls = [] /\ is_ok r = false /\ h_ledger h' = h_ledger h /\ (h_db h' = h_db h \/ h_db h' = OpenStore (h_db h)))
  \/ exists f cfg policy bus connected j w' j' acks report r',
       recovery_preflight read_config flags = Ok (f, cfg)
       /\ let dc := cf_Dispatcher cfg in
          let db := if fl_execute f then OpenStore (h_db h) else h_db h in
          @Run _ _ _ (NATSStream bus fetch) policy (status_client (dc_BrokerURL dc) (os_Getenv (dc_BrokerTokenEnv dc))) (dc_RepositoryTaskRoutes dc) 0
            (ci_clock inputs) connected
            (mkRecoveryOptions (fl_recovery_id f) (dc_Durable dc) (dc_Subject dc) (fl_manifest f) (fl_execute f)) (mkWorld db []) j = (w', j', acks, report, r')
          /\ h' = mkHost (w_db w') (h_ledger h) j' /\ calls = w_calls w' /\ r = (_ ← r'; Ok report) /\ (fl_execute f = false -> j = h_js h).
Proof.
  unfold runRecovery. destruct (recovery_preflight read_config flags) as [[f cfg]|e|] eqn:Ef; [|left; by auto..]. cbv zeta.
  unfold open_for. destruct (ci_open inputs) as [u|e|]; [|left; cbn; by auto..].
  assert (Hdb : forall d, d = (if fl_execute f then OpenStore (h_db h) else h_db h) -> d = h_db h \/ d = OpenStore (h_db h)).
  { intros d ->. destruct (fl_execute f); auto. }
  destruct (ConfigureCIRepair _) as [policy|e|]; [|left; cbn; by auto..].
  destruct (fl_execute f) eqn:Ex; cbn [negb].
  - destruct (os_Getenv _ == ""); [left; cbn; by auto|]. destruct (ci_dial inputs) as [u2|e|]; [|left; cbn; by auto..].
    destruct (Connect _ _ (h_js h)) as [j1 [bus|e|]]; [|left; cbn; by auto..].
    match goal with |- context [@Run ?u ?S ?C ?st ?p ?b ?ro ?t ?n ?c ?o ?w ?s] => destruct (@Run u S C st p b ro t n c o w s) as [[[[w' j'] acks] report] r'] eqn:ER end.
    right. exists f, cfg, policy, bus, true, j1, w', j', acks, report, r'. rewrite Ex. split; [done|]. split_and!; try done.
  - match goal with |- context [@Run ?u ?S ?C ?st ?p ?b ?ro ?t ?n ?c ?o ?w ?s] => destruct (@Run u S C st p b ro t n c o w s) as [[[[w' j'] acks] report] r'] eqn:ER end.
    right. exists f, cfg, policy, (mkBus ""), false, (h_js h), w', j', acks, report, r'. rewrite Ex. split; [done|]. split_and!; try done.
Qed.

Lemma opened_reachable (f : bool) db : store_reachable db -> store_reachable (if f then OpenStore db else db).
Proof. destruct f; [|done]. intros HU. eapply reachable_steps; [exact HU|]. apply one_step. constructor. Qed.

(** C15: A recovery command that does not succeed never opens the gate of the dispatcher: it only read from the broker and did not touch the work
    ledger; and either it left the dispatcher's database as it was, up to the migration of opening the store, and the verdict of the gate with it,
    or every later start of the dispatcher, with any configuration, is refused before it touches the ledger or the event stream. *)
Theorem failed_recovery_stops_dispatcher flags inputs h h1 calls r :
  store_reachable (h_db h) -> runRecovery read_config fetch flags inputs h = (h1, calls, r) -> is_ok r = false ->
  Forall reads calls /\ h_ledger h1 = h_ledger h
  /\ ((h_db h1 = h_db h \/ h_db h1 = OpenStore (h_db h))
      /\ (forall durable start, AssertRecoveryComplete durable start (h_db h1) = AssertRecoveryComplete durable start (h_db h))
      \/ forall launch cfg' inputs', let '(h2, r2) := dispatcher_start launch cfg' inputs' h1 in
           is_ok r2 = false /\ h_ledger h2 = h_ledger h1 /\ h_js h2 = h_js h1).
Proof.
  intros HU E Hr. pose proof (runRecovery_cases flags inputs h) as HC. rewrite E in HC.
  assert (HO : forall db, db = h_db h \/ db = OpenStore (h_db h) ->
    (db = h_db h \/ db = OpenStore (h_db h)) /\ forall durable start, AssertRecoveryComplete durable start db = AssertRecoveryComplete durable start (h_db h)).
  { intros db Hd. split; [done|]. intros d st. destruct Hd as [-> | ->]; [done|]. by rewrite (gate_evidence _ _ (h_db h) _ (OpenStore_evidence (h_db h))). }
  destruct HC as [(-> & _ & HL & HD)|(f & cfg & policy & bus & connected & j & w' & j' & acks & report & r' & _ & ER & -> & -> & -> & _)].
  { split; [constructor|]. split; [done|]. left. apply HO. tauto. }
  cbv zeta in ER. set (db := if fl_execute f then OpenStore (h_db h) else h_db h) in *.
  assert (HU' : store_reachable db) by (by apply opened_reachable).
  match type of ER with @Run ?u ?S ?C ?st ?p ?b ?ro ?t ?n ?c ?o ?w ?s = _ =>
    pose proof (@run_reading u S C st p b ro t n c o w s) as HR; pose proof (@failed_run u S C st p b ro t n c o w s HU') as HF end.
  rewrite ER in HR, HF. destruct HR as [[_ (cs & Hcs & HR)] _]. cbn in Hcs |- *. rewrite Hcs.
  split; [done|]. split; [done|]. destruct HF as [->|[HF|HM]]; [done| |].
  - left. apply HO. cbn in HF. rewrite HF. unfold db. destruct (fl_execute f); auto.
  - right. intros launch cfg' inputs'. apply start_gated. cbn.
    destruct (marked_blocks _ _ (dc_Durable (cf_Dispatcher cfg')) (dc_RecoveryStartSequence (cf_Dispatcher cfg')) _ HM) as [e ->]. done.
Qed.

(** C16: A recovery command that succeeds hands over to the dispatcher: a dry run changed nothing and asked nobody; an executed one started from the
    checkpoint of the manifest and completed its run; when its recovery id had not been used before, its report names every job that was restored; and
    when no earlier run had completed for the same durable and start sequence, the gate is open for a start with the same configuration, whose start
    sequence the command has checked. *)
Theorem recovery_hands_over flags inputs h h1 calls report :
  store_reachable (h_db h) -> runRecovery read_config fetch flags inputs h = (h1, calls, Ok report) ->
  exists f cfg, recovery_preflight read_config flags = Ok (f, cfg) /\
  let dc := cf_Dispatcher cfg in let db := OpenStore (h_db h) in
  (fl_execute f = false -> h1 = h /\ calls = [])
  /\ (fl_execute f = true ->
      checkpoint db = fl_manifest f /\ rt_Status report = RecoveryCompleted
      /\ ((forall run, run ∈ recovery_runs db -> rr_id run <> fl_recovery_id f) ->
          forall job, job ∈ RecoveryJobs db -> exists o, o ∈ rt_Reconciliations report /\ rl_JobID o = jb_ID job)
      /\ ((forall run, run ∈ recovery_runs db -> completed_for (dc_Durable dc) (dc_RecoveryStartSequence dc) run = false) ->
          AssertRecoveryComplete (dc_Durable dc) (dc_RecoveryStartSequence dc) (OpenStore (h_db h1)) = Ok tt)).
Proof.
  intros HU E. pose proof (runRecovery_cases flags inputs h) as HC. rewrite E in HC.
  destruct HC as [(_ & Hr & _)|(f & cfg & policy & bus & connected & j & w' & j' & acks & rep & r' & Ef & ER & -> & -> & Er & Hj)]; [done|].
  exists f, cfg. split; [done|]. cbv zeta in ER |- *. destruct r' as [[]|e|]; [|done..]. injection Er as <-.
  assert (HU' : store_reachable (if fl_execute f then OpenStore (h_db h) else h_db h)) by (by apply opened_reachable).
  split; intros Hx.
  - match type of ER with @Run ?u ?S ?C ?st ?p ?b ?ro ?t ?n ?c ?o ?w ?s = _ => pose proof (@run_reading u S C st p b ro t n c o w s) as HR end.
    rewrite ER in HR. destruct HR as [_ HR]. destruct (HR Hx) as (-> & -> & _). rewrite Hx. cbn. rewrite (Hj Hx). by destruct h.
  - rewrite Hx in *.
    match type of ER with @Run ?u ?S ?C ?st ?p ?b ?ro ?t ?n ?c ?o ?w ?s = _ =>
      pose proof (@recovery_success_opens u S C st p b ro t n c o w s w' j' acks report HU' eq_refl ER) as (Hc & Hs & _ & HJ & HG) end.
    cbn in Hc, HJ, HG. split_and!; [done..| |].
    + intros Hfresh job Hjob. by apply HJ.
    + assert (dc_RecoveryStartSequence (cf_Dispatcher cfg) = (fl_manifest f + 1) mod 2 ^ 64) as Hseq.
      { unfold recovery_preflight in Ef. apply bind_ok in Ef as (f0 & Hf & Ef). open_guards Ef. apply bind_ok in Ef as (cfg0 & _ & Ef). cbv zeta in Ef.
        open_guards Ef. injection Ef as -> ->. by apply negb_false_iff, Z.eqb_eq in G1. }
      intros Hnc. rewrite (gate_evidence _ _ (w_db w') _ (OpenStore_evidence (w_db w'))). rewrite Hseq in *. by apply HG.
Qed.
End Commands.

(** ** A concrete host *)

#[local] Instance restored_url : NetURL := sample_url.
#[local] Instance restored_duration : GoDuration := fun _ => Some Second.
#[local] Instance restored_environ : Environ := fun name => if name == "BROKER_TOKEN" then "token" else "".
#[local] Instance restored_files : FileSystem := {|
  os_Stat := fun _ => Stat (mkFileInfo false true false 384); os_Lstat := fun _ => NotExist;
  os_ReadFile := fun _ => Err "no such file"; os_Remove := fun _ => Ok tt |}.
#[local] Instance restored_http : HttpClient := answering (TransportError "connection refused").
#[local] Instance restored_float : GoFloat := Some.
#[local] Instance restored_lower : GoUnicode := id.
#[local] Instance restored_yaml : YamlConfig := fun _ => None.

Definition restored_config : Config :=
  ConfigFacts.sample_config <| cf_Dispatcher := sample_dispatcher <| dc_RecoveryStartSequence := 6 |> |>.
Definition restored_host : host := mkHost db_launched empty_ledger (∅ : gmap (string * string) NatsConsumer).
Definition recover_command : option recover_flags := Some (mkRecoverFlags "dispatcher.yaml" 5 "restore-1" true 0).
Definition recover_inputs : command_inputs := mkCommandInputs (Ok tt) (Ok tt) T1 (fun _ => T1).
Definition feed (delivery : res Delivery) (c : Consumer) (timeout : Z) (j : gmap (string * string) NatsConsumer) := (j, delivery).
Abbreviation recovered delivery := (runRecovery (fun _ => Ok restored_config) (feed delivery) recover_command recover_inputs restored_host).

Definition start_now : start_inputs :=
  mkStartInputs (Ok tt) (fun _ => (T1, "route-1")) (Ok tt) T1 "route-2" T1
    (mkReleaseClients (fun _ => None) (fun _ _ => Err "") (fun _ _ _ _ => Err "") T1) None.
Definition no_launch_client (b : Broker) (profile item object key : string) : bres LaunchResult := unavailable.

Example recovered_then_started :
  let '(h1, calls, r) := recovered (Ok (replayed 6)) in
  is_ok r = true /\ calls = [CStatus "run-1"] /\ is_ok (dispatcher_start no_launch_client restored_config start_now h1).2 = true
  /\ is_ok (dispatcher_start no_launch_client restored_config start_now restored_host).2 = false.
Proof. vm_compute. by split_and!. Qed.

Lemma surjective_3 {A B C} (x : A * B * C) : x = (x.1.1, x.1.2, x.2).
Proof. by destruct x as [[a b] c]. Qed.

Lemma restored_reachable : store_reachable (h_db restored_host).
Proof. exact reachable_launched. Qed.

Lemma restored_failed : is_ok (recovered (Err "nats: timeout")).2 = false.
Proof. vm_compute. reflexivity. Qed.

Lemma restored_marked :
  length (recovery_runs (h_db (recovered (Err "nats: timeout")).1.1)) = 1%nat /\ recovery_runs (h_db restored_host) = []
  /\ recovery_runs (OpenStore (h_db restored_host)) = [].
Proof. vm_compute. done. Qed.

(** A stream that times out during the replay: no start is possible any more. *)
Lemma failed_recovery_stops_dispatcher_witness :
  Forall reads (recovered (Err "nats: timeout")).1.2
  /\ is_ok (dispatcher_start no_launch_client restored_config start_now (recovered (Err "nats: timeout")).1.1).2 = false.
Proof.
  pose proof (failed_recovery_stops_dispatcher (fun _ => Ok restored_config) (feed (Err "nats: timeout")) recover_command recover_inputs restored_host
    (recovered (Err "nats: timeout")).1.1 (recovered (Err "nats: timeout")).1.2 (recovered (Err "nats: timeout")).2
    restored_reachable (surjective_3 (recovered (Err "nats: timeout"))) restored_failed) as (H1 & _ & H2). split; [exact H1|].
  destruct restored_marked as (R1 & R2 & R3). destruct H2 as [[[H2|H2] _]|H2].
  - rewrite H2, R2 in R1. discriminate R1.
  - rewrite H2, R3 in R1. discriminate R1.
  - specialize (H2 no_launch_client restored_config start_now).
    destruct (dispatcher_start _ _ _ _) as [h2 r2]. exact (proj1 H2).
Defined.

Lemma restored_result : recovered (Ok (replayed 6)) = ((recovered (Ok (replayed 6))).1.1, (recovered (Ok (replayed 6))).1.2,
  Ok (match (recovered (Ok (replayed 6))).2 with Ok r => r | _ => zero_report end)).
Proof.
  assert (HO : is_ok (recovered (Ok (replayed 6))).2 = true) by (vm_compute; reflexivity).
  destruct (recovered (Ok (replayed 6))) as [[h1 calls] [r|e|]]; done.
Qed.

Lemma restored_preflight :
  match recovery_preflight (fun _ => Ok restored_config) recover_command with
  | Ok (f, cfg) => Some (fl_execute f, dc_Durable (cf_Dispatcher cfg), dc_RecoveryStartSequence (cf_Dispatcher cfg))
  | _ => None
  end = Some (true, "github-task-dispatcher", 6).
Proof. vm_compute. reflexivity. Qed.

Lemma recovery_hands_over_witness :
  AssertRecoveryComplete "github-task-dispatcher" 6 (OpenStore (h_db (recovered (Ok (replayed 6))).1.1)) = Ok tt.
Proof.
  pose proof (recovery_hands_over (fun _ => Ok restored_config) (feed (Ok (replayed 6))) recover_command recover_inputs restored_host
    (recovered (Ok (replayed 6))).1.1 (recovered (Ok (replayed 6))).1.2
    (match (recovered (Ok (replayed 6))).2 with Ok r => r | _ => zero_report end) restored_reachable) as HH.
  specialize (HH restored_result).
  destruct HH as (f & cfg & E & _ & HX). pose proof restored_preflight as P. rewrite E in P. injection P as Px Pd Ps.
  destruct (HX Px) as (_ & _ & _ & HG). rewrite Pd, Ps in HG. apply HG. intros run Hrun. destruct restored_marked as (_ & _ & R3). rewrite R3 in Hrun.
  exfalso. exact (proj1 (elem_of_nil run) Hrun).
Defined.

(** Without a start sequence the same host starts at once. *)
Definition plain_config : Config := ConfigFacts.sample_config.
Lemma plain_result : dispatcher_start no_launch_client plain_config start_now restored_host =
  ((dispatcher_start no_launch_client plain_config start_now restored_host).1,
   Ok (match (dispatcher_start no_launch_client plain_config start_now restored_host).2 with
       | Ok d => d | _ => mkDispatcher no_repair (mkBroker "" "" "" "") None None (mkConsumer "" "") end)).
Proof.
  assert (HO : is_ok (dispatcher_start no_launch_client plain_config start_now restored_host).2 = true) by (vm_compute; reflexivity).
  destruct (dispatcher_start _ _ _ _) as [h1 [r|e|]]; done.
Qed.

Lemma startup_checked_witness :
  AssertRecoveryComplete "github-task-dispatcher" 0 (h_db (dispatcher_start no_launch_client plain_config start_now restored_host).1) = Ok tt.
Proof.
  destruct (startup_checked no_launch_client plain_config start_now restored_host _ _ (rtc_refl _ _) plain_result) as [_ Hg _ _ _ _]. exact Hg.
Defined.
