(* ===== verification/ServeFacts.v ===== *)
(** * The release pipeline from its build on

    The pipeline that a build hands out serves two loops over one ledger.  Their calls are
    interleaved in any order; between two calls nothing is claimed and no recovery is due. *)

From stdpp Require Import relations gmap.
From S2P Require Import Prelude GoText GoSha256 GoJson GoNet LedgerModel LedgerModelFacts LedgerStore LedgerInv LedgerOps LedgerAdmission LedgerProps Envelope DispatchPolicy Config Broker Release WorkRouter WorkRouterFacts EventBus EventBusFacts Shadow Startup StartupFacts.
Open Scope string_scope.
Open Scope Z_scope.
Open Scope go_scope.

(** ** Ingress claims nothing *)

Definition unclaimed (db : Ledger) : Prop := serialization_leases db = [].

Lemma place_unclaimed s d e b now w db item db' : place_item s d e b now w db = Ok (item, db') -> unclaimed db -> unclaimed db'.
Proof.
  unfold place_item, unclaimed, insert_item. case_match; [by intros [= _ <-]|].
  intros (db1 & H1 & H2)%bind_ok E. apply bind_ok in H1 as ([] & _ & H1). injection H1 as <-. injection H2 as _ <-.
  destruct (Supersede _); cbn; rewrite E; done.
Qed.

Lemma store_unclaimed op id db db' : store_operation op id db = Ok db' -> unclaimed db -> unclaimed db'.
Proof.
  unfold store_operation, record_operation, unclaimed. destruct op as [o|]; [|by intros [= <-]].
  set (d := if exists_where _ _ then _ else _). intros H E.
  assert (unclaimed d) by (unfold unclaimed, d; destruct (exists_where _ _); done).
  destruct (loadReleaseOperation id d); [|done..]. case_bool_decide; by simplify_eq.
Qed.

Lemma admit_unclaimed sid e op b now w v db : unclaimed db -> unclaimed (admit_event sid e op b now w v db).1.
Proof.
  intros E. apply (transact_preserves unclaimed); [done|]. intros out db' H.
  assert (A : admit_event sid e op b now w v db = (db', Ok out)) by (by apply transact_ok).
  apply admit_ok in A as [|s d item db1 db2 db3 _ _ H1 H2 H3]; [done|].
  unfold insert_event in H3. apply bind_ok in H3 as ([] & _ & H3). apply bind_ok in H3 as ([] & _ & H3). injection H3 as <-.
  eapply store_unclaimed in H2; [exact H2|]. by eapply place_unclaimed.
Qed.

Lemma ingress_failure_unclaimed e c n now db : unclaimed db -> unclaimed (RecordIngressFailure e c n now db).1.
Proof. intros E. pose proof (RecordIngressFailure_same e c n now db) as (_ & _ & H). unfold unclaimed in *. congruence. Qed.

Definition settled (s : router_state) : Prop := unclaimed (rt_db s) /\ rt_needsRecovery s = false.

(** Every action of the ingress. *)
Lemma process_settled hydrate stream d now w v s : settled s -> settled (WorkRouter.Process hydrate stream d now w v s).1.
Proof.
  intros Hs. change (wp (WorkRouter.Process hydrate stream d now w v) (fun s' _ => settled s') s). unfold WorkRouter.Process.
  destruct (Unmarshal_signal (dl_Data d)) as [signal|]; [|done].
  apply wp_bind, wp_pure. destruct (dl_Sequence d); cbn [after]; [|done..].
  destruct (_ ← AdapterFor _; _); [|done..]. destruct (negb (release_admission _)); [done|].
  apply wp_bind, wp_reading. cbn [after]. apply wp_bind, wp_pure. destruct (DeliveryRecorded _ _) as [[]|e|]; cbn [after]; [done| |done..].
  destruct (decode_release_payload _); [|done]. destruct (_ || _); [done|].
  apply wp_bind, wp_try, wp_pure. destruct (hydrate _ _ _); cbn [after]; [| |done].
  - apply wp_bind, wp_reading. cbn [after]. apply wp_bind, wp_pure. destruct (MatchRoute _ _); cbn [after]; [|done..].
    destruct (rs_ExecutorID _ != _); [done|]. apply wp_bind, wp_ledger. unfold AdmitRelease.
    destruct (ReleaseOperation_Validate _); cbn [fst snd]; [|destruct Hs as [? ?]; by split..].
    assert (U : settled (s <| rt_db := (admit_event (rs_ID a2) a0 (Some a1) zero_binding now w v (rt_db s)).1 |>))
      by (split; [apply admit_unclaimed, Hs|apply Hs]).
    destruct (admit_event _ _ _ _ _ _ _ _) as [db' [out|x|]]; exact U.
  - unfold retryOrDeadLetter. destruct (_ <? 5); [done|]. apply wp_bind, wp_try, wp_ledger.
    pose proof (ingress_failure_unclaimed a0 "release_hydration" (dl_NumDelivered d) now (rt_db s) (proj1 Hs)) as U.
    destruct (RecordIngressFailure _ _ _ _ _) as [db' [[]|x|]]; cbn [fst snd after] in *.
    + apply wp_bind, wp_emit. cbn [after]. apply wp_bind, wp_pure. destruct (dl_Term d); cbn [after]; [apply wp_pure|..]; (split; [done|apply Hs]).
    + apply wp_pure. split; [done|apply Hs].
    + split; [done|apply Hs].
Qed.

(** ** The two loops *)

(** What holds between two calls. *)
Definition serving_state (s : router_state) : Prop := reachable (rt_db s) /\ idle (rt_db s) /\ rt_needsRecovery s = false.

Section Serve.
Context (registry : gmap string executor) (hydrate : Z -> Z -> Z -> res ReleaseOperation) (stream : string).

(** An iteration of the ingress loop or a tick of the executor loop, that does not crash. *)
Inductive serve_step (s : router_state) : router_state -> Prop :=
  | serve_ingress got now w v s' pause :
      newID_format "work" w = true -> ingress_step hydrate stream got now w v s = (s', Ok pause) -> serve_step s s'
  | serve_tick clock cancelled fuel i s' ended :
      executor_tick registry clock cancelled fuel i s = (s', Ok ended) -> serve_step s s'.

Lemma work_one_serves now id s : serving_state s ->
  let '(s', r) := WorkOne registry now id s in
  rtc ledger_step (rt_db s) (rt_db s') /\ (r <> Panic -> serving_state s').
Proof.
  intros (Hr & Hi & _). pose proof (WorkOne_spec registry now id s (reachable_exec _ Hr) (fun _ => idle_leases _ Hi)) as [[Hs Hf] _].
  destruct (WorkOne registry now id s) as [s' r]. cbn [fst snd] in *. split; [done|]. intros Hp. destruct (Hf Hp) as [Hl Hn].
  assert (Hr' : reachable (rt_db s')) by (unfold reachable in *; by etrans).
  split_and!; [done| |done]. by apply idle_iff; [apply reachable_exec|].
Qed.

Lemma tick_serves clock cancelled fuel i s s' ended :
  executor_tick registry clock cancelled fuel i s = (s', Ok ended) -> serving_state s -> rtc ledger_step (rt_db s) (rt_db s') /\ serving_state s'.
Proof.
  revert i s. induction fuel as [|fuel IH]; intros i s E Hs; cbn in E; [by injection E as <- _|].
  destruct (clock i) as [now id]. pose proof (work_one_serves now id s Hs) as H.
  destruct (WorkOne registry now id s) as [s1 [[]|e|]]; destruct H as [H1 H2].
  - destruct (cancelled i); [injection E as <- _; split; [done|by apply H2]|].
    apply IH in E as [E1 E2]; [|by apply H2]. split; [by etrans|done].
  - injection E as <- _. split; [done|by apply H2].
  - injection E as <- _. split; [done|by apply H2].
  - done.
Qed.

Lemma ingress_serves got now w v s s' pause :
  newID_format "work" w = true -> ingress_step hydrate stream got now w v s = (s', Ok pause) -> serving_state s ->
  rtc ledger_step (rt_db s) (rt_db s') /\ serving_state s'.
Proof.
  intros Hw E Hs. pose proof Hs as (Hr & Hi & Hn). destruct got as [| |d]; cbn in E; [by injection E as <- _..|].
  assert (E' : (WorkRouter.Process hydrate stream d now w v s).1 = s')
    by (destruct (WorkRouter.Process hydrate stream d now w v s) as [s1 [?|?|]]; by injection E as <- _).
  assert (R : rtc ledger_step (rt_db s) (rt_db s')).
  { rewrite <- E'. apply (delivery_spec hydrate stream d now w v s Hw). }
  destruct (process_settled hydrate stream d now w v s) as [U F]; [by split; [apply idle_leases|]|]. rewrite E' in U, F.
  assert (Hr' : reachable (rt_db s')) by (unfold reachable in *; by etrans).
  split; [done|]. split_and!; [done| |done]. by apply idle_iff; [apply reachable_exec|].
Qed.

Lemma serve_step_serves s s' : serve_step s s' -> serving_state s -> rtc ledger_step (rt_db s) (rt_db s') /\ serving_state s'.
Proof. destruct 1; [by eapply ingress_serves|by eapply tick_serves]. Qed.

Lemma served s s' : rtc serve_step s s' -> serving_state s -> rtc ledger_step (rt_db s) (rt_db s') /\ serving_state s'.
Proof.
  induction 1 as [s|s s1 s2 H1 _ IH]; intros Hs; [done|].
  apply serve_step_serves in H1 as [R1 S1]; [|done]. destruct (IH S1). split; [by etrans|done].
Qed.
End Serve.

(** ** From the build on *)

Section Pipeline.
Context `{NetURL} `{Environ} `{FileSystem} {J : Type} `{JetStream J}.

(** C38: The release pipeline never strands work: take a pipeline that [Build] handed out on any reachable ledger (with whatever a crash left
    active there) and let its ingress and executor loops make any calls in any order, with any deliveries, fetch failures, hydration results,
    executor answers and cancellations.  Then the ledger moved only along its operations from the one the build was given, and as long as no
    call crashed the process nothing is active, running or leased between two calls and no recovery is due, so that a shutdown there needs
    none; and the upload executor is the one registered. *)
Theorem release_service_settles clients cfg bus additional now recovered new_id ledger (j : J) ledger' j' svc hydrate stream s :
  reachable ledger ->
  Release_Build clients cfg bus additional now recovered new_id ledger j = (ledger', j', Ok (Some svc)) ->
  rtc (serve_step (rv_registry svc) hydrate stream) (mkRouterState ledger' false []) s ->
  rtc ledger_step ledger (rt_db s) /\ idle (rt_db s) /\ rt_needsRecovery s = false
  /\ exists x, rv_registry svc !! UploadExecutorID = Some (UploadExecutor x).
Proof.
  intros Hr E Hs. pose proof (Release_Build_effect clients cfg bus additional now recovered new_id ledger j Hr) as B. rewrite E in B.
  destruct B as [B (_ & (_ & Hl) & Hx & _)].
  assert (Hr' : reachable ledger') by (unfold reachable in *; by etrans).
  apply served in Hs as [R (_ & Hi & Hn)].
  2: { split_and!; [done| |done]. by apply idle_iff; [apply reachable_exec|]. }
  split_and!; [by etrans|done..].
Qed.
End Pipeline.

(** ** A pipeline at work *)

#[local] Instance pipeline_url : NetURL := fun _ => Some (mkParsedURL "http" "youknowme-mcp:8765" false "/mcp" "/mcp" "" "").
#[local] Instance pipeline_environ : Environ := fun name => if name == "YKM_SECRET" then "secret" else "".
#[local] Instance pipeline_files : FileSystem := {|
  os_Stat := fun _ => NotExist; os_Lstat := fun _ => NotExist; os_ReadFile := fun _ => Ok "key"; os_Remove := fun _ => Ok tt |}.

Definition pipeline_config : WorkRouterConfig :=
  mkWorkRouterConfig true "" "signals.github.>" "resume" "" "http://youknowme-mcp:8765/mcp" YKMAuthLocal "app.pem" "" "" "YKM_SECRET".
Definition pipeline_clients : release_clients :=
  mkReleaseClients (fun _ => None) (fun _ _ => Ok "resume")
    (fun _ _ content _ => Ok (mkUploadResponse "up-1" true "pending" 1 (len content) None "uploads/pending/up-1" false)) t0.

(** A ledger on which the process died while it ran an item. *)
Definition crashed : Ledger := (Claim (t0 + Second) "attempt-0a" upload_admitted).1.
Abbreviation built := (Release_Build pipeline_clients pipeline_config (mkBus "SIGNALS") [] (t0 + Second) (t0 + Second) "route-0d" crashed
                         (∅ : gmap (string * string) NatsConsumer)).
Definition build_service : option ReleaseService := match built.2 with Ok svc => svc | _ => None end.
Definition service_registry : gmap string executor := match build_service with Some svc => rv_registry svc | None => ∅ end.
Abbreviation admitted_release :=
  (ingress_step release_found "SIGNALS" (ReleaseFetched release_delivered) (t0 + Second) "work-0c" "event-0c" (mkRouterState built.1.1 false [])).
Abbreviation uploaded :=
  (executor_tick service_registry (fun i => (t0 + (2 + Z.of_nat i) * Second, "attempt-0" ++ fmt_d (Z.of_nat i))) (fun _ => false) 5 0 admitted_release.1).

Lemma crashed_reachable : reachable crashed.
Proof. eapply rtc_r; [apply upload_admitted_reachable|apply step_claim]. Qed.

Lemma crashed_leased : length (serialization_leases crashed) = 1%nat.
Proof. vm_compute. reflexivity. Qed.

Lemma pipeline_built : exists svc, build_service = Some svc /\ built = (built.1.1, built.1.2, Ok (Some svc)).
Proof.
  assert (E : match built.2 with Ok (Some _) => true | _ => false end = true) by (vm_compute; reflexivity).
  pose proof (surjective_3 built) as P. unfold build_service. revert E P. generalize built as x.
  intros [[l j] [[svc|]|e|]] E P; try discriminate E. by exists svc.
Qed.

Lemma snd_known {A B} (x : A * B) b : x.2 = b -> x = (x.1, b).
Proof. destruct x. by intros <-. Qed.

Lemma release_admitted : admitted_release = (admitted_release.1, Ok 0).
Proof. refine (snd_known admitted_release (Ok 0) _). vm_compute. reflexivity. Qed.

Lemma release_uploaded : uploaded = (uploaded.1, Ok TickOver).
Proof. refine (snd_known uploaded (Ok TickOver) _). vm_compute. reflexivity. Qed.

Lemma release_service_settles_witness :
  idle (rt_db uploaded.1)
  /\ map (fun e => match e with EAck => "ack" | EDownload _ => "download" | EUpload _ _ _ => "upload" | _ => "other" end) (rt_effects uploaded.1)
     = ["ack"; "download"; "upload"].
Proof.
  split; [|vm_compute; reflexivity]. destruct pipeline_built as (svc & Hs & Hb).
  pose proof (release_service_settles pipeline_clients pipeline_config (mkBus "SIGNALS") [] (t0 + Second) (t0 + Second) "route-0d" crashed
                (∅ : gmap (string * string) NatsConsumer) built.1.1 built.1.2 svc release_found "SIGNALS") as T.
  specialize (T uploaded.1 crashed_reachable Hb).
  assert (Er : service_registry = rv_registry svc) by (unfold service_registry; rewrite Hs; reflexivity). rewrite <- Er in T.
  destruct T as (_ & Hi & _); [|exact Hi].
  eapply rtc_l; [eapply serve_ingress; [|exact release_admitted]; reflexivity|].
  eapply rtc_l; [eapply serve_tick; exact release_uploaded|apply rtc_refl].
Defined.
