(* ===== verification/TickFacts.v ===== *)
(** * A tick of the executor loop ends

    The inner loop of the release pipeline claims until there is nothing to claim.  Each successful
    step uses up an attempt of the item it ran, or settles an attempt that a crash left ambiguous; what is
    left of both bounds the number of steps. *)

From stdpp Require Import relations gmap.
From S2P Require Import Prelude GoText GoSha256 GoJson GoNet LedgerModel LedgerModelFacts LedgerStore LedgerInv LedgerOps LedgerAdmission LedgerProps Envelope DispatchPolicy Config Broker Release WorkRouter WorkRouterFacts Startup ServeFacts.
Open Scope string_scope.
Open Scope Z_scope.
Open Scope go_scope.

(** ** Sums over tables *)

Fixpoint sum_over {R} (f : R -> Z) (t : list R) : Z := match t with [] => 0 | r :: t => f r + sum_over f t end.

Lemma sum_over_le {R} (f f' : R -> Z) (h : R -> R) t :
  (forall r, r ∈ t -> f' (h r) <= f r) -> sum_over f' (map h t) <= sum_over f t.
Proof.
  induction t as [|x t IH]; intros H; simpl; [lia|].
  pose proof (H x (list_elem_of_here x t)). specialize (IH (fun r Hr => H r (list_elem_of_further _ _ _ Hr))). lia.
Qed.

Lemma sum_over_lt {R} (f f' : R -> Z) (h : R -> R) t r0 :
  (forall r, r ∈ t -> f' (h r) <= f r) -> r0 ∈ t -> f' (h r0) < f r0 -> sum_over f' (map h t) < sum_over f t.
Proof.
  induction t as [|x t IH]; intros H Hin Hlt; [by apply elem_of_nil in Hin|]. simpl.
  pose proof (H x (list_elem_of_here x t)) as Hx. pose proof (fun r Hr => H r (list_elem_of_further _ _ _ Hr)) as Ht.
  apply elem_of_cons in Hin as [->|Hin]; [pose proof (sum_over_le f f' h t Ht)|specialize (IH Ht Hin Hlt)]; lia.
Qed.

Lemma sum_over_nonneg {R} (f : R -> Z) t : (forall r, 0 <= f r) -> 0 <= sum_over f t.
Proof. intros H. induction t as [|x t IH]; simpl; [lia|]. specialize (H x). lia. Qed.

Lemma sum_over_snoc {R} (f : R -> Z) t r : sum_over f (t ++ [r])%list = sum_over f t + f r.
Proof. induction t as [|x t IH]; simpl; lia. Qed.

(** ** What is left to do *)

(** The attempts the policy of an item's route allows, and those it has had. *)
Definition allowed (db : Ledger) (r : item_row) : Z :=
  match loadDefinition (it_route_snapshot_id r) db with Ok d => MaxAttempts (rd_Retry d) | _ => 0 end.
Definition attempts_of (db : Ledger) (id : string) : Z := count_where (fun a => aw_work_item_id a == id) (executor_attempts db).

(** What an open item can still run: the attempts it has left, and one when it has none left. *)
Definition budget (db : Ledger) (r : item_row) : Z :=
  if open_state (it_state r) then Z.max 1 (allowed db r - attempts_of db (it_id r)) else 0.
Definition ambiguous (a : attempt_row) : Z := if aw_state a == AttemptRecoverable then 1 else 0.

Definition potential (db : Ledger) : Z := sum_over (budget db) (work_items db) + sum_over ambiguous (executor_attempts db).

Lemma budget_nonneg db r : 0 <= budget db r.
Proof. unfold budget. destruct (open_state _); lia. Qed.
Lemma ambiguous_nonneg a : 0 <= ambiguous a.
Proof. unfold ambiguous. destruct (_ == _); lia. Qed.
Lemma potential_nonneg db : 0 <= potential db.
Proof.
  unfold potential. pose proof (sum_over_nonneg (budget db) (work_items db) (budget_nonneg db)).
  pose proof (sum_over_nonneg ambiguous (executor_attempts db) ambiguous_nonneg). lia.
Qed.

(** What an item may still do depends on its columns, the routes and its attempts. *)
Lemma allowed_same db db' r r' :
  route_snapshots db' = route_snapshots db -> it_route_snapshot_id r' = it_route_snapshot_id r -> allowed db' r' = allowed db r.
Proof. intros E1 E2. unfold allowed, loadDefinition, find_snapshot. by rewrite E1, E2. Qed.

(** A row that keeps its item, its route and at least its attempts, and is open only if it was, has no more left. *)
Lemma budget_le db db' r r' :
  route_snapshots db' = route_snapshots db -> attempts_of db (it_id r) <= attempts_of db' (it_id r) -> it_id r' = it_id r ->
  it_route_snapshot_id r' = it_route_snapshot_id r -> (open_state (it_state r') = true -> open_state (it_state r) = true) ->
  budget db' r' <= budget db r.
Proof.
  intros E1 E2 E3 E4 Ho. unfold budget. rewrite (allowed_same db db' r r' E1 E4), E3.
  destruct (open_state (it_state r')); [rewrite Ho by done; lia|]. destruct (open_state (it_state r)); lia.
Qed.

Lemma expire_potential now db : potential (expire_waiting now db) <= potential db.
Proof.
  unfold potential. cbn [executor_attempts expire_waiting]. apply Z.add_le_mono_r. unfold update_where. apply sum_over_le. intros r _.
  apply budget_le; try done; destruct (wait_expired now r) eqn:E; try done.
Qed.

(** ** Claim and completion, table by table *)

Definition due_state (s : WorkState) : bool := (s == StateAdmitted) || (s == StateWaiting).

Inductive claimed_as (now : Z) (d d1 : Ledger) (id : string) : Prop :=
  | claimed_fresh r0 row :
      r0 ∈ work_items d -> due_state (it_state r0) = true ->
      work_items d1 = update_where (fun r => (it_id r == it_id r0) && due_state (it_state r)) (activate now) (work_items d) ->
      executor_attempts d1 = (executor_attempts d ++ [row])%list -> aw_id row = id -> aw_work_item_id row = it_id r0 ->
      aw_attempt_number row = attempts_of d (it_id r0) + 1 -> aw_state row = AttemptRunning ->
      (forall x, x ∈ executor_attempts d -> aw_id x <> id) -> claimed_as now d d1 id
  | claimed_recovered r0 b :
      b ∈ executor_attempts d -> aw_state b = AttemptRecoverable -> aw_id b = id ->
      work_items d1 = update_where (fun r => (it_id r == it_id r0) && (it_state r == StateWaiting)) (activate now) (work_items d) ->
      executor_attempts d1 = update_where (fun a => (aw_id a == aw_id b) && (aw_state a == AttemptRecoverable)) (restart_attempt now) (executor_attempts d) ->
      claimed_as now d d1 id.

Lemma insert_lease_snapshots l db db' : insert_lease l db = Ok db' -> route_snapshots db' = route_snapshots db.
Proof. unfold insert_lease. intros H. open_guards H. by simplify_eq. Qed.
Lemma insert_attempt_snapshots a db db' : insert_attempt a db = Ok db' -> route_snapshots db' = route_snapshots db.
Proof. unfold insert_attempt. intros H. open_guards H. by simplify_eq. Qed.

Lemma Claim_shape now id db db1 w a :
  Claim now id db = (db1, Ok (Some (w, a))) ->
  claimed_as now (expire_waiting now db) db1 (at_ID a) /\ route_snapshots db1 = route_snapshots db.
Proof.
  intros H. unfold Claim in H. rewrite transact_ok in H. cbv zeta in H.
  change (route_snapshots db) with (route_snapshots (expire_waiting now db)). revert H. generalize (expire_waiting now db) as d. intros d H.
  destruct (next_claim d now) as [item|] eqn:En; [|done]. apply next_claim_spec in En as (Hin & Hs & _).
  apply bind_ok in H as ([[w' a'] d1] & H1 & H). simplify_eq.
  destruct (recoverable_attempt (it_id item) d) as [b|] eqn:Eb.
  - unfold recoverable_attempt in Eb. apply best_where_Some in Eb as (Hb & Hp & _). split_bools.
    unfold claim_recovered in H1. apply bind_ok in H1 as (d2 & H2 & H1). pose proof (insert_lease_snapshots _ _ _ H2) as Es.
    apply insert_lease_tables in H2 as (E1 & E2 & E3). simplify_eq. simpl in *. split; [|done].
    apply (claimed_recovered _ _ _ _ item b); try done. cbn. by rewrite E1.
  - unfold claim_fresh in H1. apply bind_ok in H1 as (sn & _ & H1). cbv zeta in H1.
    match type of H1 with (let '(_, _) := ?m in _) = _ => destruct m as [okey requested] end.
    apply bind_ok in H1 as (d2 & H2 & H1). pose proof (insert_attempt_snapshots _ _ _ H2) as Es2.
    apply insert_attempt_tables in H2 as (E1 & E2 & E3 & Hf). apply bind_ok in H1 as (d3 & H3 & H1).
    pose proof (insert_lease_snapshots _ _ _ H3) as Es3. apply insert_lease_tables in H3 as (F1 & F2 & F3). simplify_eq. simpl in *.
    split; [|congruence]. eapply (claimed_fresh _ _ _ _ item); cbn.
    + done.
    + unfold due_state. destruct Hs as [-> | ->]; reflexivity.
    + by rewrite F1, E1.
    + by rewrite F2, E2.
    + done.
    + done.
    + done.
    + done.
    + intros x Hx. apply Hf in Hx as [Hx _]. exact Hx.
Qed.

(** The end of an attempt: the row the attempt names is closed, or scheduled while attempts are left. *)
Definition ends (d : Ledger) (a : attempt_row) (item : item_row) (state : WorkState) : Prop :=
  open_state state = false \/ (state = StateWaiting /\ exists def, loadDefinition (it_route_snapshot_id item) d = Ok def /\ aw_attempt_number a < MaxAttempts (rd_Retry def)).

Inductive completed_as (id : string) (d d3 : Ledger) : Prop :=
  | completed_superseded a item now :
      first_where (fun a => aw_id a == id) (executor_attempts d) = Some a -> find_item (aw_work_item_id a) d = Ok item -> it_state item = StateSuperseded ->
      work_items d3 = work_items d -> executor_attempts d3 = update_where (fun x => aw_id x == id) (supersede_attempt now) (executor_attempts d) ->
      completed_as id d d3
  | completed_active a item c result now :
      first_where (fun a => aw_id a == id) (executor_attempts d) = Some a -> find_item (aw_work_item_id a) d = Ok item -> it_state item = StateActive ->
      ends d a item (cp_state c) -> cp_attempt c <> AttemptRecoverable ->
      work_items d3 = update_where (fun r => (it_id r == aw_work_item_id a) && (it_state r == StateActive)) (finish_item c result now) (work_items d) ->
      executor_attempts d3 = update_where (fun x => aw_id x == id) (finish_attempt c result now) (executor_attempts d) ->
      completed_as id d d3.

Lemma decide_ends d a item def result now c :
  loadDefinition (it_route_snapshot_id item) d = Ok def -> er_Outcome result <> OutcomeWaiting ->
  decide_outcome def (aw_attempt_number a) result now = Ok c -> ends d a item (cp_state c) /\ cp_attempt c <> AttemptRecoverable.
Proof.
  intros Hd Hw. unfold decide_outcome. destruct (er_Outcome result == OutcomeCompleted); [intros [= <-]; split; [by left|done]|].
  destruct (er_Outcome result == OutcomePermanentFailure); [intros [= <-]; split; [by left|done]|].
  destruct (er_Outcome result == OutcomeRetryableFailure).
  - destruct (_ <=? _) eqn:E; [intros [= <-]; split; [by left|done]|]. destruct (_ <? 0); [done|].
    destruct (_ !! _); [|done]. intros [= <-]. split; [|done]. right. split; [done|]. exists def. split; [done|]. by apply Z.leb_gt in E.
  - by rewrite bool_decide_eq_false_2.
Qed.

Lemma Complete_shape id result now d d3 :
  er_Outcome result <> OutcomeWaiting -> Complete id result now d = (d3, Ok tt) -> completed_as id d d3 /\ route_snapshots d3 = route_snapshots d.
Proof.
  intros Hw H. unfold Complete in H. rewrite transact_ok in H. apply bind_ok in H as (a & Ha & H). open_guards H. apply bind_ok in H as (item & Hi & H).
  apply bind_ok in H as (d1 & H1 & H). injection H as <-.
  destruct (first_where _ _) as [a0|] eqn:Ef; [|done]. injection Ha as ->.
  destruct (it_state item == StateSuperseded) eqn:Es.
  - injection H1 as <-. apply bool_decide_eq_true in Es. split; [|done]. by eapply completed_superseded.
  - destruct (it_state item != StateActive) eqn:Ea; [done|]. apply negb_false_iff, bool_decide_eq_true in Ea.
    apply bind_ok in H1 as (def & Hd & H1). apply bind_ok in H1 as (c & Hc & H1). injection H1 as <-.
    apply (decide_ends d a item) in Hc as [He Hn]; [|done..]. split; [|done]. by eapply completed_active.
Qed.

(** ** A round uses something up *)

Lemma due_open s : due_state s = true -> open_state s = true.
Proof. by destruct s. Qed.

(** Activation of a selected row. *)
Definition row_le (r x : item_row) : Prop :=
  it_id x = it_id r /\ it_route_snapshot_id x = it_route_snapshot_id r /\ (open_state (it_state x) = true -> open_state (it_state r) = true).

Lemma activated_le (sel : bool) now r : (sel = true -> open_state (it_state r) = true) -> row_le r (if sel then activate now r else r).
Proof. intros H. destruct sel; split_and!; auto. Qed.

Lemma finished_le (sel : bool) c result now r :
  (sel = true -> it_state r = StateActive) -> row_le r (if sel then finish_item c result now r else r).
Proof. intros H. destruct sel; split_and!; try done. intros _. by rewrite H. Qed.

Lemma row_le_budget db db' r x :
  route_snapshots db' = route_snapshots db -> attempts_of db (it_id r) <= attempts_of db' (it_id r) -> row_le r x -> budget db' x <= budget db r.
Proof. intros E1 E2 (H1 & H2 & H3). by apply budget_le. Qed.

Lemma row_le_trans r x y : row_le r x -> row_le x y -> row_le r y.
Proof. intros (A1 & A2 & A3) (B1 & B2 & B3). split_and!; [congruence|congruence|auto]. Qed.

Lemma ambiguous_le p f t : (forall a, aw_state (f a) <> AttemptRecoverable) -> sum_over ambiguous (update_where p f t) <= sum_over ambiguous t.
Proof.
  intros Hf. unfold update_where. apply sum_over_le. intros a _. destruct (p a); [|lia].
  unfold ambiguous at 1. rewrite bool_decide_eq_false_2 by apply Hf. apply ambiguous_nonneg.
Qed.

Section Round.
Context (now : Z) (d d1 d2 d3 : Ledger) (id : string).
Hypothesis (Hx : ledger_exec d) (Es : route_snapshots d3 = route_snapshots d) (Es2 : route_snapshots d2 = route_snapshots d) (Ex : same_exec d1 d2).

(** A completion never makes an attempt ambiguous and never adds to what its items may do. *)
Lemma completion_tables :
  completed_as id d2 d3 ->
  exists g f, executor_attempts d3 = update_where (fun x => aw_id x == id) f (executor_attempts d2) /\
    (forall a, aw_work_item_id (f a) = aw_work_item_id a /\ aw_state (f a) <> AttemptRecoverable) /\
    work_items d3 = map g (work_items d2) /\
    (forall r, row_le r (g r)).
Proof.
  intros [a item now' _ _ _ Ew Ea|a item c result now' _ _ _ _ Hn Ew Ea].
  - exists (fun r => r), (supersede_attempt now'). rewrite map_id. done.
  - eexists _, (finish_attempt c result now'). split_and!; [exact Ea|done|exact Ew|].
    intros r. apply finished_le. intros [_ H%bool_decide_eq_true]%andb_true_iff. done.
Qed.

Lemma recovered_decreases r0 b :
  b ∈ executor_attempts d -> aw_state b = AttemptRecoverable -> aw_id b = id ->
  work_items d1 = update_where (fun r => (it_id r == it_id r0) && (it_state r == StateWaiting)) (activate now) (work_items d) ->
  executor_attempts d1 = update_where (fun a => (aw_id a == aw_id b) && (aw_state a == AttemptRecoverable)) (restart_attempt now) (executor_attempts d) ->
  completed_as id d2 d3 -> potential d3 < potential d.
Proof.
  intros Hb Sb Ib Ew Ea Hc. destruct Ex as (X1 & X2 & _). destruct (completion_tables Hc) as (g & f & F1 & F2 & G1 & G2).
  rewrite X1, Ew in G1. rewrite X2, Ea in F1. unfold potential.
  assert (Hn : forall i, attempts_of d3 i = attempts_of d i).
  { intros i. unfold attempts_of. rewrite F1, !count_where_update; [done|done|intros a; by rewrite (proj1 (F2 a))]. }
  assert (sum_over (budget d3) (work_items d3) <= sum_over (budget d) (work_items d)).
  { rewrite G1. unfold update_where. rewrite map_map. apply sum_over_le. intros r _.
    apply row_le_budget; [done|rewrite Hn; lia|]. eapply row_le_trans; [|apply G2]. apply activated_le.
    intros [_ H%bool_decide_eq_true]%andb_true_iff. by rewrite H. }
  assert (sum_over ambiguous (executor_attempts d3) < sum_over ambiguous (executor_attempts d)); [|lia].
  rewrite F1. unfold update_where. rewrite map_map. apply (sum_over_lt _ _ _ _ b); [|done|].
  - intros a _. set (x := if _ && _ then restart_attempt now a else a). destruct (aw_id x == id).
    + unfold ambiguous at 1. rewrite bool_decide_eq_false_2 by apply F2. apply ambiguous_nonneg.
    + unfold x. destruct (_ && _); [apply ambiguous_nonneg|lia].
  - assert (Eb : (aw_id b == aw_id b) && (aw_state b == AttemptRecoverable) = true) by (by rewrite !bool_decide_eq_true_2).
    rewrite Eb. cbn [restart_attempt aw_id]. rewrite (bool_decide_eq_true_2 (aw_id b = id)) by done.
    unfold ambiguous. rewrite bool_decide_eq_false_2 by apply F2. by rewrite bool_decide_eq_true_2.
Qed.

(** The row a fresh claim activates is the one its completion finds. *)
Lemma fresh_item r0 row :
  r0 ∈ work_items d -> due_state (it_state r0) = true ->
  work_items d1 = update_where (fun r => (it_id r == it_id r0) && due_state (it_state r)) (activate now) (work_items d) ->
  executor_attempts d1 = (executor_attempts d ++ [row])%list -> aw_id row = id -> aw_work_item_id row = it_id r0 ->
  (forall x, x ∈ executor_attempts d -> aw_id x <> id) ->
  first_where (fun a => aw_id a == id) (executor_attempts d2) = Some row
  /\ forall item, find_item (it_id r0) d2 = Ok item -> item = activate now r0.
Proof.
  intros Hr Hd Ew Ea Hid Hit Hf. destruct Ex as (X1 & X2 & _). split.
  - rewrite X2, Ea. clear Ea X2. revert Hf. induction (executor_attempts d) as [|x A IH]; intros Hf; cbn.
    + by rewrite bool_decide_eq_true_2.
    + rewrite bool_decide_eq_false_2 by (apply Hf; left). apply IH. intros y Hy. apply Hf. by right.
  - intros item. unfold find_item. destruct (first_where _ _) as [x|] eqn:Ef; [|done]. intros [= <-].
    apply first_where_Some in Ef as [Hx1 Hx2]. apply bool_decide_eq_true in Hx2. rewrite X1, Ew in Hx1.
    apply update_where_spec in Hx1 as (y & Hy & ->).
    assert (y = r0) as ->. { eapply (key_unique it_id); eauto using xi_items. by destruct (_ && _) in Hx2. }
    by rewrite Hd, bool_decide_eq_true_2.
Qed.

(** A fresh attempt closes its item or leaves it one attempt less. *)
Lemma closes_item r0 row c result now' :
  open_state (it_state r0) = true -> aw_attempt_number row = attempts_of d (it_id r0) + 1 ->
  attempts_of d3 (it_id r0) = attempts_of d (it_id r0) + 1 -> ends d2 row (activate now r0) (cp_state c) ->
  budget d3 (finish_item c result now' (activate now r0)) < budget d r0.
Proof.
  intros Ho Hnum Hn He. unfold budget. rewrite Ho. cbn [finish_item activate it_state it_id].
  change (it_id (finish_item c result now' (activate now r0))) with (it_id r0).
  change (it_state (finish_item c result now' (activate now r0))) with (cp_state c).
  rewrite (allowed_same d d3 r0 (finish_item c result now' (activate now r0)) Es eq_refl), Hn.
  destruct He as [-> |(-> & def & Hdef & Hlt)]; [lia|].
  assert (allowed d r0 = MaxAttempts (rd_Retry def)).
  { rewrite <- (allowed_same d d2 r0 (activate now r0) Es2 eq_refl). unfold allowed. by rewrite Hdef. }
  cbn [open_state]. destruct (open_state StateWaiting); lia.
Qed.

Lemma fresh_decreases r0 row :
  r0 ∈ work_items d -> due_state (it_state r0) = true ->
  work_items d1 = update_where (fun r => (it_id r == it_id r0) && due_state (it_state r)) (activate now) (work_items d) ->
  executor_attempts d1 = (executor_attempts d ++ [row])%list -> aw_id row = id -> aw_work_item_id row = it_id r0 ->
  aw_attempt_number row = attempts_of d (it_id r0) + 1 -> aw_state row = AttemptRunning ->
  (forall x, x ∈ executor_attempts d -> aw_id x <> id) ->
  completed_as id d2 d3 -> potential d3 < potential d.
Proof.
  intros Hr Hd Ew Ea Hid Hit Hnum Hrun Hf Hc. destruct (fresh_item r0 row Hr Hd Ew Ea Hid Hit Hf) as [Ha Hi].
  destruct (completion_tables Hc) as (g & f & F1 & F2 & _). pose proof Ex as (X1 & X2 & _). rewrite X2, Ea in F1.
  assert (Hn : forall i, attempts_of d3 i = attempts_of d i + (if aw_work_item_id row == i then 1 else 0)).
  { intros i. unfold attempts_of. set (q := fun a : attempt_row => aw_work_item_id a == i).
    rewrite F1, (count_where_update q) by (intros a; unfold q; by rewrite (proj1 (F2 a))). apply (count_where_snoc q). }
  destruct Hc as [a item now' Ha' Hi' Hs _ _|a item c result now' Ha' Hi' _ He _ Gw _].
  { exfalso. rewrite Ha in Ha'. injection Ha' as <-. rewrite Hit in Hi'. apply Hi in Hi' as ->. done. }
  rewrite Ha in Ha'. injection Ha' as <-. rewrite Hit in *. apply Hi in Hi' as ->. unfold potential.
  assert (sum_over ambiguous (executor_attempts d3) <= sum_over ambiguous (executor_attempts d)).
  { rewrite F1. etrans; [apply ambiguous_le; intros a; apply F2|]. rewrite sum_over_snoc.
    assert (ambiguous row = 0) by (unfold ambiguous; by rewrite Hrun). lia. }
  assert (sum_over (budget d3) (work_items d3) < sum_over (budget d) (work_items d)); [|lia].
  rewrite Gw, X1, Ew. unfold update_where. rewrite map_map. apply (sum_over_lt _ _ _ _ r0); [|done|].
  - intros r _. apply row_le_budget; [done|rewrite Hn; destruct (_ == _); lia|].
    eapply row_le_trans; [apply activated_le; intros [_ K%due_open]%andb_true_iff; exact K|].
    apply finished_le. intros [_ K%bool_decide_eq_true]%andb_true_iff. done.
  - assert (E0 : (it_id r0 == it_id r0) && due_state (it_state r0) = true) by (by rewrite Hd, bool_decide_eq_true_2).
    rewrite E0. assert (E1 : (it_id (activate now r0) == it_id r0) && (it_state (activate now r0) == StateActive) = true) by (by rewrite !bool_decide_eq_true_2).
    rewrite E1. apply closes_item with (row := row); try done; [by apply due_open|].
    by rewrite Hn, bool_decide_eq_true_2.
Qed.
End Round.

(** ** The loop *)

(** The executors never wait, and use the store without touching its routes. *)
Definition run_settles (s : router_state) (s' : router_state) (r : res ExecutorResult) : Prop :=
  route_snapshots (rt_db s') = route_snapshots (rt_db s) /\ match r with Ok result => er_Outcome result <> OutcomeWaiting | _ => True end.

Lemma content_snapshots dg x r now db : route_snapshots (RecordContentResult dg x r now db).1 = route_snapshots db.
Proof.
  apply (transact_preserves (fun d => route_snapshots d = route_snapshots db)); [done|]. intros [] db' H. cbv zeta in H.
  apply bind_ok in H as (stored & _ & H). open_guards H. injection H as <-. by destruct (find_content dg db).
Qed.

Lemma upload_settles x item attempt s : wp (upload_Execute x item attempt) (run_settles s) s.
Proof.
  unfold upload_Execute. apply wp_bind, wp_try, wp_bind, wp_reading. cbn [after]. apply wp_pure.
  destruct (loadReleaseOperation _ _) as [operation|e|]; cbn [after]; [|by apply wp_ret|done].
  apply wp_bind, wp_reading. cbn [after]. unfold ContentResult. destruct (find_content _ _) as [row|]; [by apply wp_ret|].
  apply wp_bind, wp_emit. cbn [after]. apply wp_bind, wp_try, wp_pure. destruct (ux_DownloadVerified x operation); cbn [after]; [|by apply wp_ret|done].
  destruct (_ && _); [by apply wp_ret|]. apply wp_bind, wp_emit. cbn [after].
  apply wp_bind, wp_try, wp_pure. destruct (ux_Upload x _ _ _) as [response|e|]; cbn [after]; [|by apply wp_ret|done].
  apply wp_bind, wp_ledger.
  match goal with |- after _ _ ?st _ => assert (E : route_snapshots (rt_db st) = route_snapshots (rt_db s)) by apply content_snapshots end.
  destruct (RecordContentResult _ _ _ _ _) as [db' [u|e|]]; cbn [fst snd after] in *; [apply wp_ret|..]; by split.
Qed.

Lemma launch_settles x item attempt s : wp (launch_Execute x item attempt) (run_settles s) s.
Proof.
  unfold launch_Execute. destruct (lx_Broker x); [|by apply wp_ret]. destruct (_ != _); [by apply wp_ret|]. destruct (_ || _); [by apply wp_ret|].
  cbv zeta. destruct (_ == ""); [by apply wp_ret|]. apply wp_bind, wp_emit. cbn [after]. apply wp_ret. split; [done|].
  case_match; [done|]. case_match; done.
Qed.

Lemma executor_settles (x : executor) item attempt s : wp (Execute x item attempt) (run_settles s) s.
Proof. destruct x; [apply upload_settles|apply launch_settles|by apply wp_pure]. Qed.

Lemma finish_round aid result now P s :
  er_Outcome result <> OutcomeWaiting ->
  (forall d3, completed_as aid (rt_db s) d3 -> route_snapshots d3 = route_snapshots (rt_db s) -> potential d3 < P) ->
  wp (_ ← router_finish aid result now; mret true) (fun s' r => r = Ok true -> potential (rt_db s') < P) s.
Proof.
  intros Hw Hround. apply wp_bind. unfold router_finish. apply wp_bind, wp_try, wp_ledger.
  destruct (Complete aid result now (rt_db s)) as [db' [[]|e|]] eqn:Hc; cbn [fst snd after].
  - apply wp_ret. cbn [after]. apply wp_ret. intros _. apply Complete_shape in Hc as [Hs He]; [|done]. by apply Hround.
  - apply wp_bind, wp_flag. cbn [after]. apply wp_bind, wp_try, wp_ledger. cbn. apply wp_bind, wp_flag. cbn [after]. by apply wp_pure.
  - done.
Qed.

Section Tick.
Context (registry : gmap string executor).

(** Each step that did work uses something up. *)
Lemma work_one_decreases now id s s' : serving_state s -> WorkOne registry now id s = (s', Ok true) -> potential (rt_db s') < potential (rt_db s).
Proof.
  intros (Hr & _ & Hn) E. apply reachable_exec in Hr. unfold WorkOne in E. rewrite Hn in E.
  assert (W : wp (claim_and_run registry now id) (fun s' r => r = Ok true -> potential (rt_db s') < potential (rt_db s)) s).
  2: { unfold wp in W. change ((claim_and_run registry now id) s = (s', Ok true)) in E. rewrite E in W. by apply W. }
  clear E. unfold claim_and_run. apply wp_bind, wp_ledger.
  destruct (Claim now id (rt_db s)) as [db1 [[[item attempt]|]|e|]] eqn:Hc; cbn [fst snd after]; [|by apply wp_ret|done..].
  apply Claim_shape in Hc as [Hs Es]. set (s1 := s <| rt_db := db1 |>).
  assert (Hround : forall d2 d3, same_exec db1 d2 -> route_snapshots d2 = route_snapshots db1 -> completed_as (at_ID attempt) d2 d3 ->
            route_snapshots d3 = route_snapshots d2 -> potential d3 < potential (rt_db s)).
  { intros d2 d3 Hx E2 Hd E3. eapply Z.lt_le_trans; [|apply (expire_potential now)].
    assert (route_snapshots d3 = route_snapshots (expire_waiting now (rt_db s))) by (cbn; congruence).
    assert (route_snapshots d2 = route_snapshots (expire_waiting now (rt_db s))) by (cbn; congruence).
    destruct Hs; [eapply fresh_decreases|eapply recovered_decreases]; eauto using expire_waiting_exec. }
  unfold run_claimed, Resolve, of_option.
  assert (Hhere : forall message, wp (_ ← router_finish (at_ID attempt) (permanent message) now; mret true)
            (fun s' r => r = Ok true -> potential (rt_db s') < potential (rt_db s)) s1).
  { intros message. apply finish_round; [done|]. intros d3. by apply Hround. }
  destruct (registry !! at_ExecutorID attempt) as [x|]; [|apply Hhere]. destruct (_ || _); [apply Hhere|].
  apply wp_bind, wp_try. pose proof (executor_settles x item attempt s1) as Xs. pose proof (execute_claim x item attempt s1) as Xc.
  unfold wp in *. destruct (Execute x item attempt s1) as [s2 [a|e|]]; cbn [fst snd] in Xs, Xc; destruct Xs as [Xs Xw]; cbn [after]; [..|done].
  - apply finish_round; [done|]. intros d3. by apply Hround.
  - apply finish_round; [done|]. intros d3. by apply Hround.
Qed.

(** A tick whose fuel exceeds what is left ends. *)
Lemma tick_ends clock cancelled fuel i s :
  serving_state s -> potential (rt_db s) < Z.of_nat fuel -> (executor_tick registry clock cancelled fuel i s).2 <> Ok TickRunning.
Proof.
  revert i s. induction fuel as [|fuel IH]; intros i s Hs Hp; [pose proof (potential_nonneg (rt_db s)); lia|].
  cbn [executor_tick]. destruct (clock i) as [now id]. pose proof (work_one_serves registry now id s Hs) as H.
  destruct (WorkOne registry now id s) as [s1 [[]|e|]] eqn:E; try done. destruct (cancelled i); [done|].
  apply IH; [by apply H|]. apply work_one_decreases in E; [lia|done].
Qed.

(** More fuel does not change a tick that ended. *)
Lemma tick_stable clock cancelled fuel more i s :
  (executor_tick registry clock cancelled fuel i s).2 <> Ok TickRunning ->
  executor_tick registry clock cancelled (fuel + more) i s = executor_tick registry clock cancelled fuel i s.
Proof.
  revert i s. induction fuel as [|fuel IH]; intros i s H; [done|]. cbn [executor_tick Nat.add] in *. destruct (clock i) as [now id].
  destruct (WorkOne registry now id s) as [s1 [[]|e|]]; try done. destruct (cancelled i); [done|]. by apply IH.
Qed.
End Tick.

(** Calls a tick can make: what is left to do, and the last call, which finds nothing. *)
Definition tick_fuel (db : Ledger) : nat := S (Z.to_nat (potential db)).

(** C40: A tick of the executor loop ends: from any state between two calls of the release pipeline, whatever the executors answer, however the clock moves
    and whenever it is cancelled, the inner loop stops within one call more than the attempts that the open items have left under their retry policies
    (an open item with none left counts one) and the attempts that a crash left ambiguous; more fuel does not change its result. *)
Theorem executor_tick_terminates registry clock cancelled i s more :
  serving_state s ->
  let tick fuel := executor_tick registry clock cancelled fuel i s in
  (tick (tick_fuel (rt_db s))).2 <> Ok TickRunning /\ tick (tick_fuel (rt_db s) + more)%nat = tick (tick_fuel (rt_db s)).
Proof.
  intros Hs tick. assert (E : (tick (tick_fuel (rt_db s))).2 <> Ok TickRunning).
  { apply tick_ends; [done|]. unfold tick_fuel. pose proof (potential_nonneg (rt_db s)). lia. }
  split; [done|]. by apply tick_stable.
Qed.

Lemma router_start_serving : serving_state router_start.
Proof. split_and!; [apply upload_admitted_reachable|apply upload_admitted_idle|done]. Qed.

Lemma executor_tick_terminates_witness :
  tick_fuel (rt_db router_start) = 4%nat /\
  (executor_tick launch_registry (fun k => (t0 + (1 + Z.of_nat k) * Second, "attempt-0" ++ fmt_d (Z.of_nat k))) (fun _ => false)
     (tick_fuel (rt_db router_start)) 0 router_start).2 <> Ok TickRunning.
Proof.
  split; [vm_compute; reflexivity|].
  exact (proj1 (executor_tick_terminates launch_registry (fun k => (t0 + (1 + Z.of_nat k) * Second, "attempt-0" ++ fmt_d (Z.of_nat k))) (fun _ => false) 0 router_start 0
                  router_start_serving)).
Defined.
